(* ===== verification/_CoqProject ===== *)
-Q . S2P
Prelude.v
DisplayText.v
Frame.v
Message.v
Utils.v
AppState.v
StorageApi.v
StorageSpec.v
Sqlite.v
SqliteProperties.v
SqliteSpec.v
Handles.v
World.v
ChatServer.v
ClientSession.v
ServerInvariant.v
ServerBoot.v
ServerSteps.v
Walk.v
Stability.v
Service.v
ServiceProperties.v
Shutdown.v
ServerProperties.v
RateLimit.v
RoomProperties.v
Scenarios.v
ServiceScenarios.v
Persistence.v
StorageScenarios.v
Tls.v
ChatClient.v
ClientProperties.v
ClientEnd.v
Login.v
Commands.v
Conversation.v
ClientScenarios.v
Invite.v
Browser.v
BrowserProperties.v
Publisher.v
BrowserScenarios.v
Terminal.v
TerminalProperties.v
TextProperties.v
TerminalScenarios.v
Preferences.v
Options.v
DedicatedServer.v
ConsoleProperties.v
DedicatedScenarios.v
Screen.v
ChatScreen.v
ScreenProperties.v
CompletionProperties.v
Interface.v
InterfaceProperties.v
InterfaceScenarios.v
Setup.v
SetupProperties.v
NetworkTask.v
JoinSession.v
SessionProperties.v
Connecting.v
SessionScenarios.v
MainMenu.v
Targets.v
MenuProperties.v
HostSession.v
MenuScenarios.v
Upnp.v
UpnpProperties.v
HostUpnp.v
HostUpnpProperties.v
HostEnd.v
DataFiles.v
MachineScenarios.v
Transport.v
LogFile.v
