(* ===== verification/Prelude.v ===== *)
(** * Verification of chatbox

    chatbox is a terminal chat program: a server that keeps rooms, identities, bans
    and message history, and clients that talk to it over a line protocol. This
    library models its core in Rocq, as functions that can be run, and proves what
    makes it correct. Paths below are relative to [src/] of the repository.

    ** The program and the files that model it

    - [Prelude.v] (this file): machine integers, the functions of <cctype>, the
      operations of [std::string], decimal numbers, the state monad [M], the order in
      which [std::map] and [std::set] are walked, and the lemmas, hints and tactics
      that the other files share.
    - [DisplayText.v]: [ui/display_text.h], the texts of the interface.
    - [Frame.v]: [protocol/protocol.cpp], [encode_frame] and [decode_frame], one line
      of Base64 per message, with the limits of [protocol/protocol.h].
    - [Message.v]: the messages of [protocol/protocol.h], both parsers, both printers,
      the validators, and the frames they travel in.
    - [Utils.v]: [common/utils.cpp] and [common/constants.h]: hexadecimal text, the
      identity file, challenges and signatures, splitting and joining fields.
    - [AppState.v]: [app/app_state.cpp], what the user interface shows.
    - [StorageApi.v], [StorageSpec.v]: [storage/storage.h], the abstract class
      [ServerStorage] as a type class; first the part of its contract the server needs
      to keep its invariant, then what it promises about its content.
    - [Sqlite.v]: [storage/storage.cpp], the tables, the migration, each statement, the
      write queue with its worker thread, paging, and the legacy import;
      [SqliteProperties.v] its theorems and the instance of the contract;
      [SqliteSpec.v] the instance of the specification. [Handles.v]: the same file's use
      of the library's handles, whatever its calls return.
    - [World.v]: the state: [struct Room] of [chat/room.h], [ChatServer] and
      [ClientSession] of [chat/chat_server.h], the lines of the log; [LogFile.v] what
      [storage/chat_log.h] makes of these lines.
    - [ChatServer.v]: every member function of [ChatServer].
    - [ClientSession.v]: [chat/client_session.cpp]: the read callback, the write
      queue, close and abort, and the tasks posted to the [io_context].
    - [ServerInvariant.v], [ServerBoot.v], [ServerSteps.v]: the invariant, kept by each
      operation; start-up from storage; the transition system of the events.
      [Walk.v], [Stability.v]: walks through all operations, of a session and of the
      consoles, that the theorems on executions reuse.
    - [ServerProperties.v], [RoomProperties.v], [RateLimit.v], [Persistence.v]: the
      server's theorems. [Service.v]: an abstract chat service, its rules and what
      they exclude; [ServiceProperties.v]: the server implements it. [Shutdown.v]: what a
      stopped server still does, and that it ends.
    - [Tls.v]: [network/tls.cpp]: fingerprints, the trust store, [verify_peer], the
      host's certificate; [Transport.v]: the stream of [network/transport.h], and the
      calls that set a TLS context up.
    - [ChatClient.v]: [chat/chat_client.h], as handlers and a step relation;
      [ClientProperties.v] connecting and trust; [ClientEnd.v] the end of a session;
      [Login.v] a client and a server together, frame by frame.
    - [Commands.v]: [app/commands.cpp], the lines of the chat window, on a process that
      hosts or is a guest; [Conversation.v]: a line from one terminal to the others.
    - [Invite.v]: [network/invite.cpp]. [Browser.v]: the directory of
      [network/server_browser.h] and [.cpp] and its clients, [Publisher.v] its
      publisher, [BrowserProperties.v] their theorems.
    - [Terminal.v]: [ui/terminal_model.cpp], with [TerminalProperties.v]
      and [TextProperties.v].
    - [Preferences.v]: [storage/preferences.cpp]. [Options.v]: the command lines of
      [app/chatbox.cpp] and [app/dedicated_server.cpp]; [DedicatedServer.v] its server
      with its console, [ConsoleProperties.v] their theorems.
    - [Screen.v], [ChatScreen.v], [Interface.v]: [ui/curses_ui.cpp]: what is drawn, as
      texts with places; completion; and what each key does in a menu, a form, a notice
      and the chat window; with [ScreenProperties.v], [CompletionProperties.v] and
      [InterfaceProperties.v].
    - [Setup.v]: [ui/setup_forms.h] and [ui/startup_menu.cpp], forms and menus as programs
      that read keys, with [SetupProperties.v].
    - [NetworkTask.v]: [ui/network_task.h], a worker and the terminal thread.
    - [ui/interactive_app.cpp] is in [JoinSession.v] (joining, and the loop of attempts)
      with [SessionProperties.v]; [Connecting.v] (waiting for a connection);
      [MainMenu.v] and [Targets.v] (the menu, what it goes on with, the host's summary)
      with [MenuProperties.v]; [HostSession.v] (hosting and chatting as a host);
      [HostUpnp.v] (asking the router) with [HostUpnpProperties.v]; and [HostEnd.v] (how
      hosting ends). [Upnp.v] is [network/upnp_mapper.h], with [UpnpProperties.v].
    - [DataFiles.v]: the database's place and the computer's addresses, of
      [common/utils.cpp].
    - The files named [...Scenarios.v] are concrete executions, on which each theorem
      with a hypothesis is instantiated: [Scenarios], [ServiceScenarios],
      [StorageScenarios], [ClientScenarios], [BrowserScenarios], [TerminalScenarios],
      [DedicatedScenarios], [InterfaceScenarios], [SessionScenarios],
      [MenuScenarios] and [MachineScenarios].

    The parts fit together as in the program. [Commands] and [DedicatedServer] call
    [ChatServer]; [HostSession] runs both a server and the commands of its host, from
    the menu of [Targets]; [Login] runs [ChatClient] against [ClientSession]; the targets
    of the menu are the configurations with which [ChatClient] calls [Tls.verify_peer];
    [HostUpnp] is a client of [Upnp]; [Conversation] goes through [Commands], both ends of
    the wire and the screen; and [HostEnd] puts an end to a server, a mapper and a
    publisher.

    ** How code becomes definitions

    A function of the code is a definition of the same name. Reading code is a
    function of the state; code that changes state is a computation in [M W], where
    the world [W] of [World.v] holds all objects: the server, the heap of sessions by
    address, the storage, the log, the interface's state, files, posted tasks, and the
    counters behind the clock and the random source. A [bool] function with an error
    parameter returns [option string], the error. Unsigned integers are [N], with
    [u64] where they can wrap; the signed columns of the database are [Z], reached by
    [to_int64]. Maps and sets are [gmap] and [gset], walked in the order of their keys.

    One thread runs the [io_context], so its handlers run one after the other; a
    handler, or a call from the console under the server's mutex, is one step of
    [ServerSteps.step]. Whatever the peers do, in any order, is a sequence of steps.
    Posted tasks run in the order they were posted, which the [io_context] guarantees
    for one thread. Sessions are known by addresses, not reused while a pointer is
    held. The SQLite worker is interleaved freely: between any two calls it may make
    any number of steps ([StorageSpec.turns]).

    The interface is a program that reads keys: it gets the keys that will be pressed, and
    waits ([None]) when there are no more. A form that is cancelled and an exception are
    results of their own, and what was changed before them stays changed. Where two
    threads share state ([NetworkTask], [HostUpnp], [JoinSession]) each access is a step,
    and an execution is any sequence of events.

    What is not in the repository is a parameter: libsodium ([Sodium], with the laws
    of key pairs and signatures in [SodiumLaws] where they are needed), OpenSSL
    ([OpenSSL], whose only law is the size of a digest), the clock, environment and file
    system's failures ([Platform], [Disk], [FileSystem]), the entropy and legacy
    files SQLite reads ([SqliteEnv]), the locale's characters and their widths
    ([Locale], with laws), Boost.Asio's addresses ([Addresses]), and the outcomes of
    sockets, the router and the machine, which are arguments of events or fields of
    [Machine] and [HostMachine]. The server is verified against the classes of
    [StorageApi.v] and [StorageSpec.v]; [Sqlite.v] discharges them. Every class has a
    concrete instance, on which the scenarios run.

    ** The theorems

    - The server's state: [server_invariant], [membership_disjoint],
      [identity_binding_permanent] hold in every reachable state, from any
      configuration and any storage that keeps its contract.
    - The service: [server_refines_service]: every event is a sequence of steps that
      the abstract service allows the party it comes from; [line_confined]: so nothing a
      client sends bans, renames or moves others, but for the rooms it owns.
    - Access: [nickname_requires_proof], [gate_blocks]: what it takes to join;
      [login_completes]: that it suffices.
    - Delivery: [chat_arrives], [delivery_in_order], [broadcast_room_exact],
      [whisper_confined].
    - The end: [stopped_server_ends], [closed_client_ends], [hosting_cleaned_up].
    - Rooms: [create_room_spec], [join_room_spec], [leave_room_spec],
      [kick_from_spec], on success and on each error.
    - Time: [rate_limit_window_sound], [timestamps_strictly_increase].
    - Persistence: [storage_mirrors_server], [restart_restores], over any storage that
      meets the specification; for SQLite [write_behind_exact],
      [history_paging_complete], [migrate_spec], [import_adds_only], [handles_released]; and
      [database_adopted] and [preferences_survive] for the files.
    - The wire: [frame_round_trip], [frame_canonical], the complete behaviour of the
      codec, and [client_message_transport], [server_message_transport],
      [decoded_messages_valid] for every message.
    - Trust: [verify_peer_grounds], [trusted_certificate_pinned],
      [silent_until_accepted], [replaced_by_hand], [consent_is_the_users],
      [invite_pins_host]; [plaintext_only_when_asked].
    - Connecting and joining: [connecting_ends], [progress_ends],
      [joined_on_the_servers_word], [reconnects_three_times], [task_goes_on].
    - Commands and hosts: [ban_list_changes], [guest_line_arrives],
      [dedicated_server_refines], [hosted_chat_sound], [startup_menu_sound],
      [main_menu_sound], [begin_app_sound].
    - The directory: [published_server_found], [directory_current],
      [published_entry_true].
    - The router: [port_open_while_opener_lives], [abandoned_mapping_closed].
    - The terminal: [editor_refines], [wrap_text_spec], [scrollback_anchored],
      [history_recalls], [drawn_inside], [completion_spec], [typed_line_runs], [form_gives_answers].
    - Where the code falls short: [kick_delimiter_confusion],
      [banned_client_rejoins], [failed_batch_dropped], [nameless_not_withdrawn],
      [ban_after_two_spaces], [help_never_opens], [publication_security_ignored],
      [cancel_wakeup_lost], [failed_move_forgets], [stop_waits_for_banned],
      [failed_pragma_leaks], [failed_thread_leaks].

    ** Fuel

    Loops over an index run on fuel that their callers compute: [to_string] gets the
    number of bits of its argument plus one, [split_fields] one step per character,
    [drain] two worker steps per queued write and one more, and the pages of
    [load_history] one more than there are messages. The loops of the menus, forms and
    windows take one step per key and get one more than there are keys; a loop over the
    rows of a statement one step per answer that is to come, and one more. That it is
    enough is part of the theorems: the loops are proved equal to structural
    references, to end with nothing left, or not to depend on more fuel.

    ** What is not modelled

    Allocation failures, and failures of input and output other than those that are
    arguments. Of the libraries the calls and their outcomes are modelled, not what
    happens inside: sockets and TLS handshakes, the discovery of routers, curses, the
    SQL of SQLite below its statements. Setting curses up and down, the branches for
    Windows, and the text of exceptions (a notice shows any text alike). *)

From Stdlib Require Export NArith ZArith Lia Ascii String.
From stdpp Require Export base gmap sets list strings sorting numbers.

#[export] Set Default Goal Selector "!".

(* ===================================================================== *)
(** * 1. Machine integers *)

(** Unsigned 64-bit arithmetic ([std::uint64_t], [std::size_t]) wraps. *)
Definition u64 (n : N) : N := (n mod 2 ^ 64)%N.

(** [static_cast<std::int64_t>] of an unsigned 64-bit value, and back. *)
Definition to_int64 (n : N) : Z :=
  if (u64 n <? 2 ^ 63)%N then Z.of_N (u64 n) else (Z.of_N (u64 n) - 2 ^ 64)%Z.
Definition of_int64 (z : Z) : N := Z.to_N (z mod 2 ^ 64).

(* ===================================================================== *)
(** * 2. Characters: the C-locale classification functions of <cctype> *)

Definition code (c : ascii) : N := N_of_ascii c.

Definition iscntrl (c : ascii) : bool :=
  ((code c <? 32) || (code c =? 127))%N.
Definition isspace (c : ascii) : bool :=
  (((9 <=? code c) && (code c <=? 13)) || (code c =? 32))%N.
Definition isdigit (c : ascii) : bool :=
  ((48 <=? code c) && (code c <=? 57))%N.
Definition isupper (c : ascii) : bool :=
  ((65 <=? code c) && (code c <=? 90))%N.
Definition islower (c : ascii) : bool :=
  ((97 <=? code c) && (code c <=? 122))%N.
Definition isalnum (c : ascii) : bool := isdigit c || isupper c || islower c.
Definition isxdigit (c : ascii) : bool :=
  isdigit c || ((65 <=? code c) && (code c <=? 70))%N
            || ((97 <=? code c) && (code c <=? 102))%N.
Definition tolower (c : ascii) : ascii :=
  if isupper c then ascii_of_N (code c + 32) else c.
Definition toupper (c : ascii) : ascii :=
  if islower c then ascii_of_N (code c - 32) else c.

Definition newline : ascii := ascii_of_N 10.
Definition carriage_return : ascii := ascii_of_N 13.
Definition tab : ascii := ascii_of_N 9.

(* ===================================================================== *)
(** * 3. Strings: the [std::string] / [std::string_view] operations used *)

(** [s.size()] as a [std::size_t]. *)
Definition size_of (s : string) : N := N.of_nat (String.length s).

Fixpoint sall (p : ascii -> bool) (s : string) : bool :=
  match s with
  | EmptyString => true
  | String c s' => p c && sall p s'
  end.

(** [std::any_of] over the characters of a string. *)
Fixpoint sany (p : ascii -> bool) (s : string) : bool :=
  match s with
  | EmptyString => false
  | String c s' => p c || sany p s'
  end.

Fixpoint smap (f : ascii -> ascii) (s : string) : string :=
  match s with
  | EmptyString => EmptyString
  | String c s' => String (f c) (smap f s')
  end.

Fixpoint sdrop (n : nat) (s : string) : string :=
  match n, s with
  | 0, _ => s
  | S n', String _ s' => sdrop n' s'
  | S _, EmptyString => EmptyString
  end.

Fixpoint stake (n : nat) (s : string) : string :=
  match n, s with
  | 0, _ => EmptyString
  | S n', String c s' => String c (stake n' s')
  | S _, EmptyString => EmptyString
  end.

(** [s.find(c)]: the first position, [None] for [npos]. *)
Fixpoint sfind (c : ascii) (s : string) : option nat :=
  match s with
  | EmptyString => None
  | String c' s' =>
      if decide (c' = c) then Some 0 else S <$> sfind c s'
  end.

(** [s.find(c, pos)]: [npos] when [pos >= s.size()]. *)
Definition sfind_from (c : ascii) (s : string) (pos : nat) : option nat :=
  Nat.add pos <$> sfind c (sdrop pos s).

(** [s.substr(pos)] and [s.substr(pos, count)], for [pos <= s.size()]. *)
Definition substr (s : string) (pos : nat) : string := sdrop pos s.
Definition substr_n (s : string) (pos count : nat) : string :=
  stake count (sdrop pos s).

(** [s.back()], [None] on the empty string. *)
Fixpoint sback (s : string) : option ascii :=
  match s with
  | EmptyString => None
  | String c EmptyString => Some c
  | String _ s' => sback s'
  end.

(** [s.remove_suffix(n)]. *)
Definition remove_suffix (n : nat) (s : string) : string :=
  stake (String.length s - n) s.

Definition sempty (s : string) : bool :=
  match s with EmptyString => true | _ => false end.

(** Elements separated by [sep]: the loop
    [for (i ...) { if (i != 0) out += sep; out += v[i]; }]. *)
Fixpoint join_with (sep : string) (l : list string) : string :=
  match l with
  | [] => ""
  | [x] => x
  | x :: l' => x +:+ sep +:+ join_with sep l'
  end.

(** The reference splitter: fields of [s] between occurrences of [d],
    never empty (the empty string has the single field [""]). *)
Fixpoint split_on (d : ascii) (s : string) : list string :=
  match s with
  | EmptyString => [EmptyString]
  | String c s' =>
      if decide (c = d) then EmptyString :: split_on d s'
      else match split_on d s' with
           | f :: fs => String c f :: fs
           | [] => [String c EmptyString]
           end
  end.

(* ===================================================================== *)
(** * 4. Decimal text: [std::to_string] and [std::from_chars] *)

Definition digit (n : N) : ascii := ascii_of_N (48 + n).

Fixpoint to_string_loop (fuel : nat) (n : N) (acc : string) : string :=
  match fuel with
  | 0 => acc
  | S f =>
      let acc' := String (digit (n mod 10)) acc in
      if (n / 10 =? 0)%N then acc' else to_string_loop f (n / 10) acc'
  end.

(** [std::to_string] on an unsigned integer. A number has at most as many
    decimal digits as binary ones, which bounds the loop. *)
Definition to_string (n : N) : string := to_string_loop (S (N.size_nat n)) n "".

(** [std::to_string] on a signed integer. *)
Definition to_string_signed (z : Z) : string :=
  if (z <? 0)%Z then String "-" (to_string (Z.to_N (- z))) else to_string (Z.to_N z).

Fixpoint span (p : ascii -> bool) (s : string) : string * string :=
  match s with
  | EmptyString => (EmptyString, EmptyString)
  | String c s' =>
      if p c then let '(a, b) := span p s' in (String c a, b)
      else (EmptyString, s)
  end.

Fixpoint dec_value_from (acc : N) (s : string) : N :=
  match s with
  | EmptyString => acc
  | String c s' => dec_value_from (10 * acc + (code c - 48)) s'
  end.
Definition dec_value (s : string) : N := dec_value_from 0 s.

Inductive errc := errc_ok | invalid_argument | result_out_of_range.

(** [std::from_chars(first, last, value)] into an unsigned integer of [bits]
    bits: the new value (unchanged on an error), the error, and the unread
    suffix ([ptr] to [last]). *)
Definition from_chars (bits : N) (s : string) (value : N) : N * errc * string :=
  let '(digits, rest) := span isdigit s in
  match digits with
  | EmptyString => (value, invalid_argument, s)
  | _ => let v := dec_value digits in
         if (v <? 2 ^ bits)%N then (v, errc_ok, rest)
         else (value, result_out_of_range, rest)
  end.

Definition INT_MIN : Z := -2147483648.
Definition INT_MAX : Z := 2147483647.

(** What [strtol] and [strtoul] read in base 10: white space, a sign, digits. The
    sign, the value of the digits and the unread suffix. *)
Definition scan_integer (s : string) : option (bool * N * string) :=
  let s := (span isspace s).2 in
  let '(negative, s) := match s with
                        | String "-" r => (true, r)
                        | String "+" r => (false, r)
                        | _ => (false, s)
                        end in
  let '(digits, rest) := span isdigit s in
  if sempty digits then None else Some (negative, dec_value digits, rest).

(** [std::stoi(s, &consumed)]: the value and the unread suffix, [None] when it throws. *)
Definition stoi (s : string) : option (Z * string) :=
  match scan_integer s with
  | None => None
  | Some (negative, n, rest) =>
      let v := if negative then (- Z.of_N n)%Z else Z.of_N n in
      if ((INT_MIN <=? v) && (v <=? INT_MAX))%Z then Some (v, rest) else None
  end.

(** [std::stoul(s)] for 64 bits, which negates modulo 2^64. *)
Definition stoul (s : string) : option N :=
  match scan_integer s with
  | None => None
  | Some (negative, n, _) =>
      if (n <? 2 ^ 64)%N then Some (if negative then (2 ^ 64 - n) mod 2 ^ 64 else n)%N else None
  end.

(* ===================================================================== *)
(** * 5. Ordered containers: iteration order of [std::map] and [std::set] *)

(** The containers are [gmap] and [gset]; what the code observes by iterating
    over them is the list of entries in increasing key order. Strings compare
    as unsigned bytes, which is [char_traits<char>::compare]. *)
Class KeyOrder (K : Type) := key_le : relation K.
#[export] Instance key_order_N : KeyOrder N := N.le.
#[export] Instance key_order_string : KeyOrder string := String.le.
#[export] Instance key_order_Z : KeyOrder Z := Z.le.

Definition entry_le `{KeyOrder K} {V} : relation (K * V) :=
  fun p q => key_le p.1 q.1.
#[export] Instance entry_le_dec `{KeyOrder K} `{!RelDecision (key_le (K:=K))} {V} :
  RelDecision (entry_le (K:=K) (V:=V)).
Proof. intros p q. unfold entry_le. apply _. Defined.

#[export] Instance key_le_dec_N : RelDecision (key_le (K:=N)) := N.le_dec.
#[export] Instance key_le_dec_string : RelDecision (key_le (K:=string)) := String.le_dec.
#[export] Instance key_le_dec_Z : RelDecision (key_le (K:=Z)) := Z.le_dec.

Definition map_iter `{Countable K} `{!KeyOrder K} `{!RelDecision (key_le (K:=K))} {V}
    (m : gmap K V) : list (K * V) :=
  merge_sort entry_le (map_to_list m).
Definition set_iter `{Countable K} `{!KeyOrder K} `{!RelDecision (key_le (K:=K))}
    (s : gset K) : list K :=
  merge_sort key_le (elements s).

(** [std::sort] on a vector of strings. *)
Definition sort_strings (l : list string) : list string := merge_sort String.le l.

(* ===================================================================== *)
(** * 6. Stateful code: a state monad *)

Definition M (W A : Type) : Type := W -> A * W.
Definition ret {W A} (a : A) : M W A := fun w => (a, w).
Definition bind {W A B} (m : M W A) (k : A -> M W B) : M W B :=
  fun w => let '(a, w') := m w in k a w'.
Definition get {W} : M W W := fun w => (w, w).
Definition modify {W} (f : W -> W) : M W unit := fun w => (tt, f w).
Definition when {W} (b : bool) (m : M W unit) : M W unit :=
  if b then m else ret tt.
Fixpoint for_each {W A} (l : list A) (f : A -> M W unit) : M W unit :=
  match l with
  | [] => ret tt
  | x :: l' => bind (f x) (fun _ => for_each l' f)
  end.

Declare Scope chat_scope.
Delimit Scope chat_scope with chat.
Notation "'let*' x ':=' m 'in' k" := (bind m (fun x => k))
  (at level 10, x name, m at level 100, k at level 200) : chat_scope.
Notation "m ';;;' k" := (bind m (fun _ => k))
  (at level 100, k at level 200, right associativity) : chat_scope.

(** What a computation leaves alone ([frames]) and what it keeps true
    ([keeps]); both compose along the monad. *)
Definition frames {W A B} (f : W -> B) (m : M W A) : Prop :=
  forall w, f (m w).2 = f w.
Definition keeps {W A} (P : W -> Prop) (m : M W A) : Prop :=
  forall w, P w -> P (m w).2.

(* ===================================================================== *)
(** * 7. Lemmas: characters and strings *)

#[local] Arguments String.append !s1 s2 / : rename.

Lemma code_lt c : (code c < 256)%N.
Proof. destruct c as [[] [] [] [] [] [] [] []]; reflexivity. Qed.

Lemma code_inj c1 c2 : code c1 = code c2 -> c1 = c2.
Proof.
  intros H. rewrite <- (ascii_N_embedding c1), <- (ascii_N_embedding c2).
  unfold code in H. by rewrite H.
Qed.

Lemma code_ascii_of_N n : (n < 256)%N -> code (ascii_of_N n) = n.
Proof. apply N_ascii_embedding. Qed.

(** A fact about every character, by evaluation over the 256 of them. *)
Lemma ascii_forall (P : ascii -> bool) :
  forallb P (ascii_of_nat <$> seq 0 256) = true -> forall c, P c = true.
Proof.
  intros H c. rewrite forallb_forall in H. apply H.
  apply list_elem_of_In. apply list_elem_of_fmap.
  exists (nat_of_ascii c). split.
  - symmetry. apply ascii_nat_embedding.
  - apply elem_of_seq. pose proof (nat_ascii_bounded c). lia.
Qed.

Lemma sapp_nil_r s : s +:+ "" = s.
Proof. induction s as [|c s IH]; simpl; congruence. Qed.

Lemma sapp_nil_l s : "" +:+ s = s.
Proof. reflexivity. Qed.

Lemma sapp_cons c s1 s2 : String c s1 +:+ s2 = String c (s1 +:+ s2).
Proof. reflexivity. Qed.

Lemma sapp_assoc s1 s2 s3 : (s1 +:+ s2) +:+ s3 = s1 +:+ s2 +:+ s3.
Proof. induction s1 as [|c s1 IH]; simpl; congruence. Qed.

Lemma slength_app s1 s2 :
  String.length (s1 +:+ s2) = String.length s1 + String.length s2.
Proof. induction s1 as [|c s1 IH]; simpl; congruence. Qed.

Lemma size_of_app s1 s2 : size_of (s1 +:+ s2) = (size_of s1 + size_of s2)%N.
Proof. unfold size_of. rewrite slength_app. lia. Qed.

Lemma size_of_cons c s : size_of (String c s) = (1 + size_of s)%N.
Proof. unfold size_of. simpl. lia. Qed.

Lemma size_of_nil : size_of "" = 0%N.
Proof. reflexivity. Qed.

Lemma size_of_0 s : size_of s = 0%N <-> s = "".
Proof. destruct s; [done|]. rewrite size_of_cons. split; [lia | done]. Qed.

Lemma sall_app p s1 s2 : sall p (s1 +:+ s2) = sall p s1 && sall p s2.
Proof. induction s1 as [|c s1 IH]; simpl; [done|]. rewrite IH. by rewrite andb_assoc. Qed.

Lemma sany_app p s1 s2 : sany p (s1 +:+ s2) = sany p s1 || sany p s2.
Proof. induction s1 as [|c s1 IH]; simpl; [done|]. rewrite IH. by rewrite orb_assoc. Qed.

Lemma sany_sall p s : sany p s = negb (sall (fun c => negb (p c)) s).
Proof. induction s as [|c s IH]; simpl; [done|]. rewrite IH. by destruct (p c). Qed.

Lemma sall_sdrop (p : ascii -> bool) n s : sall p s = true -> sall p (sdrop n s) = true.
Proof.
  revert n. induction s as [|c s IH]; intros n; destruct n as [|n]; cbn [sall sdrop]; try done.
  intros [_ Hs]%andb_true_iff. by apply IH.
Qed.
Lemma sall_stake (p : ascii -> bool) n s : sall p s = true -> sall p (stake n s) = true.
Proof.
  revert n. induction s as [|c s IH]; intros n; destruct n as [|n]; cbn [sall stake]; try done.
  intros [Hc Hs]%andb_true_iff. by rewrite Hc, IH.
Qed.
Lemma sall_impl (p q : ascii -> bool) s :
  (forall c, p c = true -> q c = true) -> sall p s = true -> sall q s = true.
Proof.
  intros Hpq. induction s as [|c s IH]; simpl; [done|].
  intros [Hp Hs]%andb_true_iff. rewrite (Hpq c Hp). auto.
Qed.

Lemma sany_false_impl (p q : ascii -> bool) s :
  (forall c, p c = true -> q c = true) -> sany q s = false -> sany p s = false.
Proof.
  intros Hpq. induction s as [|c s IH]; simpl; [done|].
  intros [Hp Hs]%orb_false_iff. rewrite (IH Hs).
  destruct (p c) eqn:E; [|done]. rewrite (Hpq c E) in Hp. done.
Qed.

Lemma sdrop_nil n : sdrop n "" = "".
Proof. by destruct n. Qed.

Lemma sdrop_app s1 s2 : sdrop (String.length s1) (s1 +:+ s2) = s2.
Proof. induction s1 as [|c s1 IH]; simpl; [by destruct s2|done]. Qed.

Lemma sdrop_sdrop n m s : sdrop n (sdrop m s) = sdrop (m + n) s.
Proof.
  revert s. induction m as [|m IH]; intros s; simpl; [by destruct s|].
  destruct s; simpl; [by rewrite sdrop_nil|]. apply IH.
Qed.

Lemma sdrop_app_cons s1 c s2 : sdrop (String.length s1 + 1) (s1 +:+ String c s2) = s2.
Proof. rewrite <- sdrop_sdrop, sdrop_app. reflexivity. Qed.

Lemma slength_sdrop n s : String.length (sdrop n s) = String.length s - n.
Proof. revert s. induction n as [|n IH]; intros [|c s]; simpl; auto. Qed.

Lemma stake_app s1 s2 : stake (String.length s1) (s1 +:+ s2) = s1.
Proof. induction s1 as [|c s1 IH]; simpl; [by destruct s2|]. by rewrite IH. Qed.

Lemma stake_sdrop n s : stake n s +:+ sdrop n s = s.
Proof.
  revert s. induction n as [|n IH]; intros s; simpl; [done|].
  destruct s; simpl; [done|]. by rewrite IH.
Qed.

Lemma sempty_spec s : sempty s = true <-> s = "".
Proof. by destruct s. Qed.

Lemma sempty_false s : sempty s = false <-> s <> "".
Proof. by destruct s. Qed.

Lemma remove_suffix_snoc s c : remove_suffix 1 (s +:+ String c "") = s.
Proof.
  unfold remove_suffix. rewrite slength_app. simpl.
  replace (String.length s + 1 - 1) with (String.length s) by lia.
  apply stake_app.
Qed.

Lemma sback_snoc s c : sback (s +:+ String c "") = Some c.
Proof.
  induction s as [|x s IH]; simpl; [done|].
  destruct s; simpl in *; done.
Qed.

Lemma sback_app s1 s2 : s2 <> "" -> sback (s1 +:+ s2) = sback s2.
Proof.
  intros Hne. induction s1 as [|x s1 IH]; [done|]. simpl.
  destruct (s1 +:+ s2) eqn:E; [|done]. destruct s1, s2; done.
Qed.

Lemma sback_Some s c : sback s = Some c -> s = remove_suffix 1 s +:+ String c "".
Proof.
  induction s as [|x s IH]; simpl; [done|].
  destruct s as [|y s]; [intros [= ->]; done|].
  intros H. specialize (IH H). unfold remove_suffix in *. simpl in *.
  rewrite Nat.sub_0_r in *. f_equal. exact IH.
Qed.

Lemma sback_None s : sback s = None -> s = "".
Proof.
  induction s as [|x s IH]; simpl; [done|]. destruct s; [done|].
  intros H. by specialize (IH H).
Qed.

Lemma sall_sback p s c : sall p s = true -> sback s = Some c -> p c = true.
Proof.
  intros Hs Hb. apply sback_Some in Hb. rewrite Hb, sall_app in Hs.
  simpl in Hs. rewrite !andb_true_iff in Hs. tauto.
Qed.

(** Break boolean hypotheses into their atoms. *)
Ltac bool_split :=
  repeat match goal with
  | H : (_ || _)%bool = false |- _ => apply orb_false_iff in H as [? ?]
  | H : (_ && _)%bool = true |- _ => apply andb_true_iff in H as [? ?]
  | H : negb _ = false |- _ => apply negb_false_iff in H
  | H : negb _ = true |- _ => apply negb_true_iff in H
  | H : bool_decide _ = true |- _ => apply bool_decide_eq_true in H
  | H : bool_decide _ = false |- _ => apply bool_decide_eq_false in H
  end.

(** Linear arithmetic that treats quotients and remainders in [N] as unknowns. *)
Ltac ndiv_lia :=
  repeat match goal with
  | |- context [(?a / ?b)%N] => let q := fresh "q" in set (q := (a / b)%N) in *; clearbody q
  | _ : context [(?a / ?b)%N] |- _ =>
      let q := fresh "q" in set (q := (a / b)%N) in *; clearbody q
  | |- context [(?a mod ?b)%N] => let q := fresh "q" in set (q := (a mod b)%N) in *; clearbody q
  | _ : context [(?a mod ?b)%N] |- _ =>
      let q := fresh "q" in set (q := (a mod b)%N) in *; clearbody q
  end; lia.

(** Searching: [sfind] finds the first occurrence. *)
Lemma sfind_app_l c s1 s2 :
  sall (fun x => negb (bool_decide (x = c))) s1 = true ->
  sfind c (s1 +:+ String c s2) = Some (String.length s1).
Proof.
  induction s1 as [|x s1 IH]; simpl.
  - intros _. by rewrite decide_True.
  - intros [Hx Hs]%andb_true_iff. case_bool_decide; [done|].
    rewrite decide_False by done. by rewrite IH.
Qed.

Lemma sfind_None c s :
  sfind c s = None <-> sall (fun x => negb (bool_decide (x = c))) s = true.
Proof.
  induction s as [|x s IH]; simpl; [done|].
  destruct (decide (x = c)) as [->|Hx].
  - rewrite bool_decide_true by done. done.
  - rewrite bool_decide_false by done. simpl. rewrite fmap_None. exact IH.
Qed.

Lemma sfind_Some c s i :
  sfind c s = Some i ->
  s = stake i s +:+ String c (sdrop (S i) s) /\
  sall (fun x => negb (bool_decide (x = c))) (stake i s) = true.
Proof.
  revert i. induction s as [|x s IH]; intros i; simpl; [done|].
  destruct (decide (x = c)) as [->|Hx].
  - intros [= <-]. done.
  - destruct (sfind c s) as [j|] eqn:E; [|done]. intros [= <-].
    destruct (IH j eq_refl) as [H1 H2]. simpl. split.
    + f_equal. exact H1.
    + by rewrite bool_decide_false.
Qed.

(** Characters a field must not contain, as a boolean test. *)
Definition free_of (c : ascii) (s : string) : bool :=
  sall (fun x => negb (bool_decide (x = c))) s.

Lemma free_of_app c s1 s2 : free_of c (s1 +:+ s2) = free_of c s1 && free_of c s2.
Proof. apply sall_app. Qed.

Lemma free_of_impl (p : ascii -> bool) c s :
  p c = false -> sall p s = true -> free_of c s = true.
Proof.
  intros Hp. apply sall_impl. intros x Hx.
  case_bool_decide; [subst; congruence|done].
Qed.

Lemma split_on_nonempty d s : split_on d s <> [].
Proof. destruct s; simpl; [done|]. case_decide; [done|]. by case_match. Qed.

Lemma split_on_free d s : free_of d s = true -> split_on d s = [s].
Proof.
  induction s as [|c s IH]; simpl; [done|]. unfold free_of. simpl.
  intros [Hc Hs]%andb_true_iff. case_bool_decide; [done|].
  rewrite decide_False by done. unfold free_of in IH. by rewrite IH.
Qed.

Lemma split_on_app d s1 s2 :
  free_of d s1 = true -> split_on d (s1 +:+ String d s2) = s1 :: split_on d s2.
Proof.
  induction s1 as [|c s1 IH]; simpl.
  - by rewrite decide_True.
  - unfold free_of. simpl. intros [Hc Hs]%andb_true_iff.
    case_bool_decide; [done|]. rewrite decide_False by done.
    unfold free_of in IH. by rewrite IH.
Qed.

(** One step of splitting, by the position of the first delimiter. *)
Lemma split_on_sfind d s :
  split_on d s = match sfind d s with
                 | None => [s]
                 | Some i => stake i s :: split_on d (sdrop (S i) s)
                 end.
Proof.
  destruct (sfind d s) as [i|] eqn:E.
  - apply sfind_Some in E as [Hs Hf]. rewrite Hs at 1. by apply split_on_app.
  - by apply split_on_free, sfind_None.
Qed.

Lemma split_on_fields_free d s : Forall (fun f => free_of d f = true) (split_on d s).
Proof.
  induction s as [|c s IH]; simpl; [by constructor|].
  case_decide; [by constructor|].
  destruct (split_on d s) as [|f fs] eqn:E; [by destruct (split_on_nonempty d s)|].
  inversion IH; subst. constructor; [|done].
  unfold free_of in *. simpl. by rewrite bool_decide_false.
Qed.

(** Splitting loses nothing: joining the fields gives the string back. *)
Lemma join_split_on d s : join_with (String d "") (split_on d s) = s.
Proof.
  induction s as [|c s IH]; simpl; [done|].
  pose proof (split_on_nonempty d s) as Hne.
  case_decide; subst.
  - destruct (split_on d s) as [|f fs] eqn:E; [done|]. simpl in *. by rewrite IH.
  - destruct (split_on d s) as [|f fs] eqn:E; [done|].
    destruct fs as [|g fs]; simpl in *; by rewrite IH.
Qed.

Lemma split_on_join d l :
  l <> [] -> Forall (fun f => free_of d f = true) l ->
  split_on d (join_with (String d "") l) = l.
Proof.
  induction l as [|x l IH]; [done|]. intros _ Hl. inversion Hl; subst.
  destruct l as [|y l]; simpl; [by apply split_on_free|].
  rewrite split_on_app by done. f_equal. by apply IH.
Qed.

Lemma join_with_cons sep x l :
  l <> [] -> join_with sep (x :: l) = x +:+ sep +:+ join_with sep l.
Proof. by destruct l. Qed.

(* ===================================================================== *)
(** * 8. Lemmas: decimal text *)

Lemma code_digit n : (n < 10)%N -> code (digit n) = (48 + n)%N.
Proof. intros Hn. apply code_ascii_of_N. lia. Qed.

Lemma isdigit_digit n : (n < 10)%N -> isdigit (digit n) = true.
Proof.
  intros Hn. unfold isdigit. rewrite code_digit by done.
  apply andb_true_iff. rewrite !N.leb_le. lia.
Qed.

Lemma dec_value_from_app a s1 s2 :
  dec_value_from a (s1 +:+ s2) = dec_value_from (dec_value_from a s1) s2.
Proof. revert a. induction s1 as [|c s1 IH]; intros a; simpl; [done|]. apply IH. Qed.

Lemma to_string_loop_app fuel n acc :
  to_string_loop fuel n acc = to_string_loop fuel n "" +:+ acc.
Proof.
  revert n acc. induction fuel as [|f IH]; intros n acc; simpl; [done|].
  case_match; [done|]. rewrite IH. rewrite (IH _ (String _ "")).
  by rewrite sapp_assoc.
Qed.

(** A number below [2 ^ k] has at most [k + 1] digits. *)
Lemma to_string_loop_size fuel n : (size_of (to_string_loop fuel n "") <= N.of_nat fuel)%N.
Proof.
  revert n. induction fuel as [|f IH]; intros n; [done|]. cbn [to_string_loop]. case_match.
  - change (size_of (String (digit (n mod 10)) "")) with 1%N. lia.
  - rewrite to_string_loop_app, size_of_app.
    change (size_of (String (digit (n mod 10)) "")) with 1%N. specialize (IH (n / 10)%N). lia.
Qed.
Lemma to_string_width k n : (n < 2 ^ k)%N -> (size_of (to_string n) <= k + 1)%N.
Proof.
  intros Hn. pose proof (to_string_loop_size (Datatypes.S (N.size_nat n)) n) as Hs.
  enough (N.of_nat (N.size_nat n) <= k)%N by (unfold to_string; lia).
  assert (N.of_nat (N.size_nat n) = N.size n) as ->.
  { destruct n as [|p]; [done|]. cbn [N.size N.size_nat]. clear.
    induction p as [p IH|p IH|]; simpl; lia. }
  destruct (N.eq_dec n 0%N) as [->|Hn0]; [cbn; lia|]. rewrite (N.size_log2 n Hn0).
  apply N.log2_lt_pow2 in Hn; lia.
Qed.

Lemma to_string_loop_value fuel n :
  (n < 10 ^ N.of_nat fuel)%N -> fuel <> 0 ->
  dec_value (to_string_loop fuel n "") = n /\
  sall isdigit (to_string_loop fuel n "") = true /\
  to_string_loop fuel n "" <> "".
Proof.
  revert n. induction fuel as [|f IH]; intros n Hn Hf; [done|]. simpl.
  assert (n mod 10 < 10)%N as Hm by (apply N.mod_lt; lia).
  pose proof (N.div_mod n 10 ltac:(lia)) as Hdm.
  destruct (n / 10 =? 0)%N eqn:E.
  - apply N.eqb_eq in E. rewrite E in Hdm. unfold dec_value. simpl.
    rewrite code_digit, isdigit_digit by done. repeat split; [lia|done].
  - apply N.eqb_neq in E.
    assert (f <> 0) as Hf'.
    { intros ->. simpl in Hn. apply E. apply N.div_small. lia. }
    assert (n / 10 < 10 ^ N.of_nat f)%N as Hlt.
    { apply N.Div0.div_lt_upper_bound. rewrite Nat2N.inj_succ, N.pow_succ_r' in Hn. lia. }
    destruct (IH (n / 10)%N Hlt Hf') as (Hv & Hd & _).
    rewrite to_string_loop_app. unfold dec_value in *.
    rewrite dec_value_from_app, Hv, sall_app, Hd. cbn [dec_value_from sall].
    rewrite code_digit, isdigit_digit by done. repeat split.
    { clear -Hdm. revert Hdm. generalize (n / 10)%N (n mod 10)%N. lia. }
    by destruct (to_string_loop f (n / 10) "").
Qed.

Lemma size_nat_bound n : (n < 10 ^ N.of_nat (S (N.size_nat n)))%N.
Proof.
  eapply N.lt_le_trans; [apply N.size_gt|].
  apply N.le_trans with (10 ^ N.size n)%N; [apply N.pow_le_mono_l; lia|].
  apply N.pow_le_mono_r; [lia|].
  destruct n as [|p]; [simpl; lia|]. simpl N.size. simpl N.size_nat.
  enough (N.pos (Pos.size p) = N.of_nat (Pos.size_nat p)) by lia.
  induction p as [p IH|p IH|]; simpl Pos.size; simpl Pos.size_nat; lia.
Qed.

(** [std::to_string] prints exactly the digits of its argument. *)
Lemma to_string_spec n :
  dec_value (to_string n) = n /\ sall isdigit (to_string n) = true /\ to_string n <> "".
Proof. apply to_string_loop_value; [apply size_nat_bound|done]. Qed.

Lemma to_string_digits n : sall isdigit (to_string n) = true.
Proof. apply to_string_spec. Qed.

Lemma to_string_nonempty n : to_string n <> "".
Proof. apply to_string_spec. Qed.

Lemma to_string_inj n m : to_string n = to_string m -> n = m.
Proof.
  intros H. destruct (to_string_spec n) as [<- _], (to_string_spec m) as [<- _].
  by rewrite H.
Qed.

Lemma to_string_free_of c n : isdigit c = false -> free_of c (to_string n) = true.
Proof. intros Hc. eapply free_of_impl; [exact Hc|apply to_string_digits]. Qed.

Lemma span_all p s : sall p s = true -> span p s = (s, "").
Proof.
  induction s as [|c s IH]; simpl; [done|].
  intros [-> Hs]%andb_true_iff. by rewrite IH.
Qed.

Lemma span_app p s : let '(a, b) := span p s in s = a +:+ b /\ sall p a = true.
Proof.
  induction s as [|c s IH]; simpl; [done|].
  destruct (p c) eqn:E; [|done]. destruct (span p s) as [a b].
  destruct IH as [-> Ha]. simpl. by rewrite E.
Qed.

(** [std::from_chars] reads back what [std::to_string] prints. *)
Lemma from_chars_to_string bits n v :
  (n < 2 ^ bits)%N -> from_chars bits (to_string n) v = (n, errc_ok, "").
Proof.
  intros Hn. destruct (to_string_spec n) as (Hv & Hd & Hne).
  unfold from_chars. rewrite span_all by done.
  destruct (to_string n) as [|c s]; [done|]. rewrite Hv.
  by apply N.ltb_lt in Hn as ->.
Qed.

(** A successful read stays within the target type. *)
Lemma digit_scan s : s <> "" -> sall isdigit s = true ->
  scan_integer s = Some (false, dec_value s, "").
Proof.
  intros Hne Hd. unfold scan_integer. destruct s as [|c s]; [done|].
  assert (isspace c = false /\ c <> "-"%char /\ c <> "+"%char) as (Hs & Hm & Hp).
  { cbn [sall] in Hd. apply andb_true_iff in Hd as [Hc _]. split; [|by split; intros ->].
    assert (forall c, implb (isdigit c) (negb (isspace c)) = true) as H
      by (apply ascii_forall; vm_compute; reflexivity).
    specialize (H c). rewrite Hc in H. by destruct (isspace c). }
  cbn [span]. rewrite Hs. cbn [snd].
  replace (match String c s with String "-" r => (true, r) | String "+" r => (false, r)
           | _ => (false, String c s) end) with (false, String c s).
  - rewrite span_all by done. done.
  - destruct c as [[] [] [] [] [] [] [] []]; done.
Qed.

Lemma scan_minus s :
  scan_integer (String "-" s) =
  let '(digits, rest) := span isdigit s in
  if sempty digits then None else Some (true, dec_value digits, rest).
Proof. done. Qed.

(** [std::stoi] reads back what [std::to_string] prints. *)
Lemma stoi_to_string_signed z :
  (INT_MIN <= z <= INT_MAX)%Z -> stoi (to_string_signed z) = Some (z, "").
Proof.
  intros Hz. unfold stoi, to_string_signed. destruct (Z.ltb_spec z 0) as [Hn|Hn].
  - set (n := Z.to_N (- z)). destruct (to_string_spec n) as (Hv & Hd & Hne).
    rewrite scan_minus, span_all, Hv by done. destruct (to_string n) as [|c s]; [done|].
    cbn [sempty]. subst n. rewrite Z2N.id by lia.
    replace (- - z)%Z with z by lia.
    rewrite (proj2 (Z.leb_le _ _)), (proj2 (Z.leb_le z _)) by lia. done.
  - destruct (to_string_spec (Z.to_N z)) as (Hv & Hd & Hne).
    rewrite digit_scan, Hv, Z2N.id by (done || lia).
    rewrite (proj2 (Z.leb_le _ _)), (proj2 (Z.leb_le z _)) by lia. done.
Qed.

Lemma stoi_to_string n : (Z.of_N n <= INT_MAX)%Z -> stoi (to_string n) = Some (Z.of_N n, "").
Proof.
  intros Hn. pose proof (stoi_to_string_signed (Z.of_N n)) as H. unfold to_string_signed in H.
  rewrite (proj2 (Z.ltb_ge _ _)), N2Z.id in H by lia. apply H. unfold INT_MIN. lia.
Qed.

Lemma from_chars_ok bits s v n rest :
  from_chars bits s v = (n, errc_ok, rest) -> (n < 2 ^ bits)%N.
Proof.
  unfold from_chars. destruct (span isdigit s) as [ds r].
  destruct ds; [done|]. case_match eqn:E; [|done].
  intros [= <- <-]. by apply N.ltb_lt.
Qed.

(* ===================================================================== *)
(** * 9. Lemmas: ordered containers *)

#[export] Instance entry_le_trans `{KeyOrder K} `{!Transitive (key_le (K:=K))} {V} :
  Transitive (entry_le (K:=K) (V:=V)).
Proof. intros p q r. unfold entry_le. by transitivity q.1. Qed.
#[export] Instance entry_le_total `{KeyOrder K} `{!Total (key_le (K:=K))} {V} :
  Total (entry_le (K:=K) (V:=V)).
Proof. intros p q. unfold entry_le. apply (total key_le). Qed.
#[export] Instance key_le_trans_N : Transitive (key_le (K:=N)).
Proof. unfold key_le, key_order_N. apply _. Qed.
#[export] Instance key_le_total_N : Total (key_le (K:=N)).
Proof. unfold key_le, key_order_N. apply _. Qed.
#[export] Instance key_le_trans_string : Transitive (key_le (K:=string)).
Proof. unfold key_le, key_order_string. apply _. Qed.
#[export] Instance key_le_total_string : Total (key_le (K:=string)).
Proof. unfold key_le, key_order_string. apply _. Qed.

#[export] Instance key_le_trans_Z : Transitive (key_le (K:=Z)).
Proof. unfold key_le, key_order_Z. apply _. Qed.
#[export] Instance key_le_total_Z : Total (key_le (K:=Z)).
Proof. unfold key_le, key_order_Z. apply _. Qed.

Section containers.
Context `{Countable K} `{!KeyOrder K} `{!RelDecision (key_le (K:=K))}.
Context `{!Transitive (key_le (K:=K))} `{!Total (key_le (K:=K))}.

Lemma elem_of_map_iter {V} (m : gmap K V) k v :
  (k, v) ∈ map_iter m <-> m !! k = Some v.
Proof.
  unfold map_iter. rewrite merge_sort_Permutation. apply elem_of_map_to_list.
Qed.

Lemma map_iter_sorted {V} (m : gmap K V) : StronglySorted entry_le (map_iter m).
Proof. apply (StronglySorted_merge_sort _). Qed.

Lemma map_iter_nodup_fst {V} (m : gmap K V) : NoDup (map_iter m).*1.
Proof.
  unfold map_iter. rewrite merge_sort_Permutation. apply NoDup_fst_map_to_list.
Qed.

Lemma map_iter_length {V} (m : gmap K V) : length (map_iter m) = size m.
Proof.
  unfold map_iter. rewrite merge_sort_Permutation. apply length_map_to_list.
Qed.

Lemma elem_of_set_iter (s : gset K) k : k ∈ set_iter s <-> k ∈ s.
Proof. unfold set_iter. rewrite merge_sort_Permutation. apply elem_of_elements. Qed.

Lemma set_iter_nodup (s : gset K) : NoDup (set_iter s).
Proof. unfold set_iter. rewrite merge_sort_Permutation. apply NoDup_elements. Qed.

Lemma set_iter_sorted (s : gset K) : StronglySorted key_le (set_iter s).
Proof. apply (StronglySorted_merge_sort _). Qed.
End containers.

Lemma sort_strings_perm l : sort_strings l ≡ₚ l.
Proof. apply merge_sort_Permutation. Qed.

Lemma sort_strings_sorted l : StronglySorted String.le (sort_strings l).
Proof. apply (StronglySorted_merge_sort _). Qed.

(** Sorting depends only on the multiset: equal contents print equally. *)
Lemma sort_strings_unique l1 l2 : l1 ≡ₚ l2 -> sort_strings l1 = sort_strings l2.
Proof.
  intros Hl. apply (StronglySorted_unique String.le); try apply sort_strings_sorted.
  by rewrite !sort_strings_perm.
Qed.

Lemma of_to_int64 n : (n < 2 ^ 64)%N -> of_int64 (to_int64 n) = n.
Proof.
  intros Hn. unfold to_int64, of_int64, u64. rewrite N.mod_small by done.
  destruct (N.ltb_spec n (2 ^ 63)).
  - rewrite Z.mod_small by lia. lia.
  - replace (Z.of_N n - 2 ^ 64)%Z with (Z.of_N n + (-1) * 2 ^ 64)%Z by lia.
    rewrite Z.mod_add, Z.mod_small by lia. lia.
Qed.

Lemma to_of_int64 z : (- 2 ^ 63 <= z < 2 ^ 63)%Z -> to_int64 (of_int64 z) = z.
Proof.
  intros Hz. unfold to_int64, of_int64, u64.
  pose proof (Z.mod_pos_bound z (2 ^ 64)). rewrite N.mod_small by lia.
  destruct (Z.lt_ge_cases z 0) as [Hn|Hn].
  - assert (z mod 2 ^ 64 = z + 2 ^ 64)%Z as E.
    { symmetry. apply (Z.mod_unique_pos _ _ (-1)); lia. }
    rewrite E in *. destruct (N.ltb_spec (Z.to_N (z + 2 ^ 64)) (2 ^ 63)); lia.
  - rewrite Z.mod_small in * by lia. destruct (N.ltb_spec (Z.to_N z) (2 ^ 63)); lia.
Qed.

Lemma to_int64_inj m n : (m < 2 ^ 64)%N -> (n < 2 ^ 64)%N -> to_int64 m = to_int64 n -> m = n.
Proof. intros Hm Hn E. by rewrite <- (of_to_int64 m), <- (of_to_int64 n), E. Qed.

Lemma existsb_ext {A} (f g : A -> bool) l :
  (forall x, f x = g x) -> existsb f l = existsb g l.
Proof. intros E. induction l as [|x l IH]; simpl; [done|]. by rewrite E, IH. Qed.

(* ===================================================================== *)
(** * 10. Lemmas: the state monad *)

Lemma bind_fst {W A B} (m : M W A) (k : A -> M W B) w :
  (bind m k w).1 = (k (m w).1 (m w).2).1.
Proof. unfold bind. by destruct (m w). Qed.
Lemma bind_snd {W A B} (m : M W A) (k : A -> M W B) w :
  bind m k w = k (m w).1 (m w).2.
Proof. unfold bind. by destruct (m w). Qed.

Section frames.
Context {W B : Type} (f : W -> B).

Lemma frames_ret {A} (a : A) : frames f (ret a).
Proof. done. Qed.
Lemma frames_get : frames f get.
Proof. done. Qed.
Lemma frames_bind {A C} (m : M W A) (k : A -> M W C) :
  frames f m -> (forall a, frames f (k a)) -> frames f (bind m k).
Proof. intros Hm Hk w. rewrite bind_snd, Hk. apply Hm. Qed.
Lemma frames_when b (m : M W unit) : frames f m -> frames f (when b m).
Proof. intros Hm. by destruct b; [|intros ?]. Qed.
Lemma frames_for_each {A} (l : list A) (g : A -> M W unit) :
  (forall x, x ∈ l -> frames f (g x)) -> frames f (for_each l g).
Proof.
  induction l as [|x l IH]; simpl; intros Hg; [apply frames_ret|].
  apply frames_bind; [|intros _]; [apply Hg; left|]. apply IH.
  intros y Hy. apply Hg. by right.
Qed.
Lemma frames_modify g : (forall w, f (g w) = f w) -> frames f (modify g).
Proof. done. Qed.
End frames.

Section keeps.
Context {W : Type} (P : W -> Prop).

Lemma keeps_ret {A} (a : A) : keeps P (ret a).
Proof. intros w Hw. exact Hw. Qed.
Lemma keeps_get : keeps P get.
Proof. intros w Hw. exact Hw. Qed.
Lemma keeps_bind {A B} (m : M W A) (k : A -> M W B) :
  keeps P m -> (forall a, keeps P (k a)) -> keeps P (bind m k).
Proof. intros Hm Hk w Hw. rewrite bind_snd. by apply Hk, Hm. Qed.
Lemma keeps_when b (m : M W unit) : keeps P m -> keeps P (when b m).
Proof. intros Hm. destruct b; [exact Hm|apply keeps_ret]. Qed.
Lemma keeps_for_each {A} (l : list A) (g : A -> M W unit) :
  (forall x, x ∈ l -> keeps P (g x)) -> keeps P (for_each l g).
Proof.
  induction l as [|x l IH]; simpl; intros Hg; [apply keeps_ret|].
  apply keeps_bind; [apply Hg; left|]. intros _. apply IH.
  intros y Hy. apply Hg. by right.
Qed.
Lemma keeps_modify g : (forall w, P w -> P (g w)) -> keeps P (modify g).
Proof. intros Hg w Hw. by apply Hg. Qed.
End keeps.

(** A predicate over a framed projection is kept. *)
Lemma frames_keeps {W A B} (f : W -> B) (Q : B -> Prop) (m : M W A) :
  frames f m -> keeps (fun w => Q (f w)) m.
Proof. intros Hf w Hw. by rewrite Hf. Qed.

Create HintDb chat_frames.
Create HintDb chat_keeps.
#[export] Hint Resolve frames_ret frames_get frames_when frames_for_each : chat_frames.
#[export] Hint Resolve keeps_ret keeps_get keeps_when keeps_for_each : chat_keeps.

(** Walk through a monadic program, leaving the primitives to the database. *)
Ltac frames_step :=
  match goal with
  | |- frames _ (bind _ _) => apply frames_bind; [|intros ?]
  | |- frames _ (when _ _) => apply frames_when
  | |- frames _ (for_each _ _) => apply frames_for_each; intros ? _
  | |- frames _ (if ?b then _ else _) => destruct b
  | |- frames _ (match ?x with _ => _ end) => destruct x
  | |- frames _ (let '_ := ?x in _) => destruct x
  | |- frames _ _ => solve [auto with chat_frames nocore]
  | |- frames _ (modify _) => apply frames_modify; intros ?; reflexivity
  end.
Ltac frames_tac := intros; repeat frames_step.

Ltac keeps_step :=
  match goal with
  | |- keeps _ (bind _ _) => apply keeps_bind; [|intros ?]
  | |- keeps _ (when _ _) => apply keeps_when
  | |- keeps _ (for_each _ _) => apply keeps_for_each; intros ? _
  | |- keeps _ (if ?b then _ else _) => destruct b
  | |- keeps _ (match ?x with _ => _ end) => destruct x
  | |- keeps _ _ => solve [auto with chat_keeps nocore]
  end.
Ltac keeps_tac := intros; repeat keeps_step.
