(* ===== verification/DisplayText.v ===== *)
(** The texts of [ui/display_text.h] that the modelled screens, forms and messages show,
    under their names. *)

From S2P Require Import Prelude.
Local Open Scope string_scope.

Module ui_text.
Definition app_name : string := "chatbox".
Definition resize_terminal : string := "Resize to at least 40 x 12".
Definition draft_preserved : string := "Your draft is preserved.".
Definition back : string := "Esc  Back".
Definition host_badge : string := " / host".
Definition lobby : string := "lobby".
Definition default_topic : string := "Make yourself at home. Say hello.".
Definition rooms : string := "ROOMS  ".
Definition switch_room : string := "F2  Switch room".
Definition people : string := "PEOPLE  ".
Definition more_users : string := " more  /users".
Definition you : string := " (you)".
Definition fresh_conversation : string := "A fresh conversation".
Definition empty_chat_hint : string := "Alone? Share an invite (F3) or switch rooms (F2).".
Definition reading_history : string := "Reading history  /  ".
Definition lines_below_latest : string := " lines below  /  Ctrl+G to latest".
Definition compact_history : string := "History: Ctrl+G latest".
Definition message_label : string := "MESSAGE  #".
Definition message_placeholder : string := "Write a message or /command".
Definition chat_keys_wide : string :=
  "Enter Send   Tab Complete   PgUp/PgDn History   F2 Rooms   F3 Invite   Esc Leave".
Definition chat_keys_narrow : string := "F2 Rooms F3 Info Esc Leave".
Definition keyboard_shortcuts : string := "Keyboard shortcuts".
Definition send_message : string := "Enter        Send message".
Definition move_cursor : string := "Left / Right Move cursor".
Definition input_edges : string := "Home / End   Start / end of input".
Definition sent_history : string := "Up / Down    Sent-message history".
Definition complete_input : string := "Tab          Complete command, room or nickname".
Definition scroll_messages : string := "PgUp / PgDn  Read earlier / later messages".
Definition latest_messages : string := "Ctrl+G       Jump to latest messages".
Definition delete_word : string := "Ctrl+W       Delete previous word".
Definition delete_to_cursor : string := "Ctrl+U / K   Delete before / after cursor".
Definition switch_rooms_help : string := "F2           Switch rooms".
Definition chat_commands_help : string := "/help        Show chat commands".
Definition close_panel : string := "F1 or Esc    Close this panel".
Definition leave_question : string := "Leave this chat?".
Definition leave_chat : string := "Enter  Leave chat".
Definition keep_chatting : string := "Esc    Keep chatting".
Definition close_help : string := "Esc Close  /help All commands".
Definition no_completions : string := "No completions".
Definition menu_navigation : string := "Up/Down Enter Esc Back F4 Details".
Definition form_navigation : string := "Tab Next Enter Done Esc Back F4 Help".
Definition toggle_help : string := "  [Left/Right to change]".
Definition yes : string := "Yes".
Definition no : string := "No".
Definition continue_back : string := "Enter Continue   Esc Back".
Definition please_wait : string := "Please wait...".
Definition password_required : string := "This server requires a password to join.".
Definition draft_stays : string := "Your draft stays here while you choose.".
Definition startup_subtitle : string := "Join your people, or make a space of your own.".
Definition start_chatting : string := "Start chatting".
Definition start_chatting_detail : string := "Join, host, or discover a chat server".
Definition run_server : string := "Run a dedicated server".
Definition run_server_detail : string := "Keep a community online from this machine".
Definition run_directory : string := "Run a server directory".
Definition run_directory_detail : string := "Help others discover published servers".
Definition quit : string := "Quit".
Definition see_you : string := "See you next time".
Definition join_server : string := "Join a server".
Definition join_server_detail : string := "Connect using a host address and port".
Definition host_conversation : string := "Host a conversation".
Definition host_detail : string := "Create a server and invite your people".
Definition discover_servers : string := "Discover servers".
Definition close_chatbox : string := "Close chatbox".
Definition port : string := "Port".
Definition invalid_port : string := "Enter a port from 0 to 65535.".
Definition required_field : string := "This field is required.".
Definition tls_description : string := "Use the certificate and key for this server.".
Definition certificate_path : string := "Certificate chain path".
Definition private_key_path : string := "Private key path".
Definition browser_host : string := "Browser host (without a port)".
Definition browser_host_error : string := "Enter a browser host/IP without a port.".
Definition listing_name : string := "Listing name (optional)".
Definition public_address : string := "Public address (blank for automatic)".
Definition publish_description : string := "Help people find your server in the browser.".
Definition where_to_go : string := "Where would you like to go?".
Definition discover_detail_main : string := "Find a community in a server directory".
Definition nickname : string := "Nickname".
Definition nickname_description : string :=
  "Your nickname is linked to an identity saved on this device.".
Definition nickname_error : string := "Use 1-31 characters without spaces, | or commas.".
Definition publish_directory : string := "Publish to a server directory".
Definition dedicated_description : string := "Set up a persistent home for your community.".
Definition directory_description : string := "Publish and discover servers on port 2727.".
Definition invite_field : string := "Chatbox invite".
Definition invite_form_help : string :=
  "Paste an invite from someone you trust. It contains no password.".
Definition invite_review_help : string := "Review the address and security details first.".
Definition invite_back_action : string := "Back".
Definition invite_join_action : string := "Join".
Definition invite_discard : string := "Discard invite.".
Definition invite_join : string := "Use these connection details.".
Definition connection_dns_error : string :=
  "Could not find that server address. Check the spelling and your internet connection, then try again.".
Definition connection_timeout_error : string :=
  "The server did not respond in time. Check the address and port, and make sure the host is online.".
Definition connection_tls_error : string :=
  "The secure connection could not be verified. Check that TLS is enabled only when the server supports it, and verify its certificate details.".
Definition connection_refused_error : string :=
  "The server refused the connection. Check the port and ask the host to confirm the server is running and reachable.".
Definition connection_generic_error : string :=
  "Could not connect. Check the server address, port, and TLS setting, then try again.".
Definition host_port_tcp : string := "Port (TCP)".
Definition host_password_optional : string := "Password (optional)".
Definition upnp_forwarding : string := "Automatic port forwarding (UPnP)".
Definition host_tls_field : string := "Use TLS (no = insecure plaintext)".
Definition host_form_guidance : string :=
  "Choose how people can join. Port uses TCP; UPnP may open it on your router. People joining need the password. TLS setup can generate a certificate and private key. Plaintext exposes messages and passwords.".
Definition join_host_field : string := "Host address".
Definition join_port_field : string := "Port".
Definition join_tls_field : string := "Use TLS (no = insecure plaintext)".
Definition join_form_guidance : string :=
  "Enter the address shared by your host. The default port is 7777. Plaintext exposes messages and passwords.".
Definition host_listening_prefix : string :=
  "[hosting] Listening for chat connections on TCP port ".
Definition host_tls_enabled_suffix : string := " with TLS encryption".
Definition host_tls_disabled_suffix : string := " without TLS encryption".
End ui_text.
