(* ===== verification/Frame.v ===== *)
(** Wire framing: [src/protocol/protocol.h] (limits, [Error], [Result]) and the
    Base64 line codec [encode_frame] / [decode_frame] of
    [src/protocol/protocol.cpp]. The theorems: the codec is a bijection between
    payloads of 1..3069 bytes and canonical frames, every encoded frame fits
    the wire limit, and each malformed frame gives the error the code names. *)

From S2P Require Import Prelude.
Local Open Scope Z_scope.

(* ===================================================================== *)
(** * Limits, errors, results *)

Definition VERSION : N := 3.
Definition MAX_FRAME_LENGTH : N := 4096.
Definition MAX_CHAT_LENGTH : N := 1000.
Definition MAX_ROOM_NAME_LENGTH : N := 32.
Definition MAX_ROOM_TOPIC_LENGTH : N := 200.
Definition MAX_ROOMS : N := 32.

Inductive Error :=
| ErrNone
| EmptyFrame
| FrameTooLarge
| InvalidBase64
| EmptyPayload
| UnknownMessage
| WrongFieldCount
| InvalidField
| UnsupportedVersion.

Record Result (T : Type) := MkResult {
  value : option T;
  error : Error;
  detail : string;
}.
Arguments MkResult {T} _ _ _.
Arguments value {T} _.
Arguments error {T} _.
Arguments detail {T} _.

Definition success {T} (v : T) : Result T := MkResult (Some v) ErrNone "".
Definition failure {T} (e : Error) (d : string) : Result T := MkResult None e d.

Definition error_name (e : Error) : string :=
  match e with
  | ErrNone => "none"
  | EmptyFrame => "empty frame"
  | FrameTooLarge => "frame too large"
  | InvalidBase64 => "invalid Base64"
  | EmptyPayload => "empty payload"
  | UnknownMessage => "unknown message"
  | WrongFieldCount => "wrong field count"
  | InvalidField => "invalid field"
  | UnsupportedVersion => "unsupported version"
  end.

(* ===================================================================== *)
(** * Base64 *)

(** Characters as C integers; a [static_cast<char>] keeps the low byte. *)
Definition zcode (c : ascii) : Z := Z.of_N (code c).
Definition char_of (z : Z) : ascii := ascii_of_N (Z.to_N (z mod 256)).

Definition BASE64_CHARS : string :=
  "ABCDEFGHIJKLMNOPQRSTUVWXYZabcdefghijklmnopqrstuvwxyz0123456789+/".

Definition base64_char (i : Z) : ascii :=
  match String.get (Z.to_nat i) BASE64_CHARS with
  | Some c => c
  | None => zero
  end.

Definition base64_value (ch : ascii) : Z :=
  let c := zcode ch in
  if (65 <=? c) && (c <=? 90) then c - 65
  else if (97 <=? c) && (c <=? 122) then c - 97 + 26
  else if (48 <=? c) && (c <=? 57) then c - 48 + 52
  else if c =? 43 then 62
  else if c =? 47 then 63
  else -1.

(** One iteration of the encoding loop: [remaining] is 1, 2 or at least 3. *)
Definition encode_block (first second third : Z) (remaining : N) : string :=
  let block := Z.lor (Z.lor (Z.shiftl first 16) (Z.shiftl second 8)) third in
  String (base64_char (Z.land (Z.shiftr block 18) 63))
  (String (base64_char (Z.land (Z.shiftr block 12) 63))
  (String (if (1 <? remaining)%N
           then base64_char (Z.land (Z.shiftr block 6) 63) else "="%char)
  (String (if (2 <? remaining)%N
           then base64_char (Z.land block 63) else "="%char) EmptyString))).

Fixpoint encode_groups (payload : string) : string :=
  match payload with
  | EmptyString => EmptyString
  | String a EmptyString => encode_block (zcode a) 0 0 1
  | String a (String b EmptyString) => encode_block (zcode a) (zcode b) 0 2
  | String a (String b (String c rest)) =>
      encode_block (zcode a) (zcode b) (zcode c) (3 + size_of rest) +:+ encode_groups rest
  end.

Definition max_payload_length : N := ((MAX_FRAME_LENGTH - 1) / 4) * 3.

Definition too_large_detail : string :=
  "Encoded frame exceeds " +:+ to_string MAX_FRAME_LENGTH +:+ " bytes".

Definition encode_frame (payload : string) : Result string :=
  if sempty payload then failure EmptyPayload "Cannot encode an empty payload"
  else if (max_payload_length <? size_of payload)%N
  then failure FrameTooLarge too_large_detail
  else
    let output := encode_groups payload +:+ String newline "" in
    if (MAX_FRAME_LENGTH <? size_of output)%N
    then failure FrameTooLarge too_large_detail
    else success output.

(** One iteration of the decoding loop: the characters it appends, or the
    failure it returns. *)
Definition decode_block (c0 c1 c2 c3 : ascii) (final_group : bool) : Result string :=
  let v0 := base64_value c0 in
  let v1 := base64_value c1 in
  let pad2 := bool_decide (c2 = "="%char) in
  let pad3 := bool_decide (c3 = "="%char) in
  let v2 := if pad2 then 0 else base64_value c2 in
  let v3 := if pad3 then 0 else base64_value c3 in
  if (v0 <? 0) || (v1 <? 0) || (v2 <? 0) || (v3 <? 0)
     || (pad2 && negb pad3) || ((pad2 || pad3) && negb final_group)
  then failure InvalidBase64 "Frame contains invalid Base64 padding or characters"
  else if (pad2 && negb (Z.land v1 15 =? 0))
          || (pad3 && negb pad2 && negb (Z.land v2 3 =? 0))
  then failure InvalidBase64 "Frame uses non-canonical Base64 padding bits"
  else success
    (String (char_of (Z.lor (Z.shiftl v0 2) (Z.shiftr v1 4)))
      (if negb pad2 then
         String (char_of (Z.lor (Z.shiftl v1 4) (Z.shiftr v2 2)))
           (if negb pad3 then
              String (char_of (Z.lor (Z.shiftl v2 6) v3)) EmptyString
            else EmptyString)
       else EmptyString)).

(** The loop over groups of four. [decode_frame] has checked that the length is
    divisible by four, so the last case does not occur. *)
Fixpoint decode_groups (frame : string) : Result string :=
  match frame with
  | EmptyString => success EmptyString
  | String c0 (String c1 (String c2 (String c3 rest))) =>
      let group := decode_block c0 c1 c2 c3 (sempty rest) in
      match value group with
      | None => group
      | Some out =>
          let tail := decode_groups rest in
          match value tail with
          | None => tail
          | Some more => success (out +:+ more)
          end
      end
  | _ => failure InvalidBase64 "Base64 length must be divisible by four"
  end.

(** [if (!frame.empty() && frame.back() == ch) frame.remove_suffix(1);] *)
Definition strip_back (ch : ascii) (frame : string) : string :=
  if bool_decide (sback frame = Some ch) then remove_suffix 1 frame else frame.

Definition strip_line_end (frame : string) : string :=
  strip_back carriage_return (strip_back newline frame).

Definition decode_frame (frame0 : string) : Result string :=
  let frame := strip_line_end frame0 in
  if sempty frame then failure EmptyFrame "Frame is empty"
  else if (MAX_FRAME_LENGTH <? size_of frame + 1)%N
  then failure FrameTooLarge
         ("Frame exceeds " +:+ to_string MAX_FRAME_LENGTH +:+ " bytes")
  else if negb (size_of frame mod 4 =? 0)%N
  then failure InvalidBase64 "Base64 length must be divisible by four"
  else
    let decoded := decode_groups frame in
    match value decoded with
    | None => decoded
    | Some output =>
        if sempty output then failure EmptyPayload "Decoded payload is empty"
        else success output
    end.

(* ===================================================================== *)
(** * Lemmas: sextets *)

(** A payload is a sequence of three-byte groups and a shorter last one. *)
Lemma string_ind3 (P : string -> Prop) :
  P "" -> (forall a, P (String a "")) -> (forall a b, P (String a (String b ""))) ->
  (forall a b c s, P s -> P (String a (String b (String c s)))) -> forall s, P s.
Proof.
  intros H0 H1 H2 H3. fix IH 1.
  intros [|a [|b [|c s]]]; [apply H0|apply H1|apply H2|apply H3, IH].
Qed.

(** A frame body is a sequence of four-character groups. *)
Lemma string_ind4 (P : string -> Prop) :
  P "" -> (forall a b c d s, P s -> P (String a (String b (String c (String d s))))) ->
  forall s, (size_of s mod 4 = 0)%N -> P s.
Proof.
  intros H0 H4. fix IH 1. intros [|a [|b [|c [|d s]]]] Hm; [apply H0|clear IH; discriminate..|].
  apply H4, IH. clear IH. rewrite !size_of_cons in Hm.
  replace (1 + (1 + (1 + (1 + size_of s))))%N with (size_of s + 1 * 4)%N in Hm by lia.
  by rewrite N.Div0.mod_add in Hm.
Qed.

Lemma zcode_range c : 0 <= zcode c < 256.
Proof. unfold zcode. pose proof (code_lt c). lia. Qed.

Lemma char_of_zcode c : char_of (zcode c) = c.
Proof.
  unfold char_of. rewrite Z.mod_small by apply zcode_range. unfold zcode.
  rewrite N2Z.id. apply ascii_N_embedding.
Qed.

Lemma zcode_char_of z : 0 <= z < 256 -> zcode (char_of z) = z.
Proof.
  intros Hz. unfold zcode, char_of. rewrite Z.mod_small by done.
  rewrite code_ascii_of_N by lia. lia.
Qed.

(** Disjoint bit fields add up. *)
Lemma lor_shiftl_add a b n : 0 <= n -> 0 <= b < 2 ^ n -> Z.lor (Z.shiftl a n) b = a * 2 ^ n + b.
Proof.
  intros Hn Hb. pose proof (Z.add_lor_land (Z.shiftl a n) b) as Hadd.
  enough (Z.land (Z.shiftl a n) b = 0) as E.
  { rewrite Z.shiftl_mul_pow2 in * by done. lia. }
  apply Z.bits_inj'. intros i Hi.
  rewrite Z.land_spec, Z.bits_0, Z.shiftl_spec by done.
  destruct (Z.lt_ge_cases i n) as [Hlt|Hge].
  - by rewrite Z.testbit_neg_r by lia.
  - replace (Z.testbit b i) with false; [by rewrite andb_false_r|].
    symmetry. apply Z.testbit_false; [done|]. rewrite Z.div_small; [done|]. split; [lia|].
    eapply Z.lt_le_trans; [apply Hb|]. by apply Z.pow_le_mono_r.
Qed.

Lemma land_mod a n : 0 <= n -> Z.land a (2 ^ n - 1) = a mod 2 ^ n.
Proof. intros Hn. rewrite <- Z.land_ones by done. by rewrite Z.ones_equiv. Qed.

Ltac zdiv := Z.div_mod_to_equations; lia.

Section sextets.
Context (a b c : Z) (Ha : 0 <= a < 256) (Hb : 0 <= b < 256) (Hc : 0 <= c < 256).
Let block := Z.lor (Z.lor (Z.shiftl a 16) (Z.shiftl b 8)) c.

Lemma block_value : block = a * 65536 + b * 256 + c.
Proof.
  subst block. change 16 with (8 + 8). rewrite <- Z.shiftl_shiftl by lia.
  rewrite <- Z.shiftl_lor, (lor_shiftl_add a b 8), lor_shiftl_add by (change (2 ^ 8) with 256; lia).
  change (2 ^ 8) with 256. lia.
Qed.

Lemma block_sextets :
  Z.land (Z.shiftr block 18) 63 = a / 4 /\
  Z.land (Z.shiftr block 12) 63 = (a mod 4) * 16 + b / 16 /\
  Z.land (Z.shiftr block 6) 63 = (b mod 16) * 4 + c / 64 /\
  Z.land block 63 = c mod 64.
Proof.
  rewrite !Z.shiftr_div_pow2 by lia. change 63 with (2 ^ 6 - 1).
  rewrite !land_mod, block_value by lia.
  change (2 ^ 18) with 262144. change (2 ^ 12) with 4096. change (2 ^ 6) with 64.
  repeat split; zdiv.
Qed.
End sextets.

(** Reassembling the bytes from the sextets. *)
Lemma byte_first a b : 0 <= a < 256 -> 0 <= b < 256 ->
  (a / 4 * 4 + (a mod 4 * 16 + b / 16) / 16) mod 256 = a.
Proof.
  intros Ha Hb. assert ((a mod 4 * 16 + b / 16) / 16 = a mod 4) as ->.
  { rewrite Z.div_add_l by lia. rewrite Z.div_small; [lia|]. zdiv. }
  rewrite Z.mod_small; zdiv.
Qed.

Lemma byte_second a b c : 0 <= a < 256 -> 0 <= b < 256 -> 0 <= c < 256 ->
  ((a mod 4 * 16 + b / 16) * 16 + (b mod 16 * 4 + c / 64) / 4) mod 256 = b.
Proof.
  intros Ha Hb Hc. assert ((b mod 16 * 4 + c / 64) / 4 = b mod 16) as ->.
  { rewrite Z.div_add_l by lia. rewrite Z.div_small; [lia|]. zdiv. }
  replace ((a mod 4 * 16 + b / 16) * 16 + b mod 16) with (b + (a mod 4) * 256) by zdiv.
  rewrite Z.mod_add by lia. by apply Z.mod_small.
Qed.

Lemma byte_third b c : 0 <= b < 256 -> 0 <= c < 256 ->
  ((b mod 16 * 4 + c / 64) * 64 + c mod 64) mod 256 = c.
Proof.
  intros Hb Hc.
  replace ((b mod 16 * 4 + c / 64) * 64 + c mod 64) with (c + (b mod 16) * 256) by zdiv.
  rewrite Z.mod_add by lia. by apply Z.mod_small.
Qed.

Lemma base64_value_char i : 0 <= i < 64 -> base64_value (base64_char i) = i.
Proof.
  intros Hi. pose (P := fun n => base64_value (base64_char (Z.of_nat n)) =? Z.of_nat n).
  assert (forallb P (seq 0 64) = true) as H by (vm_compute; reflexivity).
  rewrite forallb_forall in H. specialize (H (Z.to_nat i)).
  unfold P in H. rewrite Z2Nat.id in H by lia. apply Z.eqb_eq, H.
  apply list_elem_of_In, elem_of_seq. lia.
Qed.

Lemma base64_char_not_pad i : 0 <= i < 64 -> base64_char i <> "="%char.
Proof.
  intros Hi E. pose proof (base64_value_char i Hi) as H. rewrite E in H.
  assert (base64_value "="%char = -1) by reflexivity. lia.
Qed.

Lemma base64_value_range ch : -1 <= base64_value ch < 64.
Proof.
  pose (P := fun c => (-1 <=? base64_value c) && (base64_value c <? 64)).
  assert (P ch = true) as H by (apply ascii_forall; vm_compute; reflexivity).
  unfold P in H. lia.
Qed.

Lemma base64_char_value ch : 0 <= base64_value ch -> base64_char (base64_value ch) = ch.
Proof.
  intros Hv.
  pose (P := fun c => (base64_value c <? 0) || bool_decide (base64_char (base64_value c) = c)).
  assert (P ch = true) as H by (apply ascii_forall; vm_compute; reflexivity).
  unfold P in H. apply orb_true_iff in H as [H|H]; [lia|].
  by apply bool_decide_eq_true in H.
Qed.

(* ===================================================================== *)
(** * Lemmas: one group *)

Lemma base64_value_pad : base64_value "="%char = -1.
Proof. reflexivity. Qed.

(** The arithmetic reading of the three bytes packed in four sextets. *)
Lemma pack_first v0 v1 : 0 <= v1 < 64 -> Z.lor (Z.shiftl v0 2) (Z.shiftr v1 4) = v0 * 4 + v1 / 16.
Proof.
  intros H1. rewrite Z.shiftr_div_pow2 by lia. change (2 ^ 4) with 16.
  rewrite lor_shiftl_add; change (2 ^ 2) with 4; zdiv.
Qed.
Lemma pack_second v1 v2 : 0 <= v2 < 64 -> Z.lor (Z.shiftl v1 4) (Z.shiftr v2 2) = v1 * 16 + v2 / 4.
Proof.
  intros H2. rewrite Z.shiftr_div_pow2 by lia. change (2 ^ 2) with 4.
  rewrite lor_shiftl_add; change (2 ^ 4) with 16; zdiv.
Qed.
Lemma pack_third v2 v3 : 0 <= v3 < 64 -> Z.lor (Z.shiftl v2 6) v3 = v2 * 64 + v3.
Proof. intros H3. rewrite lor_shiftl_add; change (2 ^ 6) with 64; lia. Qed.

Lemma char_of_mod z1 z2 : z1 mod 256 = z2 mod 256 -> char_of z1 = char_of z2.
Proof. intros H. unfold char_of. by rewrite H. Qed.

Lemma char_of_eq z c : z mod 256 = zcode c -> char_of z = c.
Proof.
  intros H. rewrite <- (char_of_zcode c). apply char_of_mod.
  rewrite H. symmetry. apply Z.mod_small, zcode_range.
Qed.

Lemma neg_ltb z : 0 <= z -> (z <? 0) = false.
Proof. intros. by apply Z.ltb_ge. Qed.

(** Decoding a block of encoded sextets, by the number of padding characters. *)
Lemma decode_block_0 s0 s1 s2 s3 fin :
  0 <= s0 < 64 -> 0 <= s1 < 64 -> 0 <= s2 < 64 -> 0 <= s3 < 64 ->
  decode_block (base64_char s0) (base64_char s1) (base64_char s2) (base64_char s3) fin =
  success (String (char_of (s0 * 4 + s1 / 16)) (String (char_of (s1 * 16 + s2 / 4))
    (String (char_of (s2 * 64 + s3)) ""))).
Proof.
  intros H0 H1 H2 H3. unfold decode_block. rewrite !base64_value_char by done.
  rewrite (bool_decide_false (base64_char s2 = _)) by by apply base64_char_not_pad.
  rewrite (bool_decide_false (base64_char s3 = _)) by by apply base64_char_not_pad.
  rewrite !neg_ltb by lia. simpl.
  by rewrite pack_first, pack_second, pack_third.
Qed.

Lemma decode_block_1 s0 s1 s2 :
  0 <= s0 < 64 -> 0 <= s1 < 64 -> 0 <= s2 < 64 -> s2 mod 4 = 0 ->
  decode_block (base64_char s0) (base64_char s1) (base64_char s2) "="%char true =
  success (String (char_of (s0 * 4 + s1 / 16)) (String (char_of (s1 * 16 + s2 / 4)) "")).
Proof.
  intros H0 H1 H2 Hm. unfold decode_block. rewrite !base64_value_char by done.
  rewrite (bool_decide_false (base64_char s2 = _)) by by apply base64_char_not_pad.
  rewrite (bool_decide_true ("="%char = _)) by done.
  rewrite !neg_ltb by lia. simpl.
  change 3 with (2 ^ 2 - 1). rewrite land_mod by lia. change (2 ^ 2) with 4.
  rewrite Hm. simpl. by rewrite pack_first, pack_second.
Qed.

Lemma decode_block_2 s0 s1 :
  0 <= s0 < 64 -> 0 <= s1 < 64 -> s1 mod 16 = 0 ->
  decode_block (base64_char s0) (base64_char s1) "="%char "="%char true =
  success (String (char_of (s0 * 4 + s1 / 16)) "").
Proof.
  intros H0 H1 Hm. unfold decode_block. rewrite !base64_value_char by done.
  rewrite (bool_decide_true ("="%char = _)) by done. rewrite !neg_ltb by lia. simpl.
  change 15 with (2 ^ 4 - 1). rewrite land_mod by lia. change (2 ^ 4) with 16.
  rewrite Hm. simpl. by rewrite pack_first.
Qed.

(** What a decoded group looked like: the characters are the encoding of the
    decoded bytes, with the padding its position allows. *)
Inductive group_of : ascii -> ascii -> ascii -> ascii -> bool -> string -> Prop :=
| group_0 s0 s1 s2 s3 fin :
    0 <= s0 < 64 -> 0 <= s1 < 64 -> 0 <= s2 < 64 -> 0 <= s3 < 64 ->
    group_of (base64_char s0) (base64_char s1) (base64_char s2) (base64_char s3) fin
      (String (char_of (s0 * 4 + s1 / 16)) (String (char_of (s1 * 16 + s2 / 4))
        (String (char_of (s2 * 64 + s3)) "")))
| group_1 s0 s1 s2 :
    0 <= s0 < 64 -> 0 <= s1 < 64 -> 0 <= s2 < 64 -> s2 mod 4 = 0 ->
    group_of (base64_char s0) (base64_char s1) (base64_char s2) "="%char true
      (String (char_of (s0 * 4 + s1 / 16)) (String (char_of (s1 * 16 + s2 / 4)) ""))
| group_2 s0 s1 :
    0 <= s0 < 64 -> 0 <= s1 < 64 -> s1 mod 16 = 0 ->
    group_of (base64_char s0) (base64_char s1) "="%char "="%char true
      (String (char_of (s0 * 4 + s1 / 16)) "").

Lemma ltb_false_range ch : (base64_value ch <? 0) = false -> 0 <= base64_value ch < 64.
Proof. pose proof (base64_value_range ch). intros E%Z.ltb_ge. lia. Qed.

Lemma decode_block_group c0 c1 c2 c3 fin out :
  value (decode_block c0 c1 c2 c3 fin) = Some out -> group_of c0 c1 c2 c3 fin out.
Proof.
  unfold decode_block.
  do 2 (match goal with
        | |- context [if ?b then failure _ _ else _] => destruct b eqn:?E1; [done|]
        end).
  rename E0 into E2. intros [= <-]. rewrite !orb_false_iff in E1.
  destruct E1 as [[[[[E0%ltb_false_range E1%ltb_false_range] Ev2] Ev3] Ep] Ef].
  rewrite orb_false_iff in E2. destruct E2 as [En2 En3].
  rewrite <- (base64_char_value c0), <- (base64_char_value c1) by lia.
  rewrite !base64_value_char by lia. rewrite pack_first by lia.
  case_bool_decide as P2; case_bool_decide as P3; subst; simpl in *; try done.
  - destruct fin; [|done]. apply negb_false_iff, Z.eqb_eq in En2.
    apply group_2; try lia. rewrite <- En2. symmetry. by apply (land_mod _ 4).
  - destruct fin; [|done]. apply ltb_false_range in Ev2.
    apply negb_false_iff, Z.eqb_eq in En3.
    rewrite pack_second, <- (base64_char_value c2), base64_value_char by lia.
    apply group_1; try lia. rewrite <- En3. symmetry. by apply (land_mod _ 2).
  - apply ltb_false_range in Ev2, Ev3.
    rewrite pack_second, pack_third, <- (base64_char_value c2), <- (base64_char_value c3) by lia.
    rewrite !base64_value_char by lia. by apply group_0.
Qed.

Lemma group_of_out_nonempty c0 c1 c2 c3 fin out : group_of c0 c1 c2 c3 fin out -> out <> "".
Proof. by destruct 1. Qed.

(* ===================================================================== *)
(** * Lemmas: the two loops *)

Lemma encode_groups_cons3 a b c rest :
  encode_groups (String a (String b (String c rest))) =
  encode_block (zcode a) (zcode b) (zcode c) (3 + size_of rest) +:+ encode_groups rest.
Proof. reflexivity. Qed.

Lemma decode_groups_cons c0 c1 c2 c3 rest out :
  value (decode_block c0 c1 c2 c3 (sempty rest)) = Some out ->
  decode_groups (String c0 (String c1 (String c2 (String c3 rest)))) =
  match value (decode_groups rest) with
  | None => decode_groups rest
  | Some more => success (out +:+ more)
  end.
Proof. intros H. simpl. by rewrite H. Qed.

(** The block the encoder writes, with its sextets in arithmetic form. *)
Lemma encode_block_chars a b c remaining :
  0 <= a < 256 -> 0 <= b < 256 -> 0 <= c < 256 ->
  encode_block a b c remaining =
  String (base64_char (a / 4)) (String (base64_char ((a mod 4) * 16 + b / 16))
   (String (if (1 <? remaining)%N then base64_char ((b mod 16) * 4 + c / 64) else "="%char)
   (String (if (2 <? remaining)%N then base64_char (c mod 64) else "="%char) ""))).
Proof.
  intros Ha Hb Hc. destruct (block_sextets a b c Ha Hb Hc) as (H0 & H1 & H2 & H3).
  unfold encode_block. by rewrite H0, H1, H2, H3.
Qed.

Ltac zchar :=
  apply char_of_eq; first [apply byte_first | apply byte_second | apply byte_third]; lia.

Lemma decode_encode_groups payload : decode_groups (encode_groups payload) = success payload.
Proof.
  induction payload as [|a|a b|a b c s IH] using string_ind3; [done|..].
  - pose proof (zcode_range a).
    change (encode_groups _) with (encode_block (zcode a) 0 0 1).
    rewrite encode_block_chars by lia. cbn [N.ltb N.compare Pos.compare Pos.compare_cont].
    erewrite decode_groups_cons; [|rewrite decode_block_2 by zdiv; reflexivity].
    change (value (decode_groups "")) with (Some ""). cbv iota. rewrite sapp_nil_r. do 2 f_equal. zchar.
  - pose proof (zcode_range a). pose proof (zcode_range b).
    change (encode_groups _) with (encode_block (zcode a) (zcode b) 0 2).
    rewrite encode_block_chars by lia. cbn [N.ltb N.compare Pos.compare Pos.compare_cont].
    erewrite decode_groups_cons; [|rewrite decode_block_1 by zdiv; reflexivity].
    change (value (decode_groups "")) with (Some ""). cbv iota. rewrite sapp_nil_r.
    do 2 f_equal; [zchar|]. f_equal. zchar.
  - pose proof (zcode_range a). pose proof (zcode_range b). pose proof (zcode_range c).
    rewrite encode_groups_cons3, encode_block_chars by lia.
    replace (1 <? 3 + size_of s)%N with true by (symmetry; apply N.ltb_lt; lia).
    replace (2 <? 3 + size_of s)%N with true by (symmetry; apply N.ltb_lt; lia).
    rewrite !sapp_cons, sapp_nil_l.
    erewrite decode_groups_cons; [|rewrite decode_block_0 by zdiv; reflexivity].
    rewrite IH. change (value (success s)) with (Some s). cbv iota. rewrite !sapp_cons, sapp_nil_l. do 2 f_equal; [zchar|]. f_equal; [zchar|]. f_equal. zchar.
Qed.

Lemma zcode_char_of_mod z : zcode (char_of z) = z mod 256.
Proof.
  rewrite <- (zcode_char_of (z mod 256)) by (apply Z.mod_pos_bound; lia).
  f_equal. apply char_of_mod. by rewrite Z.mod_mod.
Qed.

(** The sextets read back from the reassembled bytes. *)
Lemma sextet_bytes s0 s1 s2 s3 :
  0 <= s0 < 64 -> 0 <= s1 < 64 -> 0 <= s2 < 64 -> 0 <= s3 < 64 ->
  let a := zcode (char_of (s0 * 4 + s1 / 16)) in
  let b := zcode (char_of (s1 * 16 + s2 / 4)) in
  let c := zcode (char_of (s2 * 64 + s3)) in
  a / 4 = s0 /\ (a mod 4) * 16 + b / 16 = s1 /\
  (b mod 16) * 4 + c / 64 = s2 /\ c mod 64 = s3.
Proof.
  intros H0 H1 H2 H3. rewrite !zcode_char_of_mod. simpl.
  rewrite (Z.mod_small (s0 * 4 + s1 / 16)) by zdiv.
  replace ((s1 * 16 + s2 / 4) mod 256) with ((s1 mod 16) * 16 + s2 / 4) by zdiv.
  replace ((s2 * 64 + s3) mod 256) with ((s2 mod 4) * 64 + s3) by zdiv.
  rewrite (Z.div_add_l (s1 mod 16)), (Z.div_add_l (s2 mod 4)), (Z.div_add_l s0) by lia.
  repeat split; zdiv.
Qed.

Lemma encode_group_0 a b c rest s0 s1 s2 s3 :
  0 <= s0 < 64 -> 0 <= s1 < 64 -> 0 <= s2 < 64 -> 0 <= s3 < 64 ->
  a = char_of (s0 * 4 + s1 / 16) -> b = char_of (s1 * 16 + s2 / 4) ->
  c = char_of (s2 * 64 + s3) ->
  encode_groups (String a (String b (String c rest))) =
  String (base64_char s0) (String (base64_char s1) (String (base64_char s2)
    (String (base64_char s3) (encode_groups rest)))).
Proof.
  intros H0 H1 H2 H3 -> -> ->.
  destruct (sextet_bytes s0 s1 s2 s3 H0 H1 H2 H3) as (E0 & E1 & E2 & E3).
  rewrite encode_groups_cons3, encode_block_chars by apply zcode_range.
  rewrite E0, E1, E2, E3.
  replace (1 <? 3 + size_of rest)%N with true by (symmetry; apply N.ltb_lt; lia).
  replace (2 <? 3 + size_of rest)%N with true by (symmetry; apply N.ltb_lt; lia).
  by rewrite !sapp_cons, sapp_nil_l.
Qed.

Lemma encode_group_1 s0 s1 s2 :
  0 <= s0 < 64 -> 0 <= s1 < 64 -> 0 <= s2 < 64 -> s2 mod 4 = 0 ->
  encode_groups (String (char_of (s0 * 4 + s1 / 16))
    (String (char_of (s1 * 16 + s2 / 4)) "")) =
  String (base64_char s0) (String (base64_char s1) (String (base64_char s2)
    (String "="%char ""))).
Proof.
  intros H0 H1 H2 Hm.
  destruct (sextet_bytes s0 s1 s2 0 H0 H1 H2 ltac:(lia)) as (E0 & E1 & E2 & _).
  rewrite (zcode_char_of_mod (s2 * 64 + 0)) in E2.
  replace ((s2 * 64 + 0) mod 256 / 64) with (0 / 64) in E2 by zdiv.
  change (encode_groups _) with
    (encode_block (zcode (char_of (s0 * 4 + s1 / 16))) (zcode (char_of (s1 * 16 + s2 / 4))) 0 2).
  rewrite encode_block_chars by (apply zcode_range || lia). by rewrite E0, E1, E2.
Qed.

Lemma encode_group_2 s0 s1 :
  0 <= s0 < 64 -> 0 <= s1 < 64 -> s1 mod 16 = 0 ->
  encode_groups (String (char_of (s0 * 4 + s1 / 16)) "") =
  String (base64_char s0) (String (base64_char s1) (String "="%char (String "="%char ""))).
Proof.
  intros H0 H1 Hm.
  destruct (sextet_bytes s0 s1 0 0 H0 H1 ltac:(lia) ltac:(lia)) as (E0 & E1 & _).
  rewrite (zcode_char_of_mod (s1 * 16 + 0 / 4)) in E1.
  replace ((s1 * 16 + 0 / 4) mod 256 / 16) with (0 / 16) in E1 by zdiv.
  change (encode_groups _) with (encode_block (zcode (char_of (s0 * 4 + s1 / 16))) 0 0 1).
  rewrite encode_block_chars by (apply zcode_range || lia). by rewrite E0, E1.
Qed.

(** Decoding is canonical: only the encoder's own output decodes. *)
Lemma encode_decode_groups frame payload :
  (size_of frame mod 4 = 0)%N ->
  value (decode_groups frame) = Some payload -> encode_groups payload = frame.
Proof.
  intros Hm. revert payload. pattern frame. revert Hm.
  apply string_ind4; clear frame; [by intros payload [= <-]|].
  intros c0 c1 c2 c3 rest IH payload. destruct (value (decode_block c0 c1 c2 c3 (sempty rest))) as [out|] eqn:E.
  2: { simpl. rewrite E. by rewrite E. }
  rewrite (decode_groups_cons _ _ _ _ _ _ E).
  destruct (value (decode_groups rest)) as [more|] eqn:Em; [|by rewrite Em].
  intros [= <-]. specialize (IH more eq_refl).
  apply decode_block_group in E. remember (sempty rest) as fin eqn:Hfin.
  destruct E as [s0 s1 s2 s3 fin H0 H1 H2 H3|s0 s1 s2 H0 H1 H2 Hz|s0 s1 H0 H1 Hz].
  - rewrite !sapp_cons, sapp_nil_l. by erewrite encode_group_0, IH.
  - destruct rest; [|done]. injection Em as <-. rewrite sapp_nil_r. by apply encode_group_1.
  - destruct rest; [|done]. injection Em as <-. rewrite sapp_nil_r. by apply encode_group_2.
Qed.

(* ===================================================================== *)
(** * Lemmas: shape and size of a frame *)

Definition frame_char (c : ascii) : bool :=
  (0 <=? base64_value c) || bool_decide (c = "="%char).

Lemma frame_char_base64 i : 0 <= i < 64 -> frame_char (base64_char i) = true.
Proof. intros Hi. unfold frame_char. rewrite base64_value_char by done. lia. Qed.

Lemma encode_groups_chars payload : sall frame_char (encode_groups payload) = true.
Proof.
  induction payload as [|a|a b|a b c s IH] using string_ind3; [done|..].
  - pose proof (zcode_range a). change (encode_groups _) with (encode_block (zcode a) 0 0 1).
    rewrite encode_block_chars by lia. cbn [sall N.ltb N.compare Pos.compare Pos.compare_cont].
    rewrite !frame_char_base64 by zdiv. reflexivity.
  - pose proof (zcode_range a). pose proof (zcode_range b).
    change (encode_groups _) with (encode_block (zcode a) (zcode b) 0 2).
    rewrite encode_block_chars by lia. cbn [sall N.ltb N.compare Pos.compare Pos.compare_cont].
    rewrite !frame_char_base64 by zdiv. reflexivity.
  - rewrite encode_groups_cons3, sall_app, IH, encode_block_chars by apply zcode_range.
    pose proof (zcode_range a). pose proof (zcode_range b). pose proof (zcode_range c).
    replace (1 <? 3 + size_of s)%N with true by (symmetry; apply N.ltb_lt; lia).
    replace (2 <? 3 + size_of s)%N with true by (symmetry; apply N.ltb_lt; lia).
    cbn [sall]. rewrite !frame_char_base64 by zdiv. reflexivity.
Qed.

Lemma size_encode_block a b c r : size_of (encode_block a b c r) = 4%N.
Proof. reflexivity. Qed.

Lemma size_encode_groups payload :
  size_of (encode_groups payload) = (4 * ((size_of payload + 2) / 3))%N.
Proof.
  induction payload as [|a|a b|a b c s IH] using string_ind3; [done..|].
  rewrite encode_groups_cons3, size_of_app, size_encode_block, IH, !size_of_cons.
  replace (1 + (1 + (1 + size_of s)) + 2)%N with (1 * 3 + (size_of s + 2))%N by lia.
  rewrite N.div_add_l by lia. lia.
Qed.

Lemma encode_groups_mod4 payload : (size_of (encode_groups payload) mod 4 = 0)%N.
Proof. rewrite size_encode_groups, N.mul_comm. apply N.Div0.mod_mul. Qed.

Lemma encode_groups_nonempty payload : payload <> "" -> encode_groups payload <> "".
Proof. by destruct payload as [|a [|b [|c s]]]. Qed.

Lemma strip_back_other c s : sback s <> Some c -> strip_back c s = s.
Proof. intros H. unfold strip_back. by rewrite bool_decide_false. Qed.

Lemma strip_back_snoc c s : strip_back c (s +:+ String c "") = s.
Proof.
  unfold strip_back. rewrite sback_snoc, bool_decide_true by done.
  apply remove_suffix_snoc.
Qed.

Lemma encode_groups_no_back c payload :
  frame_char c = false -> sback (encode_groups payload) <> Some c.
Proof.
  intros Hc H. pose proof (sall_sback _ _ _ (encode_groups_chars payload) H). congruence.
Qed.

(** The reader accepts both line endings. *)
Lemma strip_encoded payload :
  strip_line_end (encode_groups payload +:+ String newline "") = encode_groups payload /\
  strip_line_end (encode_groups payload +:+ String carriage_return (String newline "")) =
    encode_groups payload.
Proof.
  unfold strip_line_end. split.
  - rewrite strip_back_snoc. apply strip_back_other. by apply encode_groups_no_back.
  - change (String carriage_return (String newline "")) with
      (String carriage_return "" +:+ String newline "").
    rewrite <- sapp_assoc, !strip_back_snoc. done.
Qed.

Lemma decode_encoded_body payload frame :
  payload <> "" -> (size_of payload <= max_payload_length)%N ->
  strip_line_end frame = encode_groups payload -> decode_frame frame = success payload.
Proof.
  intros Hne Hsz Hs. unfold decode_frame. rewrite Hs.
  rewrite (proj2 (sempty_false _)) by by apply encode_groups_nonempty.
  assert (max_payload_length = 3069%N) as Hmax by reflexivity.
  assert ((size_of payload + 2) / 3 < 1024)%N
    by (apply N.Div0.div_lt_upper_bound; lia).
  rewrite (proj2 (N.ltb_ge _ _)) by (rewrite size_encode_groups; unfold MAX_FRAME_LENGTH; ndiv_lia).
  rewrite encode_groups_mod4. simpl negb. rewrite decode_encode_groups. simpl.
  by rewrite (proj2 (sempty_false _)).
Qed.

(** [encode_frame] without its second size test, which cannot fire. *)
Lemma encode_frame_eq payload :
  encode_frame payload =
  if sempty payload then failure EmptyPayload "Cannot encode an empty payload"
  else if (max_payload_length <? size_of payload)%N then failure FrameTooLarge too_large_detail
  else success (encode_groups payload +:+ String newline "").
Proof.
  unfold encode_frame. destruct (sempty payload); [done|].
  destruct (max_payload_length <? size_of payload)%N eqn:E; [done|].
  apply N.ltb_ge in E. assert (max_payload_length = 3069%N) as Hmax by reflexivity.
  assert ((size_of payload + 2) / 3 < 1024)%N by (apply N.Div0.div_lt_upper_bound; lia).
  rewrite (proj2 (N.ltb_ge _ _)); [done|].
  rewrite size_of_app, size_encode_groups. unfold MAX_FRAME_LENGTH. change (size_of (String newline "")) with 1%N. ndiv_lia.
Qed.

Lemma encode_frame_success payload frame :
  value (encode_frame payload) = Some frame ->
  payload <> "" /\ (size_of payload <= max_payload_length)%N /\
  frame = encode_groups payload +:+ String newline "".
Proof.
  rewrite encode_frame_eq. destruct (sempty payload) eqn:E; [done|].
  destruct (_ <? _)%N eqn:E2; [done|]. intros [= <-].
  apply sempty_false in E. apply N.ltb_ge in E2. done.
Qed.

Lemma encode_frame_ok payload :
  payload <> "" -> (size_of payload <= max_payload_length)%N ->
  encode_frame payload = success (encode_groups payload +:+ String newline "").
Proof.
  intros Hne Hsz. rewrite encode_frame_eq.
  rewrite (proj2 (sempty_false _)) by done. by rewrite (proj2 (N.ltb_ge _ _)).
Qed.

(** Every nonempty payload up to the limit has a frame the reader decodes. *)
Lemma decode_encode_frame payload frame :
  value (encode_frame payload) = Some frame -> decode_frame frame = success payload.
Proof.
  intros (Hne & Hsz & ->)%encode_frame_success.
  apply decode_encoded_body; [done..|]. apply strip_encoded.
Qed.

Lemma decode_block_error c0 c1 c2 c3 fin :
  value (decode_block c0 c1 c2 c3 fin) = None ->
  error (decode_block c0 c1 c2 c3 fin) = InvalidBase64.
Proof. unfold decode_block. by repeat case_match. Qed.

Lemma decode_groups_error frame :
  value (decode_groups frame) = None -> error (decode_groups frame) = InvalidBase64.
Proof.
  revert frame. fix IH 1. intros [|c0 [|c1 [|c2 [|c3 rest]]]]; [clear IH; done..|].
  simpl. specialize (IH rest).
  destruct (value (decode_block c0 c1 c2 c3 (sempty rest))) eqn:E.
  - destruct (value (decode_groups rest)) eqn:Er; [done|]. intros _. by apply IH.
  - intros _. by apply decode_block_error.
Qed.

Lemma decode_frame_canonical frame payload :
  value (decode_frame frame) = Some payload ->
  encode_frame payload = success (strip_line_end frame +:+ String newline "").
Proof.
  unfold decode_frame. destruct (sempty (strip_line_end frame)); [done|].
  destruct (_ <? _)%N eqn:Esz; [done|]. apply N.ltb_ge in Esz.
  destruct (negb _) eqn:Emod; [done|]. apply negb_false_iff, N.eqb_eq in Emod.
  destruct (value (decode_groups (strip_line_end frame))) as [out|] eqn:E; [|by rewrite E].
  destruct (sempty out) eqn:Eout; [done|]. intros [= <-].
  apply encode_decode_groups in E; [|done]. rewrite <- E.
  apply sempty_false in Eout. apply encode_frame_ok; [done|].
  rewrite <- E, size_encode_groups in Esz. unfold MAX_FRAME_LENGTH in Esz.
  change max_payload_length with 3069%N.
  apply N.nlt_ge. intros Hlt.
  assert (1024 <= (size_of out + 2) / 3)%N by (apply N.div_le_lower_bound; lia).
  ndiv_lia.
Qed.

Lemma decode_frame_no_error frame :
  error (decode_frame frame) = ErrNone -> value (decode_frame frame) <> None.
Proof.
  unfold decode_frame. destruct (sempty _); [done|]. destruct (_ <? _)%N; [done|].
  destruct (negb _); [done|].
  destruct (value (decode_groups _)) as [out|] eqn:Eg; [by destruct (sempty out)|].
  apply decode_groups_error in Eg. by rewrite Eg.
Qed.

(** The line [std::getline] makes of a frame. *)
Definition line_of (wire : string) : string := remove_suffix 1 wire.

Lemma decode_line payload frame :
  value (encode_frame payload) = Some frame -> decode_frame (line_of frame) = success payload.
Proof.
  intros (Hne & Hsz & ->)%encode_frame_success. unfold line_of. rewrite remove_suffix_snoc.
  apply decode_encoded_body; [done..|]. unfold strip_line_end.
  rewrite (strip_back_other newline) by by apply encode_groups_no_back.
  apply strip_back_other. by apply encode_groups_no_back.
Qed.

(* ===================================================================== *)
(** * Theorems *)

(** Round trip of the frame codec. Whatever payload [encode_frame] accepts,
    [decode_frame] returns exactly that payload from the frame, and also when
    the line reached the reader with CR LF, or with its line end removed. *)
Theorem frame_round_trip payload frame :
  value (encode_frame payload) = Some frame ->
  decode_frame frame = success payload /\
  decode_frame (remove_suffix 1 frame) = success payload /\
  decode_frame (remove_suffix 1 frame +:+ String carriage_return (String newline "")) =
    success payload.
Proof.
  intros H. pose proof (decode_encode_frame _ _ H) as Hd.
  apply encode_frame_success in H as (Hne & Hsz & ->). rewrite remove_suffix_snoc.
  split; [done|]. split; (apply decode_encoded_body; [done..|]).
  - unfold strip_line_end. rewrite (strip_back_other newline) by by apply encode_groups_no_back.
    apply strip_back_other. by apply encode_groups_no_back.
  - apply strip_encoded.
Qed.

Lemma frame_round_trip_witness :
  let frame := "aGk=" +:+ String newline "" in
  decode_frame frame = success "hi" /\
  decode_frame (remove_suffix 1 frame) = success "hi" /\
  decode_frame (remove_suffix 1 frame +:+ String carriage_return (String newline "")) =
    success "hi".
Proof. apply (frame_round_trip "hi"). vm_compute. reflexivity. Defined.

(** C36: the codec is canonical. A line that decodes is, up to its line end,
    exactly the frame [encode_frame] produces for the decoded payload: no two
    different frame bodies carry the same payload. *)
Theorem frame_canonical frame payload :
  value (decode_frame frame) = Some payload ->
  encode_frame payload = success (strip_line_end frame +:+ String newline "").
Proof. apply decode_frame_canonical. Qed.

Lemma frame_canonical_witness :
  encode_frame "hi" = success (strip_line_end "aGk=" +:+ String newline "").
Proof. apply (frame_canonical "aGk="). vm_compute. reflexivity. Defined.

(** Complete behaviour of [encode_frame]. It fails exactly on the empty
    payload and on payloads over 3069 bytes, each with its own error; otherwise
    the frame fits [MAX_FRAME_LENGTH] (the second size test never fires), has
    four characters per three bytes, and its only newline is the last character,
    so that reading until the newline returns one whole frame. *)
Theorem encode_frame_spec payload :
  (payload = "" -> error (encode_frame payload) = EmptyPayload) /\
  ((3069 < size_of payload)%N -> error (encode_frame payload) = FrameTooLarge) /\
  (payload <> "" -> (size_of payload <= 3069)%N ->
   exists body, encode_frame payload = success (body +:+ String newline "") /\
     free_of newline body = true /\
     size_of body = (4 * ((size_of payload + 2) / 3))%N /\
     (size_of (body +:+ String newline "") <= MAX_FRAME_LENGTH)%N).
Proof.
  rewrite encode_frame_eq. change max_payload_length with 3069%N. split; [by intros ->|].
  split.
  - intros Hsz. destruct payload; [by rewrite size_of_nil in Hsz|]. simpl sempty. cbv iota.
    by rewrite (proj2 (N.ltb_lt _ _)).
  - intros Hne Hsz. rewrite (proj2 (sempty_false _)), (proj2 (N.ltb_ge _ _)) by done.
    exists (encode_groups payload). split; [done|]. split.
    { by eapply free_of_impl; [|apply encode_groups_chars]. }
    split; [apply size_encode_groups|].
    assert ((size_of payload + 2) / 3 < 1024)%N by (apply N.Div0.div_lt_upper_bound; lia).
    rewrite size_of_app, size_encode_groups. unfold MAX_FRAME_LENGTH. change (size_of (String newline "")) with 1%N. ndiv_lia.
Qed.

Lemma encode_frame_spec_witness :
  exists body, encode_frame "hi" = success (body +:+ String newline "") /\
    free_of newline body = true /\ size_of body = (4 * ((size_of "hi" + 2) / 3))%N /\
    (size_of (body +:+ String newline "") <= MAX_FRAME_LENGTH)%N.
Proof. apply (encode_frame_spec "hi"); [discriminate|vm_compute; discriminate]. Defined.

(** C37: complete behaviour of [decode_frame]: an empty body and an oversized one
    give their own errors, and any other body either is the encoding of a
    nonempty payload of at most 3069 bytes, which is returned, or gives
    [InvalidBase64]; the [EmptyPayload] exit is never taken. *)
Theorem decode_frame_spec frame :
  let body := strip_line_end frame in
  (body = "" -> error (decode_frame frame) = EmptyFrame) /\
  ((4095 < size_of body)%N -> error (decode_frame frame) = FrameTooLarge) /\
  (body <> "" -> (size_of body <= 4095)%N ->
   (exists payload, decode_frame frame = success payload /\ payload <> "" /\
      (size_of payload <= 3069)%N /\ body = encode_groups payload) \/
   (value (decode_frame frame) = None /\ error (decode_frame frame) = InvalidBase64 /\
    forall payload, body <> encode_groups payload)).
Proof.
  intros body. split; [|split].
  - unfold decode_frame. fold body. by intros ->.
  - intros Hsz. unfold decode_frame. fold body.
    destruct body; [by rewrite size_of_nil in Hsz|]. simpl sempty. cbv iota.
    rewrite (proj2 (N.ltb_lt _ _)); [done|]. unfold MAX_FRAME_LENGTH. lia.
  - intros Hne Hsz. destruct (value (decode_frame frame)) as [payload|] eqn:E.
    + left. pose proof (decode_frame_canonical _ _ E) as Hc.
      destruct (encode_frame_success payload (body +:+ String newline "")) as (H1 & H2 & H3);
        [by rewrite Hc|].
      exists payload. assert (body = encode_groups payload) as Hb.
      { apply (f_equal (remove_suffix 1)) in H3. by rewrite !remove_suffix_snoc in H3. }
      split; [by apply decode_encoded_body|done].
    + right. split; [done|]. unfold decode_frame in E |- *. fold body in E |- *.
      rewrite (proj2 (sempty_false _)) in E |- * by done.
      rewrite (proj2 (N.ltb_ge _ _)) in E |- * by (unfold MAX_FRAME_LENGTH; lia).
      assert (forall payload, body <> encode_groups payload) as Hno; [|split; [|done]].
      { intros payload Hb. rewrite Hb, encode_groups_mod4, decode_encode_groups in E.
        simpl in E. destruct payload; [|done]. done. }
      destruct (negb _) eqn:Em; [done|]. apply negb_false_iff, N.eqb_eq in Em.
      destruct (value (decode_groups body)) as [out|] eqn:Eg.
      * destruct (sempty out) eqn:Eo; [|done]. apply sempty_spec in Eo. subst out.
        exfalso. apply (Hno ""). symmetry. by apply encode_decode_groups.
      * by apply decode_groups_error.
Qed.

Lemma decode_frame_spec_witness :
  (exists payload, decode_frame "aGk=" = success payload /\ payload <> "" /\
     (size_of payload <= 3069)%N /\ strip_line_end "aGk=" = encode_groups payload) \/
  (value (decode_frame "aGk=") = None /\ error (decode_frame "aGk=") = InvalidBase64 /\
   forall payload, strip_line_end "aGk=" <> encode_groups payload).
Proof. apply (decode_frame_spec "aGk="); [discriminate|vm_compute; discriminate]. Defined.
