(* ===== verification/Message.v ===== *)
(** Protocol messages: the structs and variants of [src/protocol/protocol.h],
    the validators, [serialize], [parse_client_message], [parse_server_message]
    and the frame-level wrappers of [src/protocol/protocol.cpp]. The scanning
    loops keep the code's index arithmetic, with a fuel of one step per
    character, and are proved equal to structural reference functions. *)

From S2P Require Import Prelude Frame.
Local Open Scope string_scope.

(* ===================================================================== *)
(** * Message types *)

(** [RoomId] is [std::uint64_t]. *)
Abbreviation RoomId := N.

Module Client.
Inductive message :=
| Hello (version : N)
| Authenticate (password : string)
| Identify (nickname public_key_hex : string)
| IdentityProof (signature_hex : string)
| Leave
| Disconnect
| ListRooms
| CreateRoom (name : string)
| JoinRoom (name : string)
| TopicRequest (topic : option string)
| Chat (body : string)
| Whisper (target body : string)
| KickRequest (nickname reason : string).
End Client.

Record RoomSummary := MkRoomSummary {
  summary_id : RoomId;
  summary_name : string;
  summary_user_count : N;
}.

Module Server.
Inductive message :=
| Hello (version : N)
| AuthRequired
| AuthAccepted
| AuthRejected
| Challenge (challenge_hex : string)
| IdentityAccepted (fingerprint : string)
| JoinAccepted
| Banned
| NicknameTaken
| JoinRejected (reason : string)
| Kick (nickname reason : string)
| UserList (room_id : RoomId) (nicknames : list string)
| RoomList (rooms : list RoomSummary)
| RoomJoined (id : RoomId) (name topic : string)
| RoomTopic (room_id : RoomId) (topic : string)
| RoomText (room_id : RoomId) (body : string)
| Text (body : string)
| ServerError (reason : string).
End Server.

(* ===================================================================== *)
(** * Validators *)

Definition is_valid_nickname (nickname : string) : bool :=
  if sempty nickname || (31 <? size_of nickname)%N then false
  else negb (sany (fun ch => iscntrl ch || isspace ch
                    || Ascii.eqb ch "|" || Ascii.eqb ch ",") nickname).

Definition is_valid_text (text : string) (max_length : N) : bool :=
  if sempty text || (max_length <? size_of text)%N then false
  else negb (sany (fun ch => iscntrl ch && negb (Ascii.eqb ch tab)) text).

Definition is_valid_room_name (name : string) : bool :=
  if sempty name || (MAX_ROOM_NAME_LENGTH <? size_of name)%N then false
  else sall (fun ch => isalnum ch || Ascii.eqb ch "-" || Ascii.eqb ch "_") name.

Definition is_valid_room_topic (topic : string) : bool :=
  if (MAX_ROOM_TOPIC_LENGTH <? size_of topic)%N then false
  else negb (sany iscntrl topic).

Definition is_hex (text : string) (length : N) : bool :=
  (size_of text =? length)%N && sall isxdigit text.

(** The result and the [value] out-parameter. *)
Definition parse_unsigned (text : string) : bool * N :=
  let '(v, ec, ptr) := from_chars 64 text 0 in
  (negb (sempty text) && match ec with errc_ok => true | _ => false end && sempty ptr, v).

(* ===================================================================== *)
(** * Field scanning *)

Fixpoint split_fields_loop (fuel : nat) (payload : string) (start : nat)
    (fields : list string) : list string :=
  match fuel with
  | 0 => fields
  | S fuel' =>
      match sfind_from "|" payload start with
      | None => fields ++ [substr payload start]
      | Some delimiter =>
          split_fields_loop fuel' payload (delimiter + 1)
            (fields ++ [substr_n payload start (delimiter - start)])
      end
  end.

Definition split_fields (payload : string) : list string :=
  split_fields_loop (S (String.length payload)) payload 0 [].

Fixpoint rest_after_delimiter_loop (payload : string) (position n : nat) : option nat :=
  match n with
  | 0 => Some position
  | S n' =>
      match sfind_from "|" payload position with
      | None => None
      | Some p => rest_after_delimiter_loop payload (p + 1) n'
      end
  end.

Definition rest_after_delimiter (payload : string) (delimiter_number : nat) : string :=
  match rest_after_delimiter_loop payload 0 delimiter_number with
  | None => ""
  | Some position => substr payload position
  end.

Definition rest_after_command (payload : string) : string :=
  match sfind "|" payload with
  | None => ""
  | Some delimiter => substr payload (delimiter + 1)
  end.

(** [payload.substr(payload.find('|', payload.find('|') + 1) + 1)], used once the
    payload is known to have two delimiters; [npos + 1] is 0. *)
Definition after_second_delimiter (payload : string) : string :=
  let first := match sfind "|" payload with Some d => d + 1 | None => 0 end in
  match sfind_from "|" payload first with
  | Some d => substr payload (d + 1)
  | None => payload
  end.

(* ===================================================================== *)
(** * Serialization *)

Definition serialize_client (message : Client.message) : string :=
  match message with
  | Client.Hello version => "HELLO|" +:+ to_string version
  | Client.Authenticate password => "AUTH|" +:+ password
  | Client.Identify nickname key => "IDENTIFY|" +:+ nickname +:+ "|" +:+ key
  | Client.IdentityProof signature => "PROOF|" +:+ signature
  | Client.Leave => "LEAVE"
  | Client.Disconnect => "DISCONNECT"
  | Client.ListRooms => "ROOMS"
  | Client.CreateRoom name => "CREATE|" +:+ name
  | Client.JoinRoom name => "JOIN|" +:+ name
  | Client.TopicRequest (Some topic) => "TOPIC|" +:+ topic
  | Client.TopicRequest None => "TOPIC"
  | Client.Chat body => "MSG|" +:+ body
  | Client.Whisper target body => "WHISPER|" +:+ target +:+ "|" +:+ body
  | Client.KickRequest nickname reason => "KICK|" +:+ nickname +:+ "|" +:+ reason
  end.

Definition serialize_room (room : RoomSummary) : string :=
  to_string (summary_id room) +:+ "," +:+ summary_name room +:+ ","
  +:+ to_string (summary_user_count room).

Definition serialize_server (message : Server.message) : string :=
  match message with
  | Server.Hello version => "HELLO|" +:+ to_string version
  | Server.AuthRequired => "AUTH_REQUIRED"
  | Server.AuthAccepted => "AUTH_OK"
  | Server.AuthRejected => "AUTH_FAIL"
  | Server.Challenge challenge => "CHALLENGE|" +:+ challenge
  | Server.IdentityAccepted fingerprint => "IDENTITY_OK|" +:+ fingerprint
  | Server.JoinAccepted => "JOIN_OK"
  | Server.Banned => "BANNED"
  | Server.NicknameTaken => "NICK_TAKEN"
  | Server.JoinRejected reason => "JOIN_FAIL|" +:+ reason
  | Server.Kick nickname reason => "KICK|" +:+ nickname +:+ "|" +:+ reason
  | Server.UserList room_id nicknames =>
      "USERS|" +:+ to_string room_id +:+ "|" +:+ join_with "," nicknames
  | Server.RoomList rooms => "ROOMS|" +:+ join_with ";" (serialize_room <$> rooms)
  | Server.RoomJoined id name topic =>
      "ROOM|" +:+ to_string id +:+ "|" +:+ name +:+ "|" +:+ topic
  | Server.RoomTopic room_id topic => "TOPIC|" +:+ to_string room_id +:+ "|" +:+ topic
  | Server.RoomText room_id body => "ROOM_TEXT|" +:+ to_string room_id +:+ "|" +:+ body
  | Server.Text body => "TEXT|" +:+ body
  | Server.ServerError reason => "ERROR|" +:+ reason
  end.

(* ===================================================================== *)
(** * Parsing *)

Definition field (i : nat) (fields : list string) : string := nth i fields "".

(** The [HELLO] branch, the same in both parsers: the version, or the failure. *)
Definition parse_version (fields : list string) : Result N :=
  if negb (length fields =? 2)%nat
  then failure WrongFieldCount "HELLO requires one version field"
  else
    match from_chars 32 (field 1 fields) 0 with
    | (version, errc_ok, "") =>
        if negb (version =? VERSION)%N
        then failure UnsupportedVersion
               ("Protocol version " +:+ to_string version +:+ " is unsupported")
        else success version
    | _ => failure InvalidField "HELLO version must be an integer"
    end.

Definition map_result {A B} (f : A -> B) (r : Result A) : Result B :=
  MkResult (f <$> value r) (error r) (detail r).

Definition parse_client_message (payload : string) : Result Client.message :=
  if sempty payload then failure EmptyPayload "Client message is empty" else
  let fields := split_fields payload in
  let command := field 0 fields in
  if command =? "HELLO" then map_result Client.Hello (parse_version fields)
  else if command =? "AUTH" then
    if (length fields <? 2)%nat
    then failure WrongFieldCount "AUTH requires a password field"
    else
      let password := rest_after_command payload in
      if (63 <? size_of password)%N || sany iscntrl password
      then failure InvalidField "AUTH password is oversized or contains control characters"
      else success (Client.Authenticate password)
  else if command =? "IDENTIFY" then
    if negb (length fields =? 3)%nat
    then failure WrongFieldCount "IDENTIFY requires nickname and public key fields"
    else if negb (is_valid_nickname (field 1 fields)) || negb (is_hex (field 2 fields) 64)
    then failure InvalidField "IDENTIFY contains an invalid nickname or public key"
    else success (Client.Identify (field 1 fields) (field 2 fields))
  else if command =? "PROOF" then
    if negb (length fields =? 2)%nat
    then failure WrongFieldCount "PROOF requires one signature field"
    else if negb (is_hex (field 1 fields) 128)
    then failure InvalidField "PROOF signature is invalid"
    else success (Client.IdentityProof (field 1 fields))
  else if command =? "LEAVE" then
    if negb (length fields =? 1)%nat
    then failure WrongFieldCount "LEAVE does not accept fields"
    else success Client.Leave
  else if (command =? "DISCONNECT") || (command =? "ROOMS") then
    if negb (length fields =? 1)%nat
    then failure WrongFieldCount (command +:+ " does not accept fields")
    else if command =? "DISCONNECT" then success Client.Disconnect
    else success Client.ListRooms
  else if (command =? "CREATE") || (command =? "JOIN") then
    if negb (length fields =? 2)%nat
    then failure WrongFieldCount (command +:+ " requires one room name")
    else if negb (is_valid_room_name (field 1 fields))
    then failure InvalidField (command +:+ " contains an invalid room name")
    else if command =? "CREATE" then success (Client.CreateRoom (field 1 fields))
    else success (Client.JoinRoom (field 1 fields))
  else if command =? "TOPIC" then
    if (length fields =? 1)%nat then success (Client.TopicRequest None)
    else
      let topic := rest_after_command payload in
      if sempty topic || negb (is_valid_room_topic topic)
      then failure InvalidField
             "TOPIC text is empty, oversized, or contains control characters"
      else success (Client.TopicRequest (Some topic))
  else if command =? "MSG" then
    if (length fields <? 2)%nat then failure WrongFieldCount "MSG requires a body field"
    else
      let body := rest_after_command payload in
      if negb (is_valid_text body MAX_CHAT_LENGTH)
      then failure InvalidField
             "MSG body is empty, oversized, or contains control characters"
      else success (Client.Chat body)
  else if command =? "WHISPER" then
    if (length fields <? 3)%nat
    then failure WrongFieldCount "WHISPER requires target and body fields"
    else
      let body := after_second_delimiter payload in
      if negb (is_valid_nickname (field 1 fields)) || negb (is_valid_text body MAX_CHAT_LENGTH)
      then failure InvalidField "WHISPER contains an invalid target or body"
      else success (Client.Whisper (field 1 fields) body)
  else if command =? "KICK" then
    if (length fields <? 2)%nat || negb (is_valid_nickname (field 1 fields))
    then failure InvalidField "KICK requires a valid nickname"
    else
      let reason := if (2 <? length fields)%nat then rest_after_delimiter payload 2 else "" in
      if negb (sempty reason) && negb (is_valid_text reason MAX_CHAT_LENGTH)
      then failure InvalidField "KICK reason is oversized or contains control characters"
      else success (Client.KickRequest (field 1 fields) reason)
  else failure UnknownMessage ("Unknown client message type: " +:+ command).

(** The loop over the nicknames of [USERS]: [None] is the failure it returns. *)
Fixpoint parse_nicknames_loop (fuel : nat) (text : string) (start : nat)
    (nicknames : list string) : option (list string) :=
  match fuel with
  | 0 => Some nicknames
  | S fuel' =>
      if (start <? String.length text)%nat then
        let comma := sfind_from "," text start in
        let nickname := match comma with
                        | None => substr text start
                        | Some c => substr_n text start (c - start)
                        end in
        if negb (is_valid_nickname nickname) then None
        else match comma with
             | None => Some (nicknames ++ [nickname])%list
             | Some c => parse_nicknames_loop fuel' text (c + 1) (nicknames ++ [nickname])%list
             end
      else Some nicknames
  end.

(** One entry [id,name,count] of [ROOMS], or the text of the failure. *)
Definition parse_room_entry (entry : string) : RoomSummary + string :=
  match sfind "," entry with
  | None => inr "ROOMS contains a malformed entry"
  | Some first_comma =>
      match sfind_from "," entry (first_comma + 1) with
      | None => inr "ROOMS contains a malformed entry"
      | Some second_comma =>
          let name := substr_n entry (first_comma + 1) (second_comma - first_comma - 1) in
          let '(id_ok, id) := parse_unsigned (substr_n entry 0 first_comma) in
          let '(count_ok, count) := parse_unsigned (substr entry (second_comma + 1)) in
          if negb id_ok || (id =? 0)%N || negb (is_valid_room_name name) || negb count_ok
          then inr "ROOMS contains invalid room data"
          else inl (MkRoomSummary id name count)
      end
  end.

Fixpoint parse_rooms_loop (fuel : nat) (text : string) (start : nat)
    (rooms : list RoomSummary) : list RoomSummary + string :=
  match fuel with
  | 0 => inl rooms
  | S fuel' =>
      if (start <? String.length text)%nat then
        let semicolon := sfind_from ";" text start in
        let entry := match semicolon with
                     | None => substr text start
                     | Some c => substr_n text start (c - start)
                     end in
        match parse_room_entry entry with
        | inr d => inr d
        | inl room =>
            let rooms' := (rooms ++ [room])%list in
            if (MAX_ROOMS <? N.of_nat (length rooms'))%N
            then inr "ROOMS contains too many rooms"
            else match semicolon with
                 | None => inl rooms'
                 | Some c => parse_rooms_loop fuel' text (c + 1) rooms'
                 end
        end
      else inl rooms
  end.

(** A parsed room identifier is nonzero. *)
Definition parse_room_id (text : string) : option N :=
  let '(ok, id) := parse_unsigned text in
  if negb ok || (id =? 0)%N then None else Some id.

Definition parse_users (fields : list string) : Result Server.message :=
  if negb (length fields =? 3)%nat
  then failure WrongFieldCount "USERS requires room and list fields"
  else match parse_room_id (field 1 fields) with
  | None => failure InvalidField "USERS contains an invalid room ID"
  | Some room_id =>
      let names := field 2 fields in
      if bool_decide (sback names = Some ","%char)
      then failure InvalidField "USERS contains an empty nickname"
      else match parse_nicknames_loop (S (String.length names)) names 0 [] with
           | None => failure InvalidField "USERS contains an invalid nickname"
           | Some nicknames => success (Server.UserList room_id nicknames)
           end
  end.

Definition parse_rooms (fields : list string) : Result Server.message :=
  if negb (length fields =? 2)%nat
  then failure WrongFieldCount "ROOMS requires one list field"
  else match parse_rooms_loop (S (String.length (field 1 fields))) (field 1 fields) 0 [] with
       | inr d => failure InvalidField d
       | inl rooms => success (Server.RoomList rooms)
       end.

Definition parse_server_message (payload : string) : Result Server.message :=
  if sempty payload then failure EmptyPayload "Server message is empty" else
  let fields := split_fields payload in
  let command := field 0 fields in
  if command =? "HELLO" then map_result Server.Hello (parse_version fields)
  else if (command =? "AUTH_REQUIRED") || (command =? "AUTH_OK") || (command =? "AUTH_FAIL")
       || (command =? "JOIN_OK") || (command =? "BANNED") || (command =? "NICK_TAKEN") then
    if negb (length fields =? 1)%nat
    then failure WrongFieldCount (command +:+ " does not accept fields")
    else if command =? "AUTH_REQUIRED" then success Server.AuthRequired
    else if command =? "AUTH_OK" then success Server.AuthAccepted
    else if command =? "AUTH_FAIL" then success Server.AuthRejected
    else if command =? "JOIN_OK" then success Server.JoinAccepted
    else if command =? "BANNED" then success Server.Banned
    else success Server.NicknameTaken
  else if command =? "CHALLENGE" then
    if negb (length fields =? 2)%nat || negb (is_hex (field 1 fields) 64)
    then failure InvalidField "CHALLENGE must contain 32 bytes of hexadecimal data"
    else success (Server.Challenge (field 1 fields))
  else if command =? "IDENTITY_OK" then
    if negb (length fields =? 2)%nat || negb (is_hex (field 1 fields) 16)
    then failure InvalidField "IDENTITY_OK fingerprint is invalid"
    else success (Server.IdentityAccepted (field 1 fields))
  else if command =? "USERS" then parse_users fields
  else if command =? "ROOMS" then parse_rooms fields
  else if command =? "ROOM" then
    if (length fields <? 4)%nat
    then failure WrongFieldCount "ROOM requires ID, name, and topic fields"
    else
      let topic := rest_after_delimiter payload 3 in
      match parse_room_id (field 1 fields) with
      | Some id =>
          if negb (is_valid_room_name (field 2 fields)) || negb (is_valid_room_topic topic)
          then failure InvalidField "ROOM contains invalid room data"
          else success (Server.RoomJoined id (field 2 fields) topic)
      | None => failure InvalidField "ROOM contains invalid room data"
      end
  else if command =? "TOPIC" then
    if (length fields <? 3)%nat
    then failure WrongFieldCount "TOPIC requires room and topic fields"
    else
      let topic := rest_after_delimiter payload 2 in
      match parse_room_id (field 1 fields) with
      | Some id =>
          if negb (is_valid_room_topic topic)
          then failure InvalidField "TOPIC contains invalid room data"
          else success (Server.RoomTopic id topic)
      | None => failure InvalidField "TOPIC contains invalid room data"
      end
  else if command =? "ROOM_TEXT" then
    if (length fields <? 3)%nat
    then failure WrongFieldCount "ROOM_TEXT requires room and text fields"
    else
      let body := rest_after_delimiter payload 2 in
      match parse_room_id (field 1 fields) with
      | Some id =>
          if negb (is_valid_text body MAX_FRAME_LENGTH)
          then failure InvalidField "ROOM_TEXT contains invalid room data"
          else success (Server.RoomText id body)
      | None => failure InvalidField "ROOM_TEXT contains invalid room data"
      end
  else if command =? "KICK" then
    if (length fields <? 2)%nat || negb (is_valid_nickname (field 1 fields))
    then failure InvalidField "KICK requires a valid nickname"
    else
      let reason := if (2 <? length fields)%nat then after_second_delimiter payload else "" in
      if negb (sempty reason) && negb (is_valid_text reason MAX_CHAT_LENGTH)
      then failure InvalidField "KICK reason is oversized or contains control characters"
      else success (Server.Kick (field 1 fields) reason)
  else if (command =? "JOIN_FAIL") || (command =? "TEXT") || (command =? "ERROR") then
    if (length fields <? 2)%nat
    then failure WrongFieldCount (command +:+ " requires a text field")
    else
      let body := rest_after_command payload in
      if negb (is_valid_text body MAX_FRAME_LENGTH)
      then failure InvalidField
             (command +:+ " text is empty, oversized, or contains control characters")
      else if command =? "JOIN_FAIL" then success (Server.JoinRejected body)
      else if command =? "TEXT" then success (Server.Text body)
      else success (Server.ServerError body)
  else failure UnknownMessage ("Unknown server message type: " +:+ command).

(* ===================================================================== *)
(** * Frames of messages *)

Definition encode_client_frame (message : Client.message) : Result string :=
  let payload := serialize_client message in
  let validation := parse_client_message payload in
  match value validation with
  | None => failure (error validation) (detail validation)
  | Some _ => encode_frame payload
  end.

Definition encode_server_frame (message : Server.message) : Result string :=
  let payload := serialize_server message in
  let validation := parse_server_message payload in
  match value validation with
  | None => failure (error validation) (detail validation)
  | Some _ => encode_frame payload
  end.

Definition decode_message_frame {Message} (frame : string)
    (parser : string -> Result Message) : Result Message :=
  let decoded := decode_frame frame in
  match value decoded with
  | None => failure (error decoded) (detail decoded)
  | Some payload => parser payload
  end.

Definition decode_client_frame (frame : string) : Result Client.message :=
  decode_message_frame frame parse_client_message.
Definition decode_server_frame (frame : string) : Result Server.message :=
  decode_message_frame frame parse_server_message.

(* ===================================================================== *)
(** * Lemmas: scanning *)

Lemma sfind_from_eq c s pos : sfind_from c s pos = Nat.add pos <$> sfind c (sdrop pos s).
Proof. reflexivity. Qed.

Lemma split_fields_loop_eq fuel payload start fields :
  String.length payload - start < fuel ->
  split_fields_loop fuel payload start fields = (fields ++ split_on "|" (sdrop start payload))%list.
Proof.
  revert start fields. induction fuel as [|fuel IH]; intros start fields Hf; [lia|].
  cbn [split_fields_loop]. rewrite split_on_sfind, sfind_from_eq.
  destruct (sfind "|" (sdrop start payload)) as [i|] eqn:E; [|done].
  cbn [fmap option_fmap option_map]. apply sfind_Some in E as [E _]. apply (f_equal String.length) in E.
  rewrite slength_app in E. cbn [String.length] in E. rewrite slength_sdrop in E.
  rewrite IH by lia. rewrite <- app_assoc. cbn [app]. unfold substr_n.
  replace (start + i - start) with i by lia.
  rewrite sdrop_sdrop. by replace (start + i + 1) with (start + S i) by lia.
Qed.

(** The scanning loop computes the reference splitter. *)
Lemma split_fields_eq payload : split_fields payload = split_on "|" payload.
Proof. unfold split_fields. by rewrite split_fields_loop_eq by lia. Qed.

Lemma split_fields_cmd cmd rest :
  free_of "|" cmd = true -> split_fields (cmd +:+ String "|" rest) = cmd :: split_on "|" rest.
Proof. intros H. rewrite split_fields_eq. by apply split_on_app. Qed.

Lemma rest_after_command_eq cmd rest :
  free_of "|" cmd = true -> rest_after_command (cmd +:+ String "|" rest) = rest.
Proof.
  intros H. unfold rest_after_command. rewrite sfind_app_l by done. apply sdrop_app_cons.
Qed.

Lemma sfind_from_app p pos f c r :
  sdrop pos p = f +:+ String c r -> free_of c f = true ->
  sfind_from c p pos = Some (pos + String.length f) /\
  sdrop (pos + String.length f + 1) p = r.
Proof.
  intros Hp Hf. rewrite sfind_from_eq, Hp, sfind_app_l by done. split; [done|].
  replace (pos + String.length f + 1) with (pos + (String.length f + 1)) by lia.
  rewrite <- sdrop_sdrop, Hp. apply sdrop_app_cons.
Qed.

Lemma rest_loop_step p pos f r n :
  sdrop pos p = f +:+ String "|" r -> free_of "|" f = true ->
  rest_after_delimiter_loop p pos (S n) =
    rest_after_delimiter_loop p (pos + String.length f + 1) n /\
  sdrop (pos + String.length f + 1) p = r.
Proof.
  intros Hp Hf. destruct (sfind_from_app _ _ _ _ _ Hp Hf) as [H1 H2].
  simpl. by rewrite H1.
Qed.

Lemma rest_after_2 a b rest :
  free_of "|" a = true -> free_of "|" b = true ->
  rest_after_delimiter (a +:+ String "|" (b +:+ String "|" rest)) 2 = rest.
Proof.
  intros Ha Hb. set (p := a +:+ String "|" _). unfold rest_after_delimiter.
  destruct (rest_loop_step p 0 a (b +:+ String "|" rest) 1 eq_refl Ha) as [-> H1].
  destruct (rest_loop_step p _ b rest 0 H1 Hb) as [-> H2]. exact H2.
Qed.

Lemma rest_after_3 a b c rest :
  free_of "|" a = true -> free_of "|" b = true -> free_of "|" c = true ->
  rest_after_delimiter (a +:+ String "|" (b +:+ String "|" (c +:+ String "|" rest))) 3 = rest.
Proof.
  intros Ha Hb Hc. set (p := a +:+ String "|" _). unfold rest_after_delimiter.
  destruct (rest_loop_step p 0 a _ 2 eq_refl Ha) as [-> H1].
  destruct (rest_loop_step p _ b _ 1 H1 Hb) as [-> H2].
  destruct (rest_loop_step p _ c rest 0 H2 Hc) as [-> H3]. exact H3.
Qed.

Lemma after_second_eq a b rest :
  free_of "|" a = true -> free_of "|" b = true ->
  after_second_delimiter (a +:+ String "|" (b +:+ String "|" rest)) = rest.
Proof.
  intros Ha Hb. unfold after_second_delimiter. rewrite sfind_app_l by done.
  set (p := a +:+ String "|" _).
  assert (sdrop (String.length a + 1) p = b +:+ String "|" rest) as Hp by apply sdrop_app_cons.
  destruct (sfind_from_app p _ b _ rest Hp Hb) as [-> H2]. exact H2.
Qed.

Lemma parse_unsigned_to_string n :
  (n < 2 ^ 64)%N -> parse_unsigned (to_string n) = (true, n).
Proof.
  intros Hn. unfold parse_unsigned. rewrite from_chars_to_string by done.
  pose proof (to_string_nonempty n). by destruct (to_string n).
Qed.

Lemma parse_unsigned_bound s n : parse_unsigned s = (true, n) -> (n < 2 ^ 64)%N.
Proof.
  unfold parse_unsigned. destruct (from_chars 64 s 0) as [[v ec] ptr] eqn:E.
  intros [= H <-]. destruct ec; [|by destruct (sempty s)..].
  by eapply from_chars_ok.
Qed.

(* ===================================================================== *)
(** * Lemmas: what the validators guarantee *)

Lemma valid_nickname_chars n :
  is_valid_nickname n = true ->
  n <> "" /\ (size_of n <= 31)%N /\
  sall (fun ch => negb (iscntrl ch || isspace ch || Ascii.eqb ch "|" || Ascii.eqb ch ",")) n = true.
Proof.
  unfold is_valid_nickname. destruct (sempty n || _)%bool eqn:E; [done|].
  apply orb_false_iff in E as [H1 H2]. apply sempty_false in H1. apply N.ltb_ge in H2.
  rewrite sany_sall, negb_involutive. done.
Qed.

Lemma nickname_free_of c n :
  is_valid_nickname n = true -> (iscntrl c || isspace c || Ascii.eqb c "|" || Ascii.eqb c ",")%bool = true ->
  free_of c n = true.
Proof.
  intros (_ & _ & H)%valid_nickname_chars Hc. eapply free_of_impl; [|exact H]. simpl.
  by rewrite Hc.
Qed.

Lemma hex_free_of c s l : is_hex s l = true -> isxdigit c = false -> free_of c s = true.
Proof. intros [_ H]%andb_true_iff Hc. by eapply free_of_impl. Qed.

Lemma room_name_spec name :
  is_valid_room_name name = true ->
  name <> "" /\ (size_of name <= 32)%N /\
  sall (fun ch => isalnum ch || Ascii.eqb ch "-" || Ascii.eqb ch "_")%bool name = true.
Proof.
  unfold is_valid_room_name. destruct (sempty name || _)%bool eqn:E; [done|].
  apply orb_false_iff in E as [H1 H2]. apply sempty_false in H1. by apply N.ltb_ge in H2.
Qed.

Lemma room_name_free_of c name :
  is_valid_room_name name = true ->
  (isalnum c || Ascii.eqb c "-" || Ascii.eqb c "_")%bool = false -> free_of c name = true.
Proof. intros (_ & _ & H)%room_name_spec Hc. eapply free_of_impl; [|exact H]. exact Hc. Qed.

Lemma valid_text_spec s l :
  is_valid_text s l = true ->
  s <> "" /\ (size_of s <= l)%N.
Proof.
  unfold is_valid_text. destruct (sempty s || _)%bool eqn:E; [done|].
  apply orb_false_iff in E as [H1 H2]. apply sempty_false in H1. by apply N.ltb_ge in H2.
Qed.

Lemma room_topic_size s : is_valid_room_topic s = true -> (size_of s <= 200)%N.
Proof.
  unfold is_valid_room_topic. destruct (_ <? _)%N eqn:E; [done|].
  intros _. by apply N.ltb_ge in E.
Qed.

Lemma hex_size s l : is_hex s l = true -> size_of s = l.
Proof. unfold is_hex. rewrite andb_true_iff, N.eqb_eq. tauto. Qed.

(* ===================================================================== *)
(** * Specification: which messages are well formed *)

Definition valid_room_id (id : RoomId) : bool := ((0 <? id) && (id <? 2 ^ 64))%N.
Definition valid_reason (reason : string) : bool :=
  sempty reason || is_valid_text reason MAX_CHAT_LENGTH.
Definition valid_summary (room : RoomSummary) : bool :=
  valid_room_id (summary_id room) && is_valid_room_name (summary_name room)
  && (summary_user_count room <? 2 ^ 64)%N.

Definition valid_client_message (message : Client.message) : bool :=
  match message with
  | Client.Hello version => (version =? VERSION)%N
  | Client.Authenticate password => (size_of password <=? 63)%N && negb (sany iscntrl password)
  | Client.Identify nickname key => is_valid_nickname nickname && is_hex key 64
  | Client.IdentityProof signature => is_hex signature 128
  | Client.Leave | Client.Disconnect | Client.ListRooms => true
  | Client.CreateRoom name | Client.JoinRoom name => is_valid_room_name name
  | Client.TopicRequest None => true
  | Client.TopicRequest (Some topic) => negb (sempty topic) && is_valid_room_topic topic
  | Client.Chat body => is_valid_text body MAX_CHAT_LENGTH
  | Client.Whisper target body => is_valid_nickname target && is_valid_text body MAX_CHAT_LENGTH
  | Client.KickRequest nickname reason => is_valid_nickname nickname && valid_reason reason
  end.

Definition valid_server_message (message : Server.message) : bool :=
  match message with
  | Server.Hello version => (version =? VERSION)%N
  | Server.AuthRequired | Server.AuthAccepted | Server.AuthRejected
  | Server.JoinAccepted | Server.Banned | Server.NicknameTaken => true
  | Server.Challenge challenge => is_hex challenge 64
  | Server.IdentityAccepted fingerprint => is_hex fingerprint 16
  | Server.JoinRejected body | Server.Text body | Server.ServerError body =>
      is_valid_text body MAX_FRAME_LENGTH
  | Server.Kick nickname reason => is_valid_nickname nickname && valid_reason reason
  | Server.UserList room_id nicknames =>
      valid_room_id room_id && forallb is_valid_nickname nicknames
  | Server.RoomList rooms =>
      (N.of_nat (length rooms) <=? MAX_ROOMS)%N && forallb valid_summary rooms
  | Server.RoomJoined id name topic =>
      valid_room_id id && is_valid_room_name name && is_valid_room_topic topic
  | Server.RoomTopic room_id topic => valid_room_id room_id && is_valid_room_topic topic
  | Server.RoomText room_id body => valid_room_id room_id && is_valid_text body MAX_FRAME_LENGTH
  end.

(* ===================================================================== *)
(** * Lemmas: the list loops *)

Lemma join_with_skip sep x l :
  join_with sep (x :: l) = match l with [] => x | _ => x +:+ sep +:+ join_with sep l end.
Proof. by destruct l. Qed.

(** The nickname loop reads back a printed list. *)
Lemma parse_nicknames_join fuel text start nicks acc :
  forallb is_valid_nickname nicks = true ->
  sdrop start text = join_with "," nicks -> String.length text - start < fuel ->
  parse_nicknames_loop fuel text start acc = Some (acc ++ nicks)%list.
Proof.
  revert fuel start acc. induction nicks as [|x l IH]; intros fuel start acc Hv Hs Hf.
  - destruct fuel; [lia|]. simpl. apply (f_equal String.length) in Hs.
    rewrite slength_sdrop in Hs. simpl in Hs.
    rewrite (proj2 (Nat.ltb_ge _ _)) by lia. by rewrite app_nil_r.
  - simpl in Hv. apply andb_true_iff in Hv as [Hx Hl]. destruct fuel; [lia|].
    pose proof (valid_nickname_chars x Hx) as (Hne & _).
    assert (free_of "," x = true) as Hfree by by apply nickname_free_of.
    pose proof (f_equal String.length Hs) as Hlen. rewrite slength_sdrop in Hlen.
    cbn [parse_nicknames_loop].
    destruct l as [|y l].
    + simpl in Hs, Hlen. assert (String.length x <> 0) by by destruct x.
      rewrite (proj2 (Nat.ltb_lt _ _)) by lia.
      rewrite sfind_from_eq, Hs, (proj2 (sfind_None _ _)) by done. simpl. unfold substr.
      by rewrite Hs, Hx.
    + rewrite join_with_skip in Hs, Hlen. rewrite !slength_app in Hlen. simpl in Hlen.
      rewrite (proj2 (Nat.ltb_lt _ _)) by lia.
      destruct (sfind_from_app text start x "," _ Hs Hfree) as [Hc Hr].
      rewrite Hc. unfold substr_n. rewrite Hs.
      replace (start + String.length x - start) with (String.length x) by lia.
      rewrite stake_app, Hx. simpl negb. cbv iota.
      rewrite IH; [by rewrite <- app_assoc|done|exact Hr|lia].
Qed.

(** Every nickname the loop returns was validated. *)
Lemma parse_nicknames_valid fuel text start acc nicks :
  parse_nicknames_loop fuel text start acc = Some nicks ->
  forallb is_valid_nickname acc = true -> forallb is_valid_nickname nicks = true.
Proof.
  revert start acc. induction fuel as [|fuel IH]; intros start acc; simpl;
    [by intros [= <-]|].
  destruct (_ <? _)%nat; [|by intros [= <-]].
  destruct (sfind_from "," text start) as [c|];
    (destruct (negb _) eqn:E; [done|]; apply negb_false_iff in E; intros H Hacc).
  - apply (IH _ _ H). by rewrite forallb_app, Hacc; simpl; rewrite E.
  - injection H as <-. by rewrite forallb_app, Hacc; simpl; rewrite E.
Qed.

(** A printed room entry has its two commas where its parser looks. *)
Lemma parse_room_entry_serialize room :
  valid_summary room = true -> parse_room_entry (serialize_room room) = inl room.
Proof.
  destruct room as [id name count]. unfold valid_summary, valid_room_id. simpl.
  rewrite !andb_true_iff, !N.ltb_lt. intros [[[Hid0 Hid] Hname] Hcount].
  unfold serialize_room. simpl summary_id. simpl summary_name. simpl summary_user_count.
  set (ids := to_string id). set (rest := name +:+ String "," (to_string count)).
  change (ids +:+ "," +:+ name +:+ "," +:+ to_string count) with (ids +:+ String "," rest).
  assert (free_of "," ids = true) as Hf by by apply to_string_free_of.
  unfold parse_room_entry. rewrite sfind_app_l by done.
  assert (sdrop (String.length ids + 1) (ids +:+ String "," rest) = rest) as Hd
    by apply sdrop_app_cons.
  destruct (sfind_from_app (ids +:+ String "," rest) _ name "," (to_string count) Hd)
    as [-> H2]; [by apply room_name_free_of|].
  unfold substr_n, substr. rewrite Hd, H2.
  replace (String.length ids + 1 + String.length name - String.length ids - 1)
    with (String.length name) by lia.
  unfold rest. rewrite stake_app. cbn [sdrop].
  change (stake (String.length ids) (ids +:+ String "," (name +:+ String "," (to_string count))))
    with (stake (String.length ids) (ids +:+ String "," rest)).
  rewrite stake_app. unfold ids. rewrite !parse_unsigned_to_string by done.
  rewrite Hname. rewrite (proj2 (N.eqb_neq id 0)) by lia. done.
Qed.

Lemma parse_room_entry_valid entry room :
  parse_room_entry entry = inl room -> valid_summary room = true.
Proof.
  unfold parse_room_entry. destruct (sfind "," entry) as [i|]; [|done].
  destruct (sfind_from _ _ _) as [j|]; [|done].
  destruct (parse_unsigned (substr_n _ 0 i)) as [id_ok id] eqn:E1.
  destruct (parse_unsigned (substr _ _)) as [count_ok count] eqn:E2.
  destruct (_ || _)%bool eqn:E; [done|]. intros [= <-].
  rewrite !orb_false_iff, !negb_false_iff in E. destruct E as [[[-> Hid] Hname] ->].
  apply parse_unsigned_bound in E1, E2. apply N.eqb_neq in Hid.
  unfold valid_summary, valid_room_id. simpl. rewrite Hname.
  rewrite !(proj2 (N.ltb_lt _ _)) by lia. done.
Qed.

Lemma serialize_room_free room : valid_summary room = true -> free_of ";" (serialize_room room) = true.
Proof.
  unfold valid_summary. rewrite !andb_true_iff. intros [[_ Hn] _]. unfold serialize_room.
  rewrite !free_of_app, !to_string_free_of by done.
  by rewrite (room_name_free_of ";" _ Hn) by done.
Qed.

Lemma serialize_room_nonempty room : serialize_room room <> "".
Proof.
  unfold serialize_room. pose proof (to_string_nonempty (summary_id room)).
  by destruct (to_string (summary_id room)).
Qed.

(** The room loop reads back a printed list, with its limit on the count. *)
Lemma parse_rooms_join fuel text start rooms acc :
  forallb valid_summary rooms = true ->
  (N.of_nat (length acc + length rooms) <= MAX_ROOMS)%N ->
  sdrop start text = join_with ";" (serialize_room <$> rooms) ->
  String.length text - start < fuel ->
  parse_rooms_loop fuel text start acc = inl (acc ++ rooms)%list.
Proof.
  revert fuel start acc. induction rooms as [|x l IH]; intros fuel start acc Hv Hn Hs Hf.
  - destruct fuel; [lia|]. simpl. apply (f_equal String.length) in Hs.
    rewrite slength_sdrop in Hs. simpl in Hs.
    rewrite (proj2 (Nat.ltb_ge _ _)) by lia. by rewrite app_nil_r.
  - simpl in Hv. apply andb_true_iff in Hv as [Hx Hl]. destruct fuel; [lia|].
    pose proof (serialize_room_nonempty x) as Hne.
    pose proof (serialize_room_free x Hx) as Hfree.
    pose proof (f_equal String.length Hs) as Hlen. rewrite slength_sdrop in Hlen.
    cbn [parse_rooms_loop]. cbn [length] in Hn.
    assert ((MAX_ROOMS <? N.of_nat (length (acc ++ [x])))%N = false) as Hmax.
    { apply N.ltb_ge. rewrite length_app. simpl. lia. }
    destruct l as [|y l].
    + simpl in Hs, Hlen. assert (String.length (serialize_room x) <> 0)
        by by destruct (serialize_room x).
      rewrite (proj2 (Nat.ltb_lt _ _)) by lia.
      rewrite sfind_from_eq, Hs, (proj2 (sfind_None _ _)) by done.
      cbn [fmap option_fmap option_map]. unfold substr.
      by rewrite Hs, parse_room_entry_serialize, Hmax.
    + rewrite fmap_cons in Hs, Hlen. rewrite join_with_skip in Hs, Hlen.
      rewrite fmap_cons in Hs, Hlen. rewrite !slength_app in Hlen.
      cbn [String.length] in Hlen.
      rewrite (proj2 (Nat.ltb_lt _ _)) by lia.
      destruct (sfind_from_app text start (serialize_room x) ";" _ Hs Hfree) as [Hc Hr].
      rewrite Hc. unfold substr_n. rewrite Hs.
      replace (start + String.length (serialize_room x) - start)
        with (String.length (serialize_room x)) by lia.
      rewrite stake_app, parse_room_entry_serialize, Hmax by done.
      rewrite IH; [by rewrite <- app_assoc|done| |exact Hr|lia].
      rewrite length_app. cbn [length] in *. lia.
Qed.

Lemma parse_rooms_valid fuel text start acc rooms :
  parse_rooms_loop fuel text start acc = inl rooms ->
  forallb valid_summary acc = true -> (N.of_nat (length acc) <= MAX_ROOMS)%N ->
  forallb valid_summary rooms = true /\ (N.of_nat (length rooms) <= MAX_ROOMS)%N.
Proof.
  revert start acc. induction fuel as [|fuel IH]; intros start acc; cbn [parse_rooms_loop];
    [by intros [= <-]|].
  destruct (_ <? _)%nat; [|by intros [= <-]].
  destruct (parse_room_entry _) as [room|] eqn:E; [|done].
  apply parse_room_entry_valid in E. destruct (_ <? _)%N eqn:Em; [done|].
  apply N.ltb_ge in Em. intros H Hacc _.
  assert (forallb valid_summary (acc ++ [room]) = true) as Hacc'.
  { by rewrite forallb_app, Hacc; simpl; rewrite E. }
  destruct (sfind_from ";" text start) as [c|]; [by apply (IH _ _ H)|].
  by injection H as <-.
Qed.

(* ===================================================================== *)
(** * Lemmas: the parsers return well-formed messages *)

Lemma parse_version_ok fields v : value (parse_version fields) = Some v -> v = VERSION.
Proof.
  unfold parse_version. destruct (negb _); [done|].
  destruct (from_chars _ _ _) as [[n ec] rest]. destruct ec; [|done..]. destruct rest; [|done].
  destruct (negb (n =? VERSION)%N) eqn:E; [done|]. intros [= <-]. bool_split.
  by apply N.eqb_eq.
Qed.

Lemma parse_room_id_ok text id : parse_room_id text = Some id -> valid_room_id id = true.
Proof.
  unfold parse_room_id. destruct (parse_unsigned text) as [ok n] eqn:E.
  destruct (negb ok || _)%bool eqn:Eb; [done|]. intros [= <-]. bool_split. subst.
  apply parse_unsigned_bound in E. apply N.eqb_neq in H0. unfold valid_room_id.
  rewrite !(proj2 (N.ltb_lt _ _)) by lia. done.
Qed.

Lemma reason_ok reason :
  (negb (sempty reason) && negb (is_valid_text reason MAX_CHAT_LENGTH))%bool = false ->
  valid_reason reason = true.
Proof. unfold valid_reason. by destruct (sempty reason), (is_valid_text _ _). Qed.

Ltac branch :=
  match goal with
  | |- value (if ?b then _ else _) = Some _ -> _ => destruct b eqn:?
  | |- value (match ?x with _ => _ end) = Some _ -> _ => destruct x eqn:?
  | |- value (failure _ _) = Some _ -> _ => done
  end.

Ltac rewrite_true :=
  repeat match goal with H : ?b = true |- context [?b] => rewrite H
                       | H : ?b = false |- context [?b] => rewrite H end.

Lemma parse_client_valid payload message :
  value (parse_client_message payload) = Some message -> valid_client_message message = true.
Proof.
  unfold parse_client_message. repeat branch;
    try (intros [= <-]; cbn [valid_client_message]; bool_split; rewrite_true;
         try apply reason_ok; done).
  - cbn [map_result value]. destruct (value (parse_version _)) as [v|] eqn:Ev; [|done].
    intros [= <-]. apply parse_version_ok in Ev as ->. done.
  - intros [= <-]. cbn [valid_client_message]. bool_split. rewrite_true.
    by rewrite (proj2 (N.leb_le _ _)) by by apply N.ltb_ge.
Qed.

Lemma parse_server_valid payload message :
  value (parse_server_message payload) = Some message -> valid_server_message message = true.
Proof.
  unfold parse_server_message, parse_users, parse_rooms. repeat branch;
    try (intros [= <-]; cbn [valid_server_message]; bool_split; rewrite_true;
         repeat match goal with H : parse_room_id _ = Some _ |- _ => apply parse_room_id_ok in H end;
         rewrite_true; try apply reason_ok; done).
  - cbn [map_result value]. destruct (value (parse_version _)) as [v|] eqn:Ev; [|done].
    intros [= <-]. apply parse_version_ok in Ev as ->. done.
  - intros [= <-]. cbn [valid_server_message]. apply parse_room_id_ok in Heqo as ->.
    apply parse_nicknames_valid in Heqo0; done.
  - intros [= <-]. cbn [valid_server_message].
    apply parse_rooms_valid in Heqs as [-> Hn%N.leb_le]; [|done..]. by rewrite Hn.
Qed.

(* ===================================================================== *)
(** * Lemmas: the parsers read back what [serialize] prints *)

(** Both parsers start the same way on a payload that carries fields. *)
Ltac open_fields :=
  match goal with |- ?parse (?cmd +:+ String "|" ?r) = _ =>
    unfold parse;
    change (sempty (cmd +:+ String "|" r)) with false; cbv iota;
    rewrite ?(split_fields_cmd cmd r eq_refl);
    cbv zeta; cbn [field nth String.eqb Ascii.eqb Bool.eqb orb]; cbv iota;
    rewrite ?(rest_after_command_eq cmd r eq_refl)
  end.

Lemma parse_version_print cmd : parse_version (cmd :: [to_string VERSION]) = success VERSION.
Proof. reflexivity. Qed.

Lemma split_on_length_pos d s : exists f fs, split_on d s = f :: fs.
Proof.
  pose proof (split_on_nonempty d s). destruct (split_on d s) as [|f fs]; [done|]. eauto.
Qed.

Lemma size_ltb_false (n m : N) : (n <= m)%N -> (m <? n)%N = false.
Proof. apply N.ltb_ge. Qed.

Lemma reason_ok_false reason :
  valid_reason reason = true ->
  (negb (sempty reason) && negb (is_valid_text reason MAX_CHAT_LENGTH))%bool = false.
Proof. unfold valid_reason. by destruct (sempty reason), (is_valid_text _ _). Qed.

Lemma parse_serialize_client message :
  valid_client_message message = true ->
  parse_client_message (serialize_client message) = success message.
Proof.
  destruct message as [v|pw|nick key|sig| | | |name|name|[t|]|body|target body|nick reason];
    cbn [valid_client_message serialize_client]; intros Hv; bool_split; try reflexivity.
  - apply N.eqb_eq in Hv as ->. reflexivity.
  - change ("AUTH|" +:+ pw) with ("AUTH" +:+ String "|" pw). open_fields.
    destruct (split_on_length_pos "|" pw) as (f & fs & ->). simpl length. cbv iota beta.
    rewrite (size_ltb_false _ 63) by by apply N.leb_le. by rewrite H0.
  - change ("IDENTIFY|" +:+ nick +:+ "|" +:+ key)
      with ("IDENTIFY" +:+ String "|" (nick +:+ String "|" key)). open_fields.
    rewrite split_on_app by by apply nickname_free_of.
    rewrite split_on_free by by eapply hex_free_of. simpl. by rewrite H, H0.
  - change ("PROOF|" +:+ sig) with ("PROOF" +:+ String "|" sig). open_fields.
    rewrite split_on_free by by eapply hex_free_of. simpl. by rewrite Hv.
  - change ("CREATE|" +:+ name) with ("CREATE" +:+ String "|" name). open_fields.
    rewrite split_on_free by by apply room_name_free_of. simpl. by rewrite Hv.
  - change ("JOIN|" +:+ name) with ("JOIN" +:+ String "|" name). open_fields.
    rewrite split_on_free by by apply room_name_free_of. simpl. by rewrite Hv.
  - change ("TOPIC|" +:+ t) with ("TOPIC" +:+ String "|" t). open_fields.
    destruct (split_on_length_pos "|" t) as (f & fs & ->). simpl length. cbn [Nat.eqb].
    by rewrite H, H0.
  - change ("MSG|" +:+ body) with ("MSG" +:+ String "|" body). open_fields.
    destruct (split_on_length_pos "|" body) as (f & fs & ->). simpl length. cbn [Nat.ltb Nat.leb].
    by rewrite Hv.
  - change ("WHISPER|" +:+ target +:+ "|" +:+ body)
      with ("WHISPER" +:+ String "|" (target +:+ String "|" body)). open_fields.
    assert (free_of "|" target = true) as Hf by by apply nickname_free_of.
    rewrite split_on_app, after_second_eq by done.
    destruct (split_on_length_pos "|" body) as (f & fs & ->). simpl length. cbn [Nat.ltb Nat.leb nth].
    by rewrite H, H0.
  - change ("KICK|" +:+ nick +:+ "|" +:+ reason)
      with ("KICK" +:+ String "|" (nick +:+ String "|" reason)). open_fields.
    assert (free_of "|" nick = true) as Hf by by apply nickname_free_of.
    rewrite split_on_app, rest_after_2 by done.
    destruct (split_on_length_pos "|" reason) as (f & fs & ->). simpl length. cbn [Nat.ltb Nat.leb nth].
    rewrite H. cbn [negb orb]. by rewrite reason_ok_false.
Qed.

Lemma parse_room_id_to_string id :
  valid_room_id id = true -> parse_room_id (to_string id) = Some id.
Proof.
  unfold valid_room_id. rewrite andb_true_iff, !N.ltb_lt. intros [H0 H1].
  unfold parse_room_id. rewrite parse_unsigned_to_string by done.
  by rewrite (proj2 (N.eqb_neq id 0)) by lia.
Qed.

Lemma forallb_Forall {A} (p : A -> bool) l : forallb p l = true <-> Forall (fun x => p x = true) l.
Proof.
  induction l as [|x l IH]; simpl; [by split; [constructor|]|].
  rewrite andb_true_iff, IH. split; [intros [? ?]; by constructor|by inversion 1].
Qed.

Lemma sall_join p sep l :
  sall p sep = true -> Forall (fun x => sall p x = true) l -> sall p (join_with sep l) = true.
Proof.
  intros Hs. induction 1 as [|x l Hx Hl IH]; [done|]. rewrite join_with_skip.
  destruct l; [done|]. by rewrite !sall_app, Hx, Hs.
Qed.

Lemma sback_last s c : sback s = Some c -> exists t, s = t +:+ String c "".
Proof. intros H%sback_Some. eauto. Qed.

(** A printed list of nicknames does not end with its separator. *)
Lemma sback_nicknames nicks :
  forallb is_valid_nickname nicks = true -> sback (join_with "," nicks) <> Some ","%char.
Proof.
  induction nicks as [|x l IH]; [done|]. intros [Hx Hl]%andb_true_iff.
  rewrite join_with_skip. assert (free_of "," x = true) as Hf by by apply nickname_free_of.
  destruct l as [|y l].
  - intros Hb. pose proof (sall_sback _ _ _ Hf Hb) as Hc. cbv beta in Hc.
    by rewrite bool_decide_true in Hc by done.
  - rewrite sback_app by done. rewrite sback_app; [by apply IH|].
    simpl in Hl. apply andb_true_iff in Hl as [Hy _].
    apply valid_nickname_chars in Hy as [Hy _]. rewrite join_with_skip. by destruct l, y.
Qed.

Lemma parse_users_print room_id nicks :
  valid_room_id room_id = true -> forallb is_valid_nickname nicks = true ->
  parse_users ["USERS"; to_string room_id; join_with "," nicks]
    = success (Server.UserList room_id nicks).
Proof.
  intros Hid Hn. unfold parse_users. cbn [length Nat.eqb negb field nth]. cbv iota.
  rewrite parse_room_id_to_string by done.
  rewrite bool_decide_false by by apply sback_nicknames.
  by rewrite (parse_nicknames_join _ _ 0 nicks []) by (done || lia).
Qed.

Lemma parse_rooms_print rooms :
  (N.of_nat (length rooms) <= MAX_ROOMS)%N -> forallb valid_summary rooms = true ->
  parse_rooms ["ROOMS"; join_with ";" (serialize_room <$> rooms)] = success (Server.RoomList rooms).
Proof.
  intros Hn Hv. unfold parse_rooms. cbn [length Nat.eqb negb field nth]. cbv iota.
  by rewrite (parse_rooms_join _ _ 0 rooms []) by (done || lia).
Qed.

Lemma nicknames_free nicks :
  forallb is_valid_nickname nicks = true -> free_of "|" (join_with "," nicks) = true.
Proof.
  intros H%forallb_Forall. apply sall_join; [done|]. revert H. apply Forall_impl.
  intros x Hx. by apply nickname_free_of.
Qed.

Lemma rooms_free rooms :
  forallb valid_summary rooms = true ->
  free_of "|" (join_with ";" (serialize_room <$> rooms)) = true.
Proof.
  intros H%forallb_Forall. apply sall_join; [done|]. apply Forall_fmap.
  revert H. apply Forall_impl. intros room. unfold valid_summary, compose.
  rewrite !andb_true_iff. intros [[_ Hn] _]. unfold serialize_room.
  change (free_of "|" (to_string (summary_id room) +:+ "," +:+ summary_name room +:+ ","
    +:+ to_string (summary_user_count room)) = true).
  rewrite !free_of_app, !to_string_free_of by done.
  by rewrite (room_name_free_of "|" _ Hn) by done.
Qed.

Lemma parse_serialize_server message :
  valid_server_message message = true ->
  parse_server_message (serialize_server message) = success message.
Proof.
  destruct message as [v| | | |ch|fp| | | |reason|nick reason|id nicks|rooms|id name topic
    |id topic|id body|body|reason];
    cbn [valid_server_message serialize_server]; intros Hv; bool_split; try reflexivity.
  - apply N.eqb_eq in Hv as ->. reflexivity.
  - change ("CHALLENGE|" +:+ ch) with ("CHALLENGE" +:+ String "|" ch). open_fields.
    rewrite split_on_free by by eapply hex_free_of. simpl. by rewrite Hv.
  - change ("IDENTITY_OK|" +:+ fp) with ("IDENTITY_OK" +:+ String "|" fp). open_fields.
    rewrite split_on_free by by eapply hex_free_of. simpl. by rewrite Hv.
  - change ("JOIN_FAIL|" +:+ reason) with ("JOIN_FAIL" +:+ String "|" reason). open_fields.
    destruct (split_on_length_pos "|" reason) as (f & fs & ->). simpl length.
    cbn [Nat.ltb Nat.leb]. by rewrite Hv.
  - change ("KICK|" +:+ nick +:+ "|" +:+ reason)
      with ("KICK" +:+ String "|" (nick +:+ String "|" reason)). open_fields.
    assert (free_of "|" nick = true) as Hf by by apply nickname_free_of.
    rewrite split_on_app, after_second_eq by done.
    destruct (split_on_length_pos "|" reason) as (f & fs & ->). simpl length. cbn [Nat.ltb Nat.leb nth].
    rewrite H. cbn [negb orb]. by rewrite reason_ok_false.
  - change ("USERS|" +:+ to_string id +:+ "|" +:+ join_with "," nicks)
      with ("USERS" +:+ String "|" (to_string id +:+ String "|" (join_with "," nicks))).
    open_fields. rewrite split_on_app by by apply to_string_free_of.
    rewrite split_on_free by by apply nicknames_free. by apply parse_users_print.
  - change ("ROOMS|" +:+ join_with ";" (serialize_room <$> rooms))
      with ("ROOMS" +:+ String "|" (join_with ";" (serialize_room <$> rooms))). open_fields.
    rewrite split_on_free by by apply rooms_free. apply N.leb_le in H. by apply parse_rooms_print.
  - change ("ROOM|" +:+ to_string id +:+ "|" +:+ name +:+ "|" +:+ topic)
      with ("ROOM" +:+ String "|" (to_string id +:+ String "|" (name +:+ String "|" topic))).
    open_fields.
    assert (free_of "|" (to_string id) = true) as Hi by by apply to_string_free_of.
    assert (free_of "|" name = true) as Hn by by apply room_name_free_of.
    rewrite !split_on_app, rest_after_3 by done.
    destruct (split_on_length_pos "|" topic) as (f & fs & ->). simpl length. cbn [Nat.ltb Nat.leb nth].
    rewrite parse_room_id_to_string, H0, H1 by done. done.
  - change ("TOPIC|" +:+ to_string id +:+ "|" +:+ topic)
      with ("TOPIC" +:+ String "|" (to_string id +:+ String "|" topic)). open_fields.
    assert (free_of "|" (to_string id) = true) as Hi by by apply to_string_free_of.
    rewrite split_on_app, rest_after_2 by done.
    destruct (split_on_length_pos "|" topic) as (f & fs & ->). simpl length. cbn [Nat.ltb Nat.leb nth].
    rewrite parse_room_id_to_string, H0 by done. done.
  - change ("ROOM_TEXT|" +:+ to_string id +:+ "|" +:+ body)
      with ("ROOM_TEXT" +:+ String "|" (to_string id +:+ String "|" body)). open_fields.
    assert (free_of "|" (to_string id) = true) as Hi by by apply to_string_free_of.
    rewrite split_on_app, rest_after_2 by done.
    destruct (split_on_length_pos "|" body) as (f & fs & ->). simpl length. cbn [Nat.ltb Nat.leb nth].
    rewrite parse_room_id_to_string, H0 by done. done.
  - change ("TEXT|" +:+ body) with ("TEXT" +:+ String "|" body). open_fields.
    destruct (split_on_length_pos "|" body) as (f & fs & ->). simpl length.
    cbn [Nat.ltb Nat.leb]. by rewrite Hv.
  - change ("ERROR|" +:+ reason) with ("ERROR" +:+ String "|" reason). open_fields.
    destruct (split_on_length_pos "|" reason) as (f & fs & ->). simpl length.
    cbn [Nat.ltb Nat.leb]. by rewrite Hv.
Qed.

(* ===================================================================== *)
(** * Lemmas: sizes and errors *)

Lemma slash_size cmd rest : size_of (cmd +:+ String "|" rest) = (size_of cmd + 1 + size_of rest)%N.
Proof. rewrite size_of_app, size_of_cons. lia. Qed.

(** Every well-formed client message fits one frame. *)
Lemma serialize_client_size message :
  valid_client_message message = true ->
  serialize_client message <> "" /\ (size_of (serialize_client message) <= 3069)%N.
Proof.
  destruct message as [v|pw|nick key|sig| | | |name|name|[t|]|body|target body|nick reason];
    cbn [valid_client_message serialize_client]; intros Hv; bool_split; (split; [done|]);
    repeat match goal with
    | H : is_valid_nickname _ = true |- _ => apply valid_nickname_chars in H as (_ & H & _)
    | H : is_valid_room_name _ = true |- _ => apply room_name_spec in H as (_ & H & _)
    | H : is_valid_text _ _ = true |- _ => apply valid_text_spec in H as (_ & H)
    | H : is_valid_room_topic _ = true |- _ => apply room_topic_size in H
    | H : is_hex _ _ = true |- _ => apply hex_size in H
    | H : (_ <=? _)%N = true |- _ => apply N.leb_le in H
    | H : (_ =? _)%N = true |- _ => apply N.eqb_eq in H as ->
    end; rewrite ?size_of_app;
    repeat match goal with
    | |- context [size_of (String ?c ?s)] =>
        let n := eval vm_compute in (size_of (String c s)) in change (size_of (String c s)) with n
    | |- context [size_of (to_string VERSION)] => change (size_of (to_string VERSION)) with 1%N
    end; unfold MAX_CHAT_LENGTH in *; try lia.
  unfold valid_reason in *. destruct (sempty reason) eqn:E.
  - apply sempty_spec in E as ->. change (size_of "") with 0%N. lia.
  - simpl in H0. apply valid_text_spec in H0 as [_ H0]. unfold MAX_CHAT_LENGTH in *. lia.
Qed.

Lemma serialize_server_nonempty message : serialize_server message <> "".
Proof. destruct message; done. Qed.

(** A result is coherent when it carries a value exactly if it has no error. *)
Definition coherent {T} (r : Result T) : Prop := value r = None <-> error r <> ErrNone.

Lemma coherent_success {T} (v : T) : coherent (success v).
Proof. done. Qed.
Lemma coherent_failure {T} e d : e <> ErrNone -> coherent (@failure T e d).
Proof. done. Qed.
Lemma coherent_map {A B} (f : A -> B) r : coherent r -> coherent (map_result f r).
Proof. unfold coherent. simpl. by rewrite fmap_None. Qed.
Lemma coherent_version fields : coherent (parse_version fields).
Proof. unfold parse_version. by repeat case_match. Qed.

Ltac coherent_tac :=
  repeat first [ apply coherent_success | apply coherent_failure; discriminate
               | apply coherent_map, coherent_version
               | match goal with
                 | |- coherent (if ?b then _ else _) => destruct b
                 | |- coherent (match ?x with _ => _ end) => destruct x
                 end ].

Lemma coherent_parse_client payload : coherent (parse_client_message payload).
Proof. unfold parse_client_message. cbv zeta. coherent_tac. Qed.
Lemma coherent_parse_server payload : coherent (parse_server_message payload).
Proof. unfold parse_server_message, parse_users, parse_rooms. cbv zeta. coherent_tac. Qed.

Lemma decode_after_encode {Message} payload frame (parser : string -> Result Message) :
  value (encode_frame payload) = Some frame ->
  decode_message_frame frame parser = parser payload.
Proof. intros H%decode_encode_frame. unfold decode_message_frame. by rewrite H. Qed.

Lemma encode_frame_small payload :
  payload <> "" -> (size_of payload <= 3069)%N ->
  exists frame, encode_frame payload = success frame /\ value (encode_frame payload) = Some frame.
Proof.
  intros Hne Hs. rewrite encode_frame_ok by done. eexists. split; reflexivity.
Qed.

Lemma client_transport message :
  valid_client_message message = true ->
  exists frame, encode_client_frame message = success frame /\
    decode_client_frame frame = success message.
Proof.
  intros Hv. destruct (serialize_client_size _ Hv) as [Hne Hs].
  destruct (encode_frame_small _ Hne Hs) as (frame & He & Hf). exists frame.
  unfold encode_client_frame, decode_client_frame.
  rewrite (decode_after_encode _ _ _ Hf), parse_serialize_client by done. done.
Qed.

Lemma server_transport message :
  valid_server_message message = true -> (size_of (serialize_server message) <= 3069)%N ->
  exists frame, encode_server_frame message = success frame /\
    decode_server_frame frame = success message.
Proof.
  intros Hv Hs. pose proof (serialize_server_nonempty message) as Hne.
  destruct (encode_frame_small _ Hne Hs) as (frame & He & Hf). exists frame.
  unfold encode_server_frame, decode_server_frame.
  rewrite (decode_after_encode _ _ _ Hf), parse_serialize_server by done. done.
Qed.

(* ===================================================================== *)
(** * Properties *)

(** C34: client-to-server transport. Every well-formed client message encodes (it
    always fits one frame), and the frame decodes to that same message. *)
Theorem client_message_transport message :
  valid_client_message message = true ->
  exists frame, encode_client_frame message = success frame /\
    decode_client_frame frame = success message.
Proof. apply client_transport. Qed.

Lemma client_message_transport_witness :
  exists frame,
    encode_client_frame (Client.Whisper "bob" "hi|there") = success frame /\
    decode_client_frame frame = success (Client.Whisper "bob" "hi|there").
Proof. apply client_message_transport. vm_compute. reflexivity. Defined.

(** Server-to-client transport. A well-formed server message whose text is at
    most 3069 bytes encodes and decodes to itself; a longer one is refused with
    [FrameTooLarge] (which is how a long user list or room list is lost). *)
Theorem server_message_transport message :
  valid_server_message message = true ->
  ((size_of (serialize_server message) <= 3069)%N ->
   exists frame, encode_server_frame message = success frame /\
     decode_server_frame frame = success message) /\
  ((3069 < size_of (serialize_server message))%N ->
   value (encode_server_frame message) = None /\
   error (encode_server_frame message) = FrameTooLarge).
Proof.
  intros Hv. split; [by apply server_transport|]. intros Hs.
  unfold encode_server_frame. rewrite parse_serialize_server by done. cbn [value success].
  rewrite encode_frame_eq, (proj2 (sempty_false _)) by apply serialize_server_nonempty.
  by rewrite (proj2 (N.ltb_lt _ _)).
Qed.

Lemma server_message_transport_witness :
  exists frame,
    encode_server_frame (Server.UserList 1%N ["alice"; "bob"]) = success frame /\
    decode_server_frame frame = success (Server.UserList 1%N ["alice"; "bob"]).
Proof.
  apply server_message_transport; [vm_compute; reflexivity|]. vm_compute. discriminate.
Defined.

(** C35: what a reader may rely on. Whatever bytes arrive, a client message that
    [decode_client_frame] returns is well formed, and a server message that
    [decode_server_frame] returns is well formed: nicknames, room names, topics,
    texts, identifiers, keys and counts are within the protocol's limits, and
    sending the message on gives the same message again. *)
Theorem decoded_messages_valid frame :
  (forall message, value (decode_client_frame frame) = Some message ->
     valid_client_message message = true /\
     parse_client_message (serialize_client message) = success message) /\
  (forall message, value (decode_server_frame frame) = Some message ->
     valid_server_message message = true /\
     parse_server_message (serialize_server message) = success message).
Proof.
  unfold decode_client_frame, decode_server_frame, decode_message_frame.
  destruct (value (decode_frame frame)) as [payload|]; [|done].
  split; intros message H.
  - apply parse_client_valid in H. split; [done|by apply parse_serialize_client].
  - apply parse_server_valid in H. split; [done|by apply parse_serialize_server].
Qed.

Lemma decoded_messages_valid_witness :
  valid_client_message (Client.Chat "hi") = true /\
  parse_client_message (serialize_client (Client.Chat "hi")) = success (Client.Chat "hi").
Proof. apply (decoded_messages_valid "TVNHfGhp"). vm_compute. reflexivity. Defined.

(** Results are coherent. Decoding any line returns a value exactly when it
    returns no error, for client and for server messages, so that testing the
    [Result] and testing its error code agree. *)
Theorem decode_results_coherent frame :
  coherent (decode_client_frame frame) /\ coherent (decode_server_frame frame).
Proof.
  assert (forall Message (parser : string -> Result Message),
    (forall p, coherent (parser p)) -> coherent (decode_message_frame frame parser)) as H.
  { intros Message parser Hp. unfold decode_message_frame.
    destruct (value (decode_frame frame)) as [payload|] eqn:E; [apply Hp|].
    apply coherent_failure. intros H. apply decode_frame_no_error in H. by rewrite E in H. }
  split; apply H; [apply coherent_parse_client|apply coherent_parse_server].
Qed.

(** [split_fields] is the reference splitter: the fields contain no
    delimiter, there is at least one, and joining them gives the payload back. *)
Theorem split_fields_reference payload :
  split_fields payload = split_on "|" payload /\
  split_fields payload <> [] /\
  Forall (fun f => free_of "|" f = true) (split_fields payload) /\
  join_with "|" (split_fields payload) = payload.
Proof.
  rewrite split_fields_eq. split; [done|]. split; [apply split_on_nonempty|].
  split; [apply split_on_fields_free|apply join_split_on].
Qed.

(** A delimiter inside a nickname is not refused when a kick is encoded: the
    frame is produced, and the peer reads another target, the part before the
    delimiter. [encode_client_frame] only checks that the printed payload
    parses, not that it parses to the same message. *)
Theorem kick_delimiter_confusion before after reason :
  is_valid_nickname before = true ->
  is_valid_text (after +:+ String "|" reason) MAX_CHAT_LENGTH = true ->
  let message := Client.KickRequest (before +:+ String "|" after) reason in
  valid_client_message message = false /\
  exists frame, encode_client_frame message = success frame /\
    decode_client_frame frame = success (Client.KickRequest before (after +:+ String "|" reason)).
Proof.
  intros Hb Ha. cbv zeta. split.
  - cbn [valid_client_message]. unfold is_valid_nickname at 1.
    destruct (sempty _ || _)%bool; [done|]. rewrite sany_app. cbn [sany Ascii.eqb Bool.eqb].
    by rewrite !orb_true_r.
  - destruct (client_transport (Client.KickRequest before (after +:+ String "|" reason)))
      as (frame & He & Hd).
    { cbn [valid_client_message]. unfold valid_reason. by rewrite Hb, Ha, orb_true_r. }
    exists frame. split; [|done]. revert He. unfold encode_client_frame.
    cbn [serialize_client]. by rewrite !sapp_assoc.
Qed.

Lemma kick_delimiter_confusion_witness :
  let message := Client.KickRequest "al|ice" "" in
  valid_client_message message = false /\
  exists frame, encode_client_frame message = success frame /\
    decode_client_frame frame = success (Client.KickRequest "al" "ice|").
Proof. apply (kick_delimiter_confusion "al" "ice" ""); vm_compute; reflexivity. Defined.
