(* ===== verification/Utils.v ===== *)
(** Shared helpers: [src/common/constants.h] and [src/common/utils.cpp]. The
    libsodium functions, the environment variables, the time-zone conversion and
    the outcome of file operations are not part of the repository: they are the
    fields of the classes [Sodium] and [Platform], with what the code relies on
    as the laws of [SodiumLaws]. Files are a finite map from paths to contents. *)

From S2P Require Import Prelude Frame Message.
Local Open Scope string_scope.

(* ===================================================================== *)
(** * Constants *)

Definition MAX_MESSAGES : N := 200.
Definition SERVER_HISTORY_LIMIT : N := 100.
Definition RATE_LIMIT_MESSAGES : N := 20.
Definition RATE_LIMIT_WINDOW_SECONDS : Z := 60.
Definition MAX_CHAT_MESSAGE_LEN : N := MAX_CHAT_LENGTH.
Definition MAX_WIRE_LINE_LENGTH : N := MAX_FRAME_LENGTH.
Definition NICK_MAX_LEN : N := 31.
Definition HOST_MAX_LEN : N := 63.
Definition PASS_MAX_LEN : N := 63.
Definition LOGFILE_MAX_LEN : N := 259.
Definition IDENTITY_CHALLENGE_BYTES : N := 32.
Definition BROWSER_PORT : N := 2727.
Definition BROWSER_NAME_MAX_LEN : N := 48.
Definition BROWSER_ENTRY_TTL_SECONDS : Z := 180.
Definition BROWSER_PUBLISH_INTERVAL_SECONDS : nat := 60.

(** libsodium's [crypto_sign_PUBLICKEYBYTES], [_SECRETKEYBYTES], [_BYTES]. *)
Definition crypto_sign_PUBLICKEYBYTES : N := 32.
Definition crypto_sign_SECRETKEYBYTES : N := 64.
Definition crypto_sign_BYTES : N := 64.

(* ===================================================================== *)
(** * The library and the platform *)

(** libsodium. A byte array is a string. [randombytes n k] is the [n]-th draw of
    [k] random bytes; [crypto_sign_keypair n] the key pair of draw [n]. *)
Class Sodium := {
  sodium_bin2hex : string -> string;
  sodium_hex2bin : string -> N -> option string;
  crypto_sign_verify_detached : string -> string -> string -> bool;
  crypto_sign_detached : string -> string -> string;
  crypto_sign_keypair : nat -> string * string;
  randombytes : nat -> N -> string;
}.

(** What the library's documentation says of them: the hexadecimal text has two
    lower-case digits per byte, reading it back gives the bytes, a text of [2n]
    hexadecimal digits holds [n] bytes, keys and random buffers have the sizes
    asked for, and a signature made with a key pair verifies. *)
Class SodiumLaws (so : Sodium) := {
  bin2hex_digits : forall b, sall isxdigit (sodium_bin2hex b) = true;
  bin2hex_size : forall b, size_of (sodium_bin2hex b) = (2 * size_of b)%N;
  hex2bin_bin2hex : forall b, sodium_hex2bin (sodium_bin2hex b) (size_of b) = Some b;
  hex2bin_digits : forall h n, sall isxdigit h = true -> size_of h = (2 * n)%N ->
    exists b, sodium_hex2bin h n = Some b /\ size_of b = n;
  keypair_sizes : forall n, size_of (crypto_sign_keypair n).1 = crypto_sign_PUBLICKEYBYTES /\
    size_of (crypto_sign_keypair n).2 = crypto_sign_SECRETKEYBYTES;
  signature_size : forall msg sk, size_of (crypto_sign_detached msg sk) = crypto_sign_BYTES;
  signature_verifies : forall n msg,
    crypto_sign_verify_detached (crypto_sign_detached msg (crypto_sign_keypair n).2) msg
      (crypto_sign_keypair n).1 = true;
  randombytes_size : forall n k, size_of (randombytes n k) = k;
}.

(** The platform: environment variables, the [n]-th reading of the system clock
    and of the steady clock in nanoseconds, local time as [%H:%M:%S], and
    whether a path can be opened for writing (with its parent directory made
    first where the code makes it). *)
Class Platform := {
  getenv : string -> option string;
  system_clock : nat -> Z;
  steady_clock : nat -> Z;
  local_hms : Z -> string;
  can_write : string -> bool;
  can_make_parent : string -> bool;
}.

Abbreviation Files := (gmap string string).

(** [std::getline(stream, item, delim)] repeated until it fails: the text after
    the last delimiter is an item only when it is not empty. *)
Fixpoint getlines (delim : ascii) (s : string) : list string :=
  match s with
  | EmptyString => []
  | String c s' =>
      if decide (c = delim) then EmptyString :: getlines delim s'
      else match getlines delim s' with
           | [] => [String c EmptyString]
           | item :: items => String c item :: items
           end
  end.

(** The text a stream of lines writes: each line with its newline. *)
Definition lines_text (lines : list string) : string :=
  foldr (fun line text => line +:+ String newline text) "" lines.

(* ===================================================================== *)
(** * Validators and splitting *)

Definition is_hex_of_len (text : string) (bytes : N) : bool :=
  if negb (size_of text =? u64 (bytes * 2))%N then false
  else sall isxdigit text.

Definition is_valid_nickname (nick : string) : bool :=
  if sempty nick || (NICK_MAX_LEN <? size_of nick)%N then false
  else sall (fun ch => negb (iscntrl ch || isspace ch
                    || Ascii.eqb ch "|" || Ascii.eqb ch ",")) nick.

Definition is_valid_chat_message (message : string) : bool :=
  if sempty message || (MAX_CHAT_MESSAGE_LEN <? size_of message)%N then false
  else sall (fun ch => negb (iscntrl ch && negb (Ascii.eqb ch tab))) message.

Definition split (s : string) (delim : ascii) : list string := getlines delim s.

(** The loop of [join_fields], from index [start]. *)
Definition join_fields (fields : list string) (start : nat) (delim : ascii) : string :=
  join_with (String delim "") (drop start fields).

Definition identity_fingerprint (public_key_hex : string) : string :=
  if (size_of public_key_hex <=? 16)%N then public_key_hex
  else substr_n public_key_hex 0 16.

(* ===================================================================== *)
(** * Identities *)

Record ClientIdentity := MkIdentity {
  public_key : string;
  secret_key : string;
  public_key_hex : string;
}.

(** [std::filesystem::path(base) / name] for a relative [name]. *)
Definition path_join (base name : string) : string :=
  if sempty base || bool_decide (sback base = Some "/"%char)
  then base +:+ name else base +:+ "/" +:+ name.

Section identities.
Context `{Sodium} `{Platform}.

Definition bytes_to_hex (data : string) : string := sodium_bin2hex data.

Definition hex_to_bytes (hex : string) (out_len : N) : option string :=
  match sodium_hex2bin hex out_len with
  | Some out => if (size_of out =? out_len)%N then Some out else None
  | None => None
  end.

Definition hex_from_text (text : string) : string := bytes_to_hex text.

(** [random_hex] uses one draw. *)
Definition random_hex (draw : nat) (bytes : N) : string := bytes_to_hex (randombytes draw bytes).

Definition chatbox_data_directory : string :=
  match getenv "XDG_DATA_HOME" with
  | Some (String _ _ as base) => path_join base "chatbox"
  | _ =>
      match getenv "HOME" with
      | Some (String _ _ as base) =>
          path_join (path_join (path_join base ".local") "share") "chatbox"
      | _ => "."
      end
  end.

Definition identity_file_for_nickname (nick : string) : string :=
  path_join chatbox_data_directory ("chatbox_identity_" +:+ hex_from_text nick +:+ ".key").

(** The result and the [identity] out-parameter. *)
Definition load_identity_file (files : Files) (path : string) (identity : ClientIdentity) :
    bool * ClientIdentity :=
  match files !! path with
  | None => (false, identity)
  | Some text =>
      let lines := getlines newline text in
      let public_hex := nth 0 lines "" in
      let secret_hex := nth 1 lines "" in
      if negb (is_hex_of_len public_hex crypto_sign_PUBLICKEYBYTES)
         || negb (is_hex_of_len secret_hex crypto_sign_SECRETKEYBYTES)
      then (false, identity)
      else
        match hex_to_bytes public_hex crypto_sign_PUBLICKEYBYTES with
        | None => (false, identity)
        | Some pk =>
            match hex_to_bytes secret_hex crypto_sign_SECRETKEYBYTES with
            | None => (false, MkIdentity pk (secret_key identity) (public_key_hex identity))
            | Some sk => (true, MkIdentity pk sk public_hex)
            end
        end
  end.

Definition save_identity_file (files : Files) (path : string) (identity : ClientIdentity) :
    bool * Files :=
  if negb (can_make_parent path) then (false, files)
  else if negb (can_write path) then (false, files)
  else (true, <[path := lines_text [public_key_hex identity;
                                    bytes_to_hex (secret_key identity)]]> files).

(** The result, [identity], [created] and the files. *)
Definition load_or_create_identity (files : Files) (draw : nat) (nick : string)
    (previous : ClientIdentity) : bool * ClientIdentity * bool * Files :=
  let path := identity_file_for_nickname nick in
  let '(loaded, current) := load_identity_file files path previous in
  if loaded then (true, current, false, files)
  else
    let legacy_path := "chatbox_identity_" +:+ hex_from_text nick +:+ ".key" in
    let '(legacy, current) :=
      if bool_decide (legacy_path <> path)
      then load_identity_file files legacy_path current else (false, current) in
    if legacy then
      let '(saved, files) := save_identity_file files path current in
      (saved, current, false, files)
    else
      let '(pk, sk) := crypto_sign_keypair draw in
      let fresh := MkIdentity pk sk (bytes_to_hex pk) in
      let '(saved, files) := save_identity_file files path fresh in
      (saved, fresh, true, files).

Definition sign_identity_challenge (identity : ClientIdentity) (challenge : string) : string :=
  bytes_to_hex (crypto_sign_detached challenge (secret_key identity)).

Definition verify_identity_signature (public_key_hex challenge signature_hex : string) : bool :=
  if negb (is_hex_of_len public_key_hex crypto_sign_PUBLICKEYBYTES)
     || negb (is_hex_of_len signature_hex crypto_sign_BYTES)
  then false
  else
    match hex_to_bytes public_key_hex crypto_sign_PUBLICKEYBYTES,
          hex_to_bytes signature_hex crypto_sign_BYTES with
    | Some public_key, Some signature =>
        crypto_sign_verify_detached signature challenge public_key
    | _, _ => false
    end.

(** [timestamp], from one reading of the system clock. *)
Definition timestamp (reading : nat) : string := local_hms (system_clock reading).
End identities.

(* ===================================================================== *)
(** * A concrete library, for witnesses *)

(** Hexadecimal text as libsodium prints it; a signature that is the key
    followed by the message, which is enough to tell keys and challenges apart. *)
Definition hex_digit (n : N) : ascii :=
  if (n <? 10)%N then ascii_of_N (48 + n) else ascii_of_N (87 + n).
Definition hex_value (c : ascii) : option N :=
  if isdigit c then Some (code c - 48)%N
  else if ((97 <=? code c) && (code c <=? 102))%N then Some (code c - 87)%N
  else if ((65 <=? code c) && (code c <=? 70))%N then Some (code c - 55)%N
  else None.
Fixpoint hex_encode (b : string) : string :=
  match b with
  | EmptyString => EmptyString
  | String c b' => String (hex_digit (code c / 16)) (String (hex_digit (code c mod 16)) (hex_encode b'))
  end.
Fixpoint hex_decode (h : string) : option string :=
  match h with
  | EmptyString => Some EmptyString
  | String a (String b h') =>
      match hex_value a, hex_value b, hex_decode h' with
      | Some x, Some y, Some out => Some (String (ascii_of_N (16 * x + y)) out)
      | _, _, _ => None
      end
  | _ => None
  end.
Definition pad (n : nat) (s : string) : string :=
  stake n (s +:+ string_of_list_ascii (repeat zero n)).

#[export] Instance toy_sodium : Sodium := {
  sodium_bin2hex := hex_encode;
  sodium_hex2bin h n := match hex_decode h with
                        | Some b => if (size_of b <=? n)%N then Some b else None
                        | None => None
                        end;
  crypto_sign_verify_detached signature message pk :=
    bool_decide (signature = pad 64 (stake 32 pk +:+ message));
  crypto_sign_detached message sk := pad 64 (stake 32 sk +:+ message);
  crypto_sign_keypair n := (pad 32 (to_string (N.of_nat n)), pad 64 (pad 32 (to_string (N.of_nat n))));
  randombytes n k := pad (N.to_nat k) (to_string (N.of_nat n));
}.

#[export] Instance toy_platform : Platform := {
  getenv v := if decide (v = "HOME") then Some "/home/user" else None;
  system_clock n := (1700000000000000000 + Z.of_nat n * 1000000000)%Z;
  steady_clock n := (Z.of_nat n * 1000000000)%Z;
  local_hms _ := "12:00:00";
  can_write _ := true;
  can_make_parent _ := true;
}.

(* ===================================================================== *)
(** * Lemmas: lines and fields *)

Lemma getlines_app d s1 s2 :
  free_of d s1 = true -> getlines d (s1 +:+ String d s2) = s1 :: getlines d s2.
Proof.
  induction s1 as [|c s1 IH].
  - intros _. rewrite sapp_nil_l. simpl. by rewrite decide_True.
  - unfold free_of in *. cbn [sall]. intros [Hc Hs]%andb_true_iff. rewrite sapp_cons.
    cbn [getlines]. case_bool_decide; [done|]. rewrite decide_False by done.
    by rewrite IH.
Qed.

(** Lines come back from the text that writes them. *)
Lemma getlines_lines_text lines :
  Forall (fun l => free_of newline l = true) lines ->
  getlines newline (lines_text lines) = lines.
Proof.
  induction 1 as [|l lines Hl Hls IH]; [done|]. cbn [lines_text foldr].
  rewrite getlines_app by done. by rewrite <- IH at 2.
Qed.

(** [getlines] is the reference splitter without its last field when empty. *)
Definition drop_last_empty (l : list string) : list string :=
  if decide (List.last l "" = "") then removelast l else l.

Lemma drop_last_empty_cons x y l : drop_last_empty (x :: y :: l) = x :: drop_last_empty (y :: l).
Proof.
  unfold drop_last_empty. change (List.last (x :: y :: l) "") with (List.last (y :: l) "").
  by case_decide.
Qed.

Lemma getlines_split_on d s : getlines d s = drop_last_empty (split_on d s).
Proof.
  induction s as [|c s IH]; [done|]. cbn [getlines split_on].
  pose proof (split_on_nonempty d s) as Hne.
  destruct (split_on d s) as [|f fs]; [done|]. rewrite IH.
  case_decide as Hc; [by rewrite drop_last_empty_cons|].
  destruct fs as [|g fs]; [|by rewrite !drop_last_empty_cons].
  unfold drop_last_empty. cbn. by destruct f.
Qed.

Lemma getlines_one d s : s <> "" -> free_of d s = true -> getlines d s = [s].
Proof. intros Hne Hf. rewrite getlines_split_on, split_on_free by done. by destruct s. Qed.

Lemma size_stake n s : (N.of_nat n <= size_of s)%N -> size_of (stake n s) = N.of_nat n.
Proof.
  revert s. induction n as [|n IH]; intros s Hn; [by destruct s|].
  destruct s; [unfold size_of in Hn; simpl in Hn; lia|].
  simpl. rewrite size_of_cons in Hn |- *. rewrite IH; lia.
Qed.

Lemma is_hex_of_len_hex text bytes :
  (bytes < 2 ^ 63)%N -> is_hex_of_len text bytes = is_hex text (2 * bytes).
Proof.
  intros Hb. unfold is_hex_of_len, is_hex, u64.
  rewrite N.mod_small by lia. rewrite (N.mul_comm bytes).
  by destruct (size_of text =? 2 * bytes)%N.
Qed.

Lemma utils_nickname nick : is_valid_nickname nick = Message.is_valid_nickname nick.
Proof.
  unfold is_valid_nickname, Message.is_valid_nickname, NICK_MAX_LEN.
  by rewrite sany_sall, negb_involutive.
Qed.

Lemma utils_chat_message text :
  is_valid_chat_message text = is_valid_text text MAX_CHAT_LENGTH.
Proof.
  unfold is_valid_chat_message, is_valid_text, MAX_CHAT_MESSAGE_LEN.
  by rewrite sany_sall, negb_involutive.
Qed.

(* ===================================================================== *)
(** * Lemmas: the concrete library satisfies the laws *)

Lemma hex_value_digit n : (n < 16)%N -> hex_value (hex_digit n) = Some n.
Proof.
  intros Hn. assert (N.to_nat n < 16) as H by lia.
  rewrite <- (N2Nat.id n). revert H. generalize (N.to_nat n). clear. intros n H.
  do 16 (destruct n; [reflexivity|]). lia.
Qed.

Lemma isxdigit_hex_digit n : (n < 16)%N -> isxdigit (hex_digit n) = true.
Proof.
  intros Hn. assert (N.to_nat n < 16) as H by lia.
  rewrite <- (N2Nat.id n). revert H. generalize (N.to_nat n). clear. intros n H.
  do 16 (destruct n; [reflexivity|]). lia.
Qed.

Lemma code_div16 c : (code c / 16 < 16)%N.
Proof. apply N.Div0.div_lt_upper_bound. pose proof (code_lt c). lia. Qed.
Lemma code_mod16 c : (code c mod 16 < 16)%N.
Proof. by apply N.mod_lt. Qed.

Lemma hex_decode_encode b : hex_decode (hex_encode b) = Some b.
Proof.
  induction b as [|c b IH]; [done|]. cbn [hex_encode hex_decode].
  rewrite !hex_value_digit, IH by (apply code_div16 || apply code_mod16).
  rewrite <- N.div_mod by done. unfold code. by rewrite ascii_N_embedding.
Qed.

Lemma hex_encode_size b : size_of (hex_encode b) = (2 * size_of b)%N.
Proof.
  induction b as [|c b IH]; [done|]. cbn [hex_encode]. rewrite !size_of_cons, IH. lia.
Qed.

Lemma isxdigit_value c : isxdigit c = true -> exists v, hex_value c = Some v.
Proof.
  intros H. destruct (hex_value c) as [v|] eqn:E; [by exists v|].
  revert H E. unfold isxdigit, hex_value.
  destruct (isdigit c); [done|]. rewrite orb_false_l.
  destruct (_ && _)%bool; destruct (_ && _)%bool; done.
Qed.

Lemma hex_decode_total h n :
  sall isxdigit h = true -> size_of h = (2 * N.of_nat n)%N ->
  exists b, hex_decode h = Some b /\ size_of b = N.of_nat n.
Proof.
  revert h. induction n as [|n IH]; intros h Hd Hs.
  - apply size_of_0 in Hs as ->. by exists "".
  - destruct h as [|x [|y h]]; rewrite ?size_of_cons, ?size_of_nil in Hs; [lia..|].
    cbn [sall] in Hd. apply andb_true_iff in Hd as [Hx [Hy Hd]%andb_true_iff].
    destruct (IH h Hd ltac:(lia)) as (b & Hb & Hn).
    apply isxdigit_value in Hx as [vx Hx], Hy as [vy Hy].
    cbn [hex_decode]. rewrite Hx, Hy, Hb. eexists. split; [done|]. rewrite size_of_cons. lia.
Qed.

Lemma list_ascii_size l : size_of (string_of_list_ascii l) = N.of_nat (length l).
Proof. induction l as [|c l IH]; [done|]. simpl. rewrite size_of_cons, IH. lia. Qed.

Lemma pad_size n s : size_of (pad n s) = N.of_nat n.
Proof.
  unfold pad. apply size_stake. rewrite size_of_app, list_ascii_size, repeat_length. lia.
Qed.

Lemma stake_stake_app n s1 s2 :
  (N.of_nat n <= size_of s1)%N -> stake n (s1 +:+ s2) = stake n s1.
Proof.
  revert s1. induction n as [|n IH]; intros [|c s1] Hn; [by destruct s2|done| |].
  - rewrite size_of_nil in Hn. lia.
  - rewrite size_of_cons in Hn. rewrite sapp_cons. cbn [stake]. by rewrite IH by lia.
Qed.

Lemma stake_all n s : size_of s = N.of_nat n -> stake n s = s.
Proof.
  revert s. induction n as [|n IH]; intros [|c s] Hn; [done| |done|].
  - rewrite size_of_cons in Hn. lia.
  - rewrite size_of_cons in Hn. cbn [stake]. by rewrite IH by lia.
Qed.

Lemma stake_pad k n s : k <= n -> size_of s = N.of_nat k -> stake k (pad n s) = s.
Proof.
  intros Hk Hs. unfold pad.
  assert (forall a b t, a <= b -> stake a (stake b t) = stake a t) as Hst.
  { clear. induction a as [|a IH]; intros b t Hb; [by destruct t, b|].
    destruct b; [lia|]. destruct t; [done|]. cbn [stake]. rewrite IH by lia. done. }
  rewrite Hst by done. rewrite stake_stake_app by lia. by apply stake_all.
Qed.

#[export] Instance toy_sodium_laws : SodiumLaws toy_sodium.
Proof.
  split; cbn -[N.mul size_of pad hex_encode stake].
  - induction b as [|c b IH]; [done|]. cbn [hex_encode sall].
    by rewrite !isxdigit_hex_digit, IH by (apply code_div16 || apply code_mod16).
  - apply hex_encode_size.
  - intros b. rewrite hex_decode_encode. by rewrite N.leb_refl.
  - intros h n Hd Hs. destruct (hex_decode_total h (N.to_nat n) Hd) as (b & -> & Hb).
    { by rewrite N2Nat.id. }
    rewrite N2Nat.id in Hb. exists b. rewrite Hb, N.leb_refl. done.
  - intros n. by rewrite !pad_size.
  - intros msg sk. by rewrite pad_size.
  - intros n msg. apply bool_decide_eq_true. f_equal. f_equal.
    rewrite stake_pad by (rewrite ?pad_size; lia || done).
    symmetry. apply stake_all. by rewrite pad_size.
  - intros n k. by rewrite pad_size, N2Nat.id.
Qed.

(* ===================================================================== *)
(** * Lemmas: identities *)

Section laws.
Context `{so : Sodium} `{!SodiumLaws so} `{Platform}.

Lemma bytes_to_hex_of_len b n :
  size_of b = n -> (n < 2 ^ 63)%N -> is_hex_of_len (bytes_to_hex b) n = true.
Proof.
  intros Hs Hn. rewrite is_hex_of_len_hex by done. unfold is_hex, bytes_to_hex.
  by rewrite bin2hex_size, bin2hex_digits, Hs, N.eqb_refl.
Qed.

Lemma hex_to_bytes_bytes_to_hex b n : size_of b = n -> hex_to_bytes (bytes_to_hex b) n = Some b.
Proof.
  intros <-. unfold hex_to_bytes, bytes_to_hex. rewrite hex2bin_bin2hex.
  by rewrite N.eqb_refl.
Qed.

Lemma hex_to_bytes_ok h n :
  (n < 2 ^ 63)%N -> is_hex_of_len h n = true ->
  exists b, hex_to_bytes h n = Some b /\ size_of b = n.
Proof.
  intros Hn. rewrite is_hex_of_len_hex by done. unfold is_hex.
  rewrite andb_true_iff, N.eqb_eq. intros [Hs Hd].
  destruct (hex2bin_digits h n Hd Hs) as (b & Hb & Hbn).
  exists b. unfold hex_to_bytes. by rewrite Hb, Hbn, N.eqb_refl.
Qed.

Lemma hex_free_newline h n : is_hex_of_len h n = true -> free_of newline h = true.
Proof.
  unfold is_hex_of_len. destruct (negb _); [done|].
  by apply free_of_impl.
Qed.

(** An identity that a file can hold. *)
Definition stored_identity (i : ClientIdentity) : Prop :=
  is_hex_of_len (public_key_hex i) crypto_sign_PUBLICKEYBYTES = true /\
  hex_to_bytes (public_key_hex i) crypto_sign_PUBLICKEYBYTES = Some (public_key i) /\
  size_of (secret_key i) = crypto_sign_SECRETKEYBYTES.

Lemma hex_to_bytes_size h n b : hex_to_bytes h n = Some b -> size_of b = n.
Proof.
  unfold hex_to_bytes. destruct (sodium_hex2bin h n); [|done].
  destruct (_ =? _)%N eqn:E; [|done]. intros [= <-]. by apply N.eqb_eq.
Qed.

Lemma load_identity_stored files path i0 i :
  load_identity_file files path i0 = (true, i) -> stored_identity i.
Proof.
  unfold load_identity_file. destruct (files !! path) as [text|]; [|done].
  destruct (_ || _)%bool eqn:E; [done|]. bool_split.
  destruct (hex_to_bytes (nth 0 _ _) _) as [pk|] eqn:E1; [|done].
  destruct (hex_to_bytes (nth 1 _ _) _) as [sk|] eqn:E2; [|done].
  intros [= <-]. split; [done|]. split; [done|]. by apply hex_to_bytes_size in E2.
Qed.

(** A saved identity loads back. *)
Lemma load_saved_identity files path i i0 files' :
  stored_identity i -> save_identity_file files path i = (true, files') ->
  load_identity_file files' path i0 = (true, i).
Proof.
  intros (Hx & Hpk & Hsk) Hsave. unfold save_identity_file in Hsave.
  destruct (negb (can_make_parent path)); [done|]. destruct (negb (can_write path)); [done|].
  assert (files' = <[path := lines_text [public_key_hex i; bytes_to_hex (secret_key i)]]> files)
    as -> by congruence.
  unfold load_identity_file. rewrite lookup_insert_eq.
  assert (is_hex_of_len (bytes_to_hex (secret_key i)) crypto_sign_SECRETKEYBYTES = true) as Hs
    by by apply bytes_to_hex_of_len.
  rewrite getlines_lines_text; [|repeat constructor; eapply hex_free_newline; eassumption].
  cbn [nth]. rewrite Hx, Hs, Hpk. cbn [negb orb].
  rewrite hex_to_bytes_bytes_to_hex by done. by destruct i.
Qed.

Lemma load_or_create_stored files draw nick i0 i created files' :
  load_or_create_identity files draw nick i0 = (true, i, created, files') ->
  stored_identity i /\
  forall i1, load_identity_file files' (identity_file_for_nickname nick) i1 = (true, i).
Proof.
  unfold load_or_create_identity. cbv zeta.
  set (path := identity_file_for_nickname nick).
  destruct (load_identity_file files path i0) as [[] i1] eqn:E1.
  - intros [= <- <- <-]. split; [by eapply load_identity_stored|]. intros i2.
    revert E1. unfold load_identity_file. destruct (files !! path); [|done].
    repeat case_match; congruence.
  - match goal with |- context [let '(_, _) := ?b in _] => destruct b as [[] i2] eqn:E2 end.
    + case_bool_decide; [|done]. apply load_identity_stored in E2.
      destruct (save_identity_file files path i2) as [saved files2] eqn:Es.
      intros [= -> <- _ <-]. split; [done|]. intros i3. by eapply load_saved_identity.
    + pose proof (keypair_sizes draw) as [Hpk Hsk].
      destruct (crypto_sign_keypair draw) as [pk sk]. cbn [fst snd] in Hpk, Hsk.
      destruct (save_identity_file _ _ _) as [saved files2] eqn:Es.
      intros [= -> <- _ <-].
      assert (stored_identity (MkIdentity pk sk (bytes_to_hex pk))) as Hst.
      { split; [by apply bytes_to_hex_of_len|]. split; [|done].
        by apply hex_to_bytes_bytes_to_hex. }
      split; [done|]. intros i3. by eapply load_saved_identity.
Qed.

Lemma verify_signed i challenge :
  stored_identity i ->
  verify_identity_signature (public_key_hex i) challenge (sign_identity_challenge i challenge)
  = crypto_sign_verify_detached (crypto_sign_detached challenge (secret_key i)) challenge
      (public_key i).
Proof.
  intros (Hx & Hpk & Hsk). unfold verify_identity_signature, sign_identity_challenge.
  rewrite Hx, bytes_to_hex_of_len by (done || apply signature_size). cbn [negb orb].
  rewrite Hpk, hex_to_bytes_bytes_to_hex by apply signature_size. done.
Qed.

(* ===================================================================== *)
(** * Properties *)

(** An identity survives on disk. When [load_or_create_identity] returns
    an identity (loaded, migrated from the old location or freshly made), every
    later call for that nickname finds the same keys, creates nothing and leaves
    the files alone. *)
Theorem identity_persists files draw nick i0 i created files' draw' i1 :
  load_or_create_identity files draw nick i0 = (true, i, created, files') ->
  load_or_create_identity files' draw' nick i1 = (true, i, false, files').
Proof.
  intros (_ & Hload)%load_or_create_stored. unfold load_or_create_identity.
  by rewrite Hload.
Qed.

(** A fresh identity can prove itself. The key pair created for a nickname
    signs any challenge so that [verify_identity_signature], given the public
    key the client announces, accepts it; and whatever key and signature arrive,
    only texts of 64 and 128 hexadecimal digits are ever verified. *)
Theorem identity_proof_accepted files draw nick i0 i files' challenge :
  load_or_create_identity files draw nick i0 = (true, i, true, files') ->
  verify_identity_signature (public_key_hex i) challenge (sign_identity_challenge i challenge) = true
  /\ is_hex (public_key_hex i) 64 = true
  /\ is_hex (sign_identity_challenge i challenge) 128 = true.
Proof.
  intros Hc. pose proof (load_or_create_stored _ _ _ _ _ _ _ Hc) as [Hst _].
  rewrite verify_signed by done. destruct Hst as (Hx & Hpk & Hsk). split.
  - revert Hc. unfold load_or_create_identity. cbv zeta.
    destruct (load_identity_file _ _ i0) as [[] i1]; [done|].
    match goal with |- context [let '(_, _) := ?b in _] => destruct b as [[] i2] end;
      [by destruct (save_identity_file _ _ _)|].
    pose proof (signature_verifies draw challenge) as Hv.
    destruct (crypto_sign_keypair draw) as [pk sk].
    destruct (save_identity_file _ _ _). by intros [= _ <- _].
  - rewrite is_hex_of_len_hex in Hx by done. split; [exact Hx|].
    pose proof (bytes_to_hex_of_len _ _ (signature_size challenge (secret_key i)) eq_refl) as Hl.
    by rewrite is_hex_of_len_hex in Hl by done.
Qed.
End laws.

Lemma identity_persists_witness :
  let '(_, i, _, files) := load_or_create_identity ∅ 7 "ann" (MkIdentity "" "" "") in
  load_or_create_identity files 8 "ann" (MkIdentity "" "" "") = (true, i, false, files).
Proof.
  apply (identity_persists ∅ 7 "ann" (MkIdentity "" "" "") _ true). reflexivity.
Defined.

Lemma identity_proof_accepted_witness :
  let '(_, i, _, _) := load_or_create_identity ∅ 7 "ann" (MkIdentity "" "" "") in
  verify_identity_signature (public_key_hex i) "00ff" (sign_identity_challenge i "00ff") = true
  /\ is_hex (public_key_hex i) 64 = true
  /\ is_hex (sign_identity_challenge i "00ff") 128 = true.
Proof.
  eapply (identity_proof_accepted ∅ 7 "ann" (MkIdentity "" "" "")). reflexivity.
Defined.

(** The two copies of the validators agree. The helpers of [utils.cpp], which
    the server applies again to what it received, accept exactly the nicknames,
    chat texts and hexadecimal texts the protocol accepts, so a message that was
    decoded is never refused by them. *)
Theorem validators_agree text bytes :
  is_valid_nickname text = Message.is_valid_nickname text /\
  is_valid_chat_message text = is_valid_text text MAX_CHAT_LENGTH /\
  ((bytes < 2 ^ 63)%N -> is_hex_of_len text bytes = is_hex text (2 * bytes)).
Proof.
  split; [apply utils_nickname|]. split; [apply utils_chat_message|apply is_hex_of_len_hex].
Qed.

Lemma validators_agree_witness : is_hex_of_len "00fF" 2 = is_hex "00fF" 4.
Proof. apply (validators_agree "00fF" 2). reflexivity. Defined.
