(* ===== verification/AppState.v ===== *)
(** The process-wide chat state drawn by the user interface: the globals of
    [src/app/app_state.cpp] as one record, and every function that reads or
    changes them. Each function holds the same mutex from its first statement to
    its last, so one call is one state transition. *)

From S2P Require Import Prelude Frame Message Utils.
Local Open Scope string_scope.

Record AppState := MkAppState {
  g_messages : list string;
  g_message_sequence : N;
  g_users : list string;
  g_rooms : list RoomSummary;
  g_active_room_id : RoomId;
  g_active_room_name : string;
  g_active_room_topic : string;
  g_kicked : bool;
}.

(** The values the globals start with. *)
Definition initial_app_state : AppState := MkAppState [] 0%N [] [] 0%N "" "" false.

Record ChatStateSnapshot := MkSnapshot {
  snap_messages : list string;
  snap_users : list string;
  snap_rooms : list RoomSummary;
  snap_active_room_id : RoomId;
  snap_active_room_name : string;
  snap_active_room_topic : string;
  snap_message_sequence : N;
}.

Definition chat_state_snapshot (a : AppState) : ChatStateSnapshot :=
  MkSnapshot (g_messages a) (g_users a) (g_rooms a) (g_active_room_id a)
    (g_active_room_name a) (g_active_room_topic a) (g_message_sequence a).

Definition clear_messages (a : AppState) : AppState :=
  MkAppState [] (g_message_sequence a) (g_users a) (g_rooms a) (g_active_room_id a)
    (g_active_room_name a) (g_active_room_topic a) (g_kicked a).

Definition update_room_users (id : RoomId) (users : list string) (a : AppState) : AppState :=
  if (id =? g_active_room_id a)%N
  then MkAppState (g_messages a) (g_message_sequence a) users (g_rooms a) (g_active_room_id a)
         (g_active_room_name a) (g_active_room_topic a) (g_kicked a)
  else a.

Definition mark_kicked (a : AppState) : AppState :=
  MkAppState (g_messages a) (g_message_sequence a) (g_users a) (g_rooms a) (g_active_room_id a)
    (g_active_room_name a) (g_active_room_topic a) true.

Definition was_kicked (a : AppState) : bool := g_kicked a.

(** [push_back], then [pop_front] when the limit is passed. *)
Definition push_message (msg : string) (a : AppState) : AppState :=
  let messages := (g_messages a ++ [msg])%list in
  MkAppState
    (if (MAX_MESSAGES <? N.of_nat (length messages))%N then tail messages else messages)
    (u64 (g_message_sequence a + 1)) (g_users a) (g_rooms a) (g_active_room_id a)
    (g_active_room_name a) (g_active_room_topic a) (g_kicked a).

Definition message_snapshot (a : AppState) : list string := g_messages a.
Definition user_snapshot (a : AppState) : list string := g_users a.

(** The message sequence is not reset. *)
Definition reset_chat_state (a : AppState) : AppState :=
  MkAppState [] (g_message_sequence a) [] [] 0%N "" "" false.

Definition activate_room (id : RoomId) (name topic : string) (a : AppState) : AppState :=
  MkAppState [] (g_message_sequence a) [] (g_rooms a) id name topic (g_kicked a).

Definition update_room_topic (id : RoomId) (topic : string) (a : AppState) : AppState :=
  if (g_active_room_id a =? id)%N
  then MkAppState (g_messages a) (g_message_sequence a) (g_users a) (g_rooms a)
         (g_active_room_id a) (g_active_room_name a) topic (g_kicked a)
  else a.

Definition update_room_list (rooms : list RoomSummary) (a : AppState) : AppState :=
  MkAppState (g_messages a) (g_message_sequence a) (g_users a) rooms (g_active_room_id a)
    (g_active_room_name a) (g_active_room_topic a) (g_kicked a).

Definition active_room_id (a : AppState) : RoomId := g_active_room_id a.
Definition active_room_name (a : AppState) : string := g_active_room_name a.
Definition active_room_topic (a : AppState) : string := g_active_room_topic a.

(** The last [n] elements, in order. *)
Definition last_n {A} (n : nat) (l : list A) : list A := drop (length l - n) l.

(* ===================================================================== *)
(** * Bounded queues: [push_back] then [pop_front] beyond the limit *)

Definition push_bounded {A} (limit : N) (l : list A) (x : A) : list A :=
  let l' := (l ++ [x])%list in
  if (limit <? N.of_nat (length l'))%N then tail l' else l'.

Lemma last_n_app {A} n (l1 l2 : list A) : n <= length l2 -> last_n n (l1 ++ l2) = last_n n l2.
Proof.
  intros Hn. unfold last_n. rewrite length_app, drop_app.
  rewrite (drop_ge l1) by lia. simpl. f_equal. lia.
Qed.

Lemma last_n_short {A} n (l : list A) : length l <= n -> last_n n l = l.
Proof. intros Hl. unfold last_n. by replace (length l - n) with 0 by lia. Qed.

Lemma last_n_length {A} n (l : list A) : length (last_n n l) = n `min` length l.
Proof. unfold last_n. rewrite length_drop. lia. Qed.

(** A bounded queue that has received everything in [all] holds its last
    elements: one push keeps that. *)
Lemma push_bounded_last {A} (limit : N) (all : list A) x :
  push_bounded limit (last_n (N.to_nat limit) all) x = last_n (N.to_nat limit) (all ++ [x]).
Proof.
  unfold push_bounded. rewrite length_app, last_n_length. simpl.
  unfold last_n. rewrite length_app. simpl.
  destruct (N.ltb_spec limit (N.of_nat (N.to_nat limit `min` length all + 1))) as [H|H].
  - replace (length all + 1 - N.to_nat limit) with (S (length all - N.to_nat limit)) by lia.
    rewrite <- drop_app_le by lia. destruct (drop_app_le all [x] (length all - N.to_nat limit)).
    { lia. }
    change (tail ?l) with (drop 1 l). rewrite drop_drop. f_equal. lia.
  - replace (length all + 1 - N.to_nat limit) with 0 by lia.
    by replace (length all - N.to_nat limit) with 0 by lia.
Qed.

Lemma push_bounded_length {A} limit (l : list A) x :
  (N.of_nat (length l) <= limit)%N -> (N.of_nat (length (push_bounded limit l x)) <= limit)%N.
Proof.
  intros Hl. unfold push_bounded. rewrite length_app. simpl.
  destruct (N.ltb_spec limit (N.of_nat (length l + 1))) as [H|H].
  - destruct l as [|y l]; simpl in *; [lia|]. rewrite length_app. simpl. lia.
  - rewrite length_app. simpl. lia.
Qed.

(* ===================================================================== *)
(** * Properties *)

Definition push_messages (msgs : list string) (a : AppState) : AppState :=
  foldl (fun a msg => push_message msg a) a msgs.

Lemma push_messages_spec msgs a all seq :
  g_messages a = last_n (N.to_nat MAX_MESSAGES) all -> g_message_sequence a = u64 seq ->
  g_messages (push_messages msgs a) = last_n (N.to_nat MAX_MESSAGES) (all ++ msgs) /\
  g_message_sequence (push_messages msgs a) = u64 (seq + N.of_nat (length msgs)).
Proof.
  revert a all seq. induction msgs as [|m msgs IH]; intros a all seq Hm Hs.
  - simpl. rewrite app_nil_r, N.add_0_r. done.
  - cbn [push_messages foldl]. destruct (IH (push_message m a) (all ++ [m])%list (seq + 1)%N)
      as [IH1 IH2].
    + unfold push_message. cbn [g_messages]. rewrite Hm. apply push_bounded_last.
    + unfold push_message. cbn [g_message_sequence]. rewrite Hs. unfold u64.
      by rewrite N.Div0.add_mod_idemp_l.
    + unfold push_messages in IH1, IH2. rewrite IH1, IH2, <- app_assoc. split; [done|].
      cbn [length]. f_equal. lia.
Qed.

(** The scrollback. After any sequence of pushes following a room change, the
    screen holds exactly the last [MAX_MESSAGES] (200) of them in order, and the
    sequence counter has advanced by their number modulo 2^64, so the interface
    can tell how many lines scrolled away; the room change itself cleared the
    messages and the user list of the previous room. *)
Theorem scrollback_after_activate id name topic msgs a :
  (g_message_sequence a < 2 ^ 64)%N ->
  let b := push_messages msgs (activate_room id name topic a) in
  g_messages b = last_n 200 msgs /\
  g_message_sequence b = u64 (g_message_sequence a + N.of_nat (length msgs)) /\
  g_users b = [] /\ g_active_room_id b = id.
Proof.
  intros Hs. cbv zeta.
  destruct (push_messages_spec msgs (activate_room id name topic a) [] (g_message_sequence a))
    as [H1 H2]; [done|by unfold u64; rewrite N.mod_small|].
  rewrite H1, H2. split; [done|]. split; [done|].
  assert (forall l a', g_users (push_messages l a') = g_users a' /\
    g_active_room_id (push_messages l a') = g_active_room_id a') as Hf.
  { clear. induction l as [|m l IH]; intros a'; [done|]. cbn [push_messages foldl].
    unfold push_messages in IH. by rewrite !(proj1 (IH _)), !(proj2 (IH _)). }
  destruct (Hf msgs (activate_room id name topic a)) as [-> ->]. done.
Qed.

Lemma scrollback_after_activate_witness :
  let b := push_messages ["x"; "y"] (activate_room 2%N "den" "" initial_app_state) in
  g_messages b = last_n 200 ["x"; "y"] /\ g_message_sequence b = u64 (0 + N.of_nat 2) /\
  g_users b = [] /\ g_active_room_id b = 2%N.
Proof.
  apply (scrollback_after_activate 2%N "den" "" ["x"; "y"] initial_app_state). reflexivity.
Defined.

(** Updates of another room are ignored. A user list or topic that arrives
    for a room other than the active one changes nothing on the screen; one for
    the active room replaces just that field. *)
Theorem room_updates_confined id users topic a :
  (id <> g_active_room_id a ->
   update_room_users id users a = a /\ update_room_topic id topic a = a) /\
  (id = g_active_room_id a ->
   chat_state_snapshot (update_room_users id users a)
     = MkSnapshot (g_messages a) users (g_rooms a) id (g_active_room_name a)
         (g_active_room_topic a) (g_message_sequence a) /\
   chat_state_snapshot (update_room_topic id topic a)
     = MkSnapshot (g_messages a) (g_users a) (g_rooms a) id (g_active_room_name a)
         topic (g_message_sequence a)).
Proof.
  unfold update_room_users, update_room_topic. split; intros H.
  - rewrite (N.eqb_sym (g_active_room_id a)). by rewrite (proj2 (N.eqb_neq _ _)).
  - subst id. by rewrite N.eqb_refl.
Qed.

Lemma room_updates_confined_witness :
  update_room_users 3%N ["eve"] initial_app_state = initial_app_state /\
  update_room_topic 3%N "t" initial_app_state = initial_app_state.
Proof. apply room_updates_confined. discriminate. Defined.
