(* ===== verification/StorageApi.v ===== *)
(** The storage interface of [src/storage/storage.h]: the stored records and the
    abstract class [ServerStorage], as a type class over the storage's state with
    the part of its contract the server relies on. The server is modelled and
    proved against this interface only. *)

From S2P Require Import Prelude Frame Message Utils.
Local Open Scope string_scope.

Record StoredRoom := MkStoredRoom {
  stored_room_id : RoomId;
  stored_room_name : string;
  stored_room_topic : string;
  stored_room_owner : string;
  stored_room_created_at : Z;
}.

Record StoredBan := MkStoredBan {
  ban_nickname : string;
  ban_reason : string;
  ban_created_at : Z;
  ban_expires_at : option Z;
}.

Record StoredMessage := MkStoredMessage {
  stored_id : string;
  stored_message_room : RoomId;
  stored_nickname : string;
  stored_body : string;
  stored_sent_at : Z;
  stored_signature : option string;
  stored_public_key : option string;
}.

Record HistoryCursor := MkCursor {
  cursor_sent_at : Z;
  cursor_id : string;
}.

Record HistoryPage := MkPage {
  page_messages : list StoredMessage;
  page_next : option HistoryCursor;
}.

Record ImportResult := MkImport {
  imported_bans : N;
  imported_identities : N;
  bans_already_imported : bool;
  identities_already_imported : bool;
}.

(** The virtual functions. An operation may change the storage's state; the
    legacy import reads files and the time. *)
Class ServerStorage (S : Type) := {
  load_rooms : S -> list StoredRoom * S;
  load_identities : S -> list (string * string) * S;
  load_bans : Z -> S -> list StoredBan * S;
  load_history : RoomId -> N -> option HistoryCursor -> S -> HistoryPage * S;
  store_room : StoredRoom -> S -> bool * S;
  update_stored_topic : RoomId -> string -> S -> bool * S;
  store_identity : string -> string -> S -> bool * S;
  store_ban : StoredBan -> S -> bool * S;
  remove_ban : string -> S -> bool * S;
  store_message : StoredMessage -> S -> bool * S;
  import_legacy_files : Files -> Z -> string -> string -> S -> ImportResult * S;
  flush : S -> S;
  last_error : S -> string;
}.

(** Rooms a database can hold: the lobby, distinct nonzero identifiers below 2^63
    (the column is a signed integer), valid names that differ also when case is
    ignored, and no more of them than a server accepts. *)
Definition normalized_room_name (name : string) : string := smap tolower name.

Record stored_rooms_ok (rooms : list StoredRoom) : Prop := {
  stored_ids : NoDup (stored_room_id <$> rooms);
  stored_names : NoDup ((fun r => normalized_room_name (stored_room_name r)) <$> rooms);
  stored_valid : Forall (fun r => (0 < stored_room_id r < 2 ^ 63)%N /\
                              is_valid_room_name (stored_room_name r) = true) rooms;
  stored_lobby : 1%N ∈ (stored_room_id <$> rooms);
  stored_count : (N.of_nat (length rooms) <= MAX_ROOMS)%N;
}.

(** The contract: what [load_rooms] returns is well formed, and a page of history
    holds at most the number of messages asked for (at least one). *)
Class StorageContract (S : Type) `{ServerStorage S} (ready : S -> Prop) := {
  load_rooms_ok : forall s, ready s -> stored_rooms_ok (load_rooms s).1 /\ ready (load_rooms s).2;
  load_history_bound : forall room limit before s, ready s ->
    (N.of_nat (length (page_messages (load_history room limit before s).1)) <= N.max 1 limit)%N
    /\ ready (load_history room limit before s).2;
}.

(** A storage that remembers nothing: the instance used to show that the contract
    can hold. *)
Definition lobby_only (owner : string) : list StoredRoom :=
  [MkStoredRoom 1%N "lobby" "Welcome to the lobby" owner 0].

#[export] Instance null_storage : ServerStorage unit := {
  load_rooms u := (lobby_only "", u);
  load_identities u := ([], u);
  load_bans _ u := ([], u);
  load_history _ _ _ u := (MkPage [] None, u);
  store_room _ u := (true, u);
  update_stored_topic _ _ u := (true, u);
  store_identity _ _ u := (true, u);
  store_ban _ u := (true, u);
  remove_ban _ u := (true, u);
  store_message _ u := (true, u);
  import_legacy_files _ _ _ _ u := (MkImport 0 0 false false, u);
  flush u := u;
  last_error _ := "";
}.

Lemma lobby_only_ok owner : stored_rooms_ok (lobby_only owner).
Proof.
  split; cbn.
  - apply NoDup_singleton.
  - apply NoDup_singleton.
  - constructor; [|constructor]. cbn. split; [lia|reflexivity].
  - left.
  - unfold MAX_ROOMS. lia.
Qed.

#[export] Instance null_contract : StorageContract unit (fun _ => True).
Proof. split; [split; [apply lobby_only_ok|done]|]. intros. cbn. split; [lia|done]. Qed.
