(* ===== verification/StorageSpec.v ===== *)
(** What a storage promises about its content: an abstract specification of
    [ServerStorage]. The content is the rooms, identities and bans a storage holds
    or is going to hold; unless an error is reported each write changes it in one
    way, and an idle storage returns it. The server's persistence is
    proved against this interface; [Sqlite.v] implements it. *)

From S2P Require Import Prelude Frame Message Utils StorageApi.
Local Open Scope string_scope.

(** Rooms are kept by their signed identifier, with name, topic and owner; bans
    with the time they expire. *)
Record Content := MkContent {
  content_rooms : gmap Z (string * string * string);
  content_identities : gmap string string;
  content_bans : gmap string (option Z);
}.

Definition put_room (room : StoredRoom) (c : Content) : Content :=
  MkContent (<[to_int64 (stored_room_id room) :=
      (stored_room_name room, stored_room_topic room, stored_room_owner room)]> (content_rooms c))
    (content_identities c) (content_bans c).
Definition put_topic (id : RoomId) (topic : string) (c : Content) : Content :=
  MkContent (alter (fun x => (x.1.1, topic, x.2)) (to_int64 id) (content_rooms c))
    (content_identities c) (content_bans c).
Definition put_identity (nick key : string) (c : Content) : Content :=
  MkContent (content_rooms c) (<[nick := key]> (content_identities c)) (content_bans c).
Definition put_ban (ban : StoredBan) (c : Content) : Content :=
  MkContent (content_rooms c) (content_identities c)
    (<[ban_nickname ban := ban_expires_at ban]> (content_bans c)).
Definition drop_ban (nick : string) (c : Content) : Content :=
  MkContent (content_rooms c) (content_identities c) (delete nick (content_bans c)).

Definition has_expired (now : Z) (expires_at : option Z) : bool :=
  match expires_at with Some t => (t <=? now)%Z | None => false end.
Definition unexpired (now : Z) (c : Content) : Content :=
  MkContent (content_rooms c) (content_identities c)
    (filter (fun entry => has_expired now entry.2 = false) (content_bans c)).

(** A room whose name no other room has, whatever the case. *)
Definition room_fits (room : StoredRoom) (c : Content) : Prop :=
  forall z x, content_rooms c !! z = Some x -> z <> to_int64 (stored_room_id room) ->
    normalized_room_name x.1.1 <> normalized_room_name (stored_room_name room).

(** Signed 64-bit identifiers, and texts that survive being read back as C
    strings. *)
Definition nul : ascii := ascii_of_N 0.
Definition clean_text (s : string) : Prop := sfind nul s = None.
Definition clean (c : Content) : Prop :=
  (forall z x, content_rooms c !! z = Some x ->
     (- 2 ^ 63 <= z < 2 ^ 63)%Z /\ clean_text x.1.1 /\ clean_text x.1.2 /\ clean_text x.2) /\
  (forall nick key, content_identities c !! nick = Some key -> clean_text nick /\ clean_text key) /\
  (forall nick t, content_bans c !! nick = Some t -> clean_text nick).

Definition clean_textb (s : string) : bool :=
  match sfind nul s with Some _ => false | None => true end.
Definition cleanb (c : Content) : bool :=
  forallb (fun e => (- 2 ^ 63 <=? e.1)%Z && (e.1 <? 2 ^ 63)%Z && clean_textb e.2.1.1
             && clean_textb e.2.1.2 && clean_textb e.2.2) (map_to_list (content_rooms c)) &&
  forallb (fun e => clean_textb e.1 && clean_textb e.2) (map_to_list (content_identities c)) &&
  forallb (fun e => clean_textb e.1) (map_to_list (content_bans c)).

Lemma clean_textb_ok s : clean_textb s = true -> clean_text s.
Proof. unfold clean_textb, clean_text. by destruct (sfind nul s). Qed.

Lemma cleanb_ok c : cleanb c = true -> clean c.
Proof.
  unfold cleanb. intros [[Hr Hi]%andb_true_iff Hb]%andb_true_iff.
  rewrite forallb_forall in Hr. rewrite forallb_forall in Hi. rewrite forallb_forall in Hb.
  split_and!.
  - intros z x Hx%elem_of_map_to_list%list_elem_of_In. specialize (Hr _ Hx). cbn in Hr.
    rewrite !andb_true_iff, Z.leb_le, Z.ltb_lt in Hr.
    destruct Hr as [[[[? ?] ?] ?] ?]. split_and!; [lia|lia|by apply clean_textb_ok..].
  - intros n k Hx%elem_of_map_to_list%list_elem_of_In. specialize (Hi _ Hx). cbn in Hi.
    apply andb_true_iff in Hi as [? ?]. by split; apply clean_textb_ok.
  - intros n k Hx%elem_of_map_to_list%list_elem_of_In. by apply clean_textb_ok, (Hb _ Hx).
Qed.

Definition listed_room (stored : StoredRoom) : RoomId * (string * string * string) :=
  (stored_room_id stored,
   (stored_room_name stored, stored_room_topic stored, stored_room_owner stored)).

(** [s'] follows from [s] by an operation that turns the content [c] into [f c],
    unless an error is reported from then on. *)
Definition turns {S} `{ServerStorage S} (content : S -> option Content)
    (fits : Content -> Prop) (f : Content -> Content) (s s' : S) : Prop :=
  last_error s' = "" ->
  last_error s = "" /\ forall c, content s = Some c -> fits c -> content s' = Some (f c).
Definition always (c : Content) : Prop := True.

Class StorageSpec (S : Type) `{ServerStorage S} (content : S -> option Content)
    (idle : S -> Prop) := {
  spec_store_room : forall room s,
    turns content (room_fits room) (put_room room) s (store_room room s).2;
  spec_topic : forall id topic s,
    turns content always (put_topic id topic) s (update_stored_topic id topic s).2;
  spec_identity : forall nick key s,
    turns content always (put_identity nick key) s (store_identity nick key s).2;
  spec_ban : forall ban s, turns content always (put_ban ban) s (store_ban ban s).2;
  spec_remove_ban : forall nick s, turns content always (drop_ban nick) s (remove_ban nick s).2;
  spec_message : forall m s,
    turns content (fun c => is_Some (content_rooms c !! to_int64 (stored_message_room m))) id
      s (store_message m s).2;
  spec_flush : forall s, turns content always id s (flush s) /\ idle (flush s);
  spec_load_rooms : forall s c, content s = Some c -> idle s -> clean c ->
    (listed_room <$> (load_rooms s).1) ≡ₚ
      ((fun entry => (of_int64 entry.1, entry.2)) <$> map_to_list (content_rooms c)) /\
    content (load_rooms s).2 = Some c /\ idle (load_rooms s).2 /\
    last_error (load_rooms s).2 = last_error s;
  spec_load_identities : forall s c, content s = Some c -> idle s -> clean c ->
    (load_identities s).1 ≡ₚ map_to_list (content_identities c) /\
    content (load_identities s).2 = Some c /\ idle (load_identities s).2 /\
    last_error (load_identities s).2 = last_error s;
  spec_load_bans : forall now s c, content s = Some c -> idle s -> clean c ->
    (ban_nickname <$> (load_bans now s).1) ≡ₚ (map_to_list (content_bans (unexpired now c))).*1 /\
    content (load_bans now s).2 = Some (unexpired now c) /\ idle (load_bans now s).2 /\
    last_error (load_bans now s).2 = last_error s;
  spec_load_history : forall id limit before s c, content s = Some c -> idle s ->
    content (load_history id limit before s).2 = Some c /\
    idle (load_history id limit before s).2 /\
    last_error (load_history id limit before s).2 = last_error s;
}.
