(* ===== verification/Sqlite.v ===== *)
(** The SQLite storage of [src/storage/storage.cpp]: the tables of its schema,
    each SQL statement of the source as an operation on them, the migration, the
    write queue with its worker thread, and the class [SQLiteStorage] as an
    instance of the storage interface.

    A table is a map from its primary key to its rows. A statement that SQLite
    rejects (a UNIQUE or FOREIGN KEY constraint of the schema) is an error value;
    a failure from outside (disk, locks) is the [fault] a batch may meet. *)

From S2P Require Import Prelude Frame Message Utils StorageApi StorageSpec.
Local Open Scope string_scope.
Local Open Scope list_scope.

(* ===================================================================== *)
(** * Tables *)

Record RoomRow := MkRoomRow {
  row_name : string;
  row_topic : string;
  row_created_at : Z;
  row_owner : string;
}.

Record IdentityRow := MkIdentityRow {
  row_public_key : string;
  row_identity_created_at : Z;
}.

Record BanRow := MkBanRow {
  row_reason : string;
  row_ban_created_at : Z;
  row_expires_at : option Z;
}.

Record MessageRow := MkMessageRow {
  row_room_id : Z;
  row_nickname : string;
  row_body : string;
  row_sent_at : Z;
  row_signature : option string;
  row_message_key : option string;
}.

(** A database file. [version_table] is [None] in a file without the table
    [schema_version], which is taken to hold none of the other tables either, and
    [Some None] when that table has no row. *)
Record Database := MkDatabase {
  version_table : option (option Z);
  rooms_table : gmap Z RoomRow;
  identities_table : gmap string IdentityRow;
  bans_table : gmap string BanRow;
  messages_table : gmap string MessageRow;
  legacy_imports_table : gmap string Z;
}.

Definition empty_file : Database := MkDatabase None ∅ ∅ ∅ ∅ ∅.

Definition with_version_table (v : option (option Z)) (d : Database) : Database :=
  MkDatabase v (rooms_table d) (identities_table d) (bans_table d) (messages_table d)
    (legacy_imports_table d).
Definition with_rooms_table (v : gmap Z RoomRow) (d : Database) : Database :=
  MkDatabase (version_table d) v (identities_table d) (bans_table d) (messages_table d)
    (legacy_imports_table d).
Definition with_identities_table (v : gmap string IdentityRow) (d : Database) : Database :=
  MkDatabase (version_table d) (rooms_table d) v (bans_table d) (messages_table d)
    (legacy_imports_table d).
Definition with_bans_table (v : gmap string BanRow) (d : Database) : Database :=
  MkDatabase (version_table d) (rooms_table d) (identities_table d) v (messages_table d)
    (legacy_imports_table d).
Definition with_messages_table (v : gmap string MessageRow) (d : Database) : Database :=
  MkDatabase (version_table d) (rooms_table d) (identities_table d) (bans_table d) v
    (legacy_imports_table d).
Definition with_legacy_imports_table (v : gmap string Z) (d : Database) : Database :=
  MkDatabase (version_table d) (rooms_table d) (identities_table d) (bans_table d)
    (messages_table d) v.

(** The constraints a write can violate. *)
Inductive SqlError := UniqueRoomName | ForeignKey.

(** What the library reports for them, and the readings of the clock by the
    worker thread, in seconds. *)
Class SqliteEnv := {
  errmsg : SqlError -> string;
  worker_seconds : nat -> Z;
}.

(** [column_text]: the text up to its first NUL, as a C string is read. *)

Definition column_text (text : string) : string :=
  match sfind nul text with
  | Some n => stake n text
  | None => text
  end.

(* ===================================================================== *)
(** * Schema versions *)

Definition SCHEMA_VERSION : Z := 3.
Definition MAX_PENDING_WRITES : nat := 4096.
Definition MAX_HISTORY_PAGE : N := 500.
Definition BATCH_SIZE : nat := 64.

Definition read_schema_version (d : Database) : Z + string :=
  match version_table d with
  | None => inl 0%Z
  | Some None => inr "schema_version exists but contains no version"
  | Some (Some version) => inl version
  end.

Definition with_row_owner (owner : string) (r : RoomRow) : RoomRow :=
  MkRoomRow (row_name r) (row_topic r) (row_created_at r) owner.

(** Version 1: the tables, with the lobby. *)
Definition create_schema (now : Z) : Database :=
  MkDatabase (Some (Some 1%Z)) {[ 1%Z := MkRoomRow "lobby" "Welcome to the lobby" now "" ]}
    ∅ ∅ ∅ ∅.

(** Version 2: [ALTER TABLE rooms ADD COLUMN owner_nickname ... DEFAULT '']. *)
Definition add_room_owner (d : Database) : Database :=
  with_version_table (Some (Some 2%Z))
    (with_rooms_table (with_row_owner "" <$> rooms_table d) d).

(** Version 3: [CREATE TABLE legacy_imports]. *)
Definition add_legacy_imports (d : Database) : Database :=
  with_version_table (Some (Some 3%Z)) (with_legacy_imports_table ∅ d).

(** One transaction; an error leaves the file as it was. [CREATE TABLE] fails on
    a table that exists. *)
Definition migrate (now : Z) (d : Database) : Database + string :=
  match read_schema_version d with
  | inr error => inr error
  | inl version =>
      if (SCHEMA_VERSION <? version)%Z then
        inr ("Database schema version " +:+ to_string_signed version
          +:+ " is newer than this chatbox build supports ("
          +:+ to_string_signed SCHEMA_VERSION +:+ ")")
      else
        match (if (version <? 1)%Z then
                 match version_table d with
                 | None => inl (create_schema now, 1%Z)
                 | Some _ => inr "SQLite statement failed: table schema_version already exists"
                 end
               else inl (d, version)) with
        | inr error => inr error
        | inl (d1, v1) =>
            let '(d2, v2) := if (v1 <? 2)%Z then (add_room_owner d1, 2%Z) else (d1, v1) in
            inl (if (v2 <? 3)%Z then add_legacy_imports d2 else d2)
        end
  end.

(* ===================================================================== *)
(** * Writes *)

Inductive Write :=
| RoomWrite (room : StoredRoom)
| TopicWrite (room_id : RoomId) (topic : string)
| IdentityWrite (nickname public_key : string)
| BanWrite (ban : StoredBan)
| BanRemove (nickname : string)
| MessageWrite (message : StoredMessage).

(** [name TEXT COLLATE NOCASE UNIQUE]: another row has that name, ASCII case
    ignored. *)
Definition name_in_use (rooms : gmap Z RoomRow) (id : Z) (name : string) : bool :=
  existsb (fun entry => negb (entry.1 =? id)%Z &&
      String.eqb (normalized_room_name (row_name entry.2)) (normalized_room_name name))
    (map_to_list rooms).

Definition write_room (room : StoredRoom) (d : Database) : Database + SqlError :=
  let id := to_int64 (stored_room_id room) in
  if name_in_use (rooms_table d) id (stored_room_name room) then inr UniqueRoomName
  else
    let created_at := match rooms_table d !! id with
                      | Some row => row_created_at row   (* not among the columns SET *)
                      | None => stored_room_created_at room
                      end in
    inl (with_rooms_table (<[id := MkRoomRow (stored_room_name room) (stored_room_topic room)
                                     created_at (stored_room_owner room)]> (rooms_table d)) d).

Definition with_row_topic (topic : string) (r : RoomRow) : RoomRow :=
  MkRoomRow (row_name r) topic (row_created_at r) (row_owner r).

Definition write_identity (now : Z) (nick key : string) (d : Database) : Database :=
  let created_at := match identities_table d !! nick with
                    | Some row => row_identity_created_at row
                    | None => now
                    end in
  with_identities_table (<[nick := MkIdentityRow key created_at]> (identities_table d)) d.

Definition write_ban (ban : StoredBan) (d : Database) : Database :=
  with_bans_table (<[ban_nickname ban :=
    MkBanRow (ban_reason ban) (ban_created_at ban) (ban_expires_at ban)]> (bans_table d)) d.

(** [INSERT OR IGNORE]: a message whose identifier is there is dropped; that does
    not extend to the foreign key. *)
Definition write_message (m : StoredMessage) (d : Database) : Database + SqlError :=
  match messages_table d !! stored_id m with
  | Some _ => inl d
  | None =>
      let room := to_int64 (stored_message_room m) in
      match rooms_table d !! room with
      | None => inr ForeignKey
      | Some _ => inl (with_messages_table (<[stored_id m :=
          MkMessageRow room (stored_nickname m) (stored_body m) (stored_sent_at m)
            (stored_signature m) (stored_public_key m)]> (messages_table d)) d)
      end
  end.

Definition execute_write (now : Z) (write : Write) (d : Database) : Database + SqlError :=
  match write with
  | RoomWrite room => write_room room d
  | TopicWrite id topic =>
      inl (with_rooms_table (alter (with_row_topic topic) (to_int64 id) (rooms_table d)) d)
  | IdentityWrite nick key => inl (write_identity now nick key d)
  | BanWrite ban => inl (write_ban ban d)
  | BanRemove nick => inl (with_bans_table (delete nick (bans_table d)) d)
  | MessageWrite message => write_message message d
  end.

(** Only an identity reads the clock. *)
Definition clock_reads (write : Write) : nat :=
  match write with IdentityWrite _ _ => 1 | _ => 0 end.

(* ===================================================================== *)
(** * The queue and the worker thread *)

(** [SQLiteStorage::Impl]. [batch] holds the writes the worker has taken and not
    yet committed: the flag [writing] of the code is true just while there is one.
    [reads] counts the clock readings of the worker. *)
Record Sqlite := MkSqlite {
  db : Database;
  queue : list Write;
  batch : option (list Write);
  stopping : bool;
  error : string;
  reads : nat;
}.

Definition writing (s : Sqlite) : bool :=
  match batch s with Some _ => true | None => false end.

Section sqlite.
Context `{SqliteEnv}.

(** The writes of a batch in order, up to the first error. *)
Fixpoint execute_all (writes : list Write) (n : nat) (d : Database) :
    nat * (Database + SqlError) :=
  match writes with
  | [] => (n, inl d)
  | write :: rest =>
      match execute_write (worker_seconds n) write d with
      | inl d' => execute_all rest (n + clock_reads write)%nat d'
      | inr e => (n, inr e)
      end
  end.

Definition enqueue (write : Write) (s : Sqlite) : bool * Sqlite :=
  if stopping s || (MAX_PENDING_WRITES <=? length (queue s))%nat
  then (false, MkSqlite (db s) (queue s) (batch s) (stopping s)
                 "SQLite write queue is full" (reads s))
  else (true, MkSqlite (db s) (queue s ++ [write]) (batch s) (stopping s) (error s) (reads s)).

(** The first block under the lock: at most 64 writes are taken. *)
Definition take_batch (s : Sqlite) : Sqlite :=
  MkSqlite (db s) (drop BATCH_SIZE (queue s)) (Some (take BATCH_SIZE (queue s))) (stopping s)
    (error s) (reads s).

(** The transaction, then [writing = false]. [fault] is an error of SQLite that is
    not the program's doing; it can strike at any statement. *)
Definition commit_batch (fault : option string) (writes : list Write) (s : Sqlite) : Sqlite :=
  match fault with
  | Some detail => MkSqlite (db s) (queue s) None (stopping s) detail (reads s)
  | None =>
      match execute_all writes (reads s) (db s) with
      | (n, inl d) => MkSqlite d (queue s) None (stopping s) (error s) n
      | (n, inr e) => MkSqlite (db s) (queue s) None (stopping s)
                        ("Could not execute SQLite write: " +:+ errmsg e) n
      end
  end.

(** One step of [run]; nothing happens while the worker waits. *)
Definition worker_step (fault : option string) (s : Sqlite) : Sqlite :=
  match batch s with
  | Some writes => commit_batch fault writes s
  | None => match queue s with
            | [] => s
            | _ :: _ => take_batch s
            end
  end.

(** [flush] waits until the worker has drained the queue: a step for each batch
    taken and one for each commit, at most two per write and one for the batch
    in hand. *)
Definition drain (s : Sqlite) : Sqlite :=
  Nat.iter (2 * length (queue s) + 1)%nat (worker_step None) s.

(** The constructor and the destructor. *)
Definition open_storage (now : Z) (d : Database) : Sqlite + string :=
  match migrate now d with
  | inl d' => inl (MkSqlite d' [] None false "" 0)
  | inr error => inr error
  end.
Definition destroy (s : Sqlite) : Database := db (drain s).

(* ===================================================================== *)
(** * Reading *)

Definition with_db (d : Database) (s : Sqlite) : Sqlite :=
  MkSqlite d (queue s) (batch s) (stopping s) (error s) (reads s).

Definition read_room (entry : Z * RoomRow) : StoredRoom :=
  let '(id, row) := entry in
  MkStoredRoom (of_int64 id) (column_text (row_name row)) (column_text (row_topic row))
    (column_text (row_owner row)) (row_created_at row).

Definition load_rooms_from (d : Database) : list StoredRoom :=
  read_room <$> map_iter (rooms_table d).

Definition load_identities_from (d : Database) : list (string * string) :=
  (fun entry => (column_text entry.1, column_text (row_public_key entry.2)))
  <$> map_iter (identities_table d).

Definition expired (now : Z) (row : BanRow) : bool :=
  match row_expires_at row with
  | Some expires_at => (expires_at <=? now)%Z
  | None => false
  end.

Definition delete_expired (now : Z) (d : Database) : Database :=
  with_bans_table (filter (fun entry => expired now entry.2 = false) (bans_table d)) d.

Definition read_ban (entry : string * BanRow) : StoredBan :=
  let '(nick, row) := entry in
  MkStoredBan (column_text nick) (column_text (row_reason row)) (row_ban_created_at row)
    (row_expires_at row).

Definition load_bans_from (d : Database) : list StoredBan := read_ban <$> map_iter (bans_table d).

(** [ORDER BY sent_at DESC, id DESC]. *)
Definition newer_first : relation (string * MessageRow) := fun a b =>
  (row_sent_at b.2 < row_sent_at a.2)%Z \/
  (row_sent_at a.2 = row_sent_at b.2 /\ String.le b.1 a.1).
#[export] Instance newer_first_dec : RelDecision newer_first.
Proof. intros a b. unfold newer_first. apply _. Defined.

(** [sent_at < ? OR (sent_at = ? AND id < ?)], true without a cursor. *)
Definition before_cursor (before : option HistoryCursor) (entry : string * MessageRow) : Prop :=
  match before with
  | None => True
  | Some c => (row_sent_at entry.2 < cursor_sent_at c)%Z \/
      (row_sent_at entry.2 = cursor_sent_at c /\ strict String.le entry.1 (cursor_id c))
  end.
#[export] Instance before_cursor_dec before entry : Decision (before_cursor before entry).
Proof. unfold before_cursor, strict. destruct before; apply _. Defined.

(** The rows of a query without its LIMIT, in order. *)
Definition history_rows (id : RoomId) (before : option HistoryCursor) (d : Database) :
    list (string * MessageRow) :=
  merge_sort newer_first
    (filter (fun entry => row_room_id entry.2 = to_int64 id /\ before_cursor before entry)
       (map_to_list (messages_table d))).

Definition read_message (entry : string * MessageRow) : StoredMessage :=
  let '(id, row) := entry in
  MkStoredMessage (column_text id) (of_int64 (row_room_id row)) (column_text (row_nickname row))
    (column_text (row_body row)) (row_sent_at row) (column_text <$> row_signature row)
    (column_text <$> row_message_key row).

(** One row more than the limit is asked for; when it comes it is dropped and the
    page points at its last message. *)
Definition load_history_from (id : RoomId) (limit : N) (before : option HistoryCursor)
    (d : Database) : HistoryPage :=
  let limit := N.to_nat (N.min (N.max limit 1) MAX_HISTORY_PAGE) in
  let messages : list StoredMessage := read_message <$> take (limit + 1)%nat (history_rows id before d) in
  if (limit <? length messages)%nat then
    let messages := take (length messages - 1)%nat messages in
    MkPage messages ((fun m => MkCursor (stored_sent_at m) (stored_id m)) <$> list.last messages)
  else MkPage messages None.

(* ===================================================================== *)
(** * The legacy import *)

(** [INSERT OR IGNORE] of one nickname; the count of rows that changed. *)
Definition import_ban (now : Z) (acc : Database * N) (nick : string) : Database * N :=
  let '(d, count) := acc in
  if negb (is_valid_nickname nick) then acc
  else match bans_table d !! nick with
       | Some _ => acc
       | None => (with_bans_table (<[nick := MkBanRow "" now None]> (bans_table d)) d,
                  count + 1)%N
       end.

Definition import_identity (now : Z) (acc : Database * N) (line : string) : Database * N :=
  let '(d, count) := acc in
  match split line "|" with
  | [nick; key] =>
      if negb (is_valid_nickname nick) || negb (is_hex_of_len key crypto_sign_PUBLICKEYBYTES)
      then acc
      else match identities_table d !! nick with
           | Some _ => acc
           | None => (with_identities_table (<[nick := MkIdentityRow key now]>
                        (identities_table d)) d, count + 1)%N
           end
  | _ => acc
  end.

Definition mark_imported (kind : string) (now : Z) (d : Database) : Database :=
  with_legacy_imports_table (<[kind := now]> (legacy_imports_table d)) d.

(** One kind of file: not requested, imported before, not there, or imported line
    by line and marked. The new database, the rows added, and whether it had been
    imported. *)
Definition import_kind (kind : string) (path : string) (files : Files) (now : Z)
    (import_line : Database * N -> string -> Database * N) (d : Database) :
    Database * N * bool :=
  if sempty path then (d, 0%N, false)
  else match legacy_imports_table d !! kind with
  | Some _ => (d, 0%N, true)
  | None =>
      match files !! path with
      | None => (d, 0%N, false)
      | Some text =>
          let '(d', count) := foldl import_line (d, 0%N) (getlines newline text) in
          (mark_imported kind now d', count, false)
      end
  end.

(** All rows of one import carry the time [now] at which it began. *)
Definition import_from (files : Files) (now : Z) (bans_path identities_path : string)
    (d : Database) : ImportResult * Database :=
  let '(d1, bans, bans_before) :=
    import_kind "bans" bans_path files now (import_ban now) d in
  let '(d2, identities, identities_before) :=
    import_kind "identities" identities_path files now (import_identity now) d1 in
  (MkImport bans identities bans_before identities_before, d2).

(* ===================================================================== *)
(** * [SQLiteStorage] as a storage *)

(** Between the calls the worker may step at any time; the instance says what the
    calls themselves do. *)
#[export] Instance sqlite_storage : ServerStorage Sqlite := {
  load_rooms s := (load_rooms_from (db s), s);
  load_identities s := (load_identities_from (db s), s);
  load_bans now s :=
    let d := delete_expired now (db s) in (load_bans_from d, with_db d s);
  load_history id limit before s := (load_history_from id limit before (db s), s);
  store_room room s := enqueue (RoomWrite room) s;
  update_stored_topic id topic s := enqueue (TopicWrite id topic) s;
  store_identity nick key s := enqueue (IdentityWrite nick key) s;
  store_ban ban s := enqueue (BanWrite ban) s;
  remove_ban nick s := enqueue (BanRemove nick) s;
  store_message message s := enqueue (MessageWrite message) s;
  import_legacy_files files now bans_path identities_path s :=
    let s := drain s in
    let '(result, d) := import_from files now bans_path identities_path (db s) in
    (result, with_db d s);
  flush := drain;
  last_error := error;
}.

Definition schema_version (s : Sqlite) : Z + string := read_schema_version (db s).
End sqlite.
