(* ===== verification/SqliteProperties.v ===== *)
(** Theorems about the SQLite storage of [Sqlite.v]: the write queue behaves like
    writing at once, a batch is all or nothing, the history is paged completely,
    the migration and the legacy import lose nothing, and the storage keeps the
    contract of [StorageApi.v]. *)

From S2P Require Import Prelude Frame Message Utils StorageApi StorageSpec Sqlite.
Local Open Scope string_scope.
Local Open Scope list_scope.

Section queue.
Context `{SqliteEnv}.

(* ===================================================================== *)
(** * Lemmas: the write queue *)

Lemma execute_all_app ws1 ws2 n d :
  execute_all (ws1 ++ ws2) n d =
    match execute_all ws1 n d with
    | (n', inl d') => execute_all ws2 n' d'
    | (n', inr e) => (n', inr e)
    end.
Proof.
  revert n d. induction ws1 as [|w ws IH]; intros n d; [done|].
  cbn [app execute_all]. destruct (execute_write _ w d); [apply IH|done].
Qed.

(** The database once every pending write has been executed, in one sequence. *)
Definition pending (s : Sqlite) : list Write :=
  match batch s with Some writes => writes ++ queue s | None => queue s end.
Definition settle (s : Sqlite) : nat * (Database + SqlError) :=
  execute_all (pending s) (reads s) (db s).

Lemma settle_enqueue write s n d :
  settle s = (n, inl d) -> (enqueue write s).1 = true ->
  settle (enqueue write s).2 = execute_all [write] n d.
Proof.
  unfold settle, pending, enqueue. destruct (stopping s || _); cbn [fst snd]; [done|]. intros E _.
  cbn [batch queue reads db].
  destruct (batch s); by rewrite ?app_assoc, execute_all_app, E.
Qed.

Lemma settle_worker s n d : settle s = (n, inl d) -> settle (worker_step None s) = (n, inl d).
Proof.
  unfold settle, pending, worker_step. intros E. destruct (batch s) as [ws|] eqn:Eb.
  - unfold commit_batch. rewrite execute_all_app in E.
    destruct (execute_all ws (reads s) (db s)) as [n' [d'|e]]; [exact E|done].
  - destruct (queue s) as [|w q] eqn:Eq; [by rewrite Eb, Eq|].
    unfold take_batch. cbn [batch queue reads db]. by rewrite Eq, take_drop.
Qed.

Lemma error_worker s n d : settle s = (n, inl d) -> error (worker_step None s) = error s.
Proof.
  unfold settle, pending, worker_step. intros E. destruct (batch s) as [ws|].
  - unfold commit_batch. rewrite execute_all_app in E.
    by destruct (execute_all ws (reads s) (db s)) as [n' [d'|e]].
  - by destruct (queue s).
Qed.

(** The steps [drain] still has to make. *)
Definition work_left (s : Sqlite) : nat :=
  2 * length (queue s) + (if writing s then 1 else 0).

Lemma worker_progress s : work_left s <> 0 -> work_left (worker_step None s) < work_left s.
Proof.
  unfold work_left, worker_step, writing. destruct (batch s) as [ws|] eqn:Eb; intros Hw.
  - unfold commit_batch. destruct (execute_all _ _ _) as [? [|]]; cbn; lia.
  - destruct (queue s) as [|w q] eqn:Eq; [cbn in Hw; lia|]. unfold take_batch.
    cbn [queue batch]. rewrite Eq, length_drop. cbn [length]. unfold BATCH_SIZE. lia.
Qed.

Lemma worker_done s : work_left s = 0 -> worker_step None s = s.
Proof.
  unfold work_left, worker_step, writing. destruct (batch s); [lia|].
  destruct (queue s); [done|]. cbn. lia.
Qed.

Lemma drain_steps_left k s : work_left s <= k -> work_left (Nat.iter k (worker_step None) s) = 0.
Proof.
  revert s. induction k as [|k IH]; intros s Hk; [cbn [Nat.iter nat_rect]; lia|].
  rewrite Nat.iter_succ_r. apply IH. destruct (decide (work_left s = 0)) as [E|E].
  - rewrite worker_done by done. lia.
  - pose proof (worker_progress s E). lia.
Qed.

(** [flush] returns, and then nothing is pending. *)
Lemma drain_done s : queue (drain s) = [] /\ batch (drain s) = None.
Proof.
  pose proof (drain_steps_left (2 * length (queue s) + 1) s) as Hl.
  unfold drain. unfold work_left, writing in Hl.
  destruct (Nat.iter _ _ s) as [db' q' b' st' e' r']. cbn [queue batch] in *.
  destruct (batch s), b', q' as [|? q']; cbn [length] in Hl; (split; [done || lia|done || lia]).
Qed.

Lemma iter_worker k s n d :
  settle s = (n, inl d) ->
  let s' := Nat.iter k (worker_step None) s in
  settle s' = (n, inl d) /\ error s' = error s.
Proof.
  intros E. induction k as [|k IH]; [done|]. cbn [Nat.iter nat_rect].
  cbv zeta in IH. destruct IH as (E' & Ee). split; [by apply settle_worker|].
  rewrite <- Ee. by eapply error_worker.
Qed.

(** Draining executes everything that was pending, once and in order. *)
Lemma drain_settled s n d :
  settle s = (n, inl d) ->
  db (drain s) = d /\ reads (drain s) = n /\ error (drain s) = error s.
Proof.
  intros E. destruct (drain_done s) as [Hq Hb].
  pose proof (iter_worker (2 * length (queue s) + 1) s n d E) as (E' & Ee).
  unfold drain in *. unfold settle, pending in E'.
  rewrite Hq, Hb in E'. cbn [app execute_all] in E'. split_and!; [congruence..|done].
Qed.

(* ===================================================================== *)
(** * The queue behaves like writing at once *)

(** What happens to a storage: a call stores something, or the worker steps. *)
Inductive Act := Store (write : Write) | Work.

(** The writes that were accepted, in order, and the state reached. *)
Definition run_act (a : Act) (s : Sqlite) : list Write * Sqlite :=
  match a with
  | Store write => let '(ok, s') := enqueue write s in ((if ok then [write] else []), s')
  | Work => ([], worker_step None s)
  end.

Fixpoint run_acts (acts : list Act) (s : Sqlite) : list Write * Sqlite :=
  match acts with
  | [] => ([], s)
  | a :: rest =>
      let '(accepted, s1) := run_act a s in
      let '(more, s2) := run_acts rest s1 in
      (accepted ++ more, s2)
  end.

(** A storage that has just been opened on a database. *)
Definition opened (d : Database) : Sqlite := MkSqlite d [] None false "" 0.

Lemma enqueue_accepted write s :
  (enqueue write s).1 = true -> error (enqueue write s).2 = error s.
Proof. unfold enqueue. by destruct (stopping s || _). Qed.

Lemma run_acts_settled acts s n0 d0 accepted s' n d :
  settle s = (n0, inl d0) ->
  run_acts acts s = (accepted, s') -> execute_all accepted n0 d0 = (n, inl d) ->
  settle s' = (n, inl d).
Proof.
  revert s n0 d0 accepted. induction acts as [|a acts IH]; intros s n0 d0 accepted E.
  { cbn [run_acts]. intros [= <- <-]. cbn [execute_all]. intros [= <- <-]. done. }
  cbn [run_acts]. destruct (run_act a s) as [now s1] eqn:Ea.
  destruct (run_acts acts s1) as [more s2] eqn:Er. intros [= <- <-].
  rewrite execute_all_app. destruct (execute_all now n0 d0) as [n1 [d1|e]] eqn:E1; [|done].
  eapply IH; [|exact Er]. destruct a as [write|]; cbn [run_act] in Ea.
  - pose proof (settle_enqueue write s n0 d0 E) as Hs. unfold enqueue in *.
    destruct (stopping s || _); cbn [fst snd] in *; injection Ea as <- <-.
    + cbn [execute_all] in E1. injection E1 as <- <-. exact E.
    + rewrite Hs by done. exact E1.
  - injection Ea as <- <-. cbn [execute_all] in E1. injection E1 as <- <-. by apply settle_worker.
Qed.

(** C38: write-behind is exact. However calls and worker steps interleave, and
    however the queue is cut into batches, once the queue is flushed the database
    is what executing the accepted writes one by one, in the order of the calls,
    makes of the initial one, provided they execute without an error; nothing is
    left pending. *)
Theorem write_behind_exact acts d0 accepted s n d :
  run_acts acts (opened d0) = (accepted, s) ->
  execute_all accepted 0 d0 = (n, inl d) ->
  db (drain s) = d /\ queue (drain s) = [] /\ batch (drain s) = None.
Proof.
  intros Hr He. pose proof (run_acts_settled acts (opened d0) 0 d0 accepted s n d eq_refl Hr He) as E.
  destruct (drain_settled s n d E) as (Hd & _). destruct (drain_done s) as [Hq Hb]. by split_and!.
Qed.

Lemma enqueue_all ws s :
  stopping s = false -> length (queue s) + length ws <= MAX_PENDING_WRITES ->
  run_acts (Store <$> ws) s =
    (ws, MkSqlite (db s) (queue s ++ ws) (batch s) false (error s) (reads s)).
Proof.
  revert s. induction ws as [|w ws IH]; intros s Hs Hl.
  { cbn. rewrite app_nil_r, <- Hs. by destruct s. }
  cbn [fmap list_fmap run_acts run_act]. unfold enqueue. cbn [length] in Hl.
  rewrite Hs, (proj2 (Nat.leb_gt _ _)) by lia. cbn [orb]. rewrite IH; cbn [stopping queue].
  - cbn. by rewrite <- app_assoc.
  - done.
  - rewrite length_app. cbn [length]. lia.
Qed.

Lemma iter_worker_done i s : work_left s = 0 -> Nat.iter i (worker_step None) s = s.
Proof.
  intros Hs. induction i as [|i IH]; [done|]. by rewrite Nat.iter_succ_r, worker_done.
Qed.

Lemma drain_failing ws d0 n e :
  ws <> [] -> length ws <= BATCH_SIZE -> execute_all ws 0 d0 = (n, inr e) ->
  drain (MkSqlite d0 ws None false "" 0) =
    MkSqlite d0 [] None false ("Could not execute SQLite write: " +:+ errmsg e) n.
Proof.
  intros Hn Hl He. unfold drain. cbn [queue].
  assert (exists j, 2 * length ws + 1 = S (S j)) as [j ->]
    by (exists (2 * length ws - 1); destruct ws; [done|cbn [length]; lia]).
  rewrite !Nat.iter_succ_r.
  assert (worker_step None (MkSqlite d0 ws None false "" 0)
          = MkSqlite d0 [] (Some ws) false "" 0) as ->.
  { unfold worker_step, take_batch. cbn [db queue batch stopping error reads].
    destruct ws as [|w ws]; [done|]. by rewrite take_ge, drop_ge. }
  assert (worker_step None (MkSqlite d0 [] (Some ws) false "" 0) =
    MkSqlite d0 [] None false ("Could not execute SQLite write: " +:+ errmsg e) n) as ->.
  { unfold worker_step, commit_batch. cbn [db queue batch stopping error reads].
    by rewrite He. }
  by apply iter_worker_done.
Qed.

(** A batch is all or nothing. When one of at most 64 writes waiting together
    fails, none of them is stored, also those that were accepted and would have
    succeeded; the failure is in [last_error]. *)
Theorem failed_batch_dropped ws d0 n e :
  ws <> [] -> length ws <= BATCH_SIZE -> execute_all ws 0 d0 = (n, inr e) ->
  let '(accepted, s) := run_acts (Store <$> ws) (opened d0) in
  accepted = ws /\ db (drain s) = d0 /\ queue (drain s) = [] /\
  error (drain s) = "Could not execute SQLite write: " +:+ errmsg e.
Proof.
  intros Hn Hl He.
  rewrite enqueue_all by (cbn; unfold BATCH_SIZE, MAX_PENDING_WRITES in *; lia).
  cbn [opened db queue batch error reads app].
  by rewrite (drain_failing ws d0 n e Hn Hl He).
Qed.
End queue.

(* ===================================================================== *)
(** * Paging the history *)

(** Follow the cursors from the newest message on. *)
Fixpoint pages (fuel : nat) (id : RoomId) (limit : N) (before : option HistoryCursor)
    (d : Database) : list StoredMessage :=
  match fuel with
  | 0 => []
  | S fuel' =>
      let page := load_history_from id limit before d in
      page_messages page ++
      match page_next page with
      | Some cursor => pages fuel' id limit (Some cursor) d
      | None => []
      end
  end.

(** The messages of a room. *)
Definition room_entries (id : RoomId) (d : Database) : list (string * MessageRow) :=
  filter (fun entry => row_room_id entry.2 = to_int64 id) (map_to_list (messages_table d)).

Definition cursor_of (entry : string * MessageRow) : HistoryCursor :=
  MkCursor (row_sent_at entry.2) entry.1.

#[export] Instance newer_first_trans : Transitive newer_first.
Proof.
  intros a b c [H1|[H1 L1]] [H2|[H2 L2]]; unfold newer_first; [left; lia..|].
  right. split; [lia|]. by transitivity b.1.
Qed.
#[export] Instance newer_first_total : Total newer_first.
Proof.
  intros a b. unfold newer_first.
  destruct (Z.lt_trichotomy (row_sent_at a.2) (row_sent_at b.2)) as [?|[?|?]]; auto.
  destruct (total String.le a.1 b.1); auto.
Qed.

Lemma newer_first_ids a b : newer_first a b -> newer_first b a -> a.1 = b.1.
Proof.
  intros [?|[? L1]] [?|[? L2]]; [lia..|]. by apply (anti_symm String.le).
Qed.

Lemma elem_of_history_rows id before d x :
  x ∈ history_rows id before d <-> x ∈ room_entries id d /\ before_cursor before x.
Proof.
  unfold history_rows, room_entries. rewrite merge_sort_Permutation, !list_elem_of_filter.
  tauto.
Qed.

Lemma history_rows_sorted id before d : StronglySorted newer_first (history_rows id before d).
Proof. apply (StronglySorted_merge_sort _). Qed.

Lemma history_rows_nodup id before d : NoDup (history_rows id before d).
Proof.
  unfold history_rows. rewrite merge_sort_Permutation. apply list.NoDup_filter, NoDup_map_to_list.
Qed.

Lemma room_entries_fst id d x y : x ∈ room_entries id d -> y ∈ room_entries id d -> x.1 = y.1 -> x = y.
Proof.
  unfold room_entries. rewrite !list_elem_of_filter. destruct x as [i x], y as [j y].
  cbn [fst]. intros [_ Hx%elem_of_map_to_list] [_ Hy%elem_of_map_to_list] ->. congruence.
Qed.

Lemma history_rows_unique id before d l :
  StronglySorted newer_first l -> NoDup l ->
  (forall x, x ∈ l <-> x ∈ room_entries id d /\ before_cursor before x) ->
  history_rows id before d = l.
Proof.
  intros Hs Hn Hl. apply (StronglySorted_unique_strong newer_first).
  - intros x y Hx Hy Hxy Hyx. apply elem_of_history_rows in Hx as [Hx _]. apply Hl in Hy as [Hy _].
    eapply room_entries_fst; [done..|]. by apply newer_first_ids.
  - apply history_rows_sorted.
  - done.
  - apply NoDup_Permutation; [apply history_rows_nodup|done|].
    intros x. by rewrite elem_of_history_rows, Hl.
Qed.

(** What is before an entry of the sorted list is what follows it. *)
Lemma before_entry id d p x q y :
  history_rows id None d = p ++ x :: q -> y ∈ room_entries id d ->
  before_cursor (Some (cursor_of x)) y <-> y ∈ q.
Proof.
  intros E Hy. pose proof (history_rows_sorted id None d) as Hs.
  pose proof (history_rows_nodup id None d) as Hn. rewrite E in Hs, Hn.
  apply StronglySorted_app in Hs as (Hpx & _ & [Hxq _]%StronglySorted_cons).
  apply list.NoDup_app in Hn as (_ & _ & [Hnx _]%list.NoDup_cons).
  assert (x ∈ room_entries id d) as Hx.
  { eapply (elem_of_history_rows id None). rewrite E. apply elem_of_app. right. left. }
  assert (before_cursor (Some (cursor_of x)) y <-> newer_first x y /\ x <> y) as ->.
  { unfold before_cursor, cursor_of, newer_first. cbn [cursor_sent_at cursor_id]. split.
    - intros [Hlt|[Heq [Hle Hnle]]].
      + split; [by left|]. intros ->. lia.
      + split; [by right|]. intros ->. by apply Hnle.
    - intros [[Hlt|[Heq Hle]] Hne]; [by left|]. right. split; [done|]. split; [done|].
      intros Hle'. apply Hne. eapply room_entries_fst; [done..|]. by apply (anti_symm String.le). }
  split.
  - intros [Hxy Hne]. assert (y ∈ p ++ x :: q) as Hin.
    { rewrite <- E. by apply elem_of_history_rows. }
    apply elem_of_app in Hin as [Hin|Hin].
    + exfalso. apply Hne. eapply room_entries_fst; [done..|]. apply newer_first_ids; [done|].
      apply Hpx; [done|left].
    + apply elem_of_cons in Hin as [->|Hin]; [done|exact Hin].
  - intros Hq. split; [|intros ->; done]. rewrite Forall_forall in Hxq.
    apply Hxq. by apply list_elem_of_In.
Qed.

Lemma history_after id d p x q :
  history_rows id None d = p ++ x :: q -> history_rows id (Some (cursor_of x)) d = q.
Proof.
  intros E. pose proof (history_rows_sorted id None d) as Hs.
  pose proof (history_rows_nodup id None d) as Hn. rewrite E in Hs, Hn.
  apply StronglySorted_app_1_r, StronglySorted_cons in Hs as [_ Hs].
  apply list.NoDup_app in Hn as (_ & _ & [_ Hn]%list.NoDup_cons).
  apply history_rows_unique; [done..|]. intros y. split.
  - intros Hy. assert (y ∈ room_entries id d) as Hr.
    { eapply (elem_of_history_rows id None). rewrite E. apply elem_of_app. right. by right. }
    split; [done|]. by apply (before_entry id d p x q).
  - intros [Hr Hb]. by apply (before_entry id d p x q).
Qed.

(** Identifiers without a NUL, as the program draws them. *)
Definition clean_ids (d : Database) : Prop :=
  forall i row, messages_table d !! i = Some row -> column_text i = i.

Definition page_limit (limit : N) : nat := N.to_nat (N.min (N.max limit 1) MAX_HISTORY_PAGE).

Lemma load_history_eq id limit before d :
  clean_ids d ->
  let rows := history_rows id before d in
  load_history_from id limit before d =
    if (page_limit limit <? length rows)%nat
    then MkPage (read_message <$> take (page_limit limit) rows)
           (cursor_of <$> list.last (take (page_limit limit) rows))
    else MkPage (read_message <$> rows) None.
Proof.
  intros Hc rows. unfold load_history_from. fold (page_limit limit). fold rows.
  set (lim := page_limit limit). rewrite length_fmap, length_take.
  destruct (Nat.ltb_spec lim (length rows)) as [Hlt|Hge].
  - rewrite (proj2 (Nat.ltb_lt _ _)) by lia.
    assert (Nat.min (lim + 1) (length rows) - 1 = lim) as -> by lia.
    rewrite <- fmap_take, take_take, (Nat.min_l lim) by lia. f_equal.
    rewrite fmap_last, <- option_fmap_compose.
    destruct (list.last (take lim rows)) as [x|] eqn:Ex; [|done]. cbn. f_equal.
    unfold cursor_of. destruct x as [i row]. cbn. f_equal. apply (Hc i row).
    apply last_Some_elem_of in Ex. assert ((i, row) ∈ rows) as Hx.
    { rewrite <- (take_drop lim rows). apply elem_of_app. by left. }
    apply elem_of_history_rows in Hx as [Hx _]. unfold room_entries in Hx.
    apply list_elem_of_filter in Hx as [_ Hx]. by apply elem_of_map_to_list in Hx.
  - rewrite (proj2 (Nat.ltb_ge _ _)) by lia. by rewrite take_ge by lia.
Qed.

Lemma page_limit_pos limit : 0 < page_limit limit.
Proof. unfold page_limit, MAX_HISTORY_PAGE. lia. Qed.

Lemma pages_from fuel id limit before d p :
  clean_ids d -> history_rows id None d = p ++ history_rows id before d ->
  length (history_rows id before d) < fuel ->
  pages fuel id limit before d = read_message <$> history_rows id before d.
Proof.
  intros Hc. revert before p. induction fuel as [|fuel IH]; intros before p E Hl; [lia|].
  cbn [pages]. rewrite (load_history_eq id limit before d Hc). pose proof (page_limit_pos limit).
  set (rows := history_rows id before d) in *. set (lim := page_limit limit) in *.
  destruct (Nat.ltb_spec lim (length rows)) as [Hlt|_]; cbn [page_messages page_next];
    [|by rewrite app_nil_r].
  transitivity (read_message <$> (take lim rows ++ drop lim rows)); [|by rewrite take_drop].
  rewrite fmap_app.
  destruct (list.last (take lim rows)) as [x|] eqn:Ex; cbn [fmap option_fmap option_map].
  - f_equal. apply last_Some in Ex as [q Eq].
    assert (history_rows id None d = (p ++ q) ++ x :: drop lim rows) as E'.
    { rewrite E, <- (take_drop lim rows), Eq at 1. by rewrite <- !app_assoc. }
    pose proof (history_after id d _ x _ E') as Ha. rewrite <- Ha.
    apply (IH _ ((p ++ q) ++ [x])); rewrite Ha; [by rewrite <- app_assoc|].
    rewrite length_drop. lia.
  - apply last_None in Ex. apply (f_equal length) in Ex. rewrite length_take in Ex. cbn in Ex. lia.
Qed.

(** C40: the history can be read back completely. Whatever the page size, following
    the cursors of [load_history] from the newest message visits every message of
    the room exactly once, newest first (by time, then by identifier), and ends:
    one page more than there are messages is always enough. *)
Theorem history_paging_complete id limit d :
  clean_ids d ->
  let rows := history_rows id None d in
  pages (length rows + 1) id limit None d = (read_message <$> rows) /\
  (rows ≡ₚ room_entries id d) /\ StronglySorted newer_first rows.
Proof.
  intros Hc rows. split_and!.
  - apply (pages_from _ id limit None d []); [done|done|fold rows; lia].
  - unfold rows, history_rows. rewrite merge_sort_Permutation. unfold room_entries.
    erewrite list_filter_iff; [reflexivity|]. intros x. cbn. tauto.
  - apply history_rows_sorted.
Qed.

(** A page never holds more than asked for. *)
Lemma load_history_length id limit before d :
  (N.of_nat (length (page_messages (load_history_from id limit before d))) <= N.max 1 limit)%N.
Proof.
  unfold load_history_from. fold (page_limit limit).
  assert (N.of_nat (page_limit limit) <= N.max 1 limit)%N by (unfold page_limit; lia).
  rewrite length_fmap, length_take.
  destruct (Nat.ltb_spec (page_limit limit)
    (Nat.min (page_limit limit + 1) (length (history_rows id before d)))) as [Hlt|Hge];
    cbn [page_messages]; rewrite ?length_take, length_fmap, length_take; lia.
Qed.

(* ===================================================================== *)
(** * The migration *)

(** The columns of a room in every schema version. *)
Definition room_columns (r : RoomRow) : string * string * Z :=
  (row_name r, row_topic r, row_created_at r).

Lemma room_columns_owner (rooms : gmap Z RoomRow) owner :
  room_columns <$> (with_row_owner owner <$> rooms) = room_columns <$> rooms.
Proof. rewrite <- map_fmap_compose. by apply map_fmap_ext. Qed.

(** Opening a database. A new file gets schema version 3 with the lobby in it
    and nothing else; a file of version 1, 2 or 3 is brought to version 3 with
    every room, identity, ban and message kept (the owner column, new in version
    2, is empty for the rooms of version 1); opening it again changes nothing.
    Any other version, and a version table without a row, is refused. *)
Theorem migrate_spec now d :
  match migrate now d with
  | inl d' =>
      version_table d' = Some (Some SCHEMA_VERSION) /\ migrate now d' = inl d' /\
      match version_table d with
      | None => d' = MkDatabase (Some (Some 3%Z))
                  {[ 1%Z := MkRoomRow "lobby" "Welcome to the lobby" now "" ]} ∅ ∅ ∅ ∅
      | Some None => False
      | Some (Some v) => (1 <= v <= 3)%Z /\
          room_columns <$> rooms_table d' = room_columns <$> rooms_table d /\
          ((2 <= v)%Z -> rooms_table d' = rooms_table d) /\
          identities_table d' = identities_table d /\ bans_table d' = bans_table d /\
          messages_table d' = messages_table d /\ (v = 3%Z -> d' = d)
      end
  | inr _ => version_table d = Some None \/
             exists v, version_table d = Some (Some v) /\ (v < 1 \/ 3 < v)%Z
  end.
Proof.
  unfold migrate, read_schema_version, SCHEMA_VERSION.
  destruct (version_table d) as [[v|]|] eqn:Ev.
  - destruct (Z.ltb_spec 3 v); [right; eauto|].
    destruct (Z.ltb_spec v 1); [right; eauto|].
    destruct (Z.ltb_spec v 2); cbn [Z.ltb].
    + unfold add_legacy_imports, add_room_owner. cbn. rewrite room_columns_owner.
      split_and!; try done; lia.
    + destruct (Z.ltb_spec v 3).
      * unfold add_legacy_imports. cbn. split_and!; try done; lia.
      * assert (v = 3%Z) as -> by lia. rewrite Ev. cbn. done.
  - by left.
  - cbn. unfold add_legacy_imports, add_room_owner, create_schema. cbn.
    rewrite map_fmap_singleton. done.
Qed.

(* ===================================================================== *)
(** * The legacy import *)

Definition ban_imported (now : Z) (nick : string) (row : BanRow) : Prop :=
  is_valid_nickname nick = true /\ row = MkBanRow "" now None.
Definition identity_imported (now : Z) (nick : string) (row : IdentityRow) : Prop :=
  is_valid_nickname nick = true /\
  is_hex_of_len (row_public_key row) crypto_sign_PUBLICKEYBYTES = true.

(** [m'] is [m] with [count] new entries, all of which satisfy [P]. *)
Definition grown {V} (P : string -> V -> Prop) (count : N) (m m' : gmap string V) : Prop :=
  m ⊆ m' /\ N.of_nat (size m') = (N.of_nat (size m) + count)%N /\
  (forall k v, m' !! k = Some v -> m !! k = Some v \/ P k v).

Lemma grown_refl {V} (P : string -> V -> Prop) m : grown P 0 m m.
Proof. split_and!; [done|lia|auto]. Qed.

Lemma grown_insert {V} (P : string -> V -> Prop) n m m' k v :
  grown P n m m' -> m' !! k = None -> P k v -> grown P (n + 1) m (<[k := v]> m').
Proof.
  intros (Hs & Hn & Hp) Hk Hv. split_and!.
  - etrans; [exact Hs|by apply insert_subseteq].
  - rewrite map_size_insert_None by done. lia.
  - intros k' v'. rewrite lookup_insert_Some. intros [[<- <-]|[_ Hl]]; [by right|by apply Hp].
Qed.

Lemma foldl_import_ban now lines d d1 n d' n' :
  grown (ban_imported now) n (bans_table d) (bans_table d1) ->
  d1 = with_bans_table (bans_table d1) d ->
  foldl (import_ban now) (d1, n) lines = (d', n') ->
  grown (ban_imported now) n' (bans_table d) (bans_table d') /\
  d' = with_bans_table (bans_table d') d.
Proof.
  revert d1 n. induction lines as [|nick lines IH]; intros d1 n Hg Hd.
  { cbn. by intros [= <- <-]. }
  cbn [foldl]. unfold import_ban at 2. destruct (is_valid_nickname nick) eqn:Ev; cbn [negb]; [|by apply IH].
  destruct (bans_table d1 !! nick) eqn:El; [by apply IH|]. apply IH.
  - cbn. apply grown_insert; [done|done|by split].
  - rewrite Hd. done.
Qed.

Lemma foldl_import_identity now lines d d1 n d' n' :
  grown (identity_imported now) n (identities_table d) (identities_table d1) ->
  d1 = with_identities_table (identities_table d1) d ->
  foldl (import_identity now) (d1, n) lines = (d', n') ->
  grown (identity_imported now) n' (identities_table d) (identities_table d') /\
  d' = with_identities_table (identities_table d') d.
Proof.
  revert d1 n. induction lines as [|line lines IH]; intros d1 n Hg Hd.
  { cbn. by intros [= <- <-]. }
  cbn [foldl]. unfold import_identity at 2.
  destruct (split line "|") as [|nick [|key [|]]]; try by apply IH.
  destruct (is_valid_nickname nick) eqn:Ev; cbn [negb orb]; [|by apply IH].
  destruct (is_hex_of_len key _) eqn:Ek; cbn [negb]; [|by apply IH].
  destruct (identities_table d1 !! nick) eqn:El; [by apply IH|]. apply IH.
  - cbn. apply grown_insert; [done|done|by split].
  - rewrite Hd. done.
Qed.

Lemma import_kind_cases kind path files now line d d' n before :
  import_kind kind path files now line d = (d', n, before) ->
  (d' = d /\ n = 0%N /\
   (sempty path = true \/ is_Some (legacy_imports_table d !! kind) \/ files !! path = None)) \/
  (exists lines d1, foldl line (d, 0%N) lines = (d1, n) /\ d' = mark_imported kind now d1).
Proof.
  unfold import_kind. destruct (sempty path); [intros [= <- <- <-]; left; by auto|].
  destruct (legacy_imports_table d !! kind) as [t|] eqn:El;
    [intros [= <- <- <-]; left; split_and!; by eauto|].
  destruct (files !! path) as [text|] eqn:Ef; [|intros [= <- <- <-]; left; split_and!; by auto].
  destruct (foldl line (d, 0%N) (getlines newline text)) as [d1 n1] eqn:E.
  intros [= <- <- <-]. right. eauto.
Qed.

(** A kind that needs no import any more is left alone. *)
Lemma import_kind_again kind path files now line d :
  sempty path = true \/ is_Some (legacy_imports_table d !! kind) \/ files !! path = None ->
  (import_kind kind path files now line d).1 = (d, 0%N).
Proof.
  unfold import_kind. destruct (sempty path); [done|].
  destruct (legacy_imports_table d !! kind); [done|].
  intros [?|[[? ?]|E]]; [done..|]. by rewrite E.
Qed.

(** The legacy import adds and never overwrites. It leaves rooms, messages and
    every ban and identity already stored as they are; what it adds are valid
    nicknames, with keys of the right form, and the counts it returns are the
    numbers of rows added; and importing the same files again adds nothing. *)
Theorem import_adds_only files now now' bans_path identities_path d :
  let '(result, d') := import_from files now bans_path identities_path d in
  rooms_table d' = rooms_table d /\ messages_table d' = messages_table d /\
  grown (ban_imported now) (imported_bans result) (bans_table d) (bans_table d') /\
  grown (identity_imported now) (imported_identities result)
    (identities_table d) (identities_table d') /\
  let '(again, d2) := import_from files now' bans_path identities_path d' in
  d2 = d' /\ imported_bans again = 0%N /\ imported_identities again = 0%N.
Proof.
  unfold import_from at 1.
  destruct (import_kind "bans" _ _ _ _ d) as [[d1 nb] bb] eqn:Eb.
  destruct (import_kind "identities" _ _ _ _ d1) as [[d2 ni] bi] eqn:Ei.
  assert (rooms_table d1 = rooms_table d /\ messages_table d1 = messages_table d /\
    identities_table d1 = identities_table d /\
    grown (ban_imported now) nb (bans_table d) (bans_table d1) /\
    (sempty bans_path = true \/ is_Some (legacy_imports_table d1 !! "bans") \/
     files !! bans_path = None)) as (Hr1 & Hm1 & Hi1 & Hg1 & Ha1).
  { destruct (import_kind_cases _ _ _ _ _ _ _ _ _ Eb) as [(-> & -> & Hc)|(lines & d0 & Ef & ->)].
    - split_and!; [done..|apply grown_refl|exact Hc].
    - destruct (foldl_import_ban now lines d d 0 d0 nb) as [Hg Hd];
        [apply grown_refl|by destruct d|exact Ef|].
      rewrite Hd. cbn. rewrite lookup_insert_eq. split_and!; [done..|exact Hg|right; left; eauto]. }
  assert (rooms_table d2 = rooms_table d1 /\ messages_table d2 = messages_table d1 /\
    bans_table d2 = bans_table d1 /\
    grown (identity_imported now) ni (identities_table d1) (identities_table d2) /\
    (sempty identities_path = true \/ is_Some (legacy_imports_table d2 !! "identities") \/
     files !! identities_path = None) /\
    (is_Some (legacy_imports_table d1 !! "bans") -> is_Some (legacy_imports_table d2 !! "bans")))
    as (Hr2 & Hm2 & Hb2 & Hg2 & Ha2 & Hl2).
  { destruct (import_kind_cases _ _ _ _ _ _ _ _ _ Ei) as [(-> & -> & Hc)|(lines & d0 & Ef & ->)].
    - split_and!; [done..|apply grown_refl|exact Hc|done].
    - destruct (foldl_import_identity now lines d1 d1 0 d0 ni) as [Hg Hd];
        [apply grown_refl|by destruct d1|exact Ef|].
      rewrite Hd. cbn. rewrite lookup_insert_eq, lookup_insert_ne by done.
      split_and!; [done..|exact Hg|right; left; eauto|done]. }
  cbn [imported_bans imported_identities].
  rewrite Hr2, Hm2, Hb2, <- Hi1. split_and!; [done..|].
  unfold import_from.
  pose proof (import_kind_again "bans" bans_path files now' (import_ban now') d2) as Hb.
  destruct (import_kind "bans" _ _ _ _ d2) as [[d3 nb'] bb'].
  injection (Hb ltac:(tauto)) as -> ->.
  pose proof (import_kind_again "identities" identities_path files now' (import_identity now') d2 Ha2)
    as Hi. destruct (import_kind "identities" _ _ _ _ d2) as [[d4 ni'] bi'].
  by injection Hi as -> ->.
Qed.

(* ===================================================================== *)
(** * The contract *)

(** The rooms stored are rooms a server can take over. *)
Definition rooms_ready (s : Sqlite) : Prop := stored_rooms_ok (load_rooms_from (db s)).

#[export] Instance sqlite_contract `{SqliteEnv} : StorageContract Sqlite rooms_ready.
Proof.
  split; [done|]. intros room limit before s Hs. split; [|exact Hs]. apply load_history_length.
Qed.
