(* ===== verification/SqliteSpec.v ===== *)
(** The SQLite storage implements the specification of [StorageSpec.v]: its
    content is what the database holds once the pending writes are executed. *)

From S2P Require Import Prelude Frame Message Utils StorageApi StorageSpec Sqlite.
From S2P Require Import SqliteProperties.
Local Open Scope string_scope.
Local Open Scope list_scope.

Definition row_record (r : RoomRow) : string * string * string :=
  (row_name r, row_topic r, row_owner r).

Definition content_of (d : Database) : Content :=
  MkContent (row_record <$> rooms_table d) (row_public_key <$> identities_table d)
    (row_expires_at <$> bans_table d).

Definition sqlite_idle (s : Sqlite) : Prop := queue s = [] /\ batch s = None.

Section spec.
Context `{SqliteEnv}.

Definition sqlite_content (s : Sqlite) : option Content :=
  match settle s with
  | (_, inl d) => Some (content_of d)
  | (_, inr _) => None
  end.

(* ===================================================================== *)
(** * Writes *)

(** A write that is accepted takes effect on the content as it does on the
    tables. *)
Lemma turns_enqueue write fits f :
  (forall now d, fits (content_of d) ->
     exists d', execute_write now write d = inl d' /\ content_of d' = f (content_of d)) ->
  forall s, turns sqlite_content fits f s (enqueue write s).2.
Proof.
  intros Hw s He. change (error (enqueue write s).2 = "") in He. change (last_error s) with (error s).
  unfold enqueue in *. destruct (stopping s || _) eqn:Ef; cbn [snd error] in *; [done|].
  split; [exact He|]. intros c Hc Hf. unfold sqlite_content in *.
  destruct (settle s) as [n [d|e]] eqn:Es; [|done]. injection Hc as <-.
  destruct (Hw (worker_seconds n) d Hf) as (d' & Hd & Hc).
  pose proof (settle_enqueue write s n d Es) as Hse. unfold enqueue in Hse. rewrite Ef in Hse.
  cbn [fst snd] in Hse. rewrite Hse by done. cbn [execute_all]. by rewrite Hd, Hc.
Qed.

Lemma name_free room d :
  room_fits room (content_of d) ->
  name_in_use (rooms_table d) (to_int64 (stored_room_id room)) (stored_room_name room) = false.
Proof.
  intros Hf. apply not_true_is_false. unfold name_in_use. intros Hx.
  apply existsb_exists in Hx as ([z row] & Hin & Hb). cbn [fst snd] in Hb.
  apply andb_true_iff in Hb as [Hne Heq%String.eqb_eq]. apply negb_true_iff, Z.eqb_neq in Hne.
  apply list_elem_of_In, elem_of_map_to_list in Hin.
  apply (Hf z (row_record row)); [|done|exact Heq]. cbn. by rewrite lookup_fmap, Hin.
Qed.

Lemma write_room_content room d :
  room_fits room (content_of d) ->
  exists d', write_room room d = inl d' /\ content_of d' = put_room room (content_of d).
Proof.
  intros Hf. unfold write_room. rewrite (name_free room d Hf). eexists. split; [reflexivity|].
  unfold content_of, put_room. cbn. by rewrite fmap_insert.
Qed.

Lemma write_message_content m d :
  is_Some (content_rooms (content_of d) !! to_int64 (stored_message_room m)) ->
  exists d', write_message m d = inl d' /\ content_of d' = content_of d.
Proof.
  cbn. rewrite lookup_fmap, fmap_is_Some. intros [row Hr]. unfold write_message.
  destruct (messages_table d !! stored_id m); [eauto|]. rewrite Hr. eauto.
Qed.

Lemma write_identity_content now nick key d :
  content_of (write_identity now nick key d) = put_identity nick key (content_of d).
Proof. unfold write_identity, content_of, put_identity. cbn. by rewrite fmap_insert. Qed.

Lemma write_topic_content id topic d :
  content_of (with_rooms_table (alter (with_row_topic topic) (to_int64 id) (rooms_table d)) d)
  = put_topic id topic (content_of d).
Proof.
  unfold content_of, put_topic. cbn. f_equal. apply map_eq. intros z.
  rewrite lookup_fmap, !lookup_alter, lookup_fmap.
  case_decide; subst; [by destruct (rooms_table d !! _)|by rewrite lookup_fmap].
Qed.

(** Worker steps leave the content alone, a fault the program did not cause
    shows in the error. *)
Lemma turns_worker fault s :
  fault <> Some "" -> turns sqlite_content always id s (worker_step fault s).
Proof.
  intros Hf He. change (last_error s) with (error s).
  change (error (worker_step fault s) = "") in He.
  assert (error s = "" /\ forall n d, settle s = (n, inl d) -> exists n',
    settle (worker_step fault s) = (n', inl d)) as [He' Hs].
  { destruct fault as [detail|].
    - unfold worker_step, commit_batch in *. destruct (batch s) as [ws|] eqn:Eb.
      + cbn [error] in He. congruence.
      + destruct (queue s) eqn:Eq; [split; [done|eauto]|]. split; [exact He|].
        intros n d Hn. exists n. apply settle_worker in Hn. unfold worker_step in Hn.
        by rewrite Eb, Eq in Hn.
    - split; [|intros n d Hn; exists n; by apply settle_worker].
      unfold worker_step, commit_batch in *. destruct (batch s) as [ws|].
      + destruct (execute_all ws (reads s) (db s)) as [n [d|e]]; [exact He|done].
      + by destruct (queue s). }
  split; [exact He'|]. intros c Hc _. unfold sqlite_content in *.
  destruct (settle s) as [n [d|e]]; [|done]. by destruct (Hs n d eq_refl) as [n' ->].
Qed.

Lemma turns_trans fits s1 s2 s3 :
  turns sqlite_content fits id s1 s2 -> turns sqlite_content always id s2 s3 ->
  turns sqlite_content fits id s1 s3.
Proof.
  intros H12 H23 He. destruct (H23 He) as [He2 Hc2]. destruct (H12 He2) as [He1 Hc1].
  split; [done|]. intros c Hc Hf. by apply Hc2; [apply Hc1|].
Qed.

Lemma turns_drain s : turns sqlite_content always id s (drain s).
Proof.
  unfold drain. induction (2 * length (queue s) + 1)%nat as [|k IH]; cbn [Nat.iter nat_rect].
  - intros He. split; [exact He|]. by intros c Hc _.
  - eapply turns_trans; [exact IH|]. by apply turns_worker.
Qed.

(* ===================================================================== *)
(** * Reading *)

Lemma column_text_clean s : clean_text s -> column_text s = s.
Proof. unfold clean_text, column_text. by intros ->. Qed.

Lemma sqlite_content_idle s : sqlite_idle s -> sqlite_content s = Some (content_of (db s)).
Proof. intros [Hq Hb]. unfold sqlite_content, settle, pending. by rewrite Hb, Hq. Qed.

Lemma map_iter_perm `{Countable K} `{!KeyOrder K} `{!RelDecision (key_le (K:=K))} {V}
    (m : gmap K V) : map_iter m ≡ₚ map_to_list m.
Proof. unfold map_iter. apply merge_sort_Permutation. Qed.

Lemma listed_rooms d :
  clean (content_of d) ->
  (listed_room <$> load_rooms_from d) ≡ₚ
    ((fun entry => (of_int64 entry.1, entry.2)) <$> map_to_list (content_rooms (content_of d))).
Proof.
  intros (Hr & _ & _). unfold load_rooms_from. rewrite map_iter_perm. cbn [content_of content_rooms].
  rewrite map_to_list_fmap, <- !list_fmap_compose.
  erewrite list_fmap_ext; [reflexivity|]. intros i [z row] Hi.
  apply list_elem_of_lookup_2, elem_of_map_to_list in Hi.
  destruct (Hr z (row_record row)) as (_ & Hn & Ht & Ho); [cbn; by rewrite lookup_fmap, Hi|].
  cbn in *. unfold listed_room, row_record. cbn. by rewrite !column_text_clean.
Qed.

Lemma listed_identities d :
  clean (content_of d) -> load_identities_from d ≡ₚ map_to_list (content_identities (content_of d)).
Proof.
  intros (_ & Hi & _). unfold load_identities_from. rewrite map_iter_perm.
  cbn [content_of content_identities]. rewrite map_to_list_fmap.
  erewrite list_fmap_ext; [reflexivity|]. intros i [nick row] Hn.
  apply list_elem_of_lookup_2, elem_of_map_to_list in Hn.
  destruct (Hi nick (row_public_key row)) as [H1' H2']; [cbn; by rewrite lookup_fmap, Hn|].
  cbn. by rewrite !column_text_clean.
Qed.

Lemma delete_expired_content now d :
  content_of (delete_expired now d) = unexpired now (content_of d).
Proof.
  unfold content_of, delete_expired, unexpired. cbn. f_equal. rewrite map_filter_fmap. f_equal.
Qed.

Lemma clean_unexpired now c : clean c -> clean (unexpired now c).
Proof.
  intros (Hr & Hi & Hb). split_and!; [done|done|]. intros nick t.
  intros [Hl _]%map_lookup_filter_Some. by eapply Hb.
Qed.

Lemma listed_bans now d :
  clean (content_of d) ->
  (ban_nickname <$> load_bans_from (delete_expired now d)) ≡ₚ
    (map_to_list (content_bans (unexpired now (content_of d)))).*1.
Proof.
  intros Hc. apply (clean_unexpired now) in Hc. rewrite <- delete_expired_content in *.
  destruct Hc as (_ & _ & Hb). unfold load_bans_from. rewrite map_iter_perm.
  cbn [content_of content_bans] in *. rewrite map_to_list_fmap, <- !list_fmap_compose.
  erewrite list_fmap_ext; [reflexivity|]. intros i [nick row] Hn.
  apply list_elem_of_lookup_2, elem_of_map_to_list in Hn. cbn.
  apply column_text_clean, (Hb nick (row_expires_at row)). by rewrite lookup_fmap, Hn.
Qed.

#[export] Instance sqlite_spec : StorageSpec Sqlite sqlite_content sqlite_idle.
Proof.
  split.
  - intros room s. apply turns_enqueue. intros now d Hf. by apply write_room_content.
  - intros id topic s. apply turns_enqueue. intros now d _. eexists.
    split; [reflexivity|apply write_topic_content].
  - intros nick key s. apply turns_enqueue. intros now d _. eexists.
    split; [reflexivity|apply write_identity_content].
  - intros ban s. apply turns_enqueue. intros now d _. eexists. split; [reflexivity|].
    unfold content_of, put_ban. cbn. by rewrite fmap_insert.
  - intros nick s. apply turns_enqueue. intros now d _. eexists. split; [reflexivity|].
    unfold content_of, drop_ban. cbn. by rewrite fmap_delete.
  - intros m s. apply turns_enqueue. intros now d. apply write_message_content.
  - intros s. split; [apply turns_drain|apply drain_done].
  - intros s c Hc Hi Hcl. rewrite sqlite_content_idle in Hc by done. injection Hc as <-.
    split_and!; [by apply listed_rooms|by apply sqlite_content_idle|done|done].
  - intros s c Hc Hi Hcl. rewrite sqlite_content_idle in Hc by done. injection Hc as <-.
    split_and!; [by apply listed_identities|by apply sqlite_content_idle|done|done].
  - intros now s c Hc Hi Hcl. rewrite sqlite_content_idle in Hc by done. injection Hc as <-.
    split_and!; [by apply listed_bans| |done|done].
    cbn. rewrite sqlite_content_idle by done. cbn. by rewrite delete_expired_content.
  - intros id limit before s c Hc Hi. done.
Qed.
End spec.
