(* ===== verification/Handles.v ===== *)
(** What [storage/storage.cpp] does with the handles of the SQLite library: connections,
    prepared statements and transactions, whatever each call of the library returns.
    [Sqlite.v] says what the statements do to the tables; here is who closes what when
    one of the calls fails. *)

From S2P Require Import Prelude Frame Utils StorageApi StorageSpec Sqlite.
Local Open Scope string_scope.
Local Open Scope chat_scope.

(* ===================================================================== *)
(** * The library *)

Definition SQLITE_OK : Z := 0.
Definition SQLITE_NOMEM : Z := 7.
Definition SQLITE_ROW : Z := 100.
Definition SQLITE_DONE : Z := 101.

(** What a call returns: its code, what [sqlite3_errmsg] says after it, and the first
    column of the row when there is one. *)
Record Answer := MkAnswer { code : Z; errmsg_ : string; column : Z }.

(** The answers that are to come of the calls whose result the code looks at, and the handles that are open: connections, the
    connections in a transaction, and statements with their connections. *)
Record Library := MkLibrary {
  answers : list Answer;
  databases : gset nat;
  transactions : gset nat;
  statements : gmap nat nat;
}.
Definition with_answers v L := MkLibrary v (databases L) (transactions L) (statements L).
Definition with_databases v L := MkLibrary (answers L) v (transactions L) (statements L).
Definition with_transactions v L := MkLibrary (answers L) (databases L) v (statements L).
Definition with_statements v L := MkLibrary (answers L) (databases L) (transactions L) v.

(** C++ code that may throw an exception with a text. *)
Definition E (A : Type) : Type := M Library (A + string).
Definition returns {A} (x : A) : E A := fun L => (inl x, L).
Definition throws {A} (what : string) : E A := fun L => (inr what, L).
Definition ebind {A B} (m : E A) (k : A -> E B) : E B := fun L =>
  let '(r, L) := m L in match r with inl x => k x L | inr what => (inr what, L) end.
Notation "'let!' x ':=' m 'in' k" := (ebind m (fun x => k)) (at level 10, x name, m at level 100, k at level 200).
Notation "m '>>>' k" := (ebind m (fun _ => k)) (at level 100, right associativity).
(** [try { m } catch (...) { h; throw; }], and the destructor [h] of an object that [m]
    uses: neither [h] throws. *)
Definition on_exception {A} (h : M Library unit) (m : E A) : E A := fun L =>
  let '(r, L) := m L in match r with inl _ => (r, L) | inr _ => (r, (h L).2) end.
Definition finally {A} (h : M Library unit) (m : E A) : E A := fun L => let '(r, L) := m L in (r, (h L).2).

(** The next answer; a call that is not listed succeeds. *)
Definition answer (success : Z) : M Library Answer := fun L =>
  match answers L with
  | a :: rest => (a, with_answers rest L)
  | [] => (MkAnswer success "" 0, L)
  end.

(** [sqlite3_open_v2] gives a handle, even with an error, unless memory is short. *)
Definition sqlite3_open : M Library (Answer * option nat) := fun L =>
  let '(a, L) := answer SQLITE_OK L in
  if (code a =? SQLITE_NOMEM)%Z then ((a, None), L)
  else let db := fresh (databases L) in ((a, Some db), with_databases ({[db]} ∪ databases L) L).
(** A connection with statements stays open. *)
Definition sqlite3_close (db : nat) : M Library unit := fun L =>
  if bool_decide (map_Forall (fun _ d => d <> db) (statements L))
  then (tt, with_transactions (transactions L ∖ {[db]}) (with_databases (databases L ∖ {[db]}) L))
  else (tt, L).
Definition sqlite3_finalize (st : nat) : M Library unit :=
  modify (fun L => with_statements (delete st (statements L)) L).

(** A statement without a handle of its own. After ROLLBACK there is no transaction:
    it only fails when there was none. *)
Inductive Sql := BEGIN_IMMEDIATE | COMMIT | OtherSql.
Definition effect_of (sql : Sql) (db : nat) (L : Library) : Library :=
  match sql with
  | BEGIN_IMMEDIATE => with_transactions ({[db]} ∪ transactions L) L
  | COMMIT => with_transactions (transactions L ∖ {[db]}) L
  | OtherSql => L
  end.
Definition exec_sql (db : nat) (sql : Sql) : E unit := fun L =>
  let '(a, L) := answer SQLITE_OK L in
  if (code a =? SQLITE_OK)%Z then (inl tt, effect_of sql db L)
  else (inr ("SQLite statement failed: " +:+ errmsg_ a), L).
Definition rollback (db : nat) : M Library unit :=
  modify (fun L => with_transactions (transactions L ∖ {[db]}) L).

(* ===================================================================== *)
(** * [class Statement] *)

Definition prepare (db : nat) : E nat := fun L =>
  let '(a, L) := answer SQLITE_OK L in
  if (code a =? SQLITE_OK)%Z
  then let st := fresh (dom (statements L)) in (inl st, with_statements (<[st := db]> (statements L)) L)
  else (inr ("Could not prepare SQLite statement: " +:+ errmsg_ a), L).

(** A statement and the code in its scope: an object that was not constructed is not
    destroyed. *)
Definition with_statement {A} (db : nat) (body : E A) : E A :=
  let! st := prepare db in finally (sqlite3_finalize st) body.

(** [bind] and [bind_null], for that many parameters. *)
Definition bind_value : E unit := fun L =>
  let '(a, L) := answer SQLITE_OK L in
  if (code a =? SQLITE_OK)%Z then (inl tt, L) else (inr ("Could not bind SQLite value: " +:+ errmsg_ a), L).
Fixpoint times (n : nat) (m : E unit) : E unit :=
  match n with 0 => returns tt | S n => m >>> times n m end.
Definition bind_values (n : nat) : E unit := times n bind_value.

(** The first column of the row, [None] after the last row. *)
Definition step_row : E (option Z) := fun L =>
  let '(a, L) := answer SQLITE_DONE L in
  if (code a =? SQLITE_ROW)%Z then (inl (Some (column a)), L)
  else if (code a =? SQLITE_DONE)%Z then (inl None, L)
  else (inr ("Could not execute SQLite query: " +:+ errmsg_ a), L).
Definition execute : E unit := fun L =>
  let '(a, L) := answer SQLITE_DONE L in
  if (code a =? SQLITE_DONE)%Z then (inl tt, L) else (inr ("Could not execute SQLite write: " +:+ errmsg_ a), L).

(** [while (statement.step_row())]: the number of rows. *)
Fixpoint rows_loop (fuel : nat) (n : nat) : E nat :=
  match fuel with
  | 0 => returns n
  | S fuel => let! r := step_row in match r with Some _ => rows_loop fuel (S n) | None => returns n end
  end.
Definition rows : E nat := fun L => rows_loop (S (length (answers L))) 0 L.

(* ===================================================================== *)
(** * The operations *)

(** [sqlite3_busy_timeout] cannot fail. *)
Definition open_database (path : string) : E nat := fun L =>
  let '((a, db), L) := sqlite3_open L in
  match db with
  | Some db =>
      if (code a =? SQLITE_OK)%Z
      then (exec_sql db OtherSql >>> exec_sql db OtherSql >>> exec_sql db OtherSql >>> returns db) L
      else (inr ("Could not open SQLite database '" +:+ path +:+ "': " +:+ errmsg_ a), (sqlite3_close db L).2)
  | None => (inr ("Could not open SQLite database '" +:+ path +:+ "': " +:+ errmsg_ a), L)
  end.

Definition table_exists (db : nat) : E bool :=
  with_statement db (bind_values 1 >>> let! r := step_row in returns (bool_decide (is_Some r))).
Definition read_schema_version (db : nat) : E Z :=
  let! exists_ := table_exists db in
  if negb exists_ then returns 0%Z
  else with_statement db (let! r := step_row in
    match r with Some v => returns v | None => throws "schema_version exists but contains no version" end).

Definition ewhen (b : bool) (m : E unit) : E unit := if b then m else returns tt.
Definition migrate (db : nat) : E unit :=
  let! version := read_schema_version db in
  if (Sqlite.SCHEMA_VERSION <? version)%Z
  then throws ("Database schema version " +:+ to_string_signed version
    +:+ " is newer than this chatbox build supports (" +:+ to_string_signed Sqlite.SCHEMA_VERSION +:+ ")")
  else exec_sql db BEGIN_IMMEDIATE >>>
    on_exception (rollback db)
      (ewhen (version <? 1)%Z (exec_sql db OtherSql) >>> ewhen (version <? 2)%Z (exec_sql db OtherSql) >>>
       ewhen (version <? 3)%Z (exec_sql db OtherSql) >>> exec_sql db COMMIT).

Definition parameters (w : Write) : nat :=
  match w with
  | RoomWrite _ => 5 | TopicWrite _ _ => 2 | IdentityWrite _ _ => 3 | BanWrite _ => 4 | BanRemove _ => 1 | MessageWrite _ => 7
  end.
Definition execute_write (db : nat) (w : Write) : E unit := with_statement db (bind_values (parameters w) >>> execute).
Fixpoint execute_writes (db : nat) (l : list Write) : E unit :=
  match l with [] => returns tt | w :: l => execute_write db w >>> execute_writes db l end.

(** A batch of [run]: the error, if any, is kept for [last_error]. *)
Definition run_batch (db : nat) (l : list Write) : M Library (option string) := fun L =>
  match (exec_sql db BEGIN_IMMEDIATE >>> execute_writes db l >>> exec_sql db COMMIT) L with
  | (inl _, L) => (None, L)
  | (inr what, L) => (Some what, (rollback db L).2)
  end.

Record Impl := MkImpl { read_db : nat; write_db : nat }.
(** [Impl()]; [thread_error] is what the constructor of the worker's thread throws. *)
Definition construct (path : string) (thread_error : option string) : E Impl :=
  let! read := open_database path in
  on_exception (sqlite3_close read)
    (migrate read >>>
     let! write := open_database path in
     match thread_error with Some what => throws what | None => returns (MkImpl read write) end).
(** [~Impl()], after the worker has ended. *)
Definition destruct_impl (i : Impl) : M Library unit := sqlite3_close (write_db i) ;;; sqlite3_close (read_db i).

Definition load_table (db : nat) : E nat := with_statement db rows.
Definition load_bans (db : nat) : E nat :=
  with_statement db (bind_values 1 >>> execute >>> with_statement db rows).
Definition load_history (db : nat) (before : bool) : E nat :=
  with_statement db (bind_values (if before then 5 else 2) >>> rows).

(** One kind of legacy file: whether it was asked for, and, if it can be read, how many
    of its lines are valid. *)
Definition imported (db : nat) : E bool :=
  with_statement db (bind_values 1 >>> let! r := step_row in returns (bool_decide (is_Some r))).
Definition import_kind (db : nat) (requested : bool) (params : nat) (lines : option nat) : E unit :=
  if negb requested then returns tt
  else let! done := imported db in
    if done then returns tt
    else match lines with
         | None => returns tt
         | Some n => with_statement db (times n (bind_values params >>> execute) >>>
             with_statement db (bind_values 1 >>> execute))
         end.
Definition import_legacy_files (db : nat) (bans identities : bool) (ban_lines identity_lines : option nat) : E unit :=
  exec_sql db BEGIN_IMMEDIATE >>>
  on_exception (rollback db)
    (import_kind db bans 2 ban_lines >>> import_kind db identities 3 identity_lines >>> exec_sql db COMMIT).

(* ===================================================================== *)
(** * Who holds what *)

Definition held (L : Library) : gset nat * gset nat * gmap nat nat := (databases L, transactions L, statements L).

(** Whatever the calls return, the handles are as before. *)
Definition tidy {A} (m : E A) : Prop := forall L, held (m L).2 = held L.

Lemma held_answer n L : held (answer n L).2 = held L.
Proof. unfold answer. by destruct (answers L). Qed.
Lemma tidy_returns {A} (x : A) : tidy (returns x).
Proof. done. Qed.
Lemma tidy_throws {A} what : tidy (throws (A:=A) what).
Proof. done. Qed.
Lemma tidy_bind {A B} (m : E A) (k : A -> E B) : tidy m -> (forall x, tidy (k x)) -> tidy (ebind m k).
Proof.
  intros Hm Hk L. unfold ebind. specialize (Hm L). destruct (m L) as [[x|what] L1]; cbn in *; [|done].
  by rewrite Hk.
Qed.
Lemma tidy_other db : tidy (exec_sql db OtherSql).
Proof.
  intros L. unfold exec_sql. pose proof (held_answer SQLITE_OK L) as Ha. destruct (answer _ L) as [a L1].
  by destruct (_ =? _)%Z.
Qed.
Lemma tidy_value : tidy bind_value.
Proof.
  intros L. unfold bind_value. pose proof (held_answer SQLITE_OK L) as Ha. destruct (answer _ L) as [a L1].
  by destruct (_ =? _)%Z.
Qed.
Lemma tidy_execute : tidy execute.
Proof.
  intros L. unfold execute. pose proof (held_answer SQLITE_DONE L) as Ha. destruct (answer _ L) as [a L1].
  by destruct (_ =? _)%Z.
Qed.
Lemma tidy_step : tidy step_row.
Proof.
  intros L. unfold step_row. pose proof (held_answer SQLITE_DONE L) as Ha. destruct (answer _ L) as [a L1].
  by repeat destruct (_ =? _)%Z.
Qed.
Lemma tidy_times n m : tidy m -> tidy (times n m).
Proof. intros Hm. induction n; cbn; [done|]. by apply tidy_bind. Qed.
Lemma tidy_rows_loop fuel : forall n, tidy (rows_loop fuel n).
Proof.
  induction fuel as [|f IH]; intros n; [done|]. apply tidy_bind; [apply tidy_step|]. intros [c|]; [apply IH|done].
Qed.
Lemma tidy_rows : tidy rows.
Proof. intros L. apply tidy_rows_loop. Qed.

(** The destructor finalizes what the constructor prepared. *)
Lemma tidy_statement {A} db (body : E A) : tidy body -> tidy (with_statement db body).
Proof.
  intros Hb L. unfold with_statement, ebind, prepare. pose proof (held_answer SQLITE_OK L) as Ha.
  destruct (answer _ L) as [a L1]. destruct (_ =? _)%Z; [|exact Ha]. cbn in Ha.
  unfold finally. set (st := fresh (dom (statements L1))).
  set (L2 := with_statements (<[st := db]> (statements L1)) L1). specialize (Hb L2).
  destruct (body L2) as [r L3]. cbn in *. unfold held in *. injection Hb as Hd Ht Hs. injection Ha as <- <- <-.
  cbn in *. rewrite Hd, Ht, Hs. rewrite delete_insert_id; [done|].
  apply not_elem_of_dom. apply is_fresh.
Qed.
Lemma tidy_when b m : tidy m -> tidy (ewhen b m).
Proof. by destruct b. Qed.

Create HintDb handles.
#[export] Hint Resolve tidy_returns tidy_throws tidy_other tidy_value tidy_execute tidy_step tidy_rows : handles.
Ltac tidy_tac :=
  intros; repeat match goal with
  | |- tidy (ebind _ _) => apply tidy_bind
  | |- tidy (with_statement _ _) => apply tidy_statement
  | |- tidy (times _ _) => apply tidy_times
  | |- tidy (bind_values _) => apply tidy_times
  | |- tidy (ewhen _ _) => apply tidy_when
  | |- tidy (if ?b then _ else _) => destruct b
  | |- tidy (match ?x with _ => _ end) => destruct x
  | |- forall _, _ => intros ?
  | |- _ => solve [auto with handles]
  end.

(** The loop over the rows has fuel enough: each row uses up an answer, and after the
    last one there is no row. *)
Lemma step_uses L c L' : step_row L = (inl (Some c), L') -> length (answers L) = S (length (answers L')).
Proof.
  unfold step_row, answer. destruct (answers L) as [|a rest] eqn:E; cbn [code].
  - by destruct (SQLITE_DONE =? SQLITE_ROW)%Z eqn:E1.
  - destruct (code a =? SQLITE_ROW)%Z; [by intros [= _ <-]|]. by destruct (code a =? SQLITE_DONE)%Z.
Qed.
Lemma rows_fuel fuel : forall n L, (length (answers L) < fuel)%nat ->
  rows_loop fuel n L = rows_loop (S (length (answers L))) n L.
Proof.
  induction fuel as [|f IH]; intros n L Hf; [lia|]. cbn [rows_loop]. unfold ebind.
  destruct (step_row L) as [[[c|]|what] L'] eqn:Es; [|done..].
  pose proof (step_uses L c L' Es) as Hl. rewrite Hl. apply IH. lia.
Qed.

(* ===================================================================== *)
(** * Transactions *)

(** Ends the transaction, or throws and leaves it. *)
Definition commits {A} (db : nat) (m : E A) : Prop := forall L,
  match m L with
  | (inl _, L') => held L' = (databases L, transactions L ∖ {[db]}, statements L)
  | (inr _, L') => held L' = held L
  end.
Lemma commits_commit db : commits db (exec_sql db COMMIT).
Proof.
  intros L. unfold exec_sql. pose proof (held_answer SQLITE_OK L) as Ha. destruct (answer _ L) as [a L1].
  cbn in Ha. unfold held in *. injection Ha as Hd Ht Hs. destruct (_ =? _)%Z; cbn; congruence.
Qed.
Lemma commits_after {A B} db (m : E A) (k : E B) : tidy m -> commits db k -> commits db (m >>> k).
Proof.
  intros Hm Hk L. unfold ebind. specialize (Hm L). destruct (m L) as [[x|what] L1]; cbn in *; [|done].
  specialize (Hk L1). unfold held in *. destruct (k L1) as [[y|what] L2]; congruence.
Qed.

Lemma held_rollback db L : db ∉ transactions L -> forall L1,
  held L1 = (databases L, {[db]} ∪ transactions L, statements L) \/ held L1 = held L -> held (rollback db L1).2 = held L.
Proof.
  intros Hn L1 HL. unfold held in *. cbn.
  destruct HL as [HL|HL]; injection HL as -> -> ->; do 2 f_equal; set_solver.
Qed.

Lemma held_begin db L : match exec_sql db BEGIN_IMMEDIATE L with
  | (inl _, L') => held L' = (databases L, {[db]} ∪ transactions L, statements L)
  | (inr _, L') => held L' = held L
  end.
Proof.
  unfold exec_sql. pose proof (held_answer SQLITE_OK L) as Ha. destruct (answer _ L) as [a L1].
  cbn in Ha. unfold held in *. injection Ha as Hd Ht Hs. destruct (_ =? _)%Z; cbn; congruence.
Qed.

(** After [BEGIN], code that commits or throws, before a [ROLLBACK]. *)
Lemma held_committed {A} db (m : E A) L L1 : commits db m -> db ∉ transactions L ->
  held L1 = (databases L, {[db]} ∪ transactions L, statements L) ->
  match m L1 with (inl _, L2) => held L2 = held L | (inr _, L2) => held (rollback db L2).2 = held L end.
Proof.
  intros Hm Hn H1. specialize (Hm L1). destruct (m L1) as [[x|what] L2].
  - unfold held in *. injection H1 as Hd Ht Hs. rewrite Hm, Hd, Ht, Hs. do 2 f_equal. set_solver.
  - apply held_rollback; [done|]. left. congruence.
Qed.

Lemma tidy_transaction {A} db (m : E A) L : commits db m -> db ∉ transactions L ->
  held ((exec_sql db BEGIN_IMMEDIATE >>> on_exception (rollback db) m) L).2 = held L.
Proof.
  intros Hm Hn. unfold ebind. pose proof (held_begin db L) as Hb.
  destruct (exec_sql db BEGIN_IMMEDIATE L) as [[x|what] L1]; [|done].
  pose proof (held_committed db m L L1 Hm Hn Hb) as Hc. unfold on_exception.
  by destruct (m L1) as [[y|what] L2].
Qed.

(** The operations. *)
Lemma tidy_version db : tidy (read_schema_version db).
Proof. unfold read_schema_version, table_exists. tidy_tac. Qed.
Lemma tidy_writes db l : tidy (execute_writes db l).
Proof. induction l as [|w l IH]; cbn [execute_writes]; unfold execute_write; tidy_tac. Qed.
Lemma tidy_import db requested params lines : tidy (import_kind db requested params lines).
Proof. unfold import_kind, imported. tidy_tac. Qed.
#[export] Hint Resolve tidy_version tidy_writes tidy_import : handles.

Lemma held_batch db l L : db ∉ transactions L -> held (run_batch db l L).2 = held L.
Proof.
  intros Hn. unfold run_batch. unfold ebind at 1. pose proof (held_begin db L) as Hb.
  destruct (exec_sql db BEGIN_IMMEDIATE L) as [[x|what] L1]; [|apply held_rollback; auto].
  pose proof (held_committed db (execute_writes db l >>> exec_sql db COMMIT) L L1) as Hc.
  destruct ((execute_writes db l >>> exec_sql db COMMIT) L1) as [[y|what] L2]; cbn;
    apply Hc; auto using commits_after, commits_commit with handles.
Qed.
Lemma held_import db b i bl il L : db ∉ transactions L -> held (import_legacy_files db b i bl il L).2 = held L.
Proof. apply tidy_transaction. auto 6 using commits_after, commits_commit with handles. Qed.
Lemma held_migrate db L : db ∉ transactions L -> held (migrate db L).2 = held L.
Proof.
  intros Hn. unfold migrate. unfold ebind at 1. pose proof (tidy_version db L) as Hv.
  destruct (read_schema_version db L) as [[v|what] L1]; [|done]. cbn in Hv.
  destruct (_ <? _)%Z; [done|]. rewrite <- Hv. apply tidy_transaction.
  - auto 6 using commits_after, commits_commit, tidy_when with handles.
  - unfold held in Hv. congruence.
Qed.

(* ===================================================================== *)
(** * The storage *)

(** Every statement and every transaction is of an open connection. *)
Definition wf (L : Library) : Prop :=
  map_Forall (fun _ db => db ∈ databases L) (statements L) /\ transactions L ⊆ databases L.
(** One more connection is open. *)
Definition with_connection (db : nat) (L L' : Library) : Prop :=
  db ∉ databases L /\ held L' = ({[db]} ∪ databases L, transactions L, statements L).

Lemma wf_held L L' : wf L -> held L' = held L -> wf L'.
Proof. unfold wf, held. intros Hw HL. injection HL as -> -> ->. done. Qed.
Lemma wf_connection db L L' : wf L -> with_connection db L L' -> wf L' /\ db ∉ transactions L'.
Proof.
  intros [Hs Ht] [Hn HL]. unfold held in HL. injection HL as Hd Htr Hst. unfold wf. rewrite Hd, Htr, Hst.
  split; [split|]; [|clear -Ht; set_solver|clear -Ht Hn; set_solver].
  intros k d Hk. specialize (Hs k d Hk). cbn in Hs. clear -Hs. set_solver.
Qed.
Lemma connection_held db L L1 L2 : with_connection db L L1 -> held L2 = held L1 -> with_connection db L L2.
Proof. intros [Hn HL] E. split; [done|congruence]. Qed.

(** Its closing takes it back. *)
Lemma close_connection db L L' : wf L -> with_connection db L L' -> held (sqlite3_close db L').2 = held L.
Proof.
  intros [Hs Ht] [Hn HL]. unfold held in *. injection HL as Hd Htr Hst. unfold sqlite3_close.
  rewrite bool_decide_true.
  - cbn. rewrite Hd, Htr, Hst. clear -Hn Ht. do 2 f_equal; set_solver.
  - rewrite Hst. intros k d Hk ->. apply Hn, (Hs k). exact Hk.
Qed.

(** Opening gives a connection; when it throws, one may have stayed open. *)
Lemma open_connection path L : wf L ->
  match open_database path L with
  | (inl db, L') => with_connection db L L'
  | (inr _, L') => held L' = held L \/ exists db, with_connection db L L'
  end.
Proof.
  intros Hw. unfold open_database, sqlite3_open. pose proof (held_answer SQLITE_OK L) as Ha.
  destruct (answer _ L) as [a L1]. cbn in Ha. destruct (_ =? _)%Z; [by left|].
  set (db := fresh (databases L1)). set (L2 := with_databases _ L1).
  assert (with_connection db L L2) as Hc.
  { unfold held in Ha. injection Ha as Hd Ht Hst. split; [rewrite <- Hd; apply is_fresh|].
    unfold held. cbn. congruence. }
  destruct (_ =? _)%Z; [|by left; apply close_connection].
  assert (forall L3, held L3 = held L2 -> with_connection db L L3) as Hk by (intros L3; by apply connection_held).
  assert (tidy (exec_sql db OtherSql >>> exec_sql db OtherSql >>> exec_sql db OtherSql >>> returns db)) as Hp by tidy_tac.
  specialize (Hp L2). destruct (ebind _ _ L2) as [[d|what] L3] eqn:E; cbn in Hp.
  - assert (d = db) as ->; [|by apply Hk].
    revert E. unfold ebind. repeat destruct (exec_sql _ _ _) as [[]]; try done. by intros [= <-].
  - right. exists db. by apply Hk.
Qed.

Inductive Operation :=
| LoadTable | LoadBans | LoadHistory (before : bool) | SchemaVersion | Batch (l : list Write)
| ImportFiles (bans identities : bool) (ban_lines identity_lines : option nat).
Definition perform (i : Impl) (o : Operation) (L : Library) : Library :=
  match o with
  | LoadTable => (load_table (read_db i) L).2
  | LoadBans => (load_bans (read_db i) L).2
  | LoadHistory before => (load_history (read_db i) before L).2
  | SchemaVersion => (read_schema_version (read_db i) L).2
  | Batch l => (run_batch (write_db i) l L).2
  | ImportFiles b n bl nl => (import_legacy_files (read_db i) b n bl nl L).2
  end.

Lemma held_perform i o L : read_db i ∉ transactions L -> write_db i ∉ transactions L -> held (perform i o L) = held L.
Proof.
  intros Hr Hw. destruct o; cbn [perform].
  - revert L Hr Hw. assert (tidy (load_table (read_db i))) as Ht by (unfold load_table; tidy_tac). auto.
  - revert L Hr Hw. assert (tidy (load_bans (read_db i))) as Ht by (unfold load_bans; tidy_tac). auto.
  - revert L Hr Hw. assert (tidy (load_history (read_db i) before)) as Ht by (unfold load_history; tidy_tac). auto.
  - apply tidy_version.
  - by apply held_batch.
  - by apply held_import.
Qed.
Lemma held_performs i os : forall L, read_db i ∉ transactions L -> write_db i ∉ transactions L ->
  held (foldl (fun L o => perform i o L) L os) = held L.
Proof.
  induction os as [|o os IH]; intros L Hr Hw; [done|]. cbn [foldl].
  pose proof (held_perform i o L Hr Hw) as E. assert (transactions (perform i o L) = transactions L) as Et
    by (unfold held in E; congruence).
  by rewrite IH, E by (by rewrite Et).
Qed.

(** The second connection, after the first. *)
Lemma construct_second path thread_error read L : wf L -> read ∉ transactions L ->
  match (migrate read >>> let! write := open_database path in
     match thread_error with Some what => throws what | None => returns (MkImpl read write) end) L with
  | (inl i, L') => read_db i = read /\ with_connection (write_db i) L L'
  | (inr _, L') => held L' = held L \/ exists db, with_connection db L L'
  end.
Proof.
  intros Hw Hn. unfold ebind. pose proof (held_migrate read L Hn) as Hm.
  destruct (migrate read L) as [[x|what] L1]; cbn in Hm; [|by left].
  pose proof (open_connection path L1 (wf_held _ _ Hw Hm)) as Ho. unfold with_connection in *.
  assert (databases L1 = databases L /\ transactions L1 = transactions L /\ statements L1 = statements L) as (Hd & Ht & Hs)
    by (unfold held in Hm; split_and!; congruence).
  rewrite Hm, Hd, Ht, Hs in Ho. destruct (open_database path L1) as [[db|what] L2]; [|done].
  destruct thread_error; [right; by exists db|done].
Qed.

(** C39: the storage gives back what it takes. Whatever each call of the library returns
    - failing at any statement, parameter, row or transaction - every operation of
    [SQLiteStorage] leaves exactly the handles that were open: its statements are
    finalized, and no transaction stays open. A storage that was constructed has two
    connections more, and its destructor really closes both. A constructor that throws
    leaves no statement and no transaction, and at most one connection. *)
Theorem handles_released path thread_error L : wf L ->
  match construct path thread_error L with
  | (inl i, L1) =>
      read_db i <> write_db i /\ databases L1 = {[read_db i; write_db i]} ∪ databases L /\
      forall os, let L2 := foldl (fun L o => perform i o L) L1 os in
        held L2 = held L1 /\ held (destruct_impl i L2).2 = held L
  | (inr _, L1) =>
      transactions L1 = transactions L /\ statements L1 = statements L /\
      (databases L1 = databases L \/ exists db, db ∉ databases L /\ databases L1 = {[db]} ∪ databases L)
  end.
Proof.
  intros Hw. unfold construct. unfold ebind at 1. pose proof (open_connection path L Hw) as Ho.
  destruct (open_database path L) as [[read|what] L1].
  2: { destruct Ho as [Ho|(db & Hn & Ho)]; unfold held in Ho; injection Ho as -> -> ->; eauto 6. }
  destruct (wf_connection read L L1 Hw Ho) as [Hw1 Hn1]. unfold on_exception.
  pose proof (construct_second path thread_error read L1 Hw1 Hn1) as Hs.
  destruct ((migrate read >>> _) L1) as [[i|what] L2].
  - destruct Hs as [Hr Hc]. destruct (wf_connection _ L1 L2 Hw1 Hc) as [Hw2 Hn2].
    pose proof Ho as [Hn Hd]. pose proof Hc as [Hn' Hd']. unfold held in Hd, Hd'.
    injection Hd as Hd Ht Hst. injection Hd' as Hd' Ht' Hst'. rewrite Hd in Hn', Hd'. subst read.
    split; [set_solver|]. split; [rewrite Hd'; set_solver|]. intros os. cbv zeta.
    assert (held (foldl (fun L o => perform i o L) L2 os) = held L2) as E by (apply held_performs; [by rewrite Ht'|done]).
    split; [exact E|]. unfold destruct_impl. rewrite bind_snd.
    apply close_connection; [done|]. apply (connection_held _ _ L1); [done|].
    apply close_connection; [done|]. by apply (connection_held _ _ L2).
  - destruct Hs as [Hs|(db & Hs)].
    + assert (held (sqlite3_close read L2).2 = held L) as E
        by (apply close_connection; [done|]; by apply (connection_held _ _ L1)).
      cbn. unfold held in E. injection E as -> -> ->. auto.
    + set (L3 := with_databases ({[db]} ∪ databases L) L).
      destruct Hs as [Hnd Hs]. pose proof Ho as [Hn Hd]. unfold held in Hd, Hs.
      injection Hd as Hd Ht Hst. rewrite Hd in Hnd.
      assert (held (sqlite3_close read L2).2 = held L3) as E.
      { apply close_connection.
        - destruct Hw as [Hws Hwt]. split; cbn; [|clear -Hwt; set_solver]. intros k d Hk. specialize (Hws k d Hk).
          cbn in Hws. clear -Hws. set_solver.
        - split; [cbn; set_solver|]. unfold held. cbn. injection Hs as Hs1 Hs2 Hs3.
          rewrite Hs1, Hs2, Hs3, Hd, Ht, Hst. do 2 f_equal. set_solver. }
      cbn. unfold held in E. injection E as -> -> ->. cbn. split_and!; [done|done|]. right. exists db. set_solver.
Qed.

(* ===================================================================== *)
(** * Calls that succeed and fail *)

Definition closed_library : Library := MkLibrary [] ∅ ∅ ∅.
Definition answering (l : list Answer) : Library := MkLibrary l ∅ ∅ ∅.
Definition ok : Answer := MkAnswer SQLITE_OK "" 0.
Definition row (v : Z) : Answer := MkAnswer SQLITE_ROW "" v.
Definition done_ : Answer := MkAnswer SQLITE_DONE "" 0.
Definition full : Answer := MkAnswer 13 "database or disk is full" 0.
Definition not_a_database : Answer := MkAnswer 26 "file is not a database" 0.

Lemma wf_answering l : wf (answering l).
Proof. split; [apply map_Forall_empty|done]. Qed.

(** Both connections open, on a database of version 3; of a batch of two writes the
    second fails; three rooms are read. *)
Definition opens : list Answer := [ok; ok; ok; ok].
Definition is_current : list Answer := [ok; ok; row 1; ok; row 3; ok; ok].
Definition sample_batch : list Write := [BanRemove "ann"; IdentityWrite "bob" "00"].
Definition batch_fails : list Answer := [ok; ok; ok; done_; ok; ok; ok; ok; full].
Definition three_rows : list Answer := [ok; row 1; row 2; row 3; done_].
Definition session_library : Library := answering (opens ++ is_current ++ opens ++ batch_fails ++ three_rows).

Lemma handles_released_witness :
  wf session_library /\
  match construct "chatbox.db" None session_library with
  | (inl i, L1) =>
      (run_batch (write_db i) sample_batch L1).1 = Some "Could not execute SQLite write: database or disk is full" /\
      held (destruct_impl i (foldl (fun L o => perform i o L) L1 [Batch sample_batch; LoadTable])).2 = held session_library
  | (inr _, _) => False
  end.
Proof.
  split; [apply wf_answering|].
  pose proof (handles_released "chatbox.db" None session_library (wf_answering _)) as Hr.
  assert (match construct "chatbox.db" None session_library with
    | (inl i, L1) => (run_batch (write_db i) sample_batch L1).1 = Some "Could not execute SQLite write: database or disk is full"
    | (inr _, _) => False end) as E by (vm_compute; reflexivity).
  destruct (construct "chatbox.db" None session_library) as [[i|what] L1]; [|exact E]. destruct Hr as (_ & _ & Ho).
  split; [exact E|]. exact (proj2 (Ho [Batch sample_batch; LoadTable])).
Defined.

(** Opening a file that is not a database. [sqlite3_open_v2] does not read it; the
    second PRAGMA does, and throws: the connection is not closed. *)
Theorem failed_pragma_leaks :
  let '(r, L) := construct "notes.txt" None (answering [ok; ok; not_a_database]) in
  r = inr "SQLite statement failed: file is not a database" /\ databases L = {[0%nat]}.
Proof. vm_compute. split; reflexivity. Qed.

(** Nor is the second connection when the worker's thread cannot be started. *)
Theorem failed_thread_leaks :
  let '(r, L) := construct "chatbox.db" (Some "Resource temporarily unavailable")
    (answering (opens ++ is_current ++ opens)) in
  r = inr "Resource temporarily unavailable" /\ databases L = {[1%nat]}.
Proof. vm_compute. split; reflexivity. Qed.
