(* ===== verification/World.v ===== *)
(** The state of a running server: [struct Room] of [src/chat/room.h], the data
    members of [ClientSession] and [ChatServer] of [src/chat/chat_server.h], and
    the world around them: the sessions by address, the storage, the log, the
    chat state of the interface, the files, the tasks posted to the [io_context]
    and the counters of the clock and of the random source. Then the primitives
    that everything above uses: reading a session, posting a task, [deliver]. *)

From S2P Require Import Prelude Frame Message Utils AppState StorageApi.
Local Open Scope string_scope.
Local Open Scope chat_scope.

(* ===================================================================== *)
(** * State *)

(** A session is known by its address, which orders [std::set<shared_ptr>]. *)
Abbreviation SessionId := N.

Record Room := MkRoom {
  room_id : RoomId;
  room_name : string;
  room_topic : string;
  owner_nickname : string;
  recent_messages : list string;
  members : gset SessionId;
}.

Definition with_topic (v : string) (x : Room) : Room :=
  MkRoom (room_id x) (room_name x) v (owner_nickname x) (recent_messages x) (members x).
Definition with_recent_messages (v : list string) (x : Room) : Room :=
  MkRoom (room_id x) (room_name x) (room_topic x) (owner_nickname x) v (members x).
Definition with_members (v : gset SessionId) (x : Room) : Room :=
  MkRoom (room_id x) (room_name x) (room_topic x) (owner_nickname x) (recent_messages x) v.

(** The members of [ClientSession]. Of its stream: whether it is open, whether a
    handshake, a read or a write is pending, and the frames written so far. *)
Record ClientSession := MkSession {
  write_queue_ : list string;
  recent_messages_by_room_ : gmap RoomId (list Z);
  nickname_ : string;
  pending_nickname_ : string;
  pending_public_key_hex_ : string;
  pending_challenge_ : string;
  active_room_id_ : RoomId;
  authenticated_ : bool;
  protocol_negotiated_ : bool;
  close_after_write_ : bool;
  suppress_leave_notice_ : bool;
  stream_open : bool;
  handshaking : bool;
  reading : bool;
  write_pending : bool;
  sent : list string;
}.

Definition new_session : ClientSession :=
  MkSession [] ∅ "" "" "" "" 0%N false false false false true false false false [].

Definition with_write_queue (v : list string) (x : ClientSession) : ClientSession :=
  MkSession v (recent_messages_by_room_ x) (nickname_ x) (pending_nickname_ x)
    (pending_public_key_hex_ x) (pending_challenge_ x) (active_room_id_ x)
    (authenticated_ x) (protocol_negotiated_ x) (close_after_write_ x)
    (suppress_leave_notice_ x) (stream_open x) (handshaking x) (reading x) (write_pending x)
    (sent x).
Definition with_recent_messages_by_room (v : gmap RoomId (list Z)) (x : ClientSession) : ClientSession :=
  MkSession (write_queue_ x) v (nickname_ x) (pending_nickname_ x)
    (pending_public_key_hex_ x) (pending_challenge_ x) (active_room_id_ x)
    (authenticated_ x) (protocol_negotiated_ x) (close_after_write_ x)
    (suppress_leave_notice_ x) (stream_open x) (handshaking x) (reading x) (write_pending x)
    (sent x).
Definition with_nickname (v : string) (x : ClientSession) : ClientSession :=
  MkSession (write_queue_ x) (recent_messages_by_room_ x) v (pending_nickname_ x)
    (pending_public_key_hex_ x) (pending_challenge_ x) (active_room_id_ x)
    (authenticated_ x) (protocol_negotiated_ x) (close_after_write_ x)
    (suppress_leave_notice_ x) (stream_open x) (handshaking x) (reading x) (write_pending x)
    (sent x).
Definition with_pending_nickname (v : string) (x : ClientSession) : ClientSession :=
  MkSession (write_queue_ x) (recent_messages_by_room_ x) (nickname_ x) v
    (pending_public_key_hex_ x) (pending_challenge_ x) (active_room_id_ x)
    (authenticated_ x) (protocol_negotiated_ x) (close_after_write_ x)
    (suppress_leave_notice_ x) (stream_open x) (handshaking x) (reading x) (write_pending x)
    (sent x).
Definition with_pending_public_key_hex (v : string) (x : ClientSession) : ClientSession :=
  MkSession (write_queue_ x) (recent_messages_by_room_ x) (nickname_ x)
    (pending_nickname_ x) v (pending_challenge_ x) (active_room_id_ x) (authenticated_ x)
    (protocol_negotiated_ x) (close_after_write_ x) (suppress_leave_notice_ x)
    (stream_open x) (handshaking x) (reading x) (write_pending x) (sent x).
Definition with_pending_challenge (v : string) (x : ClientSession) : ClientSession :=
  MkSession (write_queue_ x) (recent_messages_by_room_ x) (nickname_ x)
    (pending_nickname_ x) (pending_public_key_hex_ x) v (active_room_id_ x)
    (authenticated_ x) (protocol_negotiated_ x) (close_after_write_ x)
    (suppress_leave_notice_ x) (stream_open x) (handshaking x) (reading x) (write_pending x)
    (sent x).
Definition with_active_room_id (v : RoomId) (x : ClientSession) : ClientSession :=
  MkSession (write_queue_ x) (recent_messages_by_room_ x) (nickname_ x)
    (pending_nickname_ x) (pending_public_key_hex_ x) (pending_challenge_ x) v
    (authenticated_ x) (protocol_negotiated_ x) (close_after_write_ x)
    (suppress_leave_notice_ x) (stream_open x) (handshaking x) (reading x) (write_pending x)
    (sent x).
Definition with_authenticated (v : bool) (x : ClientSession) : ClientSession :=
  MkSession (write_queue_ x) (recent_messages_by_room_ x) (nickname_ x)
    (pending_nickname_ x) (pending_public_key_hex_ x) (pending_challenge_ x)
    (active_room_id_ x) v (protocol_negotiated_ x) (close_after_write_ x)
    (suppress_leave_notice_ x) (stream_open x) (handshaking x) (reading x) (write_pending x)
    (sent x).
Definition with_protocol_negotiated (v : bool) (x : ClientSession) : ClientSession :=
  MkSession (write_queue_ x) (recent_messages_by_room_ x) (nickname_ x)
    (pending_nickname_ x) (pending_public_key_hex_ x) (pending_challenge_ x)
    (active_room_id_ x) (authenticated_ x) v (close_after_write_ x)
    (suppress_leave_notice_ x) (stream_open x) (handshaking x) (reading x) (write_pending x)
    (sent x).
Definition with_close_after_write (v : bool) (x : ClientSession) : ClientSession :=
  MkSession (write_queue_ x) (recent_messages_by_room_ x) (nickname_ x)
    (pending_nickname_ x) (pending_public_key_hex_ x) (pending_challenge_ x)
    (active_room_id_ x) (authenticated_ x) (protocol_negotiated_ x) v
    (suppress_leave_notice_ x) (stream_open x) (handshaking x) (reading x) (write_pending x)
    (sent x).
Definition with_suppress_leave_notice (v : bool) (x : ClientSession) : ClientSession :=
  MkSession (write_queue_ x) (recent_messages_by_room_ x) (nickname_ x)
    (pending_nickname_ x) (pending_public_key_hex_ x) (pending_challenge_ x)
    (active_room_id_ x) (authenticated_ x) (protocol_negotiated_ x) (close_after_write_ x) v
    (stream_open x) (handshaking x) (reading x) (write_pending x) (sent x).
Definition with_stream_open (v : bool) (x : ClientSession) : ClientSession :=
  MkSession (write_queue_ x) (recent_messages_by_room_ x) (nickname_ x)
    (pending_nickname_ x) (pending_public_key_hex_ x) (pending_challenge_ x)
    (active_room_id_ x) (authenticated_ x) (protocol_negotiated_ x) (close_after_write_ x)
    (suppress_leave_notice_ x) v (handshaking x) (reading x) (write_pending x) (sent x).
Definition with_handshaking (v : bool) (x : ClientSession) : ClientSession :=
  MkSession (write_queue_ x) (recent_messages_by_room_ x) (nickname_ x)
    (pending_nickname_ x) (pending_public_key_hex_ x) (pending_challenge_ x)
    (active_room_id_ x) (authenticated_ x) (protocol_negotiated_ x) (close_after_write_ x)
    (suppress_leave_notice_ x) (stream_open x) v (reading x) (write_pending x) (sent x).
Definition with_reading (v : bool) (x : ClientSession) : ClientSession :=
  MkSession (write_queue_ x) (recent_messages_by_room_ x) (nickname_ x)
    (pending_nickname_ x) (pending_public_key_hex_ x) (pending_challenge_ x)
    (active_room_id_ x) (authenticated_ x) (protocol_negotiated_ x) (close_after_write_ x)
    (suppress_leave_notice_ x) (stream_open x) (handshaking x) v (write_pending x) (sent x).
Definition with_write_pending (v : bool) (x : ClientSession) : ClientSession :=
  MkSession (write_queue_ x) (recent_messages_by_room_ x) (nickname_ x)
    (pending_nickname_ x) (pending_public_key_hex_ x) (pending_challenge_ x)
    (active_room_id_ x) (authenticated_ x) (protocol_negotiated_ x) (close_after_write_ x)
    (suppress_leave_notice_ x) (stream_open x) (handshaking x) (reading x) v (sent x).
Definition with_sent (v : list string) (x : ClientSession) : ClientSession :=
  MkSession (write_queue_ x) (recent_messages_by_room_ x) (nickname_ x)
    (pending_nickname_ x) (pending_public_key_hex_ x) (pending_challenge_ x)
    (active_room_id_ x) (authenticated_ x) (protocol_negotiated_ x) (close_after_write_ x)
    (suppress_leave_notice_ x) (stream_open x) (handshaking x) (reading x) (write_pending x)
    v.

(** The members of [ChatServer] other than its storage and its log. *)
Record ChatServer := MkServer {
  password_ : string;
  bans_file_ : string;
  identities_file_ : string;
  local_nickname_ : string;
  history_limit_ : N;
  sessions_ : gset SessionId;
  rooms_ : gmap RoomId Room;
  next_room_id_ : RoomId;
  local_room_id_ : RoomId;
  banned_nicks_ : gset string;
  identities_ : gmap string string;
  acceptor_open : bool;
}.

Definition with_bans_file (v : string) (x : ChatServer) : ChatServer :=
  MkServer (password_ x) v (identities_file_ x) (local_nickname_ x) (history_limit_ x)
    (sessions_ x) (rooms_ x) (next_room_id_ x) (local_room_id_ x) (banned_nicks_ x)
    (identities_ x) (acceptor_open x).
Definition with_identities_file (v : string) (x : ChatServer) : ChatServer :=
  MkServer (password_ x) (bans_file_ x) v (local_nickname_ x) (history_limit_ x)
    (sessions_ x) (rooms_ x) (next_room_id_ x) (local_room_id_ x) (banned_nicks_ x)
    (identities_ x) (acceptor_open x).
Definition with_sessions (v : gset SessionId) (x : ChatServer) : ChatServer :=
  MkServer (password_ x) (bans_file_ x) (identities_file_ x) (local_nickname_ x)
    (history_limit_ x) v (rooms_ x) (next_room_id_ x) (local_room_id_ x) (banned_nicks_ x)
    (identities_ x) (acceptor_open x).
Definition with_rooms (v : gmap RoomId Room) (x : ChatServer) : ChatServer :=
  MkServer (password_ x) (bans_file_ x) (identities_file_ x) (local_nickname_ x)
    (history_limit_ x) (sessions_ x) v (next_room_id_ x) (local_room_id_ x)
    (banned_nicks_ x) (identities_ x) (acceptor_open x).
Definition with_next_room_id (v : RoomId) (x : ChatServer) : ChatServer :=
  MkServer (password_ x) (bans_file_ x) (identities_file_ x) (local_nickname_ x)
    (history_limit_ x) (sessions_ x) (rooms_ x) v (local_room_id_ x) (banned_nicks_ x)
    (identities_ x) (acceptor_open x).
Definition with_local_room_id (v : RoomId) (x : ChatServer) : ChatServer :=
  MkServer (password_ x) (bans_file_ x) (identities_file_ x) (local_nickname_ x)
    (history_limit_ x) (sessions_ x) (rooms_ x) (next_room_id_ x) v (banned_nicks_ x)
    (identities_ x) (acceptor_open x).
Definition with_banned_nicks (v : gset string) (x : ChatServer) : ChatServer :=
  MkServer (password_ x) (bans_file_ x) (identities_file_ x) (local_nickname_ x)
    (history_limit_ x) (sessions_ x) (rooms_ x) (next_room_id_ x) (local_room_id_ x) v
    (identities_ x) (acceptor_open x).
Definition with_identities (v : gmap string string) (x : ChatServer) : ChatServer :=
  MkServer (password_ x) (bans_file_ x) (identities_file_ x) (local_nickname_ x)
    (history_limit_ x) (sessions_ x) (rooms_ x) (next_room_id_ x) (local_room_id_ x)
    (banned_nicks_ x) v (acceptor_open x).
Definition with_acceptor_open (v : bool) (x : ChatServer) : ChatServer :=
  MkServer (password_ x) (bans_file_ x) (identities_file_ x) (local_nickname_ x)
    (history_limit_ x) (sessions_ x) (rooms_ x) (next_room_id_ x) (local_room_id_ x)
    (banned_nicks_ x) (identities_ x) v.

(** Closures posted to the [io_context], which one thread runs in order. *)
Inductive Task :=
| TaskDeliver (session : SessionId) (wire : string)
| TaskClose (session : SessionId)
| TaskAbort (session : SessionId)
| TaskStop.

Record World (S : Type) := MkWorld {
  server : ChatServer;
  heap : gmap SessionId ClientSession;
  storage_ : option S;
  log_ : option (list string);
  app : AppState;
  files : Files;
  tasks : list Task;
  cerr : list string;
  last_timestamp : Z;
  system_reads : nat;
  steady_reads : nat;
  random_draws : nat;
}.

Arguments MkWorld {S} _ _ _ _ _ _ _ _ _ _ _ _.
Arguments server {S} _.
Arguments heap {S} _.
Arguments storage_ {S} _.
Arguments log_ {S} _.
Arguments app {S} _.
Arguments files {S} _.
Arguments tasks {S} _.
Arguments cerr {S} _.
Arguments last_timestamp {S} _.
Arguments system_reads {S} _.
Arguments steady_reads {S} _.
Arguments random_draws {S} _.

Definition put_server {S} (v : ChatServer) (w : World S) : World S :=
  MkWorld v (heap w) (storage_ w) (log_ w) (app w) (files w) (tasks w) (cerr w)
    (last_timestamp w) (system_reads w) (steady_reads w) (random_draws w).
Definition put_heap {S} (v : gmap SessionId ClientSession) (w : World S) : World S :=
  MkWorld (server w) v (storage_ w) (log_ w) (app w) (files w) (tasks w) (cerr w)
    (last_timestamp w) (system_reads w) (steady_reads w) (random_draws w).
Definition put_storage {S} (v : option S) (w : World S) : World S :=
  MkWorld (server w) (heap w) v (log_ w) (app w) (files w) (tasks w) (cerr w)
    (last_timestamp w) (system_reads w) (steady_reads w) (random_draws w).
Definition put_log {S} (v : option (list string)) (w : World S) : World S :=
  MkWorld (server w) (heap w) (storage_ w) v (app w) (files w) (tasks w) (cerr w)
    (last_timestamp w) (system_reads w) (steady_reads w) (random_draws w).
Definition put_app {S} (v : AppState) (w : World S) : World S :=
  MkWorld (server w) (heap w) (storage_ w) (log_ w) v (files w) (tasks w) (cerr w)
    (last_timestamp w) (system_reads w) (steady_reads w) (random_draws w).
Definition put_files {S} (v : Files) (w : World S) : World S :=
  MkWorld (server w) (heap w) (storage_ w) (log_ w) (app w) v (tasks w) (cerr w)
    (last_timestamp w) (system_reads w) (steady_reads w) (random_draws w).
Definition put_tasks {S} (v : list Task) (w : World S) : World S :=
  MkWorld (server w) (heap w) (storage_ w) (log_ w) (app w) (files w) v (cerr w)
    (last_timestamp w) (system_reads w) (steady_reads w) (random_draws w).
Definition put_cerr {S} (v : list string) (w : World S) : World S :=
  MkWorld (server w) (heap w) (storage_ w) (log_ w) (app w) (files w) (tasks w) v
    (last_timestamp w) (system_reads w) (steady_reads w) (random_draws w).
Definition put_last_timestamp {S} (v : Z) (w : World S) : World S :=
  MkWorld (server w) (heap w) (storage_ w) (log_ w) (app w) (files w) (tasks w) (cerr w) v
    (system_reads w) (steady_reads w) (random_draws w).
Definition put_system_reads {S} (v : nat) (w : World S) : World S :=
  MkWorld (server w) (heap w) (storage_ w) (log_ w) (app w) (files w) (tasks w) (cerr w)
    (last_timestamp w) v (steady_reads w) (random_draws w).
Definition put_steady_reads {S} (v : nat) (w : World S) : World S :=
  MkWorld (server w) (heap w) (storage_ w) (log_ w) (app w) (files w) (tasks w) (cerr w)
    (last_timestamp w) (system_reads w) v (random_draws w).
Definition put_random_draws {S} (v : nat) (w : World S) : World S :=
  MkWorld (server w) (heap w) (storage_ w) (log_ w) (app w) (files w) (tasks w) (cerr w)
    (last_timestamp w) (system_reads w) (steady_reads w) v.

(* ===================================================================== *)
(** * Primitives *)

Section primitives.
Context {S : Type} `{ServerStorage S} `{Sodium} `{Platform}.
Abbreviation W := (World S).

(** [session(s)->...]: a session that is pointed to is always in the heap. *)
Definition session (w : W) (s : SessionId) : ClientSession :=
  default new_session (heap w !! s).
Definition nickname (w : W) (s : SessionId) : string := nickname_ (session w s).
Definition active_room_of (w : W) (s : SessionId) : RoomId := active_room_id_ (session w s).

(** Change the members of a session, of the server, of one room. *)
Definition on_session (s : SessionId) (f : ClientSession -> ClientSession) : M W unit :=
  modify (fun w => put_heap (<[s := f (session w s)]> (heap w)) w).
Definition on_server (f : ChatServer -> ChatServer) : M W unit :=
  modify (fun w => put_server (f (server w)) w).
Definition on_room (id : RoomId) (f : Room -> Room) : M W unit :=
  on_server (fun c => with_rooms (alter f id (rooms_ c)) c).

(** The chat state of the process. *)
Definition on_app (f : AppState -> AppState) : M W unit :=
  modify (fun w => put_app (f (app w)) w).

Definition set_active_room_id (s : SessionId) (id : RoomId) : M W unit :=
  on_session s (with_active_room_id id).
Definition set_nickname (s : SessionId) (nick : string) : M W unit :=
  on_session s (with_nickname nick).

(** [boost::asio::post]. *)
Definition post (t : Task) : M W unit :=
  modify (fun w => put_tasks (tasks w ++ [t])%list w).

Definition print_error (line : string) : M W unit :=
  modify (fun w => put_cerr (cerr w ++ [line])%list w).

(** [if (log_) log_->write(line)]. *)
Definition log_write (line : string) : M W unit :=
  modify (fun w => match log_ w with
                   | Some lines => put_log (Some (lines ++ [line])%list) w
                   | None => w
                   end).

(** One reading of a clock, one draw of the random source. *)
Definition read_system_clock : M W nat :=
  fun w => (system_reads w, put_system_reads (system_reads w + 1) w).
Definition read_steady_clock : M W nat :=
  fun w => (steady_reads w, put_steady_reads (steady_reads w + 1) w).
Definition random_hex_text (bytes : N) : M W string :=
  fun w => (random_hex (random_draws w) bytes, put_random_draws (random_draws w + 1) w).
Definition timestamp_text : M W string :=
  let* n := read_system_clock in ret (timestamp n).

(** [duration_cast] truncates towards zero. *)
Definition current_unix_seconds : M W Z :=
  let* n := read_system_clock in ret (Z.quot (system_clock n) 1000000000).

(** The compare-and-exchange loop, whose first attempt succeeds when one thread
    runs it. *)
Definition next_message_timestamp : M W Z :=
  let* n := read_system_clock in
  let now := Z.quot (system_clock n) 1000 in
  let* w := get in
  let candidate := Z.max now (last_timestamp w + 1) in
  modify (put_last_timestamp candidate) ;;;
  ret candidate.

(** [if (storage_) storage_->op(...)], the result discarded. *)
Definition with_storage {A} (op : S -> A * S) : M W unit :=
  modify (fun w => match storage_ w with
                   | Some s => put_storage (Some (op s).2) w
                   | None => w
                   end).
Definition has_storage (w : W) : bool := match storage_ w with Some _ => true | None => false end.

(** [storage_->op(...)] for its result, when there is a storage. *)
Definition call_storage {A} (op : S -> A * S) : M W (option A) :=
  fun w => match storage_ w with
           | Some s => let '(a, s') := op s in (Some a, put_storage (Some s') w)
           | None => (None, w)
           end.

(* ===================================================================== *)
(** * [ClientSession::deliver], [deliver_text], [close], [abort] *)

Definition deliver (s : SessionId) (msg : Server.message) : M W unit :=
  let encoded := encode_server_frame msg in
  match value encoded with
  | None => print_error ("Protocol encode error: " +:+ detail encoded)
  | Some wire => post (TaskDeliver s wire)
  end.

Definition deliver_text (s : SessionId) (text : string) : M W unit :=
  deliver s (Server.Text text).

Definition close (s : SessionId) : M W unit := post (TaskClose s).
Definition abort (s : SessionId) : M W unit := post (TaskAbort s).

(* ===================================================================== *)
(** * Lemmas: what the primitives leave alone *)

(** The part of the world the server's invariants speak about. *)
Definition core (w : W) : ChatServer * gmap SessionId ClientSession := (server w, heap w).

Lemma frames_core_modify (f : W -> W) :
  (forall w, server (f w) = server w) -> (forall w, heap (f w) = heap w) ->
  frames core (modify f).
Proof. intros Hs Hh w. unfold core, modify. cbn [snd]. by rewrite Hs, Hh. Qed.

Lemma frames_core_app f : frames core (on_app f).
Proof. by apply frames_core_modify. Qed.
Lemma frames_core_post t : frames core (post t).
Proof. by apply frames_core_modify. Qed.
Lemma frames_core_print line : frames core (print_error line).
Proof. by apply frames_core_modify. Qed.
Lemma frames_core_log line : frames core (log_write line).
Proof. by apply frames_core_modify; intros w; destruct (log_ w). Qed.
Lemma frames_core_system_clock : frames core read_system_clock.
Proof. done. Qed.
Lemma frames_core_steady_clock : frames core read_steady_clock.
Proof. done. Qed.
Lemma frames_core_random n : frames core (random_hex_text n).
Proof. done. Qed.
Lemma frames_core_with_storage {A} (op : S -> A * S) : frames core (with_storage op).
Proof. by apply frames_core_modify; intros w; destruct (storage_ w). Qed.
Lemma frames_core_call_storage {A} (op : S -> A * S) : frames core (call_storage op).
Proof. intros w. unfold call_storage. destruct (storage_ w) as [s|]; [by destruct (op s)|done]. Qed.
Lemma frames_core_timestamp_text : frames core timestamp_text.
Proof. done. Qed.
Lemma frames_core_unix_seconds : frames core current_unix_seconds.
Proof. done. Qed.
Lemma frames_core_message_timestamp : frames core next_message_timestamp.
Proof. done. Qed.
Lemma frames_core_deliver s msg : frames core (deliver s msg).
Proof.
  unfold deliver. destruct (value _); [apply frames_core_post|apply frames_core_print].
Qed.
Lemma frames_core_deliver_text s text : frames core (deliver_text s text).
Proof. apply frames_core_deliver. Qed.
Lemma frames_core_close s : frames core (close s).
Proof. apply frames_core_post. Qed.
Lemma frames_core_abort s : frames core (abort s).
Proof. apply frames_core_post. Qed.
End primitives.

#[export] Hint Resolve frames_core_app frames_core_post frames_core_print frames_core_log
  frames_core_system_clock frames_core_steady_clock frames_core_random
  @frames_core_with_storage @frames_core_call_storage frames_core_timestamp_text
  frames_core_unix_seconds frames_core_message_timestamp frames_core_deliver
  frames_core_deliver_text frames_core_close frames_core_abort : chat_frames.
