(* ===== verification/ChatServer.v ===== *)
(** The chat server: every member function of [ChatServer] in
    [src/chat/chat_server.h] that reads or changes the server, over the world of
    [World.v]. A [bool] function with a [std::string& error] parameter returns
    [option string]: [None] for [true], [Some error] for [false]. Blocks under a
    lock are atomic steps of the same thread; the server is driven by the one
    thread that runs the [io_context]. *)

From S2P Require Import Prelude Frame Message Utils AppState StorageApi World.
Local Open Scope string_scope.
Local Open Scope chat_scope.

Definition DEFAULT_ROOM_ID : RoomId := 1%N.

Section chat_server.
Context {S : Type} `{ServerStorage S} `{Sodium} `{Platform}.
Abbreviation W := (World S).

(* ===================================================================== *)
(** * Passwords, bans, nicknames, identities *)

Definition has_password (c : ChatServer) : bool := negb (sempty (password_ c)).
Definition check_password (c : ChatServer) (pw : string) : bool := String.eqb pw (password_ c).
Definition is_banned (c : ChatServer) (nick : string) : bool :=
  bool_decide (nick ∈ banned_nicks_ c).
Definition has_local (c : ChatServer) : bool := negb (sempty (local_nickname_ c)).

Definition nickname_taken (w : W) (nick : string) : bool :=
  (has_local (server w) && String.eqb (local_nickname_ (server w)) nick)
  || existsb (fun s => String.eqb (nickname w s) nick) (set_iter (sessions_ (server w))).

Definition identity_available_for (c : ChatServer) (nick key : string) : option string :=
  if negb (is_valid_nickname nick) then Some "Invalid nickname"
  else if negb (is_hex_of_len key crypto_sign_PUBLICKEYBYTES)
  then Some "Invalid identity public key"
  else match identities_ c !! nick with
       | Some bound =>
           if negb (String.eqb bound key)
           then Some "Nickname belongs to a different identity key" else None
       | None => None
       end.

(** [std::ofstream file(path, std::ios::trunc)], then the lines. *)
Definition write_file (path : string) (lines : list string) : M W unit :=
  modify (fun w => if can_write path
                   then put_files (<[path := lines_text lines]> (files w)) w else w).

Definition ban_list (c : ChatServer) : list string := set_iter (banned_nicks_ c).

Definition save_bans : M W unit :=
  let* w := get in
  let path := bans_file_ (server w) in
  if sempty path then ret tt else write_file path (ban_list (server w)).

Definition save_identities_locked : M W unit :=
  let* w := get in
  let path := identities_file_ (server w) in
  if sempty path then ret tt
  else write_file path ((fun e => e.1 +:+ "|" +:+ e.2) <$> map_iter (identities_ (server w))).

Definition bind_identity (nick key : string) : M W bool :=
  let* w := get in
  match identities_ (server w) !! nick with
  | Some bound => ret (String.eqb bound key)
  | None =>
      on_server (fun c => with_identities (<[nick := key]> (identities_ c)) c) ;;;
      (if has_storage w then with_storage (store_identity nick key)
       else save_identities_locked) ;;;
      log_write ("[identity] Registered " +:+ nick +:+ " as " +:+ identity_fingerprint key) ;;;
      ret true
  end.

Definition register_local_identity (nick key : string) : M W bool :=
  let* w := get in
  match identity_available_for (server w) nick key with
  | Some _ => ret false
  | None => bind_identity nick key
  end.

(** One line [nickname|key] of the identities file. *)
Definition load_identity_line (acc : gmap string string * N) (line : string) :
    gmap string string * N :=
  match split line "|" with
  | [nick; key] =>
      if is_valid_nickname nick && is_hex_of_len key crypto_sign_PUBLICKEYBYTES
      then (<[nick := key]> acc.1, (acc.2 + 1)%N) else acc
  | _ => acc
  end.

Definition insert_identities (entries : list (string * string)) (m : gmap string string) :
    gmap string string :=
  foldl (fun m e => <[e.1 := e.2]> m) m entries.

Definition insert_bans (bans : list StoredBan) (b : gset string) : gset string :=
  foldl (fun b ban => {[ban_nickname ban]} ∪ b) b bans.

(** [storage_->import_legacy_files(bans, identities)]. *)
Definition import_to_storage (bans_path identities_path : string) : M W ImportResult :=
  let* w := get in
  let* now := current_unix_seconds in
  let* imported :=
    call_storage (StorageApi.import_legacy_files (files w) now bans_path identities_path) in
  ret (default (MkImport 0 0 false false) imported).

Definition load_stored_identities : M W unit :=
  let* entries := call_storage StorageApi.load_identities in
  on_server (fun c =>
    with_identities (insert_identities (default [] entries) (identities_ c)) c).

Definition load_stored_bans : M W unit :=
  let* now := current_unix_seconds in
  let* bans := call_storage (StorageApi.load_bans now) in
  on_server (fun c => with_banned_nicks (insert_bans (default [] bans) (banned_nicks_ c)) c).

Definition load_identities (path : string) : M W unit :=
  if sempty path then ret tt else
  let* w := get in
  if has_storage w then
    import_to_storage "" path ;;;
    load_stored_identities
  else
    on_server (with_identities_file path) ;;;
    match files w !! path with
    | None => ret tt
    | Some text =>
        let '(loaded, count) :=
          foldl load_identity_line (identities_ (server w), 0%N) (getlines newline text) in
        on_server (with_identities loaded) ;;;
        log_write ("[identity] Loaded " +:+ to_string count
                   +:+ " identity binding(s) from " +:+ path)
    end.

Definition load_bans (path : string) : M W unit :=
  if sempty path then ret tt else
  let* w := get in
  if has_storage w then
    import_to_storage path "" ;;;
    load_stored_bans
  else
    on_server (with_bans_file path) ;;;
    match files w !! path with
    | None => ret tt
    | Some text =>
        let nicks := filter (fun nick => nick <> "") (getlines newline text) in
        on_server (fun c =>
          with_banned_nicks (foldl (fun b nick => {[nick]} ∪ b) (banned_nicks_ c) nicks) c) ;;;
        let* w := get in
        log_write ("[admin] Loaded " +:+ to_string (N.of_nat (length (ban_list (server w))))
                   +:+ " ban(s) from " +:+ path)
    end.

Definition import_legacy_files (bans_path identities_path : string) : M W unit :=
  let* w := get in
  if negb (has_storage w) then
    load_identities identities_path ;;;
    load_bans bans_path
  else
    let* imported := import_to_storage bans_path identities_path in
    on_server (with_identities ∅) ;;;
    load_stored_identities ;;;
    on_server (with_banned_nicks ∅) ;;;
    load_stored_bans ;;;
    when (negb (imported_bans imported =? 0)%N || negb (imported_identities imported =? 0)%N)
      (log_write ("[storage] Imported " +:+ to_string (imported_bans imported)
        +:+ " ban(s) and " +:+ to_string (imported_identities imported)
        +:+ " identity binding(s) into SQLite")).

(* ===================================================================== *)
(** * Rooms: lookup and lists *)

Definition find_room_by_name_locked (c : ChatServer) (name : string) : option (RoomId * Room) :=
  let wanted := normalized_room_name name in
  List.find (fun item => String.eqb (normalized_room_name (room_name item.2)) wanted)
    (map_iter (rooms_ c)).

Definition room_list (c : ChatServer) : list RoomSummary :=
  (fun item =>
     let count := N.of_nat (size (members item.2)) in
     MkRoomSummary item.1 (room_name item.2)
       (if has_local c && (local_room_id_ c =? item.1)%N then count + 1 else count)%N)
  <$> map_iter (rooms_ c).

Definition send_room_list (s : SessionId) : M W unit :=
  let* w := get in
  deliver s (Server.RoomList (room_list (server w))).

Definition local_room_id (w : W) : RoomId := local_room_id_ (server w).

Definition broadcast_room_lists : M W unit :=
  let* w := get in
  let list := room_list (server w) in
  let sessions := filter (fun s => nickname w s <> "") (set_iter (sessions_ (server w))) in
  for_each sessions (fun s => deliver s (Server.RoomList list)) ;;;
  when (has_local (server w) && negb (local_room_id w =? 0)%N)
    (on_app (update_room_list list)).

Definition show_room_list_local : M W unit :=
  let* w := get in
  let list := room_list (server w) in
  on_app (update_room_list list) ;;;
  on_app (push_message "[system] Available rooms:") ;;;
  let current := local_room_id w in
  for_each list (fun room =>
    on_app (push_message ("[system]   "
      +:+ (if (summary_id room =? current)%N then "* " else "- ")
      +:+ summary_name room +:+ " (" +:+ to_string (summary_user_count room) +:+ ")"))).

(** The nicknames of the members of a room, the local user last, sorted. *)
Definition room_users (w : W) (id : RoomId) (room : Room) : list string :=
  let users := filter (fun nick => nick <> "") (nickname w <$> set_iter (members room)) in
  sort_strings
    (if has_local (server w) && (local_room_id w =? id)%N
     then (users ++ [local_nickname_ (server w)])%list else users).

Definition users_in_room (w : W) (name : string) : list string + string :=
  match find_room_by_name_locked (server w) name with
  | None => inr ("Room '" +:+ name +:+ "' does not exist")
  | Some (id, room) => inl (room_users w id room)
  end.

Definition connected_users (w : W) : list string :=
  sort_strings
    ((if has_local (server w) then [local_nickname_ (server w)] else [])
     ++ filter (fun nick => nick <> "") (nickname w <$> set_iter (sessions_ (server w)))).

Definition persist_room (id : RoomId) : M W unit :=
  let* w := get in
  if negb (has_storage w) then ret tt else
  match rooms_ (server w) !! id with
  | None => ret tt
  | Some room =>
      let* now := current_unix_seconds in
      with_storage (store_room (MkStoredRoom (room_id room) (room_name room) (room_topic room)
                                  (owner_nickname room) now))
  end.

(* ===================================================================== *)
(** * Broadcasting *)

(** [recent_messages.push_back(msg)], then [pop_front] beyond [history_limit_]. *)
Definition record_message (id : RoomId) (msg : string) : M W unit :=
  on_server (fun c =>
    with_rooms (alter (fun r => with_recent_messages
      (push_bounded (history_limit_ c) (recent_messages r) msg) r) id (rooms_ c)) c).

Definition broadcast_room (id : RoomId) (msg nick : string) : M W unit :=
  let* w := get in
  match rooms_ (server w) !! id with
  | None => ret tt
  | Some room =>
      record_message id msg ;;;
      when (has_local (server w) && (local_room_id w =? id)%N) (on_app (push_message msg)) ;;;
      for_each (set_iter (members room)) (fun m => deliver m (Server.RoomText id msg)) ;;;
      log_write ("[#" +:+ room_name room +:+ "] " +:+ msg) ;;;
      if has_storage w then
        let* message_id := random_hex_text 16 in
        let* sent_at := next_message_timestamp in
        with_storage (store_message (MkStoredMessage message_id id nick msg sent_at None None))
      else ret tt
  end.

Definition broadcast (msg : string) : M W unit :=
  let* w := get in
  let id := local_room_id w in
  broadcast_room (if (id =? 0)%N then DEFAULT_ROOM_ID else id) msg "".

Definition broadcast_server (msg : string) : M W unit :=
  let* w := get in
  for_each (map_iter (rooms_ (server w))).*1
    (fun id => broadcast_room id ("[SERVER] " +:+ msg) "").

Definition broadcast_users (id : RoomId) : M W unit :=
  let* w := get in
  match rooms_ (server w) !! id with
  | None => ret tt
  | Some room =>
      let users := room_users w id room in
      when (has_local (server w) && (local_room_id w =? id)%N)
        (on_app (update_room_users id users)) ;;;
      for_each (set_iter (members room)) (fun m => deliver m (Server.UserList id users))
  end.

(* ===================================================================== *)
(** * Moving between rooms *)

Definition history_title (name : string) : string :=
  "[system] Recent messages in #" +:+ name +:+ ":".

(** The block under [rooms_mutex_] of [move_session_to_room]. *)
Definition change_room (s : SessionId) (old_id target_id : RoomId) : M W unit :=
  on_room old_id (fun r => with_members (members r ∖ {[s]}) r) ;;;
  on_room target_id (fun r => with_members ({[s]} ∪ members r) r) ;;;
  set_active_room_id s target_id.

Definition move_session_to_room (s : SessionId) (target_id : RoomId) (announce_move : bool) :
    M W unit :=
  let* w := get in
  let old_id := active_room_of w s in
  match rooms_ (server w) !! target_id with
  | None => ret tt
  | Some target =>
      change_room s old_id target_id ;;;
      when (announce_move && negb (old_id =? 0)%N)
        (broadcast_room old_id
           ("[system] " +:+ nickname w s +:+ " left for #" +:+ room_name target) "" ;;;
         broadcast_users old_id) ;;;
      deliver s (Server.RoomJoined (room_id target) (room_name target) (room_topic target)) ;;;
      when (negb (bool_decide (recent_messages target = [])))
        (deliver_text s (history_title (room_name target)) ;;;
         for_each (recent_messages target)
           (fun message => deliver s (Server.RoomText (room_id target) message))) ;;;
      broadcast_room (room_id target)
        ("[system] " +:+ nickname w s +:+ " joined #" +:+ room_name target) "" ;;;
      broadcast_users (room_id target) ;;;
      broadcast_room_lists
  end.

Definition move_local_to_room (target_id : RoomId) (announce_move : bool) : M W unit :=
  let* w := get in
  match rooms_ (server w) !! target_id with
  | None => ret tt
  | Some target =>
      let old_id := local_room_id w in
      let me := local_nickname_ (server w) in
      on_server (with_local_room_id target_id) ;;;
      when (announce_move && negb (old_id =? 0)%N)
        (broadcast_room old_id ("[system] " +:+ me +:+ " left for #" +:+ room_name target) "" ;;;
         broadcast_users old_id) ;;;
      on_app (activate_room (room_id target) (room_name target) (room_topic target)) ;;;
      when (negb (bool_decide (recent_messages target = [])))
        (on_app (push_message (history_title (room_name target))) ;;;
         for_each (recent_messages target) (fun message => on_app (push_message message))) ;;;
      broadcast_room (room_id target)
        ("[system] " +:+ me +:+ " joined #" +:+ room_name target) "" ;;;
      broadcast_users (room_id target) ;;;
      broadcast_room_lists
  end.

Definition start_local_user : M W unit :=
  let* w := get in
  if negb (has_local (server w)) then ret tt else
  on_server (with_local_room_id DEFAULT_ROOM_ID) ;;;
  match rooms_ (server w) !! DEFAULT_ROOM_ID with
  | None => ret tt   (* rooms_.at() throws: the lobby always exists *)
  | Some lobby =>
      on_app (activate_room (room_id lobby) (room_name lobby) (room_topic lobby)) ;;;
      broadcast_users (room_id lobby) ;;;
      broadcast_room_lists
  end.

(* ===================================================================== *)
(** * Sessions joining and leaving the server *)

Definition join (s : SessionId) : M W unit :=
  on_server (fun c => with_sessions ({[s]} ∪ sessions_ c) c).

Definition disconnect (s : SessionId) (announce : bool) : M W unit :=
  on_server (fun c => with_sessions (sessions_ c ∖ {[s]}) c) ;;;
  let* w := get in
  let old_room_id := active_room_of w s in
  set_active_room_id s 0%N ;;;
  if (old_room_id =? 0)%N then ret tt else
  let removed := match rooms_ (server w) !! old_room_id with
                 | Some room => bool_decide (s ∈ members room)
                 | None => false
                 end in
  on_room old_room_id (fun r => with_members (members r ∖ {[s]}) r) ;;;
  when (removed && announce && negb (sempty (nickname w s)))
    (broadcast_room old_room_id ("[system] " +:+ nickname w s +:+ " left") "") ;;;
  when removed (broadcast_users old_room_id) ;;;
  when removed broadcast_room_lists.

Definition admit_to_default_room (s : SessionId) : M W unit :=
  move_session_to_room s DEFAULT_ROOM_ID false.

Definition no_such_room (name : string) : string := "Room '" +:+ name +:+ "' does not exist".

Definition join_room (s : SessionId) (name : string) : M W (option string) :=
  let* w := get in
  match find_room_by_name_locked (server w) name with
  | None => ret (Some (no_such_room name))
  | Some (id, _) =>
      if (active_room_of w s =? id)%N
      then ret (Some ("Already in room '" +:+ name +:+ "'"))
      else move_session_to_room s id true ;;; ret None
  end.

Definition leave_room (s : SessionId) : M W (option string) :=
  let* w := get in
  if (active_room_of w s =? DEFAULT_ROOM_ID)%N then ret (Some "Already in the lobby")
  else move_session_to_room s DEFAULT_ROOM_ID true ;;; ret None.

(* ===================================================================== *)
(** * Creating rooms *)

Definition bad_room_name : string := "Room names use 1-32 letters, numbers, '-' or '_'".

(** The checks shared by the three ways to create a room, in the code's order:
    the name, then under the lock the limit and the existing names. *)
Definition room_creation_error (c : ChatServer) (name : string) : option string :=
  if negb (is_valid_room_name name) then Some bad_room_name
  else if (MAX_ROOMS <=? N.of_nat (size (rooms_ c)))%N
  then Some "This server has reached its room limit"
  else match find_room_by_name_locked c name with
       | Some _ => Some ("A room named '" +:+ name +:+ "' already exists")
       | None => None
       end.

(** [id = next_room_id_++] and [rooms_.emplace(id, room)]. *)
Definition emplace_room (name owner : string) (c : ChatServer) : ChatServer :=
  let id := next_room_id_ c in
  let c := with_next_room_id (u64 (id + 1)) c in
  match rooms_ c !! id with
  | Some _ => c
  | None => with_rooms (<[id := MkRoom id name "" owner [] ∅]> (rooms_ c)) c
  end.

Definition create_room (s : SessionId) (name : string) : M W (option string) :=
  let* w := get in
  match room_creation_error (server w) name with
  | Some error => ret (Some error)
  | None =>
      let id := next_room_id_ (server w) in
      on_server (emplace_room name (nickname w s)) ;;;
      persist_room id ;;;
      move_session_to_room s id true ;;;
      ret None
  end.

Definition create_local_room (name : string) : M W (option string) :=
  let* w := get in
  if negb (has_local (server w)) then ret (Some "No interactive host is configured")
  else
    match room_creation_error (server w) name with
    | Some error => ret (Some error)
    | None =>
        let id := next_room_id_ (server w) in
        on_server (emplace_room name (local_nickname_ (server w))) ;;;
        persist_room id ;;;
        move_local_to_room id true ;;;
        ret None
    end.

Definition create_admin_room (name : string) : M W (option string) :=
  let* w := get in
  match room_creation_error (server w) name with
  | Some error => ret (Some error)
  | None =>
      on_server (emplace_room name "") ;;;
      let* w := get in
      (match find_room_by_name_locked (server w) name with
       | Some (created_id, _) => when (negb (created_id =? 0)%N) (persist_room created_id)
       | None => ret tt
       end) ;;;
      broadcast_room_lists ;;;
      ret None
  end.

Definition join_local_room (name : string) : M W (option string) :=
  let* w := get in
  match find_room_by_name_locked (server w) name with
  | None => ret (Some (no_such_room name))
  | Some (id, _) =>
      if (local_room_id w =? id)%N then ret (Some ("Already in room '" +:+ name +:+ "'"))
      else move_local_to_room id true ;;; ret None
  end.

Definition leave_local_room : M W (option string) :=
  let* w := get in
  if (local_room_id w =? DEFAULT_ROOM_ID)%N then ret (Some "Already in the lobby")
  else move_local_to_room DEFAULT_ROOM_ID true ;;; ret None.

(* ===================================================================== *)
(** * Private messages *)

(** The session a loop without [break] keeps: the last one that matches. *)
Definition last_named (w : W) (nick : string) (l : list SessionId) : option SessionId :=
  foldl (fun found m => if String.eqb (nickname w m) nick then Some m else found) None l.

(** The session a loop with [break] finds: the first one. *)
Definition first_named (w : W) (nick : string) (l : list SessionId) : option SessionId :=
  List.find (fun m => String.eqb (nickname w m) nick) l.

Definition send_private_in_room (sender target message : string) (id : RoomId)
    (mirror_to_local : bool) : M W bool :=
  let* w := get in
  match rooms_ (server w) !! id with
  | None => ret false
  | Some room =>
      let all := set_iter (members room) in
      let sender_session := last_named w sender all in
      let target_session := last_named w target all in
      let target_is_local := has_local (server w) && (local_room_id w =? id)%N
                             && String.eqb target (local_nickname_ (server w)) in
      if negb (bool_decide (is_Some target_session)) && negb target_is_local then
        let error := "[system] User '" +:+ target +:+ "' is not in this room" in
        (match sender_session with Some m => deliver_text m error | None => ret tt end) ;;;
        when mirror_to_local (on_app (push_message error)) ;;;
        ret false
      else
        let* time := timestamp_text in
        let line := "[PRIVATE " +:+ time +:+ "] " +:+ sender +:+ " -> " +:+ target
                    +:+ ": " +:+ message in
        when (target_is_local || mirror_to_local) (on_app (push_message line)) ;;;
        (match target_session with Some m => deliver_text m line | None => ret tt end) ;;;
        (match sender_session with
         | Some m => when (negb (String.eqb sender target)) (deliver_text m line)
         | None => ret tt
         end) ;;;
        log_write ("[private #" +:+ to_string id +:+ "] " +:+ sender +:+ " -> " +:+ target
                   +:+ ": " +:+ message) ;;;
        ret true
  end.

Definition send_private (sender target message : string) (mirror_to_local : bool) : M W bool :=
  let* w := get in
  let room_id := local_room_id w in
  let room_id :=
    if (room_id =? 0)%N then
      match first_named w sender (set_iter (sessions_ (server w))) with
      | Some s => active_room_of w s
      | None => room_id
      end
    else room_id in
  send_private_in_room sender target message room_id mirror_to_local.

Definition send_private_from (sender : SessionId) (target message : string) : M W bool :=
  let* w := get in
  send_private_in_room (nickname w sender) target message (active_room_of w sender) false.

(* ===================================================================== *)
(** * Topics *)

Definition send_topic (s : SessionId) : M W unit :=
  let* w := get in
  let id := active_room_of w s in
  match rooms_ (server w) !! id with
  | None => ret tt
  | Some room => deliver s (Server.RoomTopic id (room_topic room))
  end.

Definition set_topic_for_room (id : RoomId) (actor : string) (privileged : bool)
    (topic : string) : M W (option string) :=
  if negb (is_valid_room_topic topic)
  then ret (Some "Topics may contain at most 200 printable characters") else
  let* w := get in
  match rooms_ (server w) !! id with
  | None => ret (Some "The active room no longer exists")
  | Some room =>
      if negb privileged && negb (String.eqb (owner_nickname room) actor)
      then ret (Some "Only this room's creator can change its topic")
      else
        on_room id (with_topic topic) ;;;
        with_storage (StorageApi.update_stored_topic id topic) ;;;
        for_each (set_iter (members room)) (fun m => deliver m (Server.RoomTopic id topic)) ;;;
        when (has_local (server w) && (local_room_id w =? id)%N)
          (on_app (update_room_topic id topic)) ;;;
        broadcast_room id ("[system] " +:+ actor +:+ " changed the topic to: " +:+ topic) "" ;;;
        ret None
  end.

Definition set_topic (s : SessionId) (topic : string) : M W (option string) :=
  let* w := get in
  set_topic_for_room (active_room_of w s) (nickname w s) false topic.

Definition set_local_topic (topic : string) : M W (option string) :=
  let* w := get in
  set_topic_for_room (local_room_id w) (local_nickname_ (server w)) true topic.

Definition set_admin_topic (name topic : string) : M W (option string) :=
  let* w := get in
  match find_room_by_name_locked (server w) name with
  | None => ret (Some (no_such_room name))
  | Some (id, _) => set_topic_for_room id "server" true topic
  end.

(* ===================================================================== *)
(** * Kicks and bans *)

Definition kick_user_in_room (id : RoomId) (nick reason : string) : M W bool :=
  let* w := get in
  match rooms_ (server w) !! id with
  | None => ret false
  | Some room =>
      match first_named w nick (set_iter (members room)) with
      | None => ret false
      | Some target =>
          deliver target (Server.Kick nick reason) ;;;
          close target ;;;
          disconnect target false ;;;
          broadcast_room id ("[system] " +:+ nick +:+ " was kicked"
            +:+ (if sempty reason then "" else ": " +:+ reason)) "" ;;;
          broadcast_users id ;;;
          ret true
      end
  end.

Definition kick_user_in_named_room (name nick reason : string) : M W (option string) :=
  let* w := get in
  match find_room_by_name_locked (server w) name with
  | None => ret (Some (no_such_room name))
  | Some (id, _) =>
      let* kicked := kick_user_in_room id nick reason in
      ret (if kicked then None
           else Some ("User '" +:+ nick +:+ "' is not in #" +:+ name))
  end.

Definition kick_from (requester : SessionId) (nick reason : string) : M W (option string) :=
  let* w := get in
  let id := active_room_of w requester in
  let owned := match rooms_ (server w) !! id with
               | None => false
               | Some room => String.eqb (owner_nickname room) (nickname w requester)
               end in
  if negb owned then ret (Some "Only this room's creator can kick members")
  else if String.eqb nick (nickname w requester) then ret (Some "You cannot kick yourself")
  else
    let* kicked := kick_user_in_room id nick reason in
    ret (if kicked then None else Some ("User '" +:+ nick +:+ "' is not in this room")).

Definition kick_user (nick reason : string) : M W bool :=
  let* w := get in
  let room_id := local_room_id w in
  let room_id :=
    if (room_id =? 0)%N then
      match first_named w nick (set_iter (sessions_ (server w))) with
      | Some s => active_room_of w s
      | None => room_id
      end
    else room_id in
  if (room_id =? 0)%N then ret false else kick_user_in_room room_id nick reason.

(** The entry in the ban list, in memory and stored. *)
Definition record_ban (nick reason : string) : M W unit :=
  on_server (fun c => with_banned_nicks ({[nick]} ∪ banned_nicks_ c) c) ;;;
  let* w := get in
  if has_storage w then
    let* now := current_unix_seconds in
    with_storage (store_ban (MkStoredBan nick reason now None))
  else save_bans.

Definition ban_user (nick reason : string) : M W bool :=
  record_ban nick reason ;;;
  let* w := get in
  (match first_named w nick (set_iter (sessions_ (server w))) with
   | Some target =>
       let room_id := active_room_of w target in
       deliver target (Server.Kick nick (if sempty reason then "banned" else reason)) ;;;
       close target ;;;
       disconnect target false ;;;
       broadcast_room room_id ("[system] " +:+ nick +:+ " has been banned") "" ;;;
       broadcast_users room_id
   | None => ret tt
   end) ;;;
  log_write ("[admin] Banned: " +:+ nick
    +:+ (if sempty reason then "" else " (" +:+ reason +:+ ")")) ;;;
  ret true.

Definition unban_user (nick : string) : M W bool :=
  let* w := get in
  let removed := is_banned (server w) nick in
  on_server (fun c => with_banned_nicks (banned_nicks_ c ∖ {[nick]}) c) ;;;
  when removed
    ((if has_storage w then with_storage (StorageApi.remove_ban nick) else save_bans) ;;;
     log_write ("[admin] Unbanned: " +:+ nick)) ;;;
  ret removed.

(* ===================================================================== *)
(** * Start and stop *)

(** [stop] posts this closure. *)
Definition stop : M W unit := post TaskStop.
Definition clear_members : M W unit :=
  on_server (fun c => with_rooms ((with_members ∅) <$> rooms_ c) c).
Definition flush_storage : M W unit :=
  modify (fun w => match storage_ w with
                   | Some s => put_storage (Some (flush s)) w
                   | None => w
                   end).
Definition run_stop : M W unit :=
  on_server (with_acceptor_open false) ;;;
  let* w := get in
  let sessions := set_iter (sessions_ (server w)) in
  on_server (with_sessions ∅) ;;;
  clear_members ;;;
  for_each sessions abort ;;;
  flush_storage.

(** One stored room, with the end of its history; [emplace] keeps a room that is
    already there. *)
Definition load_room (stored : StoredRoom) : M W unit :=
  let* w := get in
  let id := stored_room_id stored in
  let* page := call_storage (StorageApi.load_history id (history_limit_ (server w)) None) in
  let history := rev (page_messages (default (MkPage [] None) page)) in
  let room := MkRoom id (stored_room_name stored) (stored_room_topic stored)
                (stored_room_owner stored) (stored_body <$> history) ∅ in
  on_server (fun c =>
    let c := with_next_room_id (N.max (next_room_id_ c) (u64 (id + 1))) c in
    match rooms_ c !! id with
    | Some _ => c
    | None => with_rooms (<[id := room]> (rooms_ c)) c
    end).

Definition load_persistent_state : M W unit :=
  let* w := get in
  when (has_storage w)
    (let* stored_rooms := call_storage StorageApi.load_rooms in
     for_each (default [] stored_rooms) load_room ;;;
     load_stored_identities ;;;
     load_stored_bans) ;;;
  let* w := get in
  match rooms_ (server w) !! DEFAULT_ROOM_ID with
  | Some _ => ret tt
  | None =>
      let lobby := MkRoom DEFAULT_ROOM_ID "lobby" "Welcome to the lobby"
                     (local_nickname_ (server w)) [] ∅ in
      on_server (fun c => with_rooms (<[DEFAULT_ROOM_ID := lobby]> (rooms_ c)) c) ;;;
      persist_room DEFAULT_ROOM_ID
  end.

(** The members a [ChatServer] is constructed with. *)
Definition construct (password local_nickname : string) (history_limit : N) : ChatServer :=
  MkServer password "" "identities.txt" local_nickname (N.max 1 history_limit)
    ∅ ∅ (DEFAULT_ROOM_ID + 1)%N 0%N ∅ ∅ true.

Definition initial_world (password local_nickname : string) (history_limit : N)
    (storage : option S) (log : option (list string)) (fs : Files) : W :=
  MkWorld (construct password local_nickname history_limit) ∅ storage log
    initial_app_state fs [] [] 0%Z 0 0 0.

(** The constructor up to the acceptor. *)
Definition chat_server (password local_nickname : string) (history_limit : N)
    (storage : option S) (log : option (list string)) (fs : Files) : W :=
  (load_persistent_state
     (initial_world password local_nickname history_limit storage log fs)).2.
End chat_server.
