(* ===== verification/ClientSession.v ===== *)
(** One connected client: [ClientSession] of [src/chat/client_session.cpp]. The
    read callback is one handler per kind of message; [deliver], [close] and
    [abort] post tasks, which [run_task] executes; the write chain is the
    [write_queue_] with at most one pending write. Then the events of a server:
    accepted connections, completed handshakes, reads and writes, posted tasks
    and calls from the console, as a step relation. *)

From S2P Require Import Prelude Frame Message Utils AppState StorageApi World.
From S2P Require Import ChatServer.
Local Open Scope string_scope.
Local Open Scope chat_scope.

Section client_session.
Context {S : Type} `{ServerStorage S} `{Sodium} `{Platform}.
Abbreviation W := (World S).

(* ===================================================================== *)
(** * The read callback *)

(** [async_read_until] is started again. *)
Definition read_loop (s : SessionId) : M W unit := on_session s (with_reading true).

(** [deliver(reply); close(); server_.disconnect(self, false); return;] *)
Definition reject (s : SessionId) (reply : Server.message) : M W unit :=
  deliver s reply ;;;
  close s ;;;
  disconnect s false.

Fixpoint drop_while {A} (p : A -> bool) (l : list A) : list A :=
  match l with
  | [] => []
  | x :: l' => if p x then drop_while p l' else l
  end.

Definition rate_limit_window : Z := RATE_LIMIT_WINDOW_SECONDS * 1000000000.

(** The deque of one room after a request at time [now], and the answer. *)
Definition consume (now : Z) (recent : list Z) : list Z * bool :=
  let recent := drop_while (fun t => rate_limit_window <? now - t)%Z recent in
  if (RATE_LIMIT_MESSAGES <=? N.of_nat (length recent))%N then (recent, false)
  else ((recent ++ [now])%list, true).

Definition consume_message_quota (s : SessionId) : M W bool :=
  let* n := read_steady_clock in
  let* w := get in
  let room := active_room_of w s in
  let '(recent, granted) :=
    consume (steady_clock n) (default [] (recent_messages_by_room_ (session w s) !! room)) in
  on_session s (fun x =>
    with_recent_messages_by_room (<[room := recent]> (recent_messages_by_room_ x)) x) ;;;
  ret granted.

Definition slow_down : string :=
  "[system] Slow down - message rate limit is "
  +:+ to_string RATE_LIMIT_MESSAGES +:+ " per minute".

Definition handle_hello (s : SessionId) (version : N) : M W unit :=
  let* w := get in
  (if protocol_negotiated_ (session w s) then
     deliver s (Server.ServerError "Protocol handshake already completed")
   else
     on_session s (with_protocol_negotiated (version =? VERSION)%N) ;;;
     deliver s (if has_password (server w) then Server.AuthRequired else Server.AuthAccepted)) ;;;
  read_loop s.

Definition handle_authenticate (s : SessionId) (password : string) : M W unit :=
  let* w := get in
  if check_password (server w) password then
    on_session s (with_authenticated true) ;;;
    deliver s Server.AuthAccepted ;;;
    read_loop s
  else reject s Server.AuthRejected.

Definition handle_identify (s : SessionId) (nick key : string) : M W unit :=
  let* w := get in
  if negb (sempty (nickname w s)) then
    deliver s (Server.JoinRejected "Already joined") ;;;
    read_loop s
  else match identity_available_for (server w) nick key with
  | Some identity_error => reject s (Server.JoinRejected identity_error)
  | None =>
      if is_banned (server w) nick then reject s Server.Banned
      else if nickname_taken w nick then reject s Server.NicknameTaken
      else
        on_session s (with_pending_nickname nick) ;;;
        on_session s (with_pending_public_key_hex key) ;;;
        let* challenge := random_hex_text IDENTITY_CHALLENGE_BYTES in
        on_session s (with_pending_challenge challenge) ;;;
        deliver s (Server.Challenge challenge) ;;;
        read_loop s
  end.

(** The forgotten identification request, once it has been proved. *)
Definition clear_pending (x : ClientSession) : ClientSession :=
  with_pending_challenge "" (with_pending_public_key_hex "" (with_pending_nickname "" x)).

(** What follows a valid proof and a registered key. *)
Definition complete_join (s : SessionId) (nick key : string) : M W unit :=
  set_nickname s nick ;;;
  let fingerprint := identity_fingerprint key in
  on_session s clear_pending ;;;
  deliver s (Server.IdentityAccepted fingerprint) ;;;
  deliver s Server.JoinAccepted ;;;
  admit_to_default_room s ;;;
  read_loop s.

Definition handle_proof (s : SessionId) (signature : string) : M W unit :=
  let* w := get in
  let me := session w s in
  if negb (sempty (nickname w s)) then
    deliver s (Server.JoinRejected "Already joined") ;;;
    read_loop s
  else if sempty (pending_nickname_ me) || sempty (pending_public_key_hex_ me)
          || sempty (pending_challenge_ me)
  then reject s (Server.JoinRejected "Identify before sending proof")
  else if negb (verify_identity_signature (pending_public_key_hex_ me) (pending_challenge_ me)
                  signature)
  then reject s (Server.JoinRejected "Identity proof failed")
  else if is_banned (server w) (pending_nickname_ me) then reject s Server.Banned
  else if nickname_taken w (pending_nickname_ me) then reject s Server.NicknameTaken
  else
    let* bound := bind_identity (pending_nickname_ me) (pending_public_key_hex_ me) in
    if negb bound then reject s (Server.JoinRejected "Identity registration failed")
    else complete_join s (pending_nickname_ me) (pending_public_key_hex_ me).

(** Deliver the error of a request that failed. *)
Definition answer (s : SessionId) (error : option string) : M W unit :=
  match error with
  | Some e => deliver s (Server.ServerError e)
  | None => ret tt
  end.

Definition handle_leave (s : SessionId) : M W unit :=
  let* w := get in
  (if sempty (nickname w s)
   then deliver_text s "[system] Ignored leave request before joining"
   else let* error := leave_room s in answer s error) ;;;
  read_loop s.

(** No read follows. *)
Definition handle_disconnect (s : SessionId) : M W unit :=
  disconnect s true ;;;
  close s.

Definition handle_rooms (s : SessionId) : M W unit :=
  let* w := get in
  (if sempty (nickname w s) then deliver s (Server.ServerError "Join before listing rooms")
   else send_room_list s) ;;;
  read_loop s.

Definition handle_create (s : SessionId) (name : string) : M W unit :=
  let* w := get in
  let* error := if sempty (nickname w s) then ret (Some "Join before creating rooms")
                else create_room s name in
  answer s error ;;;
  read_loop s.

Definition handle_join_room (s : SessionId) (name : string) : M W unit :=
  let* w := get in
  let* error := if sempty (nickname w s) then ret (Some "Join before switching rooms")
                else join_room s name in
  answer s error ;;;
  read_loop s.

Definition handle_topic (s : SessionId) (topic : option string) : M W unit :=
  let* w := get in
  (if sempty (nickname w s) then deliver s (Server.ServerError "Join before viewing a topic")
   else match topic with
        | None => send_topic s
        | Some t => let* error := set_topic s t in answer s error
        end) ;;;
  read_loop s.

Definition handle_chat (s : SessionId) (body : string) : M W unit :=
  let* w := get in
  (if sempty (nickname w s) then deliver_text s "[system] Join before sending messages"
   else
     let* granted := consume_message_quota s in
     if negb granted then deliver_text s slow_down
     else if negb (is_valid_chat_message body)
     then deliver_text s "[system] Invalid message text"
     else
       let* time := timestamp_text in
       broadcast_room (active_room_of w s)
         ("[" +:+ time +:+ "] " +:+ nickname w s +:+ ": " +:+ body) (nickname w s)) ;;;
  read_loop s.

Definition handle_whisper (s : SessionId) (target body : string) : M W unit :=
  let* w := get in
  (if sempty (nickname w s) then deliver_text s "[system] Join before sending messages"
   else
     let* granted := consume_message_quota s in
     if negb granted then deliver_text s slow_down
     else if negb (is_valid_nickname target) || negb (is_valid_chat_message body)
     then deliver_text s "[system] Invalid whisper target or message"
     else send_private_from s target body ;;; ret tt) ;;;
  read_loop s.

Definition handle_kick (s : SessionId) (nick reason : string) : M W unit :=
  let* w := get in
  (if sempty (nickname w s) then deliver s (Server.ServerError "Join before moderating a room")
   else let* error := kick_from s nick reason in answer s error) ;;;
  read_loop s.

(** The messages an authenticated session is served. *)
Definition handle_request (s : SessionId) (message : Client.message) : M W unit :=
  match message with
  | Client.Identify nick key => handle_identify s nick key
  | Client.IdentityProof signature => handle_proof s signature
  | Client.Leave => handle_leave s
  | Client.Disconnect => handle_disconnect s
  | Client.ListRooms => handle_rooms s
  | Client.CreateRoom name => handle_create s name
  | Client.JoinRoom name => handle_join_room s name
  | Client.TopicRequest topic => handle_topic s topic
  | Client.Chat body => handle_chat s body
  | Client.Whisper target body => handle_whisper s target body
  | Client.KickRequest nick reason => handle_kick s nick reason
  | Client.Hello _ | Client.Authenticate _ =>
      deliver_text s "[system] Ignored message in the current session state" ;;;
      read_loop s
  end.

(** The gates, in the code's order. *)
Definition handle_message (s : SessionId) (message : Client.message) : M W unit :=
  let* w := get in
  match message with
  | Client.Hello version => handle_hello s version
  | _ =>
      if negb (protocol_negotiated_ (session w s))
      then reject s (Server.ServerError "Protocol handshake required")
      else match message with
      | Client.Authenticate password => handle_authenticate s password
      | _ =>
          if has_password (server w) && negb (authenticated_ (session w s))
          then deliver s Server.AuthRequired ;;; read_loop s
          else handle_request s message
      end
  end.

(** The callback of a read that delivered a line. *)
Definition on_line (s : SessionId) (line : string) : M W unit :=
  on_session s (with_reading false) ;;;
  let parsed := decode_client_frame line in
  match value parsed with
  | None =>
      deliver s (Server.ServerError ("Invalid client frame: " +:+ detail parsed)) ;;;
      match error parsed with
      | UnsupportedVersion => close s ;;; disconnect s false
      | _ => read_loop s
      end
  | Some message => handle_message s message
  end.

(** The callback of a read that failed. *)
Definition on_read_error (s : SessionId) : M W unit :=
  on_session s (with_reading false) ;;;
  let* w := get in
  disconnect s (negb (suppress_leave_notice_ (session w s))).

(* ===================================================================== *)
(** * Accepting, handshake *)

(** [accept_loop]: a new session joins and starts its handshake. *)
Definition accept (s : SessionId) : M W unit :=
  modify (fun w => put_heap (<[s := new_session]> (heap w)) w) ;;;
  join s ;;;
  on_session s (with_handshaking true).

Definition on_handshake (s : SessionId) (failed : bool) : M W unit :=
  on_session s (with_handshaking false) ;;;
  if failed then
    disconnect s false ;;;
    on_session s (with_stream_open false)
  else
    deliver s (Server.Hello VERSION) ;;;
    read_loop s.

(* ===================================================================== *)
(** * Posted tasks and the write chain *)

Definition write_next (x : ClientSession) : ClientSession := with_write_pending true x.

Definition task_deliver (wire : string) (x : ClientSession) : ClientSession :=
  let writing := negb (bool_decide (write_queue_ x = [])) in
  let x := with_write_queue (write_queue_ x ++ [wire])%list x in
  if writing then x else write_next x.

Definition task_close (x : ClientSession) : ClientSession :=
  let x := with_suppress_leave_notice true x in
  if negb (bool_decide (write_queue_ x = [])) then with_close_after_write true x
  else with_stream_open false x.

Definition task_abort (x : ClientSession) : ClientSession :=
  with_stream_open false (with_suppress_leave_notice true x).

(** The callback of [async_write] without an error: the front is on the wire. *)
Definition written (x : ClientSession) : ClientSession :=
  match write_queue_ x with
  | [] => x   (* no write is pending on an empty queue *)
  | wire :: rest =>
      let x := with_write_pending false (with_sent (sent x ++ [wire])%list x) in
      let x := with_write_queue rest x in
      match rest with
      | _ :: _ => write_next x
      | [] => if close_after_write_ x then with_stream_open false x else x
      end
  end.

(** With an error nothing more is written; only an error other than
    [operation_aborted] is reported. *)
Definition on_write_error (s : SessionId) (aborted : bool) (text : string) : M W unit :=
  on_session s (with_write_pending false) ;;;
  when (negb aborted) (print_error ("Write error: " +:+ text)).

Definition run_task (t : Task) : M W unit :=
  match t with
  | TaskDeliver s wire => on_session s (task_deliver wire)
  | TaskClose s => on_session s task_close
  | TaskAbort s => on_session s task_abort
  | TaskStop => run_stop
  end.
End client_session.
