(* ===== verification/ServerInvariant.v ===== *)
(** The invariant of the chat server: what is true of its rooms, members,
    nicknames, bindings and histories between any two events, with one lemma per
    way the code changes that state, and the proof that every server operation
    keeps it. *)

From S2P Require Import Prelude Frame Message Utils AppState StorageApi World.
From S2P Require Import ChatServer.
Local Open Scope string_scope.
Local Open Scope chat_scope.

Abbreviation Heap := (gmap SessionId ClientSession).

Definition session_of (h : Heap) (s : SessionId) : ClientSession := default new_session (h !! s).

(** Rooms are keyed by their identifier, which is nonzero and below the next one
    to be given out; the lobby is there; names are valid, and distinct also when
    case is ignored; topics are valid; histories are bounded; a member's active
    room is the room it is a member of. A nickname, once set, is valid, bound to
    a key, and unique among the connected sessions and the local user. A session
    without a nickname is in no room. *)
Record server_inv (c : ChatServer) (h : Heap) : Prop := {
  inv_room_id : forall id r, rooms_ c !! id = Some r ->
    room_id r = id /\ (0 < id < next_room_id_ c)%N;
  inv_next : (next_room_id_ c + MAX_ROOMS <= 2 ^ 63 + MAX_ROOMS + N.of_nat (size (rooms_ c)))%N;
  inv_count : (N.of_nat (size (rooms_ c)) <= MAX_ROOMS)%N;
  inv_lobby : is_Some (rooms_ c !! DEFAULT_ROOM_ID);
  inv_room_name : forall id r, rooms_ c !! id = Some r -> is_valid_room_name (room_name r) = true;
  inv_name_unique : forall id1 r1 id2 r2,
    rooms_ c !! id1 = Some r1 -> rooms_ c !! id2 = Some r2 ->
    normalized_room_name (room_name r1) = normalized_room_name (room_name r2) -> id1 = id2;
  inv_history : forall id r, rooms_ c !! id = Some r ->
    (N.of_nat (length (recent_messages r)) <= history_limit_ c)%N;
  inv_member : forall id r s, rooms_ c !! id = Some r -> s ∈ members r ->
    active_room_id_ (session_of h s) = id;
  inv_unnamed : forall s, nickname_ (session_of h s) = "" -> active_room_id_ (session_of h s) = 0%N;
  inv_nickname : forall s, nickname_ (session_of h s) <> "" ->
    is_valid_nickname (nickname_ (session_of h s)) = true /\
    is_Some (identities_ c !! nickname_ (session_of h s));
  inv_pending : forall s, pending_nickname_ (session_of h s) <> "" ->
    is_valid_nickname (pending_nickname_ (session_of h s)) = true;
  inv_unique : forall s1 s2, s1 ∈ sessions_ c -> s2 ∈ sessions_ c ->
    nickname_ (session_of h s1) <> "" ->
    nickname_ (session_of h s1) = nickname_ (session_of h s2) -> s1 = s2;
  inv_not_local : forall s, s ∈ sessions_ c -> local_nickname_ c <> "" ->
    nickname_ (session_of h s) <> local_nickname_ c;
}.

(* ===================================================================== *)
(** * Lemmas: one per kind of change *)

Lemma session_of_insert h s x t :
  session_of (<[s := x]> h) t = if decide (t = s) then x else session_of h t.
Proof.
  unfold session_of. case_decide; subst; [by rewrite lookup_insert_eq|].
  by rewrite lookup_insert_ne.
Qed.

(** Two sessions the invariant does not tell apart; a request may be forgotten. *)
Definition same_session (x y : ClientSession) : Prop :=
  nickname_ x = nickname_ y /\
  (pending_nickname_ x = pending_nickname_ y \/ pending_nickname_ x = "") /\
  active_room_id_ x = active_room_id_ y.

Definition same_heap (h h' : Heap) : Prop := forall t, same_session (session_of h' t) (session_of h t).

Lemma inv_same_heap c h h' : same_heap h h' -> server_inv c h -> server_inv c h'.
Proof.
  intros Hs I. unfold same_heap, same_session in Hs. destruct I. split; try done.
  - intros id r s Hr Hm. rewrite (proj2 (proj2 (Hs s))). eauto.
  - intros s. destruct (Hs s) as (-> & _ & ->). auto.
  - intros s. destruct (Hs s) as (-> & _). auto.
  - intros s. destruct (Hs s) as (_ & [->| ->] & _); [auto|done].
  - intros s1 s2. destruct (Hs s1) as (-> & _), (Hs s2) as (-> & _). auto.
  - intros s. destruct (Hs s) as (-> & _). auto.
Qed.

Lemma inv_insert_same c h s x :
  same_session x (session_of h s) -> server_inv c h -> server_inv c (<[s := x]> h).
Proof.
  intros Hx. apply inv_same_heap. intros t. rewrite session_of_insert.
  case_decide; [by subst|]. unfold same_session. auto.
Qed.

(** Changing rooms without touching identifiers, names or adding members. *)
Definition room_shrinks (limit : N) (r r' : Room) : Prop :=
  room_id r' = room_id r /\ room_name r' = room_name r /\ members r' ⊆ members r /\
  ((N.of_nat (length (recent_messages r)) <= limit)%N ->
   (N.of_nat (length (recent_messages r')) <= limit)%N).

Lemma inv_rooms_shrink c h rooms :
  (forall id, match rooms_ c !! id, rooms !! id with
              | Some r, Some r' => room_shrinks (history_limit_ c) r r'
              | None, None => True
              | _, _ => False
              end) ->
  size rooms = size (rooms_ c) ->
  server_inv c h -> server_inv (with_rooms rooms c) h.
Proof.
  intros Hr Hsz I.
  assert (forall id r', rooms !! id = Some r' ->
    exists r, rooms_ c !! id = Some r /\ room_shrinks (history_limit_ c) r r') as Hx.
  { intros id r' E. specialize (Hr id). rewrite E in Hr.
    destruct (rooms_ c !! id) as [r|]; [eauto|done]. }
  destruct I. split; cbn [with_rooms rooms_ next_room_id_ history_limit_ sessions_ identities_
    local_nickname_]; try done; rewrite ?Hsz; try done.
  - intros id r' (r & Hr' & -> & _)%Hx. eauto.
  - destruct inv_lobby0 as [r Hl]. specialize (Hr DEFAULT_ROOM_ID). rewrite Hl in Hr.
    by destruct (rooms !! DEFAULT_ROOM_ID).
  - intros id r' (r & Hr' & _ & -> & _)%Hx. eauto.
  - intros id1 r1' id2 r2' (r1 & H1 & _ & -> & _)%Hx (r2 & H2 & _ & -> & _)%Hx. eauto.
  - intros id r' (r & Hr' & _ & _ & _ & Hl)%Hx. eauto.
  - intros id r' s (r & Hr' & _ & _ & Hm & _)%Hx. intros ?%Hm. eauto.
Qed.

Lemma size_alter {A} (f : A -> A) id (m : gmap N A) : size (alter f id m) = size m.
Proof.
  rewrite <- !size_dom. f_equal. by rewrite dom_alter_L.
Qed.

Lemma room_shrinks_refl limit r : room_shrinks limit r r.
Proof. done. Qed.

Lemma inv_alter_room c h id f :
  (forall r, rooms_ c !! id = Some r -> room_shrinks (history_limit_ c) r (f r)) ->
  server_inv c h -> server_inv (with_rooms (alter f id (rooms_ c)) c) h.
Proof.
  intros Hf. apply inv_rooms_shrink; [|apply size_alter]. intros id'.
  destruct (decide (id' = id)) as [->|Hne].
  - rewrite lookup_alter_eq. destruct (rooms_ c !! id) as [r|] eqn:E; [|done]. by apply Hf.
  - rewrite lookup_alter_ne by done. destruct (rooms_ c !! id'); done.
Qed.

(** A session leaves the set of connected ones, or a fresh one joins. *)
Lemma inv_with_sessions c h ss :
  (forall s, s ∈ ss -> s ∈ sessions_ c \/ nickname_ (session_of h s) = "") ->
  server_inv c h -> server_inv (with_sessions ss c) h.
Proof.
  intros Hss I. destruct I. split; cbn; try done.
  - intros s1 s2 [H1|H1]%Hss [H2|H2]%Hss Hne Heq; eauto; congruence.
  - intros s [H|H]%Hss Hl; eauto. congruence.
Qed.

Lemma inv_join c h s :
  nickname_ (session_of h s) = "" -> server_inv c h ->
  server_inv (with_sessions ({[s]} ∪ sessions_ c) c) h.
Proof.
  intros Hn. apply inv_with_sessions.
  intros s' [->%elem_of_singleton|Hs]%elem_of_union; auto.
Qed.

(** A member's room, from the other side: a session in no room is no member. *)
Lemma inv_not_member c h id r s :
  server_inv c h -> rooms_ c !! id = Some r -> active_room_id_ (session_of h s) <> id ->
  s ∉ members r.
Proof. intros I Hr Ha Hm. apply Ha. by eapply inv_member. Qed.

Definition moved_rooms (s : SessionId) (old target : RoomId) (rooms : gmap RoomId Room) :
    gmap RoomId Room :=
  alter (fun r => with_members ({[s]} ∪ members r) r) target
    (alter (fun r => with_members (members r ∖ {[s]}) r) old rooms).

Lemma moved_rooms_lookup s old target rooms id :
  moved_rooms s old target rooms !! id =
  (fun r => with_members ((if decide (id = target) then {[s]} else ∅)
                          ∪ (members r ∖ (if decide (id = old) then {[s]} else ∅))) r)
  <$> rooms !! id.
Proof.
  unfold moved_rooms. destruct (decide (id = target)) as [->|Ht].
  - rewrite lookup_alter_eq. destruct (decide (target = old)) as [->|Ho].
    + rewrite lookup_alter_eq. by destruct (rooms !! old).
    + rewrite lookup_alter_ne by done. destruct (rooms !! target) as [r|]; [|done]. simpl.
      by rewrite difference_empty_L.
  - rewrite lookup_alter_ne by done. destruct (decide (id = old)) as [->|Ho].
    + rewrite lookup_alter_eq. destruct (rooms !! old) as [r|]; [|done]. simpl.
      by rewrite union_empty_l_L.
    + rewrite lookup_alter_ne by done. destruct (rooms !! id) as [r|]; [|done]. simpl.
      rewrite difference_empty_L, union_empty_l_L. by destruct r.
Qed.

Lemma inv_move c h s target :
  is_Some (rooms_ c !! target) -> nickname_ (session_of h s) <> "" -> server_inv c h ->
  server_inv (with_rooms (moved_rooms s (active_room_id_ (session_of h s)) target (rooms_ c)) c)
    (<[s := with_active_room_id target (session_of h s)]> h).
Proof.
  intros [rt Ht] Hn I. set (old := active_room_id_ (session_of h s)).
  assert (forall id r', moved_rooms s old target (rooms_ c) !! id = Some r' ->
    exists r, rooms_ c !! id = Some r /\ room_id r' = room_id r /\ room_name r' = room_name r /\
      recent_messages r' = recent_messages r /\
      (forall t, t ∈ members r' -> (t = s /\ id = target) \/ (t <> s /\ t ∈ members r))) as Hx.
  { intros id r' E. rewrite moved_rooms_lookup in E.
    destruct (rooms_ c !! id) as [r|] eqn:Er; [|done]. injection E as <-. exists r.
    do 4 (split; [done|]). cbn [with_members members].
    intros t [Hin|[Hin Hout]%elem_of_difference]%elem_of_union.
    - destruct (decide (id = target)); [left|by apply elem_of_empty in Hin].
      by apply elem_of_singleton in Hin.
    - right. split; [|done]. intros ->. destruct (decide (id = old)) as [->|Hne].
      + by apply Hout, elem_of_singleton.
      + by eapply inv_not_member in Hin. }
  assert (size (moved_rooms s old target (rooms_ c)) = size (rooms_ c)) as Hsz.
  { unfold moved_rooms. by rewrite !size_alter. }
  pose proof I as I'. destruct I. split; cbn [with_rooms rooms_ next_room_id_ history_limit_
    sessions_ identities_ local_nickname_]; try done; rewrite ?Hsz; try done.
  - intros id r' (r & Hr' & -> & _)%Hx. eauto.
  - rewrite moved_rooms_lookup. by apply fmap_is_Some.
  - intros id r' (r & Hr' & _ & -> & _)%Hx. eauto.
  - intros id1 r1' id2 r2' (r1 & H1 & _ & -> & _)%Hx (r2 & H2 & _ & -> & _)%Hx. eauto.
  - intros id r' (r & Hr' & _ & _ & -> & _)%Hx. eauto.
  - intros id r' t (r & Hr' & _ & _ & _ & Hm)%Hx Hin. rewrite session_of_insert.
    destruct (Hm t Hin) as [[-> ->]|[Hne Hin']]; [by rewrite decide_True|].
    rewrite decide_False by done. eauto.
  - intros t. rewrite session_of_insert. case_decide; [subst; done|]. auto.
  - intros t. rewrite session_of_insert. case_decide; [subst; cbn|]; auto.
  - intros t. rewrite session_of_insert. case_decide; [subst; cbn|]; auto.
  - intros s1 s2 H1 H2. rewrite !session_of_insert.
    repeat case_decide; subst; cbn [with_active_room_id nickname_]; eauto.
  - intros t Hin Hl. rewrite session_of_insert. case_decide; [subst; cbn|]; eauto.
Qed.

(** Leaving the server: out of the connected sessions, of the room, no room. *)
Definition erase_member (s : SessionId) (r : Room) : Room := with_members (members r ∖ {[s]}) r.

Lemma inv_disconnect c h s :
  server_inv c h ->
  server_inv
    (with_rooms (alter (erase_member s) (active_room_id_ (session_of h s)) (rooms_ c))
       (with_sessions (sessions_ c ∖ {[s]}) c))
    (<[s := with_active_room_id 0 (session_of h s)]> h).
Proof.
  intros I. set (old := active_room_id_ (session_of h s)).
  assert (server_inv (with_rooms (alter (erase_member s) old (rooms_ c))
    (with_sessions (sessions_ c ∖ {[s]}) c)) h) as I1.
  { apply (inv_alter_room (with_sessions (sessions_ c ∖ {[s]}) c)).
    - intros r _. unfold room_shrinks. cbn. split; [done|]. split; [done|]. split; [|done].
      apply subseteq_difference_l. done.
    - apply inv_with_sessions; [|done]. intros t [Ht _]%elem_of_difference. by left. }
  assert (forall id r, alter (erase_member s) old (rooms_ c) !! id = Some r -> s ∉ members r) as Hno.
  { intros id r E. destruct (decide (id = old)) as [->|Hne].
    - rewrite lookup_alter_eq in E. destruct (rooms_ c !! old); [|done].
      injection E as <-. cbn. intros [_ Hs]%elem_of_difference. by apply Hs, elem_of_singleton.
    - rewrite lookup_alter_ne in E by done. eapply inv_not_member; [exact I|exact E|].
      intros Hc. by apply Hne. }
  destruct I1. split; try done; cbn [with_rooms rooms_ with_sessions sessions_] in *.
  - intros id r t Hr Hin. rewrite session_of_insert. case_decide; [subst|eauto].
    by destruct (Hno id r Hr).
  - intros t. rewrite session_of_insert. case_decide; [done|auto].
  - intros t. rewrite session_of_insert. case_decide; [subst; cbn|]; auto.
  - intros t. rewrite session_of_insert. case_decide; [subst; cbn|]; auto.
  - intros s1 s2 H1 H2. rewrite !session_of_insert.
    apply elem_of_difference in H1 as [H1 N1], H2 as [H2 N2].
    rewrite elem_of_singleton in N1, N2. rewrite !decide_False by done.
    apply inv_unique0; apply elem_of_difference; by rewrite elem_of_singleton.
  - intros t Hin. pose proof Hin as [_ Ht]%elem_of_difference. rewrite elem_of_singleton in Ht.
    rewrite session_of_insert, decide_False by done. eauto.
Qed.

(** Fields the invariant does not read, or reads only as a lower bound. *)
Lemma inv_with_local_room c h id : server_inv c h -> server_inv (with_local_room_id id c) h.
Proof. intros []. by split. Qed.
Lemma inv_with_banned c h b : server_inv c h -> server_inv (with_banned_nicks b c) h.
Proof. intros []. by split. Qed.
Lemma inv_with_acceptor c h b : server_inv c h -> server_inv (with_acceptor_open b c) h.
Proof. intros []. by split. Qed.
Lemma inv_with_bans_file c h p : server_inv c h -> server_inv (with_bans_file p c) h.
Proof. intros []. by split. Qed.
Lemma inv_with_identities_file c h p : server_inv c h -> server_inv (with_identities_file p c) h.
Proof. intros []. by split. Qed.
Lemma inv_with_identities c h m :
  (forall n, is_Some (identities_ c !! n) -> is_Some (m !! n)) ->
  server_inv c h -> server_inv (with_identities m c) h.
Proof.
  intros Hm []. split; try done. intros s Hs. destruct (inv_nickname0 s Hs). split; [done|].
  cbn. auto.
Qed.

(** A session takes a valid, bound and free nickname. *)
Lemma inv_set_nickname c h s nick :
  is_valid_nickname nick = true -> is_Some (identities_ c !! nick) ->
  (forall t, t ∈ sessions_ c -> nickname_ (session_of h t) <> nick) ->
  (local_nickname_ c <> "" -> nick <> local_nickname_ c) ->
  nickname_ (session_of h s) = "" ->
  server_inv c h -> server_inv c (<[s := with_nickname nick (session_of h s)]> h).
Proof.
  intros Hv Hb Hfree Hl Hold I. destruct I. split; try done.
  - intros id r t Hr Hin. rewrite session_of_insert. case_decide; [subst; cbn|]; eauto.
  - intros t. rewrite session_of_insert. case_decide; [subst|auto]. cbn. intros ->.
    by apply inv_unnamed0.
  - intros t. rewrite session_of_insert. case_decide; [subst; done|auto].
  - intros t. rewrite session_of_insert. case_decide; [subst; cbn; auto|auto].
  - intros s1 s2 H1 H2. rewrite !session_of_insert.
    repeat case_decide; subst; cbn [with_nickname nickname_]; [done| | |by eauto].
    + intros _ Hc. by destruct (Hfree s2 H2).
    + intros _ Hc. by destruct (Hfree s1 H1).
  - intros t Hin Hne. rewrite session_of_insert. case_decide; [subst; cbn; auto|auto].
Qed.

Lemma inv_set_pending c h s nick :
  is_valid_nickname nick = true ->
  server_inv c h -> server_inv c (<[s := with_pending_nickname nick (session_of h s)]> h).
Proof.
  intros Hv I. destruct I. split; try done.
  - intros id r t Hr Hin. rewrite session_of_insert. case_decide; [subst; cbn|]; eauto.
  - intros t. rewrite session_of_insert. case_decide; [subst; cbn|]; auto.
  - intros t. rewrite session_of_insert. case_decide; [subst; cbn|]; auto.
  - intros t. rewrite session_of_insert. case_decide; [subst; done|auto].
  - intros s1 s2 H1 H2. rewrite !session_of_insert. repeat case_decide; subst; cbn; eauto.
  - intros t Hin Hne. rewrite session_of_insert. case_decide; [subst; cbn|]; auto.
Qed.

(* ===================================================================== *)
(** * Lemmas: finding and creating rooms *)

Lemma find_room_Some c name id r :
  find_room_by_name_locked c name = Some (id, r) ->
  rooms_ c !! id = Some r /\ normalized_room_name (room_name r) = normalized_room_name name.
Proof.
  unfold find_room_by_name_locked. intros H. apply List.find_some in H as [Hin Heq].
  apply list_elem_of_In, elem_of_map_iter in Hin. split; [done|]. by apply String.eqb_eq in Heq.
Qed.

Lemma find_room_None c name id r :
  find_room_by_name_locked c name = None -> rooms_ c !! id = Some r ->
  normalized_room_name (room_name r) <> normalized_room_name name.
Proof.
  unfold find_room_by_name_locked. intros H Hr Heq.
  apply elem_of_map_iter, list_elem_of_In in Hr. pose proof (List.find_none _ _ H _ Hr) as Hn.
  cbn in Hn. rewrite Heq, String.eqb_refl in Hn. done.
Qed.

(** With distinct names, the room found is the room with that name. *)
Lemma find_room_unique c h id r name :
  server_inv c h -> rooms_ c !! id = Some r ->
  normalized_room_name (room_name r) = normalized_room_name name ->
  find_room_by_name_locked c name = Some (id, r).
Proof.
  intros I Hr Hn. destruct (find_room_by_name_locked c name) as [[id' r']|] eqn:E.
  - apply find_room_Some in E as [Hr' Hn']. assert (id' = id) as ->.
    { eapply inv_name_unique; [done..|congruence]. }
    congruence.
  - by eapply find_room_None in E.
Qed.

Lemma room_creation_ok c name :
  room_creation_error c name = None ->
  is_valid_room_name name = true /\ (N.of_nat (size (rooms_ c)) < MAX_ROOMS)%N /\
  find_room_by_name_locked c name = None.
Proof.
  unfold room_creation_error. destruct (negb _) eqn:E1; [done|]. apply negb_false_iff in E1.
  destruct (_ <=? _)%N eqn:E2; [done|]. apply N.leb_gt in E2.
  by destruct (find_room_by_name_locked c name).
Qed.

Definition new_room (c : ChatServer) (name owner : string) : Room :=
  MkRoom (next_room_id_ c) name "" owner [] ∅.

(** The next identifier is above all others. It never wraps: a server has at most
    [MAX_ROOMS] rooms in its life. *)
Definition fresh (c : ChatServer) : Prop :=
  (0 < next_room_id_ c)%N /\
  (forall id r, rooms_ c !! id = Some r -> (0 < id < next_room_id_ c)%N) /\
  (next_room_id_ c <= 2 ^ 63 + N.of_nat (size (rooms_ c)))%N /\
  (N.of_nat (size (rooms_ c)) <= MAX_ROOMS)%N.

Lemma fresh_small c id r : fresh c -> rooms_ c !! id = Some r -> (id < 2 ^ 64)%N.
Proof. intros (_ & Hi & Hn & Hs) Hr. specialize (Hi id r Hr). unfold MAX_ROOMS in Hs. lia. Qed.

Lemma inv_fresh c h : server_inv c h -> fresh c.
Proof.
  intros I. split_and!.
  - destruct (inv_lobby _ _ I) as [r Hr]. apply (inv_room_id _ _ I) in Hr as [_ ?]. lia.
  - intros id r Hr. by destruct (inv_room_id _ _ I id r Hr).
  - pose proof (inv_next _ _ I). lia.
  - apply (inv_count _ _ I).
Qed.

Lemma fresh_emplace c name owner :
  fresh c -> (N.of_nat (size (rooms_ c)) < MAX_ROOMS)%N ->
  emplace_room name owner c =
  with_rooms (<[next_room_id_ c := new_room c name owner]> (rooms_ c))
    (with_next_room_id (next_room_id_ c + 1)%N c)
  /\ rooms_ c !! next_room_id_ c = None.
Proof.
  intros (_ & Hi & Hb & _) Hs. assert (rooms_ c !! next_room_id_ c = None) as Hn.
  { destruct (rooms_ c !! next_room_id_ c) as [r|] eqn:E; [|done]. specialize (Hi _ _ E). lia. }
  split; [|done]. unfold emplace_room, u64.
  rewrite N.mod_small by (unfold MAX_ROOMS in *; lia).
  cbn [with_next_room_id rooms_]. by rewrite Hn.
Qed.

Lemma inv_emplace_room c h name owner :
  room_creation_error c name = None -> server_inv c h ->
  server_inv (emplace_room name owner c) h /\
  rooms_ (emplace_room name owner c) !! next_room_id_ c = Some (new_room c name owner).
Proof.
  intros (Hv & Hs & Hf)%room_creation_ok I.
  destruct (fresh_emplace c name owner (inv_fresh _ _ I) Hs) as [-> Hn].
  cbn [with_rooms rooms_]. split; [|by rewrite lookup_insert_eq].
  assert (forall id r, <[next_room_id_ c := new_room c name owner]> (rooms_ c) !! id = Some r ->
    (id = next_room_id_ c /\ r = new_room c name owner) \/ rooms_ c !! id = Some r) as Hx.
  { intros id r [[<- <-]|[_ E]]%lookup_insert_Some; auto. }
  assert (0 < next_room_id_ c)%N as Hpos.
  { destruct (inv_lobby _ _ I) as [r Hr]. apply (inv_room_id _ _ I) in Hr as [_ ?]. lia. }
  assert (size (<[next_room_id_ c := new_room c name owner]> (rooms_ c)) = S (size (rooms_ c)))
    as Hsz by by apply map_size_insert_None.
  pose proof (fun id r Hr => find_room_None c name id r Hf Hr) as Hother.
  destruct I. split; cbn [with_rooms with_next_room_id rooms_ next_room_id_ history_limit_
    sessions_ identities_ local_nickname_]; try done; rewrite ?Hsz.
  - intros id r [[-> ->]|Hr]%Hx; [cbn; lia|]. destruct (inv_room_id0 id r Hr). lia.
  - lia.
  - lia.
  - destruct inv_lobby0 as [r Hl]. destruct (decide (next_room_id_ c = DEFAULT_ROOM_ID)) as [E|E].
    + rewrite E, lookup_insert_eq. eauto.
    + rewrite lookup_insert_ne by done. eauto.
  - intros id r [[-> ->]|Hr]%Hx; eauto.
  - intros id1 r1 id2 r2 [[-> ->]|H1]%Hx [[-> ->]|H2]%Hx; cbn; [done| | |by eauto].
    + intros Heq. symmetry in Heq. by destruct (Hother _ _ H2).
    + intros Heq. by destruct (Hother _ _ H1).
  - intros id r [[-> ->]|Hr]%Hx; [cbn; lia|eauto].
  - intros id r s [[-> ->]|Hr]%Hx Hin; [|eauto]. by apply not_elem_of_empty in Hin.
Qed.

Lemma inv_clear_members c h :
  server_inv c h -> server_inv (with_rooms (with_members ∅ <$> rooms_ c) c) h.
Proof.
  apply inv_rooms_shrink; [|by rewrite map_size_fmap]. intros id. rewrite lookup_fmap.
  destruct (rooms_ c !! id) as [r|]; [|done]. simpl. unfold room_shrinks. cbn.
  split; [done|]. split; [done|]. split; [apply empty_subseteq|done].
Qed.

(* ===================================================================== *)
(** * The operations keep the invariant *)

Section operations.
Context {S : Type} `{ServerStorage S} `{Sodium} `{Platform}.
Abbreviation W := (World S).

Definition Inv (w : W) : Prop := server_inv (server w) (heap w).

Lemma keeps_core {A} (m : M W A) : frames core m -> keeps Inv m.
Proof. apply (frames_keeps core (fun p => server_inv p.1 p.2)). Qed.

Lemma keeps_on_server f :
  (forall c h, server_inv c h -> server_inv (f c) h) -> keeps Inv (on_server f).
Proof. intros Hf w I. by apply Hf. Qed.

Lemma keeps_on_session s f :
  (forall x, same_session (f x) x) -> keeps Inv (on_session s f).
Proof. intros Hf w I. apply inv_insert_same; [apply Hf|exact I]. Qed.

Lemma keeps_on_room id f :
  (forall c r, room_shrinks (history_limit_ c) r (f r)) -> keeps Inv (on_room id f).
Proof. intros Hf. apply keeps_on_server. intros c h. apply inv_alter_room. auto. Qed.

(** Continue from a state that satisfies the invariant. *)
Lemma keeps_then {A B} (P : W -> Prop) (m : M W A) (k : A -> M W B) w :
  P (m w).2 -> (forall a, keeps P (k a)) -> P (bind m k w).2.
Proof. intros Hm Hk. rewrite bind_snd. by apply Hk. Qed.

Lemma keeps_record_message id msg : keeps Inv (record_message id msg).
Proof.
  apply keeps_on_server. intros c h. apply inv_alter_room. intros r _.
  unfold room_shrinks. cbn. do 3 (split; [done|]). apply push_bounded_length.
Qed.

Ltac core_tac := first [ apply keeps_core; solve [auto with chat_frames nocore]
                       | solve [auto with chat_keeps nocore] ].
Ltac inv_tac := intros; repeat first [ core_tac | keeps_step ].

Lemma keeps_broadcast_room id msg nick : keeps Inv (broadcast_room id msg nick).
Proof. unfold broadcast_room. inv_tac. apply keeps_record_message. Qed.

Lemma keeps_broadcast_users id : keeps Inv (broadcast_users id).
Proof. unfold broadcast_users. inv_tac. Qed.

Lemma keeps_broadcast_room_lists : keeps Inv broadcast_room_lists.
Proof. unfold broadcast_room_lists. inv_tac. Qed.

Lemma keeps_persist_room id : keeps Inv (persist_room id).
Proof. unfold persist_room. inv_tac. Qed.

Lemma keeps_write_file path lines : keeps Inv (write_file path lines).
Proof.
  intros w I. unfold write_file, modify, Inv in *. cbn [snd]. by destruct (can_write path).
Qed.

#[local] Hint Resolve keeps_broadcast_room keeps_broadcast_users keeps_broadcast_room_lists
  keeps_persist_room keeps_write_file keeps_record_message : chat_keeps.

Lemma keeps_save_bans : keeps Inv save_bans.
Proof. unfold save_bans. inv_tac. Qed.
Lemma keeps_save_identities : keeps Inv save_identities_locked.
Proof. unfold save_identities_locked. inv_tac. Qed.
#[local] Hint Resolve keeps_save_bans keeps_save_identities : chat_keeps.

Lemma keeps_bind_identity nick key : keeps Inv (bind_identity nick key).
Proof.
  unfold bind_identity. inv_tac. apply keeps_on_server. intros c h. apply inv_with_identities.
  intros n Hn. destruct (decide (n = nick)) as [->|]; [by rewrite lookup_insert_eq|].
  by rewrite lookup_insert_ne.
Qed.

Lemma keeps_broadcast msg : keeps Inv (broadcast msg).
Proof. unfold broadcast. inv_tac. Qed.
Lemma keeps_broadcast_server msg : keeps Inv (broadcast_server msg).
Proof. unfold broadcast_server. inv_tac. Qed.

Lemma keeps_send_private_in_room sender target msg id mirror :
  keeps Inv (send_private_in_room sender target msg id mirror).
Proof. unfold send_private_in_room. inv_tac. Qed.
Lemma keeps_set_topic_for_room id actor privileged topic :
  keeps Inv (set_topic_for_room id actor privileged topic).
Proof. unfold set_topic_for_room. inv_tac. by apply keeps_on_room. Qed.
#[local] Hint Resolve keeps_send_private_in_room keeps_set_topic_for_room
  keeps_bind_identity : chat_keeps.

Lemma keeps_move_local id announce : keeps Inv (move_local_to_room id announce).
Proof.
  unfold move_local_to_room. inv_tac. apply keeps_on_server. intros c h. apply inv_with_local_room.
Qed.
#[local] Hint Resolve keeps_move_local : chat_keeps.

(** [disconnect]: the three changes of the core, then the announcements. *)
Lemma keeps_disconnect s announce : keeps Inv (disconnect s announce).
Proof.
  intros w I. pose proof (inv_disconnect _ _ s I) as Hd. unfold disconnect.
  rewrite bind_snd. cbn [on_server modify snd]. rewrite bind_snd. cbn [get snd fst].
  unfold active_room_of, session. cbn [put_server heap].
  fold (session_of (heap w) s). rewrite bind_snd. unfold set_active_room_id, on_session.
  cbn [modify snd]. unfold session. cbn [put_server heap]. fold (session_of (heap w) s).
  destruct (N.eqb_spec (active_room_id_ (session_of (heap w) s)) 0) as [E|E].
  - unfold Inv. cbn [ret snd put_heap put_server server heap].
    rewrite E in Hd. assert (rooms_ (server w) !! 0%N = None) as Hz.
    { destruct (rooms_ (server w) !! 0%N) as [r|] eqn:Er; [|done].
      apply (inv_room_id _ _ I) in Er as [_ ?]. lia. }
    revert Hd. cbn [with_sessions rooms_].
    assert (alter (erase_member s) 0%N (rooms_ (server w)) = rooms_ (server w)) as ->.
    { apply map_eq. intros id. destruct (decide (id = 0%N)) as [->|Hne].
      - by rewrite lookup_alter_eq, Hz.
      - by rewrite lookup_alter_ne. }
    by destruct (server w).
  - rewrite bind_snd.
    match goal with |- Inv (?k ?a ?w1).2 => assert (Inv w1) as I1 end.
    { exact Hd. }
    revert I1. match goal with |- Inv ?w1 -> Inv (?k ?w1).2 => generalize w1 end.
    match goal with |- forall w1, _ -> Inv (?k w1).2 => change (keeps Inv k) end. inv_tac.
Qed.
#[local] Hint Resolve keeps_disconnect : chat_keeps.

(** [move_session_to_room], for a session with a nickname. *)
Lemma Inv_move_session s target announce w :
  nickname w s <> "" -> Inv w -> Inv (move_session_to_room s target announce w).2.
Proof.
  intros Hn I. unfold move_session_to_room. rewrite bind_snd. cbn [get snd fst].
  destruct (rooms_ (server w) !! target) as [room|] eqn:E; [|exact I].
  apply keeps_then; [|inv_tac].
  unfold change_room. repeat rewrite bind_snd. unfold on_room, set_active_room_id, on_session,
    on_server. cbn [modify snd]. unfold Inv. cbn [put_server put_heap server heap].
  unfold session. cbn [put_server put_heap server heap with_rooms rooms_].
  fold (session_of (heap w) s).
  pose proof (inv_move (server w) (heap w) s target (mk_is_Some _ _ E) Hn I) as Hm.
  unfold moved_rooms in Hm. exact Hm.
Qed.
#[local] Hint Resolve keeps_broadcast keeps_broadcast_server : chat_keeps.

Lemma keeps_kick_user_in_room id nick reason : keeps Inv (kick_user_in_room id nick reason).
Proof. unfold kick_user_in_room. inv_tac. Qed.
#[local] Hint Resolve keeps_kick_user_in_room : chat_keeps.

Lemma keeps_kick_from s nick reason : keeps Inv (kick_from s nick reason).
Proof. unfold kick_from. inv_tac. Qed.
Lemma keeps_kick_user_in_named_room name nick reason :
  keeps Inv (kick_user_in_named_room name nick reason).
Proof. unfold kick_user_in_named_room. inv_tac. Qed.
Lemma keeps_kick_user nick reason : keeps Inv (kick_user nick reason).
Proof. unfold kick_user. inv_tac. Qed.

Lemma keeps_ban_user nick reason : keeps Inv (ban_user nick reason).
Proof.
  unfold ban_user, record_ban. inv_tac. apply keeps_on_server. intros c h. apply inv_with_banned.
Qed.
Lemma keeps_unban_user nick : keeps Inv (unban_user nick).
Proof.
  unfold unban_user. inv_tac. apply keeps_on_server. intros c h. apply inv_with_banned.
Qed.

Lemma keeps_set_topic s topic : keeps Inv (set_topic s topic).
Proof. unfold set_topic. inv_tac. Qed.
Lemma keeps_set_local_topic topic : keeps Inv (set_local_topic topic).
Proof. unfold set_local_topic. inv_tac. Qed.
Lemma keeps_set_admin_topic name topic : keeps Inv (set_admin_topic name topic).
Proof. unfold set_admin_topic. inv_tac. Qed.
Lemma keeps_send_private sender target msg mirror : keeps Inv (send_private sender target msg mirror).
Proof. unfold send_private. inv_tac. Qed.
Lemma keeps_send_private_from s target msg : keeps Inv (send_private_from s target msg).
Proof. unfold send_private_from. inv_tac. Qed.
Lemma keeps_send_topic s : keeps Inv (send_topic s).
Proof. unfold send_topic. inv_tac. Qed.
Lemma keeps_send_room_list s : keeps Inv (send_room_list s).
Proof. unfold send_room_list. inv_tac. Qed.
Lemma keeps_join_local_room name : keeps Inv (join_local_room name).
Proof. unfold join_local_room. inv_tac. Qed.
Lemma keeps_leave_local_room : keeps Inv leave_local_room.
Proof. unfold leave_local_room. inv_tac. Qed.
Lemma keeps_start_local_user : keeps Inv start_local_user.
Proof.
  unfold start_local_user. inv_tac. apply keeps_on_server. intros c h. apply inv_with_local_room.
Qed.

Lemma keeps_run_stop : keeps Inv run_stop.
Proof.
  unfold run_stop, clear_members, flush_storage. inv_tac.
  - apply keeps_on_server. intros c h. apply inv_with_acceptor.
  - apply keeps_on_server. intros c h. apply inv_with_sessions.
    intros s Hs. by apply not_elem_of_empty in Hs.
  - apply keeps_on_server. intros c h. apply inv_clear_members.
  - intros w I. unfold modify, Inv in *. cbn [snd]. by destruct (storage_ w).
Qed.

(** Creating a room, from a state where the name was checked. *)
Lemma Inv_emplace name owner w :
  room_creation_error (server w) name = None -> Inv w ->
  Inv (on_server (emplace_room name owner) w).2.
Proof. intros He I. by apply inv_emplace_room. Qed.

Lemma keeps_create_local_room name : keeps Inv (create_local_room name).
Proof.
  intros w I. unfold create_local_room. rewrite bind_snd. cbn [get snd fst].
  destruct (negb (has_local (server w))); [exact I|].
  destruct (room_creation_error (server w) name) eqn:E; [exact I|].
  apply keeps_then; [by apply Inv_emplace|inv_tac].
Qed.

Lemma keeps_create_admin_room name : keeps Inv (create_admin_room name).
Proof.
  intros w I. unfold create_admin_room. rewrite bind_snd. cbn [get snd fst].
  destruct (room_creation_error (server w) name) eqn:E; [exact I|].
  apply keeps_then; [by apply Inv_emplace|inv_tac].
Qed.

Lemma Inv_join_room s name w :
  nickname w s <> "" -> Inv w -> Inv (join_room s name w).2.
Proof.
  intros Hn I. unfold join_room. rewrite bind_snd. cbn [get snd fst].
  destruct (find_room_by_name_locked _ _) as [[id r]|]; [|exact I].
  destruct (_ =? _)%N; [exact I|]. rewrite bind_snd. by apply Inv_move_session.
Qed.

Lemma Inv_leave_room s w : nickname w s <> "" -> Inv w -> Inv (leave_room s w).2.
Proof.
  intros Hn I. unfold leave_room. rewrite bind_snd. cbn [get snd fst].
  destruct (_ =? _)%N; [exact I|]. rewrite bind_snd. by apply Inv_move_session.
Qed.

Lemma frames_core_persist_room id : frames core (persist_room id).
Proof. unfold persist_room. frames_tac. Qed.

Lemma core_nickname (w1 w2 : W) s : core w1 = core w2 -> nickname w1 s = nickname w2 s.
Proof. unfold core, nickname, session. by intros [= _ ->]. Qed.

Lemma core_Inv (w1 w2 : W) : core w1 = core w2 -> Inv w2 -> Inv w1.
Proof. unfold core, Inv. by intros [= -> ->]. Qed.

Lemma Inv_create_room s name w :
  nickname w s <> "" -> Inv w -> Inv (create_room s name w).2.
Proof.
  intros Hn I. unfold create_room. rewrite bind_snd. cbn [get snd fst].
  destruct (room_creation_error (server w) name) eqn:E; [exact I|].
  rewrite bind_snd. pose proof (Inv_emplace name (nickname w s) w E I) as I1.
  set (w1 := (on_server _ w).2) in *. rewrite bind_snd.
  pose proof (frames_core_persist_room (next_room_id_ (server w)) w1) as Hc.
  pose proof (keeps_persist_room (next_room_id_ (server w)) w1 I1) as I2.
  set (w2 := (persist_room _ w1).2) in *.
  rewrite bind_snd. apply Inv_move_session; [|exact I2].
  by rewrite (core_nickname w2 w1 s Hc).
Qed.
End operations.

#[export] Hint Resolve keeps_broadcast_room keeps_broadcast_users keeps_broadcast_room_lists
  keeps_persist_room keeps_write_file keeps_record_message keeps_save_bans keeps_save_identities
  keeps_send_private_in_room keeps_set_topic_for_room keeps_bind_identity keeps_move_local
  keeps_disconnect keeps_broadcast keeps_broadcast_server keeps_kick_user_in_room keeps_kick_from
  keeps_kick_user_in_named_room keeps_kick_user keeps_ban_user keeps_unban_user keeps_set_topic
  keeps_set_local_topic keeps_set_admin_topic keeps_send_private keeps_send_private_from
  keeps_send_topic keeps_send_room_list keeps_join_local_room keeps_leave_local_room
  keeps_start_local_user keeps_run_stop keeps_create_local_room keeps_create_admin_room
  : chat_keeps.

Ltac core_tac := first [ apply keeps_core; solve [auto with chat_frames nocore]
                       | solve [auto with chat_keeps nocore] ].
Ltac inv_tac := intros; repeat first [ core_tac | keeps_step ].
