(* ===== verification/ServerBoot.v ===== *)
(** Starting a server: [load_persistent_state] and the constructor. Whatever a
    storage that keeps its contract returns, the server starts in a state that
    satisfies the invariant. *)

From S2P Require Import Prelude Frame Message Utils AppState StorageApi World.
From S2P Require Import ChatServer ServerInvariant.
Local Open Scope string_scope.
Local Open Scope chat_scope.

(** What the rooms are while they are being loaded: the stored rooms seen so far,
    with their bounded histories and without members. *)
Record booted (rs : list StoredRoom) (c : ChatServer) : Prop := {
  boot_room : forall id r, rooms_ c !! id = Some r ->
    room_id r = id /\ members r = ∅ /\
    (N.of_nat (length (recent_messages r)) <= history_limit_ c)%N /\
    exists stored, stored ∈ rs /\ stored_room_id stored = id /\
      stored_room_name stored = room_name r /\ stored_room_topic stored = room_topic r /\
      stored_room_owner stored = owner_nickname r;
  boot_all : forall stored, stored ∈ rs -> is_Some (rooms_ c !! stored_room_id stored);
  boot_size : size (rooms_ c) <= length rs;
  boot_next : (2 <= next_room_id_ c <= 2 ^ 63)%N;
  boot_next_above : forall id, is_Some (rooms_ c !! id) -> (id < next_room_id_ c)%N;
  boot_sessions : sessions_ c = ∅;
  boot_limit : (1 <= history_limit_ c)%N;
}.

Section boot.
Context {S : Type} `{ServerStorage S} `{Sodium} `{Platform}.
Context (ready : S -> Prop) `{!StorageContract S ready}.
Abbreviation W := (World S).

Definition storage_ready (w : W) : Prop :=
  match storage_ w with Some s => ready s | None => True end.

(** The state of the loading loop after the rooms [rs]. *)
Definition Boot (rs : list StoredRoom) (w : W) : Prop :=
  booted rs (server w) /\ heap w = ∅ /\ storage_ready w.

Lemma booted_snoc rs stored c history :
  booted rs c -> (0 < stored_room_id stored < 2 ^ 63)%N ->
  (N.of_nat (length history) <= history_limit_ c)%N ->
  let id := stored_room_id stored in
  let room := MkRoom id (stored_room_name stored) (stored_room_topic stored)
                (stored_room_owner stored) history ∅ in
  let c1 := with_next_room_id (N.max (next_room_id_ c) (u64 (id + 1))) c in
  booted (rs ++ [stored])
    match rooms_ c1 !! id with
    | Some _ => c1
    | None => with_rooms (<[id := room]> (rooms_ c1)) c1
    end.
Proof.
  intros B Hid Hh. cbv zeta. cbn [with_next_room_id rooms_].
  assert (u64 (stored_room_id stored + 1) = stored_room_id stored + 1)%N as Hu
    by (apply N.mod_small; lia). rewrite Hu.
  destruct B. destruct (rooms_ c !! stored_room_id stored) as [r0|] eqn:E;
    split; cbn [with_rooms with_next_room_id rooms_ next_room_id_ sessions_ history_limit_];
    try done; try lia.
  - intros id r Hr. destruct (boot_room0 id r Hr) as (? & ? & ? & st & ? & ?).
    do 3 (split; [done|]). exists st. split; [|done]. by apply elem_of_app; left.
  - intros st [Hst|Hst%list_elem_of_singleton]%elem_of_app; [auto|]. by rewrite Hst, E.
  - rewrite length_app. simpl. lia.
  - intros id Hs. specialize (boot_next_above0 id Hs). lia.
  - intros id r [[<- <-]|[_ Hr]]%lookup_insert_Some.
    + do 3 (split; [done|]). exists stored. split; [|done]. apply elem_of_app. right. left.
    + destruct (boot_room0 id r Hr) as (? & ? & ? & st & ? & ?).
      do 3 (split; [done|]). exists st. split; [|done]. by apply elem_of_app; left.
  - intros st [Hst|Hst%list_elem_of_singleton]%elem_of_app.
    + apply lookup_insert_is_Some. destruct (decide (stored_room_id stored = stored_room_id st)); auto.
    + rewrite Hst, lookup_insert_eq. eauto.
  - rewrite map_size_insert_None, length_app by done. simpl. lia.
  - intros id [<-|[_ Hs]]%lookup_insert_is_Some; [lia|]. specialize (boot_next_above0 id Hs). lia.
Qed.

Lemma boot_load_room rs stored w :
  (0 < stored_room_id stored < 2 ^ 63)%N -> Boot rs w -> Boot (rs ++ [stored]) (load_room stored w).2.
Proof.
  intros Hid (B & Hh & Hr). unfold load_room. rewrite bind_snd. cbn [get snd fst].
  rewrite bind_snd. unfold call_storage, storage_ready in *.
  destruct (storage_ w) as [s|] eqn:Es.
  - pose proof (load_history_bound (stored_room_id stored) (history_limit_ (server w)) None s Hr)
      as [Hb Hr'].
    destruct (load_history _ _ _ s) as [page s']. cbn [fst snd] in *.
    unfold Boot, storage_ready. cbn. split; [|done]. apply booted_snoc; [done|done|].
    rewrite length_fmap, length_rev. pose proof (boot_limit _ _ B). lia.
  - unfold Boot, storage_ready. cbn. rewrite Es. split; [|done]. apply booted_snoc; [done..|].
    cbn. pose proof (boot_limit _ _ B). lia.
Qed.

Lemma boot_load_rooms rs todo w :
  Forall (fun r => (0 < stored_room_id r < 2 ^ 63)%N) todo ->
  Boot rs w -> Boot (rs ++ todo) (for_each todo load_room w).2.
Proof.
  intros Ht. revert rs w. induction Ht as [|st todo Hst Ht IH]; intros rs w B.
  - by rewrite app_nil_r.
  - cbn [for_each]. rewrite bind_snd. apply (boot_load_room rs st w Hst) in B.
    replace (rs ++ st :: todo)%list with ((rs ++ [st]) ++ todo)%list by by rewrite <- app_assoc.
    by apply IH.
Qed.

(** The invariant holds once the lobby is there. *)
Lemma booted_inv rs c :
  booted rs c -> stored_rooms_ok rs -> server_inv c ∅.
Proof.
  intros B R. assert (forall s, session_of ∅ s = new_session) as Hno.
  { intros s. unfold session_of. by rewrite lookup_empty. }
  destruct B, R. split; try (intros; rewrite !Hno in *; done).
  - intros id r Hr. destruct (boot_room0 id r Hr) as (Hi & _ & _ & st & Hst & <- & _).
    split; [done|]. rewrite Forall_forall in stored_valid.
    pose proof (boot_next_above0 _ (mk_is_Some _ _ Hr)).
    apply list_elem_of_In in Hst. destruct (stored_valid st Hst). lia.
  - lia.
  - lia.
  - apply list_elem_of_fmap in stored_lobby as (st & Hid & Hst).
    unfold DEFAULT_ROOM_ID. rewrite Hid. auto.
  - intros id r Hr. destruct (boot_room0 id r Hr) as (_ & _ & _ & st & Hst & _ & <- & _).
    rewrite Forall_forall in stored_valid. apply list_elem_of_In in Hst. by apply stored_valid.
  - intros id1 r1 id2 r2 Hr1 Hr2 Heq.
    destruct (boot_room0 _ _ Hr1) as (_ & _ & _ & st1 & Hst1 & <- & N1 & _).
    destruct (boot_room0 _ _ Hr2) as (_ & _ & _ & st2 & Hst2 & <- & N2 & _).
    rewrite <- N1, <- N2 in Heq.
    apply list_elem_of_lookup in Hst1 as [i1 Hi1], Hst2 as [i2 Hi2].
    assert (i1 = i2) as ->; [|congruence].
    eapply (NoDup_lookup _ i1 i2 _ stored_names); rewrite list_lookup_fmap; [by rewrite Hi1|].
    rewrite Hi2. simpl. by rewrite Heq.
  - intros id r Hr. by destruct (boot_room0 id r Hr) as (_ & _ & ? & _).
  - intros id r s Hr Hin. destruct (boot_room0 id r Hr) as (_ & Hm & _).
    rewrite Hm in Hin. by apply not_elem_of_empty in Hin.
Qed.

Lemma booted_core rs c c' :
  rooms_ c' = rooms_ c -> next_room_id_ c' = next_room_id_ c -> sessions_ c' = sessions_ c ->
  history_limit_ c' = history_limit_ c -> booted rs c -> booted rs c'.
Proof. intros E1 E2 E3 E4 []. split; rewrite ?E1, ?E2, ?E3, ?E4; done. Qed.

Lemma boot_initial password local limit storage log fs :
  match storage with Some s => ready s | None => True end ->
  Boot [] (initial_world password local limit storage log fs).
Proof.
  intros Hr. split; [|by split]. split; cbn; try done; try lia.
  - intros st Hst. by apply not_elem_of_nil in Hst.
  - intros id [r Hr']. by rewrite lookup_empty in Hr'.
Qed.

Lemma with_storage_state {A} (op : S -> A * S) w :
  server (call_storage op w).2 = server w /\ heap (call_storage op w).2 = heap w.
Proof. unfold call_storage. destruct (storage_ w) as [s|]; [by destruct (op s)|done]. Qed.

Lemma boot_identities rs w :
  booted rs (server w) /\ heap w = ∅ ->
  booted rs (server (load_stored_identities w).2) /\ heap (load_stored_identities w).2 = ∅.
Proof.
  intros [B Hh]. unfold load_stored_identities. rewrite bind_snd.
  destruct (with_storage_state StorageApi.load_identities w) as [E1 E2].
  cbn [on_server modify snd put_server server heap]. rewrite E1, E2.
  split; [eapply booted_core; [..|exact B]; reflexivity|done].
Qed.

Lemma boot_bans rs w :
  booted rs (server w) /\ heap w = ∅ ->
  booted rs (server (load_stored_bans w).2) /\ heap (load_stored_bans w).2 = ∅.
Proof.
  intros [B Hh]. unfold load_stored_bans. rewrite !bind_snd.
  destruct (with_storage_state (StorageApi.load_bans (current_unix_seconds w).1)
              (current_unix_seconds w).2) as [E1 E2].
  cbn [on_server modify snd put_server server heap]. rewrite E1, E2.
  split; [eapply booted_core; [..|exact B]; reflexivity|done].
Qed.

(** The part of [load_persistent_state] that reads the storage. *)
Lemma Inv_load_storage s w :
  storage_ w = Some s -> ready s -> Boot [] w ->
  Inv ((let* stored_rooms := call_storage StorageApi.load_rooms in
        for_each (default [] stored_rooms) load_room ;;;
        load_stored_identities ;;;
        load_stored_bans) w).2.
Proof.
  intros Es Hr B. destruct (load_rooms_ok s Hr) as [Hok Hr'].
  destruct (load_rooms s) as [rs s'] eqn:El. cbn [fst snd] in Hok, Hr'.
  assert (call_storage StorageApi.load_rooms w = (Some rs, put_storage (Some s') w)) as Hc
    by (unfold call_storage; by rewrite Es, El).
  rewrite bind_snd, Hc. cbn [fst snd default].
  assert (Boot [] (put_storage (Some s') w)) as B1 by (destruct B as (B & Hh & _); by split).
  apply (boot_load_rooms [] rs) in B1; [|eapply Forall_impl; [|apply (stored_valid _ Hok)];
    by intros ? [? _]].
  rewrite bind_snd. destruct B1 as (B1 & Hh1 & _).
  set (w2 := (for_each rs load_room (put_storage (Some s') w)).2) in *.
  rewrite bind_snd. destruct (boot_identities _ w2 (conj B1 Hh1)) as [B2 Hh2].
  destruct (boot_bans _ _ (conj B2 Hh2)) as [B3 Hh3].
  unfold Inv. change (id rs) with rs. fold w2. rewrite Hh3. by eapply booted_inv.
Qed.

(** The lobby a server without storage starts with. *)
Lemma Inv_insert_lobby w :
  Boot [] w -> next_room_id_ (server w) = 2%N -> rooms_ (server w) = ∅ ->
  Inv (on_server (fun c => with_rooms (<[DEFAULT_ROOM_ID :=
    MkRoom DEFAULT_ROOM_ID "lobby" "Welcome to the lobby" (local_nickname_ (server w)) [] ∅]>
    (rooms_ c)) c) w).2.
Proof.
  intros (B & Hh & _) Hn Hr. unfold Inv. cbn [on_server modify snd put_server server heap].
  rewrite Hh. apply (booted_inv (lobby_only (local_nickname_ (server w)))); [|apply lobby_only_ok].
  pose proof (booted_snoc [] (MkStoredRoom 1%N "lobby" "Welcome to the lobby"
    (local_nickname_ (server w)) 0) _ [] B) as Hs.
  cbn -[N.max N.add N.pow] in Hs. rewrite Hr, Hn in Hs.
  eapply booted_core; [..|apply Hs]; cbn; rewrite ?Hr, ?Hn; try reflexivity; lia.
Qed.

Lemma chat_server_inv password local limit storage log fs :
  match storage with Some s => ready s | None => True end ->
  Inv (chat_server password local limit storage log fs).
Proof.
  intros Hr. pose proof (boot_initial password local limit storage log fs Hr) as B.
  unfold chat_server, load_persistent_state. rewrite bind_snd. cbn [get snd fst].
  destruct storage as [s|]; cbn [initial_world has_storage storage_ when].
  - rewrite bind_snd. assert (storage_ (initial_world password local limit (Some s) log fs) = Some s) as Es
      by reflexivity.
    pose proof (Inv_load_storage s _ Es Hr B) as I. revert I.
    match goal with |- Inv ?w3 -> _ => generalize w3 end. intros w3 I.
    rewrite bind_snd. cbn [get snd fst]. destruct (inv_lobby _ _ I) as [r ->]. exact I.
  - rewrite bind_snd. cbn [ret snd]. rewrite bind_snd. cbn [get snd fst].
    change (rooms_ (server (initial_world password local limit None log fs)) !! DEFAULT_ROOM_ID)
      with (@None Room). cbv iota.
    apply keeps_then; [|intros _; apply keeps_persist_room].
    by apply Inv_insert_lobby.
Qed.
End boot.
