(* ===== verification/ServerSteps.v ===== *)
(** The server as a transition system: the events of the network thread and the
    calls of the console, and the proof by rule induction that every reachable
    state satisfies the invariant of [ServerInvariant.v]. *)

From S2P Require Import Prelude Frame Message Utils AppState StorageApi World.
From S2P Require Import ChatServer ClientSession ServerInvariant ServerBoot.
Local Open Scope string_scope.
Local Open Scope chat_scope.

(** The calls the consoles make while the server runs; [AdminLog] is a line they write
    to the server's log. *)
Inductive Admin :=
| AdminBroadcast (msg : string)
| AdminBroadcastServer (msg : string)
| AdminPrivate (sender target msg : string) (mirror : bool)
| AdminRegisterLocal (nick key : string)
| AdminStartLocal
| AdminShowRooms
| AdminCreateLocalRoom (name : string)
| AdminCreateRoom (name : string)
| AdminJoinLocal (name : string)
| AdminLeaveLocal
| AdminLocalTopic (topic : string)
| AdminTopic (name topic : string)
| AdminKick (nick reason : string)
| AdminKickIn (name nick reason : string)
| AdminBan (nick reason : string)
| AdminUnban (nick : string)
| AdminLog (line : string)
| AdminStop.

Section steps.
Context {S : Type} `{ServerStorage S} `{Sodium} `{Platform}.
Abbreviation W := (World S).

Definition ignore {A} (m : M W A) : M W unit := m ;;; ret tt.

Definition run_admin (a : Admin) : M W unit :=
  match a with
  | AdminBroadcast msg => broadcast msg
  | AdminBroadcastServer msg => broadcast_server msg
  | AdminPrivate sender target msg mirror => ignore (send_private sender target msg mirror)
  | AdminRegisterLocal nick key => ignore (register_local_identity nick key)
  | AdminStartLocal => start_local_user
  | AdminShowRooms => show_room_list_local
  | AdminCreateLocalRoom name => ignore (create_local_room name)
  | AdminCreateRoom name => ignore (create_admin_room name)
  | AdminJoinLocal name => ignore (join_local_room name)
  | AdminLeaveLocal => ignore leave_local_room
  | AdminLocalTopic topic => ignore (set_local_topic topic)
  | AdminTopic name topic => ignore (set_admin_topic name topic)
  | AdminKick nick reason => ignore (kick_user nick reason)
  | AdminKickIn name nick reason => ignore (kick_user_in_named_room name nick reason)
  | AdminBan nick reason => ignore (ban_user nick reason)
  | AdminUnban nick => ignore (unban_user nick)
  | AdminLog line => log_write line
  | AdminStop => stop
  end.

(** One event. A pending operation of the stream completes, with data or with an
    error, in any order; posted tasks run in the order they were posted. *)
Inductive step : W -> W -> Prop :=
| step_accept w s :
    acceptor_open (server w) = true -> heap w !! s = None -> step w (accept s w).2
| step_handshake w s failed :
    handshaking (session w s) = true -> step w (on_handshake s failed w).2
| step_line w s line :
    reading (session w s) = true -> step w (on_line s line w).2
| step_read_error w s :
    reading (session w s) = true -> step w (on_read_error s w).2
| step_written w s :
    write_pending (session w s) = true -> step w (on_session s written w).2
| step_write_error w s aborted text :
    write_pending (session w s) = true -> step w (on_write_error s aborted text w).2
| step_task w t rest :
    tasks w = t :: rest -> step w (run_task t (put_tasks rest w)).2
| step_admin w a : step w (run_admin a w).2.

(** The states of a server that started with a given configuration. *)
Inductive reachable (w0 : W) : W -> Prop :=
| reachable_start : reachable w0 w0
| reachable_step w w' : reachable w0 w -> step w w' -> reachable w0 w'.

(* ===================================================================== *)
(** * Lemmas: the handlers keep the invariant *)

Abbreviation keeps_inv := (keeps (Inv (S:=S))).

Ltac same_tac := intros ?; unfold same_session; cbn; auto.

Lemma keeps_read_loop s : keeps_inv (read_loop s).
Proof. apply keeps_on_session. same_tac. Qed.
Lemma keeps_reject s reply : keeps_inv (reject s reply).
Proof. unfold reject. inv_tac. Qed.
Lemma keeps_answer s error : keeps_inv (answer s error).
Proof. unfold answer. inv_tac. Qed.
#[local] Hint Resolve keeps_read_loop keeps_reject keeps_answer : chat_keeps.

Lemma keeps_consume_message_quota s : keeps_inv (consume_message_quota s).
Proof.
  unfold consume_message_quota. inv_tac. apply keeps_on_session. same_tac.
Qed.
#[local] Hint Resolve keeps_consume_message_quota : chat_keeps.

Lemma keeps_handle_hello s version : keeps_inv (handle_hello s version).
Proof. unfold handle_hello. inv_tac. apply keeps_on_session. same_tac. Qed.
Lemma keeps_handle_authenticate s pw : keeps_inv (handle_authenticate s pw).
Proof. unfold handle_authenticate. inv_tac. apply keeps_on_session. same_tac. Qed.

(** Run the first action of a program. *)
Ltac run_first := rewrite bind_snd; cbn [get snd fst].

Lemma identity_available_ok c nick key :
  identity_available_for c nick key = None -> is_valid_nickname nick = true.
Proof.
  unfold identity_available_for. by destruct (is_valid_nickname nick).
Qed.

(** Finish a branch whose remaining program keeps the invariant. *)
Ltac rest_keeps I :=
  match goal with |- Inv (?m ?w).2 =>
    let Hk := fresh in assert (keeps_inv m) as Hk; [inv_tac|apply Hk; exact I] end.

Lemma keeps_handle_identify s nick key : keeps_inv (handle_identify s nick key).
Proof.
  intros w I. unfold handle_identify. run_first.
  destruct (negb (sempty _)); [rest_keeps I|].
  destruct (identity_available_for (server w) nick key) eqn:E; [rest_keeps I|].
  destruct (is_banned _ _); [rest_keeps I|]. destruct (nickname_taken _ _); [rest_keeps I|].
  apply identity_available_ok in E. apply keeps_then.
  - by apply inv_set_pending.
  - inv_tac; apply keeps_on_session; same_tac.
Qed.

Lemma nickname_taken_false (w : W) nick :
  nickname_taken w nick = false ->
  (local_nickname_ (server w) <> "" -> nick <> local_nickname_ (server w)) /\
  forall t, t ∈ sessions_ (server w) -> nickname w t <> nick.
Proof.
  unfold nickname_taken. intros [Hl Hs]%orb_false_iff. split.
  - intros Hne ->. unfold has_local in Hl. apply sempty_false in Hne.
    by rewrite Hne, String.eqb_refl in Hl.
  - intros t Ht%elem_of_set_iter%list_elem_of_In Heq.
    assert (existsb (fun s => String.eqb (nickname w s) nick) (set_iter (sessions_ (server w))) = true)
      as Hc by (apply existsb_exists; exists t; by rewrite Heq, String.eqb_refl).
    congruence.
Qed.

(** [bind_identity] only ever adds the binding of its nickname. *)
Lemma bind_identity_spec nick key (w : W) :
  let w' := (bind_identity nick key w).2 in
  heap w' = heap w /\ sessions_ (server w') = sessions_ (server w) /\
  local_nickname_ (server w') = local_nickname_ (server w) /\
  rooms_ (server w') = rooms_ (server w) /\
  identities_ (server w) ⊆ identities_ (server w') /\
  ((bind_identity nick key w).1 = true <-> identities_ (server w') !! nick = Some key).
Proof.
  unfold bind_identity. rewrite bind_snd. cbn [get fst snd].
  destruct (identities_ (server w) !! nick) as [k|] eqn:Ei.
  - cbn. do 5 (split; [done|]). rewrite Ei, String.eqb_eq. split; congruence.
  - rewrite !bind_snd. cbn [on_server modify snd ret fst]. set (w1 := put_server _ w).
    assert (frames core (if has_storage w then with_storage (store_identity nick key)
                         else save_identities_locked)) as Hf.
    { destruct (has_storage w); [apply frames_core_with_storage|]. unfold save_identities_locked.
      frames_tac. unfold write_file. apply frames_core_modify; intros ?; by destruct (can_write _). }
    specialize (Hf w1). match type of Hf with core ?x = _ => set (w2 := x) in * end.
    pose proof (frames_core_log ("[identity] Registered " +:+ nick +:+ " as "
      +:+ identity_fingerprint key) w2) as Hlog.
    set (w3 := (log_write _ w2).2) in *. rewrite Hf in Hlog. unfold core in Hlog.
    injection Hlog as -> ->. cbn.
    do 4 (split; [done|]). rewrite lookup_insert_eq. split; [by apply insert_subseteq|done].
Qed.

Lemma session_on_session s f (w : W) t :
  session (on_session s f w).2 t = if decide (t = s) then f (session w s) else session w t.
Proof.
  unfold session. cbn. case_decide; subst; [by rewrite lookup_insert_eq|].
  by rewrite lookup_insert_ne.
Qed.

(** [complete_join] after the nickname is set. *)
Lemma Inv_join_tail s key w :
  nickname w s <> "" -> Inv w ->
  Inv ((on_session s clear_pending ;;;
    deliver s (Server.IdentityAccepted (identity_fingerprint key)) ;;;
    deliver s Server.JoinAccepted ;;; admit_to_default_room s ;;; read_loop s) w).2.
Proof.
  intros Hn I. rewrite bind_snd.
  assert (Inv (on_session s clear_pending w).2) as I3 by (apply keeps_on_session; [same_tac|exact I]).
  assert (nickname (on_session s clear_pending w).2 s <> "") as Hn3
    by (unfold nickname; rewrite session_on_session, decide_True by done; exact Hn).
  set (w3 := (on_session s clear_pending w).2) in *. clearbody w3. cbv beta. do 2 rewrite bind_snd.
  assert (core (deliver s Server.JoinAccepted (deliver s (Server.IdentityAccepted
    (identity_fingerprint key)) w3).2).2 = core w3) as Hc by by rewrite !frames_core_deliver.
  set (w4 := (deliver s Server.JoinAccepted _).2) in *.
  rewrite bind_snd. apply keeps_read_loop. apply Inv_move_session.
  - by rewrite (core_nickname w4 w3 s Hc).
  - by apply (core_Inv w4 w3).
Qed.

Lemma keeps_handle_proof s signature : keeps_inv (handle_proof s signature).
Proof.
  intros w I. unfold handle_proof. run_first. set (me := session w s).
  destruct (negb (sempty (nickname w s))) eqn:En; [rest_keeps I|].
  apply negb_false_iff, sempty_spec in En.
  destruct (_ || _ || _)%bool eqn:Ep; [rest_keeps I|]. bool_split.
  destruct (negb (verify_identity_signature _ _ _)); [rest_keeps I|].
  destruct (is_banned _ _); [rest_keeps I|].
  destruct (nickname_taken w (pending_nickname_ me)) eqn:Et; [rest_keeps I|].
  apply nickname_taken_false in Et as [Hl Hfree].
  pose proof (inv_pending _ _ I s) as Hv. fold (session w s) in Hv. fold me in Hv.
  assert (pending_nickname_ me <> "") as Hne by by apply sempty_false.
  specialize (Hv Hne).
  rewrite bind_snd. pose proof (keeps_bind_identity (pending_nickname_ me)
    (pending_public_key_hex_ me) w I) as I1.
  pose proof (bind_identity_spec (pending_nickname_ me) (pending_public_key_hex_ me) w) as Hb.
  cbv zeta in Hb. destruct (bind_identity _ _ w) as [bound w1]. cbn [fst snd] in *.
  destruct Hb as (Hh & Hss & Hln & _ & _ & Hbound).
  destruct bound; cbn [negb]; [|rest_keeps I1].
  destruct Hbound as [Hbound _]. specialize (Hbound eq_refl).
  unfold complete_join. rewrite bind_snd. apply Inv_join_tail.
  - unfold nickname, set_nickname. rewrite session_on_session, decide_True by done. exact Hne.
  - refine (inv_set_nickname _ _ s _ Hv _ _ _ _ I1).
    + exact (mk_is_Some _ _ Hbound).
    + rewrite Hss. intros t Ht. unfold session_of. rewrite Hh. by apply Hfree.
    + by rewrite Hln.
    + unfold session_of. by rewrite Hh.
Qed.

(** Requests of a session with a nickname. *)
Ltac named En := apply negb_true_iff, sempty_false in En.

Lemma keeps_handle_leave s : keeps_inv (handle_leave s).
Proof.
  intros w I. unfold handle_leave. run_first. apply keeps_then; [|inv_tac].
  destruct (sempty (nickname w s)) eqn:En; [rest_keeps I|]. apply sempty_false in En.
  apply keeps_then; [by apply Inv_leave_room|inv_tac].
Qed.

Lemma keeps_handle_disconnect s : keeps_inv (handle_disconnect s).
Proof. unfold handle_disconnect. inv_tac. Qed.
Lemma keeps_handle_rooms s : keeps_inv (handle_rooms s).
Proof. unfold handle_rooms. inv_tac. Qed.

Lemma keeps_handle_create s name : keeps_inv (handle_create s name).
Proof.
  intros w I. unfold handle_create. run_first. apply keeps_then; [|inv_tac].
  destruct (sempty (nickname w s)) eqn:En; [exact I|]. apply sempty_false in En.
  by apply Inv_create_room.
Qed.

Lemma keeps_handle_join_room s name : keeps_inv (handle_join_room s name).
Proof.
  intros w I. unfold handle_join_room. run_first. apply keeps_then; [|inv_tac].
  destruct (sempty (nickname w s)) eqn:En; [exact I|]. apply sempty_false in En.
  by apply Inv_join_room.
Qed.

Lemma keeps_handle_topic s topic : keeps_inv (handle_topic s topic).
Proof. unfold handle_topic. inv_tac. Qed.
Lemma keeps_handle_chat s body : keeps_inv (handle_chat s body).
Proof. unfold handle_chat. inv_tac. Qed.
Lemma keeps_handle_whisper s target body : keeps_inv (handle_whisper s target body).
Proof. unfold handle_whisper. inv_tac. Qed.
Lemma keeps_handle_kick s nick reason : keeps_inv (handle_kick s nick reason).
Proof. unfold handle_kick. inv_tac. Qed.
#[local] Hint Resolve keeps_handle_hello keeps_handle_authenticate keeps_handle_identify
  keeps_handle_proof keeps_handle_leave keeps_handle_disconnect keeps_handle_rooms
  keeps_handle_create keeps_handle_join_room keeps_handle_topic keeps_handle_chat
  keeps_handle_whisper keeps_handle_kick : chat_keeps.

Lemma keeps_handle_message s message : keeps_inv (handle_message s message).
Proof. unfold handle_message, handle_request. inv_tac. Qed.
#[local] Hint Resolve keeps_handle_message : chat_keeps.

Lemma keeps_on_line s line : keeps_inv (on_line s line).
Proof. unfold on_line. inv_tac. apply keeps_on_session. same_tac. Qed.
Lemma keeps_on_read_error s : keeps_inv (on_read_error s).
Proof. unfold on_read_error. inv_tac. apply keeps_on_session. same_tac. Qed.
Lemma keeps_on_handshake s failed : keeps_inv (on_handshake s failed).
Proof. unfold on_handshake. inv_tac; apply keeps_on_session; same_tac. Qed.

Lemma keeps_run_task t : keeps_inv (run_task t).
Proof.
  destruct t as [s wire|s|s|]; cbn [run_task]; [| | |apply keeps_run_stop];
    apply keeps_on_session; intros x; unfold same_session.
  - unfold task_deliver. destruct (negb _); cbn; auto.
  - unfold task_close. cbn. destruct (negb _); cbn; auto.
  - cbn. auto.
Qed.

Lemma keeps_written s : keeps_inv (on_session s written).
Proof.
  apply keeps_on_session. intros x. unfold written, same_session.
  destruct (write_queue_ x) as [|wire rest]; [auto|].
  destruct rest; [|cbn; auto]. destruct (close_after_write_ _); cbn; auto.
Qed.

Lemma keeps_on_write_error s aborted text : keeps_inv (on_write_error s aborted text).
Proof. unfold on_write_error. inv_tac. apply keeps_on_session. same_tac. Qed.

Lemma keeps_show_room_list : keeps_inv show_room_list_local.
Proof. unfold show_room_list_local. inv_tac. Qed.
#[local] Hint Resolve keeps_show_room_list : chat_keeps.

Lemma keeps_run_admin a : keeps_inv (run_admin a).
Proof. destruct a; cbn [run_admin]; unfold ignore, stop, register_local_identity; inv_tac. Qed.

Lemma Inv_accept s (w : W) : heap w !! s = None -> Inv w -> Inv (accept s w).2.
Proof.
  intros Hs I. unfold accept. rewrite !bind_snd. apply keeps_on_session; [same_tac|].
  cbn [modify snd]. assert (session_of (heap w) s = new_session) as Hn
    by (unfold session_of; by rewrite Hs).
  apply inv_join; cbn [put_heap heap server].
  - unfold session_of. cbn. by rewrite lookup_insert_eq.
  - change (server_inv (server w) (<[s := new_session]> (heap w))).
    apply inv_insert_same; [|exact I]. rewrite Hn. unfold same_session. auto.
Qed.

Lemma Inv_step (w w' : W) : step w w' -> Inv w -> Inv w'.
Proof.
  intros Hstep I. destruct Hstep.
  - by apply Inv_accept.
  - by apply keeps_on_handshake.
  - by apply keeps_on_line.
  - by apply keeps_on_read_error.
  - by apply keeps_written.
  - by apply keeps_on_write_error.
  - by apply keeps_run_task.
  - by apply keeps_run_admin.
Qed.

Lemma Inv_reachable (w0 w : W) : reachable w0 w -> Inv w0 -> Inv w.
Proof. induction 1; [done|]. intros I. eapply Inv_step; [eassumption|auto]. Qed.
End steps.
