(* ===== verification/Walk.v ===== *)
(** A walk through every server operation and handler, once and for all: a
    predicate on the world that a few basic operations keep is kept by all of
    them. [base] lists what nobody is needed for: deliveries, logs, sessions; [guest]
    adds what the handlers of one session do, under its nickname, and [operator]
    what the consoles and the stop of the server do. *)

From S2P Require Import Prelude Frame Message Utils AppState StorageApi World.
From S2P Require Import ChatServer ClientSession ServerInvariant ServerBoot ServerSteps.
Local Open Scope string_scope.
Local Open Scope chat_scope.

(** What no change of a session's members does, [set_nickname] and the write chain
    apart: a closed stream stays closed. *)
Definition safe_session (f : ClientSession -> ClientSession) : Prop :=
  forall x, nickname_ (f x) = nickname_ x /\ sent (f x) = sent x /\
    write_queue_ (f x) = write_queue_ x /\ write_pending (f x) = write_pending x /\
    (stream_open (f x) = true -> stream_open x = true).

Ltac safe_tac := intros ?; cbn; split_and!; auto; discriminate.

(** [keeps] at the state it is needed in. *)
Ltac here :=
  match goal with
  | HQ : ?Q ?w |- ?Q (?m ?w).2 => refine ((_ : keeps Q m) w HQ)
  end.
Ltac run_get := rewrite bind_snd; cbn [get fst snd].

(** A session leaves the server, a room, or enters one. *)
Definition quit (s : SessionId) (c : ChatServer) : ChatServer :=
  with_sessions (sessions_ c ∖ {[s]}) c.
Definition without_member (s : SessionId) (r : Room) : Room :=
  with_members (members r ∖ {[s]}) r.
Definition with_member (s : SessionId) (r : Room) : Room :=
  with_members ({[s]} ∪ members r) r.

(** What a room is told about a user who leaves or comes. *)
Inductive Notice := NoticeLeft | NoticeLeftFor (room : string) | NoticeJoined (room : string).
Definition notice (nick : string) (x : Notice) : string :=
  "[system] " +:+ nick +:+ match x with
                           | NoticeLeft => " left"
                           | NoticeLeftFor room => " left for #" +:+ room
                           | NoticeJoined room => " joined #" +:+ room
                           end.

(** The line of a chat message. *)
Definition chat_line `{Platform} (reading : nat) (nick body : string) : string :=
  "[" +:+ timestamp reading +:+ "] " +:+ nick +:+ ": " +:+ body.

(** The line that tells a room about a kick. *)
Definition kick_notice (nick reason : string) : string :=
  "[system] " +:+ nick +:+ " was kicked" +:+ (if sempty reason then "" else ": " +:+ reason).

(* ===================================================================== *)
(** * What anybody may do *)

Section base.
Context {S : Type} `{ServerStorage S} `{Sodium} `{Platform}.
Abbreviation W := (World S).

(** Nothing the predicate sees; posted tasks; safe changes of a session; a session
    that has left the server leaves a room. *)
Record base (Q : W -> Prop) : Prop := {
  base_rest : forall w w', core w' = core w -> tasks w' = tasks w ->
    storage_ w' = storage_ w -> Q w -> Q w';
  base_post : forall t, keeps Q (post t);
  base_session : forall s f, safe_session f -> keeps Q (on_session s f);
  base_drop : forall s id w, s ∉ sessions_ (server w) -> Q w ->
    Q (on_room id (without_member s) w).2;
}.

Lemma keeps_and {A} (P Q : W -> Prop) (m : M W A) :
  keeps P m -> keeps Q m -> keeps (fun w => P w /\ Q w) m.
Proof. intros HP HQ w [Hp Hq]. split; [by apply HP|by apply HQ]. Qed.

Lemma base_and (P Q : W -> Prop) : base P -> base Q -> base (fun w => P w /\ Q w).
Proof.
  intros BP BQ. split.
  - intros w w' Hc Ht Hs [Hp Hq]. split; [by apply (base_rest P BP w)|by apply (base_rest Q BQ w)].
  - intros t. apply keeps_and; by apply base_post.
  - intros s f Hf. apply keeps_and; by apply base_session.
  - intros s id w Hs [Hp Hq]. split; by apply base_drop.
Qed.

Context (Q : W -> Prop) (B : base Q).

Lemma st_frame {A} (m : M W A) :
  frames core m -> frames tasks m -> frames storage_ m -> keeps Q m.
Proof. intros Hc Ht Hs w. by apply (base_rest Q B). Qed.
Lemma st_session s f : safe_session f -> keeps Q (on_session s f).
Proof. apply (base_session Q B). Qed.
Lemma st_post t : keeps Q (post t).
Proof. apply (base_post Q B). Qed.

Ltac outside := apply st_frame; [auto with chat_frames nocore| |].

Lemma st_app f : keeps Q (on_app f).
Proof. by outside. Qed.
Lemma st_print line : keeps Q (print_error line).
Proof. by outside. Qed.
Lemma st_log line : keeps Q (log_write line).
Proof. outside; intros w; unfold log_write, modify; cbn; by destruct (log_ w). Qed.
Lemma st_steady : keeps Q read_steady_clock.
Proof. by outside. Qed.
Lemma st_random n : keeps Q (random_hex_text n).
Proof. by outside. Qed.
Lemma st_timestamp : keeps Q timestamp_text.
Proof. by outside. Qed.
#[local] Hint Resolve st_app st_print st_log st_steady st_random st_timestamp st_post
  : chat_keeps.

Lemma st_deliver s msg : keeps Q (deliver s msg).
Proof. unfold deliver. keeps_tac. Qed.
Lemma st_deliver_text s text : keeps Q (deliver_text s text).
Proof. apply st_deliver. Qed.
Lemma st_close s : keeps Q (close s).
Proof. apply st_post. Qed.
Lemma st_abort s : keeps Q (abort s).
Proof. apply st_post. Qed.
Lemma st_set_active_room s id : keeps Q (set_active_room_id s id).
Proof. apply st_session. safe_tac. Qed.
#[local] Hint Resolve st_deliver st_deliver_text st_close st_abort st_set_active_room : chat_keeps.

Lemma st_broadcast_users id : keeps Q (broadcast_users id).
Proof. unfold broadcast_users. keeps_tac. Qed.
Lemma st_broadcast_room_lists : keeps Q broadcast_room_lists.
Proof. unfold broadcast_room_lists. keeps_tac. Qed.
#[local] Hint Resolve st_broadcast_users st_broadcast_room_lists : chat_keeps.

Lemma st_private sender target msg id mirror :
  keeps Q (send_private_in_room sender target msg id mirror).
Proof. unfold send_private_in_room. keeps_tac. Qed.
Lemma st_read_loop s : keeps Q (read_loop s).
Proof. apply st_session. safe_tac. Qed.
Lemma st_answer s error : keeps Q (answer s error).
Proof. unfold answer. keeps_tac. Qed.
Lemma st_quota s : keeps Q (consume_message_quota s).
Proof. unfold consume_message_quota. keeps_tac. apply st_session. safe_tac. Qed.

(** A session that has left the server leaves its room as well; its notice is asked
    for when one is due. *)
Lemma st_gone s announce w :
  (announce = true -> nickname w s <> "" ->
   forall id, keeps Q (broadcast_room id (notice (nickname w s) NoticeLeft) "")) ->
  Q (on_server (quit s) w).2 -> Q (disconnect s announce w).2.
Proof.
  intros Hn HQ. unfold disconnect. rewrite bind_snd. fold (quit s).
  assert (s ∉ sessions_ (server (on_server (quit s) w).2)) as Hs by (cbn; set_solver).
  change (nickname w s) with (nickname (on_server (quit s) w).2 s) in Hn.
  set (w1 := (on_server (quit s) w).2) in *. clearbody w1. run_get. rewrite bind_snd.
  pose proof (st_set_active_room s 0%N w1 HQ) as HQ2.
  assert (s ∉ sessions_ (server (set_active_room_id s 0%N w1).2)) as Hs2 by exact Hs.
  set (w2 := (set_active_room_id s 0%N w1).2) in *. clearbody w2.
  destruct (_ =? 0)%N; [exact HQ2|]. rewrite bind_snd.
  apply (base_drop Q B s (active_room_of w1 s) w2 Hs2) in HQ2. fold (without_member s).
  set (w3 := (on_room _ _ w2).2) in *. clearbody w3. change (Q w3) in HQ2.
  here. apply keeps_bind; [|intros _; keeps_tac].
  destruct announce; [|rewrite andb_false_r; apply keeps_ret]. destruct (sempty (nickname w1 s)) eqn:E.
  - rewrite andb_false_r. apply keeps_ret.
  - apply sempty_false in E. apply keeps_when. by apply Hn.
Qed.

Lemma st_gone_silent s w : Q (on_server (quit s) w).2 -> Q (disconnect s false w).2.
Proof. by apply st_gone. Qed.

(** The effect of a kick: one member, of the nickname that was asked for, leaves. *)
Lemma st_kick_in id nick reason w :
  (forall room target w', rooms_ (server w) !! id = Some room -> target ∈ members room ->
     nickname w target = nick -> core w' = core w -> Q w' -> Q (on_server (quit target) w').2) ->
  keeps Q (broadcast_room id (kick_notice nick reason) "") ->
  Q w -> Q (kick_user_in_room id nick reason w).2.
Proof.
  intros Hq Hn HQ. unfold kick_user_in_room. run_get.
  destruct (rooms_ (server w) !! id) as [room|] eqn:Er; [|exact HQ].
  destruct (first_named w nick (set_iter (members room))) as [target|] eqn:Et; [|exact HQ].
  apply List.find_some in Et as [Hin Heq]. apply String.eqb_eq in Heq.
  apply list_elem_of_In, elem_of_set_iter in Hin.
  assert (core (close target (deliver target (Server.Kick nick reason) w).2).2 = core w) as Hc
    by by rewrite frames_core_close, frames_core_deliver.
  pose proof (st_close target _ (st_deliver target (Server.Kick nick reason) w HQ)) as HQ1.
  do 2 rewrite bind_snd. set (w1 := (close target _).2) in *. clearbody w1.
  pose proof (st_gone_silent target w1 (Hq room target w1 eq_refl Hin Heq Hc HQ1)) as HQ2.
  rewrite bind_snd. set (w2 := (disconnect target false w1).2) in *. clearbody w2.
  fold (kick_notice nick reason). here. keeps_tac.
Qed.
End base.

#[export] Hint Resolve st_app st_print st_log st_steady st_random st_timestamp st_post
  st_deliver st_deliver_text st_close st_abort st_set_active_room st_broadcast_users
  st_broadcast_room_lists st_private st_read_loop st_answer st_quota : chat_keeps.

(* ===================================================================== *)
(** * What one session may do *)

Section guest.
Context {S : Type} `{ServerStorage S} `{Sodium} `{Platform}.
Abbreviation W := (World S).

(** A binding bans nobody. *)
Lemma bind_identity_bans nick key (w : W) :
  banned_nicks_ (server (bind_identity nick key w).2) = banned_nicks_ (server w).
Proof.
  assert (forall m : M W unit, frames core m ->
    frames (fun w : W => banned_nicks_ (server w)) m) as Hc.
  { intros m Hm w'. specialize (Hm w'). unfold core in Hm. by injection Hm as -> _. }
  revert w. change (frames (fun w : W => banned_nicks_ (server w)) (bind_identity nick key)).
  unfold bind_identity, save_identities_locked. frames_tac; try done; apply Hc;
    try solve [auto with chat_frames].
  unfold write_file. apply frames_core_modify; intros w'; by destruct (can_write _).
Qed.

Context (s : SessionId) (Q : string -> W -> Prop).

(** The predicate at each nickname of the session. The session leaves the server and
    any room, and under a nickname enters rooms, speaks there, has rooms created in
    its name, and changes topics and kicks as that user. *)
Record guest : Prop := {
  guest_base : forall n, base (Q n);
  guest_name : forall n w, Q n w -> nickname w s = n;
  guest_quit : forall n, keeps (Q n) (on_server (quit s));
  guest_leave : forall n id, keeps (Q n) (on_room id (without_member s));
  guest_enter : forall n id, n <> "" -> keeps (Q n) (on_room id (with_member s));
  guest_notice : forall n id x, n <> "" -> keeps (Q n) (broadcast_room id (notice n x) "");
  guest_say : forall n id reading body, n <> "" -> is_valid_chat_message body = true ->
    keeps (Q n) (broadcast_room id (chat_line reading n body) n);
  guest_topic : forall n id topic, n <> "" -> keeps (Q n) (set_topic_for_room id n false topic);
  guest_kick : forall n nick reason, n <> "" -> keeps (Q n) (kick_from s nick reason);
  guest_found : forall n name w, n <> "" -> room_creation_error (server w) name = None -> Q n w ->
    Q n ((on_server (emplace_room name n) ;;; persist_room (next_room_id_ (server w))) w).2;
  guest_bind : forall n nick key, keeps (Q n) (bind_identity nick key);
}.

Context (G : guest).

Section named.
Context (n : string).

Lemma gw_base : base (Q n).
Proof. apply (guest_base G). Qed.
Lemma gw_quit : keeps (Q n) (on_server (quit s)).
Proof. apply (guest_quit G). Qed.
Lemma gw_depart id : keeps (Q n) (on_room id (without_member s)).
Proof. apply (guest_leave G). Qed.
Lemma gw_enter id : n <> "" -> keeps (Q n) (on_room id (with_member s)).
Proof. apply (guest_enter G). Qed.
Lemma gw_left_for id room : n <> "" ->
  keeps (Q n) (broadcast_room id ("[system] " +:+ n +:+ " left for #" +:+ room) "").
Proof. apply (guest_notice G n id (NoticeLeftFor room)). Qed.
Lemma gw_joined id room : n <> "" ->
  keeps (Q n) (broadcast_room id ("[system] " +:+ n +:+ " joined #" +:+ room) "").
Proof. apply (guest_notice G n id (NoticeJoined room)). Qed.
Lemma gw_say id body : n <> "" -> is_valid_chat_message body = true ->
  keeps (Q n) (let* time := timestamp_text in
    broadcast_room id ("[" +:+ time +:+ "] " +:+ n +:+ ": " +:+ body) n).
Proof.
  intros Hn Hb w HQ. rewrite bind_snd. apply (guest_say G n id (system_reads w)); [done..|].
  by apply (st_timestamp _ (guest_base G n)).
Qed.
Lemma gw_set_topic_for id topic : n <> "" -> keeps (Q n) (set_topic_for_room id n false topic).
Proof. apply (guest_topic G). Qed.
Lemma gw_kick_from nick reason : n <> "" -> keeps (Q n) (kick_from s nick reason).
Proof. apply (guest_kick G). Qed.
Lemma gw_bind nick key : keeps (Q n) (bind_identity nick key).
Proof. apply (guest_bind G). Qed.
#[local] Hint Resolve gw_base gw_quit gw_depart gw_enter gw_left_for gw_joined gw_set_topic_for
  gw_kick_from gw_bind : chat_keeps.

(** Read the state; the nickname is known. *)
Ltac run_named := intros w HQ; run_get; rewrite ?(guest_name G n w HQ); here.
Ltac joined_or_not := destruct (sempty n) eqn:En; [|apply sempty_false in En]; keeps_tac.

Lemma gw_session f : safe_session f -> keeps (Q n) (on_session s f).
Proof. apply st_session, (guest_base G). Qed.

Lemma gw_disconnect announce : keeps (Q n) (disconnect s announce).
Proof.
  intros w HQ. apply st_gone; [apply (guest_base G)| |by apply (guest_quit G)].
  intros _. rewrite (guest_name G n w HQ). intros Hn id. by apply (guest_notice G).
Qed.

Lemma gw_move id announce : n <> "" -> keeps (Q n) (move_session_to_room s id announce).
Proof.
  intros Hn. unfold move_session_to_room. run_named.
  destruct (rooms_ (server w) !! id) as [target|]; [|keeps_tac].
  unfold change_room. fold (without_member s) (with_member s). keeps_tac.
Qed.
#[local] Hint Resolve gw_disconnect gw_move : chat_keeps.

Lemma gw_create_room name : n <> "" -> keeps (Q n) (create_room s name).
Proof.
  intros Hn w HQ. unfold create_room. run_get. rewrite (guest_name G n w HQ).
  destruct (room_creation_error (server w) name) eqn:E; [exact HQ|].
  pose proof (guest_found G n name w Hn E HQ) as Hf. rewrite bind_snd in Hf. rewrite !bind_snd.
  exact (gw_move _ true Hn _ Hf).
Qed.

Lemma gw_set_topic topic : n <> "" -> keeps (Q n) (set_topic s topic).
Proof. intros Hn. unfold set_topic. run_named. auto with chat_keeps. Qed.
#[local] Hint Resolve gw_create_room gw_set_topic : chat_keeps.

Lemma gw_reject reply : keeps (Q n) (reject s reply).
Proof. unfold reject. keeps_tac. Qed.
#[local] Hint Resolve gw_reject : chat_keeps.

Lemma gw_hello version : keeps (Q n) (handle_hello s version).
Proof. unfold handle_hello. keeps_tac. apply gw_session. safe_tac. Qed.
Lemma gw_authenticate pw : keeps (Q n) (handle_authenticate s pw).
Proof. unfold handle_authenticate. keeps_tac. apply gw_session. safe_tac. Qed.
Lemma gw_identify nick key : keeps (Q n) (handle_identify s nick key).
Proof. unfold handle_identify. keeps_tac; apply gw_session; safe_tac. Qed.

Lemma gw_leave : keeps (Q n) (handle_leave s).
Proof. unfold handle_leave, leave_room. run_named. joined_or_not. Qed.
Lemma gw_create name : keeps (Q n) (handle_create s name).
Proof. unfold handle_create. run_named. joined_or_not. Qed.
Lemma gw_join_room name : keeps (Q n) (handle_join_room s name).
Proof. unfold handle_join_room, join_room. run_named. joined_or_not. Qed.
Lemma gw_topic topic : keeps (Q n) (handle_topic s topic).
Proof. unfold handle_topic, send_topic. run_named. joined_or_not. Qed.
Lemma gw_whisper target body : keeps (Q n) (handle_whisper s target body).
Proof. unfold handle_whisper, send_private_from. run_named. joined_or_not. Qed.
Lemma gw_kick nick reason : keeps (Q n) (handle_kick s nick reason).
Proof. unfold handle_kick. run_named. joined_or_not. Qed.
Lemma gw_chat body : keeps (Q n) (handle_chat s body).
Proof.
  unfold handle_chat. run_named. destruct (sempty n) eqn:En; [keeps_tac|].
  apply sempty_false in En. apply keeps_bind; [|intros _; keeps_tac].
  apply keeps_bind; [keeps_tac|intros granted]. destruct granted; cbn [negb]; [|keeps_tac].
  destruct (is_valid_chat_message body) eqn:Eb; cbn [negb]; [|keeps_tac]. by apply gw_say.
Qed.
#[local] Hint Resolve gw_hello gw_authenticate gw_identify gw_leave gw_create gw_join_room
  gw_topic gw_whisper gw_kick gw_chat : chat_keeps.

(** Every request but the identity proof, which sets the nickname. *)
Definition is_proof (message : Client.message) : bool :=
  match message with Client.IdentityProof _ => true | _ => false end.

Lemma gw_request message : is_proof message = false -> keeps (Q n) (handle_request s message).
Proof.
  intros Hp. destruct message; try done; cbn [handle_request];
    unfold handle_disconnect, handle_rooms, send_room_list; keeps_tac.
Qed.

Lemma gw_message message : is_proof message = false -> keeps (Q n) (handle_message s message).
Proof.
  intros Hp. pose proof (gw_request message Hp) as Hr. unfold handle_message.
  apply keeps_bind; [apply keeps_get|]. intros w. destruct message; try done; keeps_tac.
Qed.

Lemma gw_read_error : keeps (Q n) (on_read_error s).
Proof. unfold on_read_error. keeps_tac. apply gw_session. safe_tac. Qed.
Lemma gw_handshake failed : keeps (Q n) (on_handshake s failed).
Proof. unfold on_handshake. keeps_tac; apply gw_session; safe_tac. Qed.

(** [complete_join] after its first action. *)
Lemma gw_join_tail key : n <> "" ->
  keeps (Q n) (on_session s clear_pending ;;;
    deliver s (Server.IdentityAccepted (identity_fingerprint key)) ;;;
    deliver s Server.JoinAccepted ;;; admit_to_default_room s ;;; read_loop s).
Proof. intros Hn. unfold admit_to_default_room. keeps_tac. apply gw_session. safe_tac. Qed.
End named.

(** The identity proof sets the nickname. *)
Context (guest_sign : forall nick key w, nick <> "" -> Q "" w ->
  identities_ (server w) !! nick = Some key -> is_banned (server w) nick = false ->
  nickname_taken w nick = false -> Q nick (set_nickname s nick w).2).

Lemma gw_complete_join nick key w : nick <> "" -> Q nick (set_nickname s nick w).2 ->
  Q nick (complete_join s nick key w).2.
Proof. intros Hn HQ. unfold complete_join. rewrite bind_snd. by apply gw_join_tail. Qed.

Lemma gw_proof n signature w : Q n w -> exists n', Q n' (handle_proof s signature w).2.
Proof.
  intros HQ. unfold handle_proof. run_get. rewrite (guest_name G n w HQ).
  assert (forall m : M W unit, keeps (Q n) m -> exists n', Q n' (m w).2) as Hk by eauto.
  destruct (sempty n) eqn:En; cbn [negb]; [|apply Hk; keeps_tac; apply st_deliver || apply st_read_loop; apply (guest_base G)].
  apply sempty_spec in En as ->.
  assert (forall reply, exists n', Q n' (reject s reply w).2) as Hr by (intros; apply Hk, gw_reject).
  destruct (_ || _ || _)%bool eqn:Ep; [apply Hr|].
  destruct (negb (verify_identity_signature _ _ _)); [apply Hr|].
  destruct (is_banned _ _) eqn:Eb; [apply Hr|]. destruct (nickname_taken _ _) eqn:Et; [apply Hr|].
  apply orb_false_iff in Ep as [[Ep _]%orb_false_iff _]. apply sempty_false in Ep.
  set (nick := pending_nickname_ (session w s)) in *.
  set (key := pending_public_key_hex_ (session w s)) in *.
  rewrite bind_snd. pose proof (guest_bind G "" nick key w HQ) as HQ1.
  pose proof (bind_identity_spec nick key w) as Hs. cbv zeta in Hs.
  pose proof (bind_identity_bans nick key w) as Hb.
  destruct (bind_identity nick key w) as [bound w1]. cbn [fst snd] in *.
  destruct Hs as (Hh & Hss & Hl & _ & _ & Hbound).
  destruct bound; cbn [negb]; [|exists ""; by apply gw_reject].
  exists nick. apply gw_complete_join; [done|]. apply (guest_sign nick key); [done..|by apply Hbound| |].
  - unfold is_banned. by rewrite Hb.
  - rewrite <- Et. unfold nickname_taken, has_local, nickname, session. by rewrite Hh, Hss, Hl.
Qed.

Lemma gw_line n line w : Q n w -> exists n', Q n' (on_line s line w).2.
Proof.
  intros HQ. unfold on_line. rewrite bind_snd.
  assert (Q n (on_session s (with_reading false) w).2) as HQ1 by (apply gw_session; [safe_tac|done]).
  set (w1 := (on_session s _ w).2) in *. clearbody w1.
  assert (forall m : M W unit, keeps (Q n) m -> exists n', Q n' (m w1).2) as Hk by eauto.
  pose proof (guest_base G n) as B.
  destruct (value (decode_client_frame line)) as [message|].
  2:{ apply Hk. keeps_tac. by apply gw_disconnect. }
  destruct (is_proof message) eqn:E; [|by apply Hk, gw_message].
  destruct message; try done. unfold handle_message, handle_request. run_get.
  destruct (negb _); [by apply Hk, gw_reject|].
  destruct (_ && _); [apply Hk; keeps_tac|]. by eapply gw_proof.
Qed.
End guest.

(* ===================================================================== *)
(** * What the consoles may do *)

Section operator.
Context {S : Type} `{ServerStorage S} `{Sodium} `{Platform}.
Abbreviation W := (World S).
Context (Q : W -> Prop).

Record operator : Prop := {
  operator_base : base Q;
  operator_quit : forall s, keeps Q (on_server (quit s));
  operator_local_room : forall id, keeps Q (on_server (with_local_room_id id));
  operator_say : forall id msg nick, keeps Q (broadcast_room id msg nick);
  operator_topic : forall id actor privileged topic,
    keeps Q (set_topic_for_room id actor privileged topic);
  operator_bind : forall nick key, keeps Q (bind_identity nick key);
  operator_found : forall name w, room_creation_error (server w) name = None -> Q w ->
    Q ((on_server (emplace_room name (local_nickname_ (server w))) ;;;
        persist_room (next_room_id_ (server w))) w).2;
  operator_found_admin : forall name, keeps Q (create_admin_room name);
  operator_ban : forall nick reason, keeps Q (record_ban nick reason);
  operator_unban : forall nick, keeps Q (unban_user nick);
}.

Context (O : operator).

Lemma ow_base : base Q.
Proof. apply (operator_base O). Qed.
Lemma ow_local_room id : keeps Q (on_server (with_local_room_id id)).
Proof. apply (operator_local_room O). Qed.
Lemma ow_say id msg nick : keeps Q (broadcast_room id msg nick).
Proof. apply (operator_say O). Qed.
Lemma ow_topic id actor privileged topic : keeps Q (set_topic_for_room id actor privileged topic).
Proof. apply (operator_topic O). Qed.
Lemma ow_bind nick key : keeps Q (bind_identity nick key).
Proof. apply (operator_bind O). Qed.
Lemma ow_found_admin name : keeps Q (create_admin_room name).
Proof. apply (operator_found_admin O). Qed.
Lemma ow_ban nick reason : keeps Q (record_ban nick reason).
Proof. apply (operator_ban O). Qed.
Lemma ow_unban nick : keeps Q (unban_user nick).
Proof. apply (operator_unban O). Qed.
Lemma ow_disconnect s announce : keeps Q (disconnect s announce).
Proof.
  intros w HQ. apply st_gone; [apply ow_base|intros _ _ id; apply ow_say|by apply (operator_quit O)].
Qed.
Lemma ow_kick_in id nick reason : keeps Q (kick_user_in_room id nick reason).
Proof.
  intros w. apply st_kick_in; [apply ow_base| |apply ow_say].
  intros _ target w' _ _ _ _. apply (operator_quit O).
Qed.
#[local] Hint Resolve ow_base ow_local_room ow_say ow_topic ow_bind ow_found_admin ow_ban
  ow_unban ow_disconnect ow_kick_in : chat_keeps.

Lemma ow_move_local id announce : keeps Q (move_local_to_room id announce).
Proof. unfold move_local_to_room. keeps_tac. Qed.
Lemma ow_create_local name : keeps Q (create_local_room name).
Proof.
  intros w HQ. unfold create_local_room. run_get.
  destruct (has_local (server w)); [|exact HQ]. cbn [negb].
  destruct (room_creation_error (server w) name) eqn:E; [exact HQ|].
  pose proof (operator_found O name w E HQ) as Hf. rewrite bind_snd in Hf. rewrite !bind_snd.
  exact (ow_move_local _ true _ Hf).
Qed.
#[local] Hint Resolve ow_move_local ow_create_local : chat_keeps.

Lemma ow_admin a : keeps Q (run_admin a).
Proof.
  destruct a; cbn [run_admin]; unfold ignore, broadcast, broadcast_server, send_private,
    start_local_user, show_room_list_local,
    join_local_room, leave_local_room, set_local_topic, set_admin_topic, kick_user,
    kick_user_in_named_room, ban_user, stop, register_local_identity; keeps_tac.
Qed.
End operator.
