(* ===== verification/Stability.v ===== *)
(** Predicates that every operation keeps, whoever asks for it. [stable] lists the
    basic operations; it gives the walks of [Walk.v] for every session and for the
    consoles. [simple] is a shorter list of conditions that implies it, with what each
    kind of action may change: no operation drops an identity binding, changes the
    local user, the password or the history limit, or touches what a session has
    queued or sent. *)

From S2P Require Import Prelude Frame Message Utils AppState StorageApi World.
From S2P Require Import ChatServer ClientSession ServerInvariant ServerBoot ServerSteps Walk.
Local Open Scope string_scope.
Local Open Scope chat_scope.

(** The operations a predicate has to survive. *)
Record stable {S : Type} `{ServerStorage S} `{Sodium} `{Platform} (Q : World S -> Prop) : Prop := {
  stable_base : base Q;
  stable_sessions : forall g, keeps Q (on_server (fun c => with_sessions (g c) c));
  stable_local_room : forall id, keeps Q (on_server (with_local_room_id id));
  stable_members : forall id g, keeps Q (on_room id (fun r => with_members (g r) r));
  stable_broadcast_room : forall id msg nick, keeps Q (broadcast_room id msg nick);
  stable_topic : forall id actor privileged topic,
    keeps Q (set_topic_for_room id actor privileged topic);
  stable_bind : forall nick key, keeps Q (bind_identity nick key);
  stable_found : forall name owner w, room_creation_error (server w) name = None -> Q w ->
    Q ((on_server (emplace_room name owner) ;;; persist_room (next_room_id_ (server w))) w).2;
  stable_found_admin : forall name, keeps Q (create_admin_room name);
  stable_ban : forall nick reason, keeps Q (record_ban nick reason);
  stable_unban : forall nick, keeps Q (unban_user nick);
  stable_flush : keeps Q flush_storage;
  stable_clear : keeps Q clear_members;
  stable_acceptor : keeps Q (on_server (with_acceptor_open false));
}.
Coercion stable_base : stable >-> base.

(* ===================================================================== *)
(** * Shorter conditions *)

(** What no change of the server's members does. *)
Definition safe_server (f : ChatServer -> ChatServer) : Prop :=
  forall c, identities_ c ⊆ identities_ (f c) /\ local_nickname_ (f c) = local_nickname_ c /\
    password_ (f c) = password_ c /\ history_limit_ (f c) = history_limit_ c /\
    (acceptor_open (f c) = true -> acceptor_open c = true).

Section simple.
Context {S : Type} `{ServerStorage S} `{Sodium} `{Platform}.
Abbreviation W := (World S).
Context (Q : W -> Prop).

(** Nothing about the storage; any safe change of the server. *)
Record simple : Prop := {
  simple_rest : forall w w', core w' = core w -> tasks w' = tasks w -> Q w -> Q w';
  simple_post : forall t, keeps Q (post t);
  simple_server : forall f, safe_server f -> keeps Q (on_server f);
  simple_session : forall s f, safe_session f -> keeps Q (on_session s f);
}.

Context (Si : simple).

Lemma si_core {A} (m : M W A) : frames core m -> frames tasks m -> keeps Q m.
Proof. intros Hc Ht w. by apply (simple_rest Si). Qed.
Lemma si_server f : safe_server f -> keeps Q (on_server f).
Proof. apply (simple_server Si). Qed.

Lemma si_post t : keeps Q (post t).
Proof. apply (simple_post Si). Qed.
Lemma si_app f : keeps Q (on_app f).
Proof. by apply si_core. Qed.
Lemma si_print line : keeps Q (print_error line).
Proof. by apply si_core. Qed.
Lemma si_log line : keeps Q (log_write line).
Proof. apply si_core; intros w; unfold log_write, modify; cbn; by destruct (log_ w). Qed.
Lemma si_random n : keeps Q (random_hex_text n).
Proof. by apply si_core. Qed.
Lemma si_with_storage {A} (op : S -> A * S) : keeps Q (with_storage op).
Proof. apply si_core; intros w; unfold with_storage, modify; cbn; by destruct (storage_ w). Qed.
Lemma si_unix : keeps Q current_unix_seconds.
Proof. by apply si_core. Qed.
Lemma si_message_timestamp : keeps Q next_message_timestamp.
Proof. by apply si_core. Qed.
Lemma si_write_file path lines : keeps Q (write_file path lines).
Proof.
  apply si_core; intros w; unfold write_file, modify; cbn; by destruct (can_write path).
Qed.
#[local] Hint Resolve si_app si_print si_log si_random si_with_storage si_unix
  si_message_timestamp si_write_file si_post : chat_keeps.

Lemma si_deliver s msg : keeps Q (deliver s msg).
Proof. unfold deliver. keeps_tac. Qed.
Lemma si_on_room id f : keeps Q (on_room id f).
Proof. apply si_server. safe_tac. Qed.
Lemma si_record_message id msg : keeps Q (record_message id msg).
Proof. apply si_server. safe_tac. Qed.
Lemma si_banned g : keeps Q (on_server (fun c => with_banned_nicks (g c) c)).
Proof. apply si_server. safe_tac. Qed.
Lemma si_emplace name owner : keeps Q (on_server (emplace_room name owner)).
Proof. apply si_server. intros c. unfold emplace_room. by case_match; cbn. Qed.
#[local] Hint Resolve si_deliver si_on_room si_record_message si_banned si_emplace : chat_keeps.

Lemma si_persist_room id : keeps Q (persist_room id).
Proof. unfold persist_room. keeps_tac. Qed.
Lemma si_save_bans : keeps Q save_bans.
Proof. unfold save_bans. keeps_tac. Qed.
Lemma si_save_identities : keeps Q save_identities_locked.
Proof. unfold save_identities_locked. keeps_tac. Qed.
Lemma si_broadcast_room id msg nick : keeps Q (broadcast_room id msg nick).
Proof. unfold broadcast_room. keeps_tac. Qed.
Lemma si_broadcast_room_lists : keeps Q broadcast_room_lists.
Proof. unfold broadcast_room_lists. keeps_tac. Qed.
#[local] Hint Resolve si_persist_room si_save_bans si_save_identities si_broadcast_room
  si_broadcast_room_lists : chat_keeps.

(** A binding is inserted only for a nickname without one. *)
Lemma si_bind_identity nick key : keeps Q (bind_identity nick key).
Proof.
  intros w HQ. unfold bind_identity. rewrite bind_snd. cbn [get fst snd].
  destruct (identities_ (server w) !! nick) as [k|] eqn:E; [exact HQ|].
  apply keeps_then; [|keeps_tac].
  pose (f := fun c => match identities_ c !! nick with
                      | Some _ => c
                      | None => with_identities (<[nick := key]> (identities_ c)) c end).
  assert (on_server (fun c => with_identities (<[nick := key]> (identities_ c)) c) w
    = on_server f w) as -> by (unfold on_server, modify, f; by rewrite E).
  apply si_server; [|exact HQ]. intros c. unfold f.
  destruct (identities_ c !! nick) eqn:Ec; [done|]. cbn. split; [|done]. by apply insert_subseteq.
Qed.

Lemma simple_stable : stable Q.
Proof.
  split.
  - split.
    + intros w w' Hc Ht _. by apply (simple_rest Si).
    + apply (simple_post Si).
    + apply (simple_session Si).
    + intros s id w _. apply si_on_room.
  - intros g. apply si_server. safe_tac.
  - intros id. apply si_server. safe_tac.
  - intros id g. apply si_on_room.
  - apply si_broadcast_room.
  - intros id actor privileged topic. unfold set_topic_for_room. keeps_tac.
  - apply si_bind_identity.
  - intros name owner w _. apply (keeps_bind Q); [apply si_emplace|]. intros _. apply si_persist_room.
  - intros name. unfold create_admin_room. keeps_tac.
  - intros nick reason. unfold record_ban. keeps_tac.
  - intros nick. unfold unban_user. keeps_tac.
  - apply si_core; intros w; unfold flush_storage, modify; cbn; by destruct (storage_ w).
  - apply si_server. safe_tac.
  - apply si_server. safe_tac.
Qed.
End simple.

(* ===================================================================== *)
(** * The walks of a stable predicate *)

Lemma simple_nickname {S : Type} `{ServerStorage S} `{Sodium} `{Platform} t n :
  simple (fun w : World S => nickname w t = n).
Proof.
  split.
  - intros w w' Hc _. by rewrite (core_nickname w' w t Hc).
  - by intros u w.
  - by intros f _ w.
  - intros s f Hf w. unfold nickname. rewrite session_on_session.
    case_decide; [subst; by destruct (Hf (session w s)) as (-> & _)|done].
Qed.

Section stable.
Context {S : Type} `{ServerStorage S} `{Sodium} `{Platform}.
Abbreviation W := (World S).

Lemma stable_nickname t n : stable (fun w : W => nickname w t = n).
Proof. apply simple_stable, simple_nickname. Qed.

Lemma stable_operator (Q : W -> Prop) : stable Q -> operator Q.
Proof.
  intros St. split; try apply St. 
  - intros s. apply (stable_sessions Q St).
  - intros name w. apply (stable_found Q St).
Qed.

Lemma stable_kick_from (Q : W -> Prop) s nick reason : stable Q -> keeps Q (kick_from s nick reason).
Proof.
  intros St. pose proof (ow_kick_in Q (stable_operator Q St)) as Hk. unfold kick_from. keeps_tac.
Qed.

(** A session at any of its nicknames. *)
Lemma stable_guest (Q : W -> Prop) s :
  stable Q -> guest s (fun n w => Q w /\ nickname w s = n).
Proof.
  intros St. pose proof (fun n => stable_nickname s n) as Sn. split.
  - intros n. apply base_and; [apply St|apply Sn].
  - by intros n w [_ ?].
  - intros n. apply keeps_and; [apply (stable_sessions Q St)|apply (stable_sessions _ (Sn n))].
  - intros n id. apply keeps_and; [apply (stable_members Q St)|apply (stable_members _ (Sn n))].
  - intros n id _. apply keeps_and; [apply (stable_members Q St)|apply (stable_members _ (Sn n))].
  - intros n id x _. apply keeps_and; by apply stable_broadcast_room.
  - intros n id reading body _ _. apply keeps_and; by apply stable_broadcast_room.
  - intros n id topic _. apply keeps_and; by apply stable_topic.
  - intros n nick reason _. apply keeps_and; by apply stable_kick_from.
  - intros n name w _ E [HQ Hn]. split; by apply stable_found.
  - intros n nick key. apply keeps_and; by apply stable_bind.
Qed.

Context (Q : W -> Prop) (St : stable Q).

(** What a guest keeps at its nickname, it keeps. *)
Lemma at_nickname {A} s (m : M W A) :
  (forall n, keeps (fun w => Q w /\ nickname w s = n) m) -> keeps Q m.
Proof. intros Hm w HQ. by apply (Hm (nickname w s)). Qed.

Lemma st_disconnect s announce : keeps Q (disconnect s announce).
Proof. apply (ow_disconnect Q (stable_operator Q St)). Qed.
Lemma st_move_session s id announce : keeps Q (move_session_to_room s id announce).
Proof.
  pose proof (stable_base Q St). pose proof (stable_members Q St).
  pose proof (stable_broadcast_room Q St). unfold move_session_to_room, change_room. keeps_tac.
Qed.
Lemma st_reject s reply : keeps Q (reject s reply).
Proof. apply (at_nickname s). intros n. exact (gw_reject s _ (stable_guest Q s St) n reply). Qed.
Lemma st_message s message : is_proof message = false -> keeps Q (handle_message s message).
Proof.
  intros Hp. apply (at_nickname s). intros n.
  exact (gw_message s _ (stable_guest Q s St) n message Hp).
Qed.
Lemma st_read_error s : keeps Q (on_read_error s).
Proof. apply (at_nickname s). intros n. exact (gw_read_error s _ (stable_guest Q s St) n). Qed.
Lemma st_handshake s failed : keeps Q (on_handshake s failed).
Proof. apply (at_nickname s). intros n. exact (gw_handshake s _ (stable_guest Q s St) n failed). Qed.
Lemma st_join_tail s key :
  keeps Q (on_session s clear_pending ;;;
    deliver s (Server.IdentityAccepted (identity_fingerprint key)) ;;;
    deliver s Server.JoinAccepted ;;; admit_to_default_room s ;;; read_loop s).
Proof.
  pose proof (stable_base Q St). pose proof st_move_session. unfold admit_to_default_room.
  keeps_tac. apply st_session; [done|safe_tac].
Qed.
Lemma st_admin a : keeps Q (run_admin a).
Proof. apply ow_admin, stable_operator, St. Qed.
Lemma st_run_stop : keeps Q run_stop.
Proof.
  unfold run_stop. pose proof (stable_acceptor Q St). pose proof (stable_flush Q St).
  pose proof (stable_clear Q St). pose proof (stable_sessions Q St (fun _ => ∅)).
  pose proof (stable_base Q St). keeps_tac.
Qed.

(** With [set_nickname] among the actions, the identity proof and so every line. *)
Context (set_nickname_keeps : forall s nick, keeps Q (set_nickname s nick)).

Lemma set_nickname_sets s nick (w : W) : nickname (set_nickname s nick w).2 s = nick.
Proof. unfold nickname, set_nickname. by rewrite session_on_session, decide_True. Qed.

Lemma st_complete_join s nick key : keeps Q (complete_join s nick key).
Proof. unfold complete_join. apply keeps_bind; [auto|]. intros _. apply st_join_tail. Qed.

Lemma st_line s line : keeps Q (on_line s line).
Proof.
  intros w HQ. destruct (gw_line s _ (stable_guest Q s St)) with (n := nickname w s) (line := line) (w := w)
    as (n & HQ' & _); [|done..].
  intros nick key w1 _ [HQ1 _] _ _ _. split; [by apply set_nickname_keeps|apply set_nickname_sets].
Qed.
End stable.
