(* ===== verification/Service.v ===== *)
(** What a chat server promises, without sessions' buffers, storage, tasks or logs:
    rooms with their histories, the keys nicknames are bound to, who is banned, who is
    present under which nickname, and what each party may do to them in one step. A
    guest acts under its nickname only; the consoles moderate; the network lets
    guests in and ends the service. Then what follows from these rules alone. *)

From S2P Require Import Prelude Frame Message Utils AppState StorageApi World.
From S2P Require Import ChatServer ClientSession ServerInvariant Walk.
Local Open Scope string_scope.
Local Open Scope chat_scope.

Record Hall := MkHall {
  hall_name : string;
  hall_topic : string;
  hall_owner : string;
  hall_history : list string;
  hall_members : gset SessionId;
}.

Record Service := MkService {
  halls : gmap RoomId Hall;
  next_hall : RoomId;
  keys : gmap string string;
  banned : gset string;
  people : gmap SessionId string;
  present : gset SessionId;
  host : string;
  capacity : N;
}.

(* ===================================================================== *)
(** * Changes *)

Definition with_halls (v : gmap RoomId Hall) (a : Service) : Service :=
  MkService v (next_hall a) (keys a) (banned a) (people a) (present a) (host a) (capacity a).
Definition with_keys (v : gmap string string) (a : Service) : Service :=
  MkService (halls a) (next_hall a) v (banned a) (people a) (present a) (host a) (capacity a).
Definition with_banned (v : gset string) (a : Service) : Service :=
  MkService (halls a) (next_hall a) (keys a) v (people a) (present a) (host a) (capacity a).
Definition with_people (v : gmap SessionId string) (a : Service) : Service :=
  MkService (halls a) (next_hall a) (keys a) (banned a) v (present a) (host a) (capacity a).
Definition with_present (v : gset SessionId) (a : Service) : Service :=
  MkService (halls a) (next_hall a) (keys a) (banned a) (people a) v (host a) (capacity a).

Definition in_hall (id : RoomId) (f : Hall -> Hall) (a : Service) : Service :=
  with_halls (alter f id (halls a)) a.

Definition hall_with_members (g : gset SessionId -> gset SessionId) (h : Hall) : Hall :=
  MkHall (hall_name h) (hall_topic h) (hall_owner h) (hall_history h) (g (hall_members h)).
Definition hall_with_topic (topic : string) (h : Hall) : Hall :=
  MkHall (hall_name h) topic (hall_owner h) (hall_history h) (hall_members h).
Definition hall_with_line (limit : N) (line : string) (h : Hall) : Hall :=
  MkHall (hall_name h) (hall_topic h) (hall_owner h) (push_bounded limit (hall_history h) line)
    (hall_members h).

Definition record_line (id : RoomId) (line : string) (a : Service) : Service :=
  in_hall id (hall_with_line (capacity a) line) a.
Definition leave_hall (s : SessionId) (id : RoomId) : Service -> Service :=
  in_hall id (hall_with_members (fun m => m ∖ {[s]})).
Definition enter_hall (s : SessionId) (id : RoomId) : Service -> Service :=
  in_hall id (hall_with_members (fun m => {[s]} ∪ m)).
Definition found_hall (name owner : string) (a : Service) : Service :=
  MkService (<[next_hall a := MkHall name "" owner [] ∅]> (halls a)) (next_hall a + 1)%N
    (keys a) (banned a) (people a) (present a) (host a) (capacity a).
Definition change_topic (id : RoomId) (actor topic : string) (a : Service) : Service :=
  record_line id ("[system] " +:+ actor +:+ " changed the topic to: " +:+ topic)
    (in_hall id (hall_with_topic topic) a).
Definition depart (s : SessionId) (a : Service) : Service :=
  with_present (present a ∖ {[s]}) a.
Definition close_service (a : Service) : Service :=
  with_present ∅ (with_halls (hall_with_members (fun _ => ∅) <$> halls a) a).

(** A room may be founded under a name. *)
Definition available (name : string) (a : Service) : Prop :=
  is_valid_room_name name = true /\ (N.of_nat (size (halls a)) < MAX_ROOMS)%N /\
  forall id h, halls a !! id = Some h ->
    normalized_room_name (hall_name h) <> normalized_room_name name.

(** Somebody who is present, or the host, has a nickname. *)
Definition taken (nick : string) (a : Service) : Prop :=
  nick = host a \/ exists t, t ∈ present a /\ people a !! t = Some nick.

(* ===================================================================== *)
(** * Rules *)

Inductive Actor := Guest (s : SessionId) | Console | Network.

Section rules.
Context `{Platform}.

(** A guest binds a nickname that nobody has bound, and signs in with a bound
    nickname that is neither banned nor taken. Signed in, it founds rooms as their
    owner, speaks and is announced under its nickname, and enters rooms. Only in
    rooms it owns does it change the topic and remove members. A session that is
    not present any more may be taken out of any room. *)
Inductive guest_does (s : SessionId) (a : Service) : Service -> Prop :=
| guest_binds nick key : keys a !! nick = None ->
    guest_does s a (with_keys (<[nick := key]> (keys a)) a)
| guest_signs_in nick key : people a !! s = None -> nick <> "" -> keys a !! nick = Some key ->
    nick ∉ banned a -> ~ taken nick a ->
    guest_does s a (with_people (<[s := nick]> (people a)) a)
| guest_founds nick name : people a !! s = Some nick -> available name a ->
    guest_does s a (found_hall name nick a)
| guest_retitles id h topic : halls a !! id = Some h -> people a !! s = Some (hall_owner h) ->
    is_valid_room_topic topic = true -> guest_does s a (change_topic id (hall_owner h) topic a)
| guest_says nick id reading body : people a !! s = Some nick -> is_valid_chat_message body = true ->
    guest_does s a (record_line id (chat_line reading nick body) a)
| guest_announced nick id x : people a !! s = Some nick ->
    guest_does s a (record_line id (notice nick x) a)
| guest_enters nick id : people a !! s = Some nick -> guest_does s a (enter_hall s id a)
| guest_leaves id : guest_does s a (leave_hall s id a)
| guest_departs : guest_does s a (depart s a)
| guest_evicts id h t : halls a !! id = Some h -> people a !! s = Some (hall_owner h) ->
    t ∈ hall_members h -> t <> s -> guest_does s a (depart t a)
| guest_tells_kick id h nick reason : halls a !! id = Some h ->
    people a !! s = Some (hall_owner h) ->
    guest_does s a (record_line id (kick_notice nick reason) a)
| guest_cleans t id : t ∉ present a -> guest_does s a (leave_hall t id a).

(** The consoles moderate every room, and ban. They rename nobody, bind no nickname
    again, and let nobody in. *)
Inductive console_does (a : Service) : Service -> Prop :=
| console_binds nick key : keys a !! nick = None ->
    console_does a (with_keys (<[nick := key]> (keys a)) a)
| console_founds name owner : owner = host a \/ owner = "" -> available name a ->
    console_does a (found_hall name owner a)
| console_retitles id actor topic : is_valid_room_topic topic = true ->
    console_does a (change_topic id actor topic a)
| console_says id line : console_does a (record_line id line a)
| console_evicts t : console_does a (depart t a)
| console_cleans t id : t ∉ present a -> console_does a (leave_hall t id a)
| console_bans nick : console_does a (with_banned ({[nick]} ∪ banned a) a)
| console_unbans nick : console_does a (with_banned (banned a ∖ {[nick]}) a).

Inductive network_does (a : Service) : Service -> Prop :=
| network_accepts s : people a !! s = None ->
    network_does a (with_present ({[s]} ∪ present a) a)
| network_closes : network_does a (close_service a).

Definition does (who : Actor) : Service -> Service -> Prop :=
  match who with
  | Guest s => guest_does s
  | Console => console_does
  | Network => network_does
  end.

(* ===================================================================== *)
(** * Consequences *)

(** Rooms keep their name and owner, whatever happens to the rest. *)
Definition same_hall (h h' : Hall) : Prop :=
  hall_name h' = hall_name h /\ hall_owner h' = hall_owner h.

(** What one guest can change about the others: no ban, no other nickname, no bound
    key; of the rooms that exist, only the topics of its own; no other session
    enters a room, those that stay present stay in theirs, and one that departs was
    in a room of the guest. *)
Record bounded (s : SessionId) (a a' : Service) : Prop := {
  kept_bans : banned a' = banned a;
  kept_host : host a' = host a;
  kept_capacity : capacity a' = capacity a;
  kept_keys : keys a ⊆ keys a';
  kept_people : forall t, t <> s -> people a' !! t = people a !! t;
  kept_name : forall nick, people a !! s = Some nick -> people a' !! s = Some nick;
  kept_halls : forall id h, halls a !! id = Some h -> exists h', halls a' !! id = Some h' /\
    same_hall h h' /\ (hall_topic h' = hall_topic h \/ people a' !! s = Some (hall_owner h));
  kept_new : forall id h', halls a' !! id = Some h' -> is_Some (halls a !! id) \/
    people a' !! s = Some (hall_owner h');
  kept_members : forall t id h', t <> s -> halls a' !! id = Some h' -> t ∈ hall_members h' ->
    exists h, halls a !! id = Some h /\ t ∈ hall_members h;
  kept_stay : forall t id h, t <> s -> halls a !! id = Some h -> t ∈ hall_members h ->
    t ∈ present a' -> exists h', halls a' !! id = Some h' /\ t ∈ hall_members h';
  kept_present : forall t, t <> s -> t ∈ present a' -> t ∈ present a;
  kept_gone : forall t, t <> s -> t ∈ present a -> t ∉ present a' ->
    exists id h, halls a !! id = Some h /\ t ∈ hall_members h /\
      people a' !! s = Some (hall_owner h);
}.

(** Numbers of rooms are given out once. *)
Definition orderly (a : Service) : Prop :=
  (forall id h, halls a !! id = Some h -> (id < next_hall a)%N) /\
  (next_hall a <= 2 ^ 63 + N.of_nat (size (halls a)))%N /\
  (N.of_nat (size (halls a)) <= MAX_ROOMS)%N.

Lemma orderly_in_hall id f a : orderly a -> orderly (in_hall id f a).
Proof.
  intros (Hi & Hn & Hs). unfold orderly. cbn. rewrite size_alter. split_and!; [|done..].
  intros i h Hh. apply mk_is_Some in Hh. rewrite lookup_alter_is_Some in Hh.
  destruct Hh as [h' Hh]. eauto.
Qed.

Lemma next_free a : orderly a -> halls a !! next_hall a = None.
Proof.
  intros (Hi & _). destruct (halls a !! next_hall a) as [h|] eqn:E; [|done].
  apply Hi in E. lia.
Qed.

Lemma orderly_found name owner a : available name a -> orderly a -> orderly (found_hall name owner a).
Proof.
  intros (_ & Hm & _) Ho. pose proof (next_free a Ho) as Hf. destruct Ho as (Hi & Hn & Hs).
  unfold orderly. cbn. rewrite map_size_insert_None by done. split_and!; [|lia..].
  intros id h. destruct (decide (next_hall a = id)) as [<-|Hne]; [intros _; lia|].
  rewrite lookup_insert_ne by done. intros Hh%Hi. lia.
Qed.

Lemma orderly_guest s a a' : guest_does s a a' -> orderly a -> orderly a'.
Proof.
  intros Hd Ho. destruct Hd; try exact Ho; unfold change_topic, record_line, enter_hall, leave_hall;
    auto using orderly_in_hall, orderly_found.
Qed.
Lemma orderly_console a a' : console_does a a' -> orderly a -> orderly a'.
Proof.
  intros Hd Ho. destruct Hd; try exact Ho; unfold change_topic, record_line, enter_hall, leave_hall;
    auto using orderly_in_hall, orderly_found.
Qed.

Lemma kept_refl s a : bounded s a a.
Proof. split; eauto; [intros id h Hh; exists h; by unfold same_hall; auto|naive_solver]. Qed.

Lemma kept_trans s a b c : bounded s a b -> bounded s b c -> bounded s a c.
Proof.
  intros AB BC. split.
  - etrans; [apply BC|apply AB].
  - etrans; [apply BC|apply AB].
  - etrans; [apply BC|apply AB].
  - etrans; [apply AB|apply BC].
  - intros t Ht. by rewrite (kept_people _ _ _ BC), (kept_people _ _ _ AB).
  - intros nick Hn. by apply BC, AB.
  - intros id h Hh. destruct (kept_halls _ _ _ AB id h Hh) as (h' & Hh' & [En Eo] & Ht).
    destruct (kept_halls _ _ _ BC id h' Hh') as (h'' & Hh'' & [En' Eo'] & Ht').
    exists h''. split; [done|]. split; [split; congruence|].
    destruct Ht' as [->|Ht']; [|right; congruence].
    destruct Ht as [->|Ht]; [by left|right]. by apply BC.
  - intros id h'' Hh''. destruct (kept_new _ _ _ BC id h'' Hh'') as [[h' Hh']|?]; [|by right].
    destruct (kept_new _ _ _ AB id h' Hh') as [?|Ho]; [by left|right].
    destruct (kept_halls _ _ _ BC id h' Hh') as (x & Hx & [_ Eo] & _).
    rewrite Hh'' in Hx. injection Hx as <-. rewrite Eo. by apply BC.
  - intros t id h'' Ht Hh'' Hin.
    destruct (kept_members _ _ _ BC t id h'' Ht Hh'' Hin) as (h' & Hh' & Hin').
    exact (kept_members _ _ _ AB t id h' Ht Hh' Hin').
  - intros t id h Ht Hh Hin Hc. pose proof (kept_present _ _ _ BC t Ht Hc) as Hb.
    destruct (kept_stay _ _ _ AB t id h Ht Hh Hin Hb) as (h' & Hh' & Hin').
    exact (kept_stay _ _ _ BC t id h' Ht Hh' Hin' Hc).
  - intros t Ht Hc. apply (kept_present _ _ _ AB t Ht), (kept_present _ _ _ BC t Ht Hc).
  - intros t Ht Ha Hc. destruct (decide (t ∈ present b)) as [Hb|Hb].
    + destruct (kept_gone _ _ _ BC t Ht Hb Hc) as (id & h' & Hh' & Hin & Ho).
      destruct (kept_members _ _ _ AB t id h' Ht Hh' Hin) as (h & Hh & Hin').
      exists id, h. split_and!; [done..|].
      destruct (kept_halls _ _ _ AB id h Hh) as (x & Hx & [_ Eo] & _).
      rewrite Hh' in Hx. injection Hx as <-. congruence.
    + destruct (kept_gone _ _ _ AB t Ht Ha Hb) as (id & h & Hh & Hin & Ho).
      exists id, h. split_and!; [done..|]. by apply BC.
Qed.

(** A change of one room that keeps its name, and its topic unless the guest owns it. *)
Lemma kept_in_hall s id f a :
  (forall h, halls a !! id = Some h -> same_hall h (f h) /\
     (hall_topic (f h) = hall_topic h \/ people a !! s = Some (hall_owner h)) /\
     (forall t, t <> s -> t ∈ hall_members (f h) -> t ∈ hall_members h) /\
     (forall t, t <> s -> t ∈ present a -> t ∈ hall_members h -> t ∈ hall_members (f h))) ->
  bounded s a (in_hall id f a).
Proof.
  intros Hf. split; try done; cbn; auto.
  - intros i h Hh. rewrite lookup_alter. case_decide; subst.
    + rewrite Hh. exists (f h). destruct (Hf h Hh) as (? & ? & _). auto.
    + exists h. by unfold same_hall; auto.
  - intros i h' Hh'. left. apply mk_is_Some in Hh'. by rewrite lookup_alter_is_Some in Hh'.
  - intros t i h' Ht. rewrite lookup_alter. case_decide; subst; [|eauto].
    intros (h & Hh & ->)%fmap_Some Hin. exists h. split; [done|]. by apply (Hf h Hh).
  - intros t i h Ht Hh Hin Hp. rewrite lookup_alter. case_decide; subst; [|eauto].
    rewrite Hh. exists (f h). split; [done|]. by apply (Hf h Hh).
Qed.

(** Somebody departs: the guest, or a member of a room it owns. *)
Lemma kept_depart s t a :
  (t <> s -> exists id h, halls a !! id = Some h /\ t ∈ hall_members h /\
     people a !! s = Some (hall_owner h)) ->
  bounded s a (depart t a).
Proof.
  intros Ht. destruct (kept_refl s a) as [_ _ _ _ _ _ Hhs Hnw Hm Hst Hpr Hg]. split; try done; cbn.
  - intros t' id h Ht' Hh Hin _. eauto.
  - by intros t' _ [? _]%elem_of_difference.
  - intros t' Hs Hin Hout. destruct (decide (t' = t)) as [->|Hne]; [by apply Ht|].
    exfalso. apply Hout, elem_of_difference. by rewrite elem_of_singleton.
Qed.

Lemma guest_keeps_bounds_step s a a' : orderly a -> guest_does s a a' -> bounded s a a'.
Proof.
  intros Ho Hd. destruct Hd as [nick key Hk|nick key Hp Hne Hk Hb Ht|nick name Hp Hav|
    id h topic Hh Hp Hv|nick id reading body Hp Hv|nick id x Hp|nick id Hp|id| |
    id h t Hh Hp Hin Hne|id h nick reason Hh Hp|t id Ht].
  - destruct (kept_refl s a). split; try done. by apply insert_subseteq.
  - destruct (kept_refl s a) as [_ _ _ _ _ _ Hhs Hnw Hm Hst Hpr Hg].
    split; try done; cbn.
    + intros t Hne'. by rewrite lookup_insert_ne.
    + congruence.
    + intros id h Hh. exists h. unfold same_hall. auto.
    + eauto.
  - pose proof (next_free a Ho) as Hf.
    destruct (kept_refl s a) as [_ _ _ _ _ _ Hhs Hnw Hm Hst Hpr Hg]. split; try done; cbn.
    + intros id h Hh. rewrite lookup_insert_ne by congruence. by apply Hhs.
    + intros id h. destruct (decide (next_hall a = id)) as [<-|Hne].
      * rewrite lookup_insert_eq. intros [= <-]. by right.
      * rewrite lookup_insert_ne by done. eauto.
    + intros t id h Ht. destruct (decide (next_hall a = id)) as [<-|Hne].
      * rewrite lookup_insert_eq. by intros [= <-].
      * rewrite lookup_insert_ne by done. eauto.
    + intros t id h Ht Hh. rewrite lookup_insert_ne by congruence. eauto.
  - eapply kept_trans; apply kept_in_hall; cbn.
    + intros h' Hh'. rewrite Hh' in Hh. injection Hh as ->. unfold same_hall. auto.
    + unfold same_hall. auto.
  - apply kept_in_hall. unfold same_hall. auto.
  - apply kept_in_hall. unfold same_hall. auto.
  - apply kept_in_hall. intros h _. unfold same_hall. cbn. split_and!; [auto..|].
    + by intros t Ht [->%elem_of_singleton|Hin]%elem_of_union.
    + intros t _ _ Hin. apply elem_of_union. by right.
  - apply kept_in_hall. intros h _. unfold same_hall. cbn. split_and!; [auto..|].
    + by intros t Ht [? _]%elem_of_difference.
    + intros t Ht _ Hin. apply elem_of_difference. by rewrite elem_of_singleton.
  - by apply kept_depart.
  - apply kept_depart. eauto.
  - apply kept_in_hall. unfold same_hall. auto.
  - apply kept_in_hall. intros h _. unfold same_hall. cbn. split_and!; [auto..|].
    + by intros t' _ [? _]%elem_of_difference.
    + intros t' _ Hp Hin. apply elem_of_difference. split; [done|]. by intros ->%elem_of_singleton.
Qed.

(** Whatever a guest does, one step after the other, it stays within these bounds. *)
Lemma guest_keeps_bounds s a a' : rtc (guest_does s) a a' -> orderly a -> bounded s a a'.
Proof.
  induction 1 as [a|a b c Hd _ IH]; intros Ho; [apply kept_refl|].
  eapply kept_trans; [by apply guest_keeps_bounds_step|]. apply IH. by eapply orderly_guest.
Qed.

(** A guest lets nobody in. *)
Lemma guest_admits_nobody s a a' : rtc (guest_does s) a a' -> present a' ⊆ present a.
Proof.
  induction 1 as [a|a b c Hd _ IH]; [done|]. etrans; [exact IH|].
  destruct Hd; try done; cbn; by apply subseteq_difference_l.
Qed.
End rules.
