(* ===== verification/ServiceProperties.v ===== *)
(** The chat server implements the service of [Service.v]: forgetting buffers, tasks,
    storage and logs, everything a session's handlers do is a sequence of steps that
    guest may take, and everything the consoles do one they may take. *)

From S2P Require Import Prelude Frame Message Utils AppState StorageApi World.
From S2P Require Import ChatServer ClientSession ServerInvariant ServerBoot ServerSteps Walk Stability.
From S2P Require Import Service.
Local Open Scope string_scope.
Local Open Scope chat_scope.

Definition hall_of (r : Room) : Hall :=
  MkHall (room_name r) (room_topic r) (owner_nickname r) (recent_messages r) (members r).
Definition name_of (x : ClientSession) : option string :=
  if sempty (nickname_ x) then None else Some (nickname_ x).

Section refinement.
Context {S : Type} `{ServerStorage S} `{Sodium} `{Platform}.
Abbreviation W := (World S).

Definition service_of (w : W) : Service :=
  let c := server w in
  MkService (hall_of <$> rooms_ c) (next_room_id_ c) (identities_ c) (banned_nicks_ c)
    (omap name_of (heap w)) (sessions_ c) (local_nickname_ c) (history_limit_ c).

(* ===================================================================== *)
(** * What the primitives do to the service *)

Lemma service_core (w w' : W) : core w' = core w -> service_of w' = service_of w.
Proof. unfold core, service_of. by intros [= -> ->]. Qed.

Lemma service_frames {A} (m : M W A) (w : W) : frames core m -> service_of (m w).2 = service_of w.
Proof. intros Hm. apply service_core, Hm. Qed.

Lemma service_session s f (w : W) :
  (forall x, nickname_ (f x) = nickname_ x) -> service_of (on_session s f w).2 = service_of w.
Proof.
  intros Hf. unfold service_of. cbn. f_equal. apply map_eq. intros t. rewrite !lookup_omap.
  destruct (decide (s = t)) as [<-|Hne]; [|by rewrite lookup_insert_ne].
  rewrite lookup_insert_eq. cbn. unfold session, name_of. rewrite Hf.
  destruct (heap w !! s) as [x|]; done.
Qed.

Lemma people_nickname s (w : W) :
  people (service_of w) !! s = if sempty (nickname w s) then None else Some (nickname w s).
Proof.
  cbn. rewrite lookup_omap. unfold nickname, session. by destruct (heap w !! s).
Qed.
Lemma people_named s n (w : W) : nickname w s = n -> n <> "" -> people (service_of w) !! s = Some n.
Proof. intros <- Hn. rewrite people_nickname. by apply sempty_false in Hn as ->. Qed.

Lemma halls_lookup id (w : W) : halls (service_of w) !! id = hall_of <$> rooms_ (server w) !! id.
Proof. apply lookup_fmap. Qed.

Lemma service_room id f g (w : W) : (forall r, hall_of (f r) = g (hall_of r)) ->
  service_of (on_room id f w).2 = in_hall id g (service_of w).
Proof.
  intros Hf. unfold service_of, in_hall, with_halls. cbn. f_equal. apply map_eq. intros i.
  rewrite lookup_fmap, !lookup_alter, !lookup_fmap. case_decide; [|done].
  destruct (rooms_ (server w) !! id) as [r|]; [|done]. cbn. by rewrite Hf.
Qed.

Lemma in_hall_absent id f a : halls a !! id = None -> in_hall id f a = a.
Proof.
  intros Hid. unfold in_hall. assert (alter f id (halls a) = halls a) as ->; [|by destruct a].
  apply map_eq. intros i. rewrite lookup_alter. case_decide; [subst|done]. by rewrite Hid.
Qed.

Lemma service_line id msg nick (w : W) :
  service_of (broadcast_room id msg nick w).2 = record_line id msg (service_of w).
Proof.
  unfold broadcast_room. run_get. destruct (rooms_ (server w) !! id) as [room|] eqn:Er.
  2: { cbn [ret snd]. symmetry. apply in_hall_absent. by rewrite halls_lookup, Er. }
  rewrite bind_snd, service_frames; [|frames_tac].
  unfold service_of, record_line, in_hall, with_halls. cbn. f_equal. apply map_eq. intros i.
  rewrite lookup_fmap, !lookup_alter, !lookup_fmap. case_decide; subst; [|done]. by rewrite Er.
Qed.

Lemma service_quit s (w : W) : service_of (on_server (quit s) w).2 = depart s (service_of w).
Proof. done. Qed.
Lemma service_without s id (w : W) :
  service_of (on_room id (without_member s) w).2 = leave_hall s id (service_of w).
Proof. by apply service_room. Qed.
Lemma service_with s id (w : W) :
  service_of (on_room id (with_member s) w).2 = enter_hall s id (service_of w).
Proof. by apply service_room. Qed.

Lemma service_topic id topic (w : W) :
  service_of ((on_room id (with_topic topic) ;;;
    with_storage (StorageApi.update_stored_topic id topic)) w).2
  = in_hall id (hall_with_topic topic) (service_of w).
Proof. rewrite bind_snd, service_frames by auto with chat_frames. by apply service_room. Qed.

Lemma service_set_nickname s nick (w : W) : nick <> "" ->
  service_of (set_nickname s nick w).2 = with_people (<[s := nick]> (people (service_of w))) (service_of w).
Proof.
  intros Hn. unfold service_of, with_people, set_nickname. cbn. f_equal. apply map_eq. intros t.
  rewrite lookup_omap. destruct (decide (s = t)) as [<-|Hne].
  - rewrite !lookup_insert_eq. cbn. unfold name_of. cbn. by apply sempty_false in Hn as ->.
  - rewrite !lookup_insert_ne by done. by rewrite lookup_omap.
Qed.

Lemma frames_core_save_identities : frames core (save_identities_locked (S:=S)).
Proof.
  unfold save_identities_locked. frames_tac. unfold write_file.
  apply frames_core_modify; intros w; by destruct (can_write _).
Qed.
Lemma frames_core_save_bans : frames core (save_bans (S:=S)).
Proof.
  unfold save_bans. frames_tac. unfold write_file.
  apply frames_core_modify; intros w; by destruct (can_write _).
Qed.

Lemma service_bind nick key (w : W) :
  service_of (bind_identity nick key w).2 = service_of w \/
  keys (service_of w) !! nick = None /\
  service_of (bind_identity nick key w).2
    = with_keys (<[nick := key]> (keys (service_of w))) (service_of w).
Proof.
  unfold bind_identity. run_get. destruct (identities_ (server w) !! nick) eqn:E; [by left|].
  right. split; [exact E|]. rewrite !bind_snd, service_frames by apply frames_ret.
  rewrite service_frames by auto with chat_frames.
  rewrite service_frames; [done|]. destruct (has_storage w);
    auto using frames_core_save_identities with chat_frames.
Qed.

Lemma service_ban nick reason (w : W) :
  service_of (record_ban nick reason w).2 = with_banned ({[nick]} ∪ banned (service_of w)) (service_of w).
Proof.
  unfold record_ban. rewrite bind_snd. run_get. rewrite service_frames; [done|].
  destruct (has_storage _); [frames_tac|apply frames_core_save_bans].
Qed.
Lemma service_unban nick (w : W) :
  service_of (unban_user nick w).2 = with_banned (banned (service_of w) ∖ {[nick]}) (service_of w).
Proof.
  unfold unban_user. run_get. rewrite !bind_snd, service_frames by apply frames_ret.
  rewrite service_frames; [done|]. destruct (is_banned (server w) nick); [|apply frames_ret].
  apply frames_bind; [|auto with chat_frames]. destruct (has_storage w); [auto with chat_frames|].
  apply frames_core_save_bans.
Qed.

(** A room that may be created may be founded. *)
Lemma creation_available name (w : W) :
  room_creation_error (server w) name = None -> available name (service_of w).
Proof.
  intros (Hv & Hs & Hf)%room_creation_ok. split; [done|]. split.
  - cbn. by rewrite map_size_fmap.
  - intros id h. rewrite halls_lookup. intros (r & Hr & ->)%fmap_Some. by eapply find_room_None.
Qed.

Lemma service_emplace name owner (w : W) : orderly (service_of w) ->
  room_creation_error (server w) name = None ->
  service_of (on_server (emplace_room name owner) w).2 = found_hall name owner (service_of w).
Proof.
  intros Ho (_ & Hs & _)%room_creation_ok. pose proof (next_free _ Ho) as E.
  rewrite halls_lookup in E. apply fmap_None in E. cbn in E.
  destruct Ho as (_ & Hn & _). cbn in Hn. rewrite map_size_fmap in Hn.
  unfold service_of, found_hall, emplace_room. cbn. rewrite E. cbn. f_equal.
  - by rewrite fmap_insert.
  - unfold MAX_ROOMS in Hs. unfold u64. rewrite N.mod_small by lia. done.
Qed.

Lemma fresh_orderly (w : W) : fresh (server w) -> orderly (service_of w).
Proof.
  intros (_ & Hi & Hn & Hm). unfold orderly. cbn. rewrite map_size_fmap. split_and!; [|done..].
  intros id h. rewrite lookup_fmap. intros (r & Hr & _)%fmap_Some. by apply (Hi id r).
Qed.

Lemma service_found name owner (w : W) : orderly (service_of w) ->
  room_creation_error (server w) name = None ->
  service_of ((on_server (emplace_room name owner) ;;; persist_room (next_room_id_ (server w))) w).2
  = found_hall name owner (service_of w).
Proof.
  intros Ho E. rewrite bind_snd, service_frames by apply frames_core_persist_room.
  by apply service_emplace.
Qed.

Lemma service_admin_room name (w : W) : orderly (service_of w) ->
  service_of (create_admin_room name w).2 = service_of w \/
  available name (service_of w) /\
  service_of (create_admin_room name w).2 = found_hall name "" (service_of w).
Proof.
  intros Ho. unfold create_admin_room. run_get.
  destruct (room_creation_error (server w) name) as [e|] eqn:E; [by left|right].
  split; [by apply creation_available|]. rewrite bind_snd. rewrite service_frames.
  - by apply service_emplace.
  - pose proof frames_core_persist_room. frames_tac. unfold broadcast_room_lists. frames_tac.
Qed.

Lemma service_set_topic id actor privileged topic (w : W) :
  let w' := (set_topic_for_room id actor privileged topic w).2 in
  service_of w' = service_of w \/
  is_valid_room_topic topic = true /\ (exists h, halls (service_of w) !! id = Some h /\
    (privileged = true \/ hall_owner h = actor)) /\
  service_of w' = change_topic id actor topic (service_of w).
Proof.
  cbv zeta. unfold set_topic_for_room. destruct (is_valid_room_topic topic); [|by left]. cbn [negb].
  run_get. destruct (rooms_ (server w) !! id) as [r|] eqn:Er; [|by left].
  destruct (negb privileged && _)%bool eqn:Ep; [by left|right]. split; [done|]. split.
  - exists (hall_of r). rewrite halls_lookup, Er. split; [done|].
    destruct privileged; [by left|right]. cbn in Ep. by apply negb_false_iff, String.eqb_eq in Ep.
  - rewrite !bind_snd, service_frames by apply frames_ret. rewrite service_line.
    unfold change_topic. f_equal. rewrite service_frames by frames_tac.
    rewrite service_frames by frames_tac. rewrite <- (service_topic id topic w). by rewrite bind_snd.
Qed.

(* ===================================================================== *)
(** * Sequences of steps *)

Section reached.
Context (R : Service -> Service -> Prop) (a0 : Service).
Context (cleans : forall a t id, t ∉ present a -> R a (leave_hall t id a)).

Definition reached (w : W) : Prop := rtc R a0 (service_of w).

Lemma reached_same (w w' : W) : service_of w' = service_of w -> reached w -> reached w'.
Proof. unfold reached. by intros ->. Qed.
Lemma reached_step a (w w' : W) : service_of w' = a -> R (service_of w) a -> reached w -> reached w'.
Proof. unfold reached. intros -> HR Hw. by eapply rtc_r. Qed.

Lemma reached_base : base reached.
Proof.
  split.
  - intros w w' Hc _ _. by apply reached_same, service_core.
  - intros t w. by apply reached_same.
  - intros s f Hf w. apply reached_same, service_session. intros x. apply Hf.
  - intros s id w Hs. eapply reached_step; [apply service_without|by apply cleans].
Qed.

Context (orderly_kept : forall a a', R a a' -> orderly a -> orderly a') (Ho : orderly a0).

Lemma reached_orderly (w : W) : reached w -> orderly (service_of w).
Proof. unfold reached. induction 1; eauto. Qed.
End reached.

(* ===================================================================== *)
(** * A session is a guest *)

Section guest.
Context (s : SessionId) (a0 : Service) (Ho : orderly a0).

Definition hosted_as (n : string) (w : W) : Prop :=
  reached (guest_does s) a0 w /\ nickname w s = n.

Lemma guest_orderly (w : W) : reached (guest_does s) a0 w -> orderly (service_of w).
Proof. intros Hw. by eapply reached_orderly; [apply orderly_guest|..]. Qed.

(** One step of the guest, by an operation that leaves its nickname alone. *)
Lemma hosted_step {A} n a (m : M W A) (w : W) :
  hosted_as n w -> keeps (fun w => nickname w s = n) m ->
  service_of (m w).2 = a -> guest_does s (service_of w) a -> hosted_as n (m w).2.
Proof. intros [Hw Hn] Hm Ha Hd. split; [by eapply reached_step|by apply Hm]. Qed.

Lemma hosted_people n (w : W) : n <> "" -> hosted_as n w -> people (service_of w) !! s = Some n.
Proof. intros Hn [_ Hw]. by apply people_named. Qed.

Lemma hosted_base n : base (hosted_as n).
Proof.
  apply base_and; [apply reached_base; apply guest_cleans|apply stable_base, stable_nickname].
Qed.

(** The room a guest moderates. *)
Definition owned (id : RoomId) (n : string) (a : Service) : Prop :=
  exists h, halls a !! id = Some h /\ hall_owner h = n.

Lemma owned_in_hall id n i f a :
  (forall h, hall_owner (f h) = hall_owner h) -> owned id n a -> owned id n (in_hall i f a).
Proof.
  intros Hf (h & Hh & En). unfold owned. cbn. rewrite lookup_alter.
  case_decide; subst; rewrite Hh; cbn; eauto.
Qed.

Lemma owned_base id n : base (fun w => owned id n (service_of w)).
Proof.
  split.
  - intros w w' Hc _ _. by rewrite (service_core w w' Hc).
  - by intros t w.
  - intros t f Hf w. rewrite service_session; [done|]. intros x. apply Hf.
  - intros t i w _. rewrite service_without. by apply owned_in_hall.
Qed.

Lemma guest_kicks n nick reason : n <> "" -> keeps (hosted_as n) (kick_from s nick reason).
Proof.
  intros Hn w HQ. unfold kick_from. run_get. rewrite (proj2 HQ).
  destruct (rooms_ (server w) !! active_room_of w s) as [room|] eqn:Er; [|exact HQ].
  destruct (String.eqb_spec (owner_nickname room) n) as [Eo|]; [|exact HQ]. cbn [negb].
  destruct (String.eqb_spec nick n) as [|Ene]; [exact HQ|]. rewrite bind_snd.
  set (id := active_room_of w s) in *. clearbody id.
  assert (hosted_as n w /\ owned id n (service_of w)) as HQ1.
  { split; [done|]. exists (hall_of room). by rewrite halls_lookup, Er. }
  pose proof (base_and _ _ (hosted_base n) (owned_base id n)) as B.
  refine (proj1 (st_kick_in _ B id nick reason w _ _ HQ1)).
  - intros r t w' Hr Ht Et Hc [HQ' Ho']. split; [|exact Ho'].
    eapply (hosted_step n _ (on_server (quit t))); [done|by intros w1|apply service_quit|].
    rewrite (service_core w w' Hc). rewrite Er in Hr. injection Hr as <-.
    apply (guest_evicts _ _ id (hall_of room)); [by rewrite halls_lookup, Er| |done|].
    + cbn [hall_of hall_owner]. rewrite Eo. by apply hosted_people.
    + intros ->. apply Ene. rewrite <- Et. apply HQ.
  - intros w' [HQ' Ho']. split.
    + eapply (hosted_step n); [done|apply stable_broadcast_room, stable_nickname|apply service_line|].
      destruct Ho' as (h & Hh & Eoh). apply (guest_tells_kick _ _ id h); [done|].
      rewrite Eoh. by apply hosted_people.
    + rewrite service_line. by apply owned_in_hall.
Qed.

Lemma session_is_guest : guest s hosted_as.
Proof.
  pose proof (fun n => stable_nickname (S:=S) s n) as Sn. split.
  - apply hosted_base.
  - by intros n w [_ ?].
  - intros n w HQ. eapply (hosted_step n); [done|by intros w1|apply service_quit|apply guest_departs].
  - intros n id w HQ. eapply (hosted_step n); [done|by intros w1|apply service_without|apply guest_leaves].
  - intros n id Hn w HQ. eapply (hosted_step n); [done|by intros w1|apply service_with|].
    apply (guest_enters _ _ n). by apply hosted_people.
  - intros n id x Hn w HQ.
    eapply (hosted_step n); [done|apply (stable_broadcast_room _ (Sn n))|apply service_line|].
    apply guest_announced. by apply hosted_people.
  - intros n id reading body Hn Hb w HQ.
    eapply (hosted_step n); [done|apply (stable_broadcast_room _ (Sn n))|apply service_line|].
    apply guest_says; [by apply hosted_people|done].
  - intros n id topic Hn w HQ. pose proof (hosted_people n w Hn HQ) as Hp.
    pose proof (stable_topic _ (Sn n) id n false topic) as Hk.
    destruct (service_set_topic id n false topic w) as [E|(Hv & (h & Hh & [?|<-]) & E)]; [|done|].
    + split; [apply (reached_same _ _ w); [done|apply HQ]|apply Hk, HQ].
    + eapply hosted_step; [done..|]. by apply guest_retitles.
  - intros n nick reason Hn. by apply guest_kicks.
  - intros n name w Hn E HQ.
    split; [|by apply (stable_found _ (Sn n)), HQ].
    eapply reached_step; [apply service_found; [apply guest_orderly, HQ|done]| |apply HQ].
    apply guest_founds; [by apply hosted_people|by apply creation_available].
  - intros n nick key w HQ. pose proof (stable_bind _ (Sn n) nick key) as Hk.
    destruct (service_bind nick key w) as [E|[Hno E]].
    + split; [apply (reached_same _ _ w); [done|apply HQ]|apply Hk, HQ].
    + eapply hosted_step; [done..|]. by apply guest_binds.
Qed.

Lemma free_not_taken nick (w : W) : nick <> "" ->
  nickname_taken w nick = false -> ~ taken nick (service_of w).
Proof.
  intros Hne [Hl Hs]%nickname_taken_false [->|(t & Ht & Hp)].
  - by apply (Hl Hne).
  - rewrite people_nickname in Hp. destruct (sempty _); [done|]. injection Hp as Hp.
    by apply (Hs t).
Qed.

Lemma session_signs_in nick key (w : W) : nick <> "" -> hosted_as "" w ->
  identities_ (server w) !! nick = Some key -> is_banned (server w) nick = false ->
  nickname_taken w nick = false -> hosted_as nick (set_nickname s nick w).2.
Proof.
  intros Hne [Hw Hn] Hk Hb Ht. split; [|by apply set_nickname_sets].
  eapply reached_step; [by apply service_set_nickname| |exact Hw].
  apply (guest_signs_in _ _ nick key); [|done..| |by apply free_not_taken].
  - by rewrite people_nickname, Hn.
  - by apply bool_decide_eq_false in Hb.
Qed.

(** From any state, every callback of the session is a sequence of a guest's steps. *)
Lemma guest_reached {A} (m : M W A) (w : W) : service_of w = a0 ->
  (forall n, hosted_as n w -> exists n', hosted_as n' (m w).2) ->
  rtc (guest_does s) a0 (service_of (m w).2).
Proof.
  intros E Hm. destruct (Hm (nickname w s)) as (n' & HQ & _); [|exact HQ].
  split; [|done]. unfold reached. by rewrite E.
Qed.
End guest.

(* ===================================================================== *)
(** * The consoles and the network *)

Section console.
Context (a0 : Service) (Ho : orderly a0).

Lemma console_orderly (w : W) : reached console_does a0 w -> orderly (service_of w).
Proof. intros Hw. by eapply reached_orderly; [apply orderly_console|..]. Qed.

Lemma console_is_operator : operator (reached console_does a0).
Proof.
  split.
  - apply reached_base, console_cleans.
  - intros s w. eapply reached_step; [apply service_quit|apply console_evicts].
  - intros id w. by apply reached_same.
  - intros id msg nick w. eapply reached_step; [apply service_line|apply console_says].
  - intros id actor privileged topic w Hw.
    destruct (service_set_topic id actor privileged topic w) as [E|(Hv & _ & E)].
    + by eapply reached_same.
    + eapply reached_step; [exact E|by apply console_retitles|done].
  - intros nick key w Hw. destruct (service_bind nick key w) as [E|[Hno E]].
    + by eapply reached_same.
    + eapply reached_step; [exact E|by apply console_binds|done].
  - intros name w E Hw. eapply reached_step; [by apply service_found; [apply console_orderly|]| |done].
    apply console_founds; [by left|by apply creation_available].
  - intros name w Hw. destruct (service_admin_room name w (console_orderly w Hw)) as [E|[Ha E]].
    + by eapply reached_same.
    + eapply reached_step; [exact E|apply console_founds; [by right|done]|done].
  - intros nick reason w. eapply reached_step; [apply service_ban|apply console_bans].
  - intros nick w. eapply reached_step; [apply service_unban|apply console_unbans].
Qed.
End console.

Lemma service_stop (w : W) : service_of (run_stop w).2 = close_service (service_of w).
Proof.
  unfold run_stop. rewrite bind_snd. run_get. do 2 rewrite bind_snd. rewrite bind_snd.
  rewrite service_frames.
  2: { intros w1. unfold flush_storage, modify. cbn. by destruct (storage_ w1). }
  rewrite service_frames by frames_tac.
  unfold service_of, close_service, with_present, with_halls. cbn. f_equal.
  rewrite <- !map_fmap_compose. by apply map_fmap_ext.
Qed.

Lemma service_accept s (w : W) : heap w !! s = None ->
  service_of (accept s w).2 = with_present ({[s]} ∪ present (service_of w)) (service_of w).
Proof.
  intros Hs. unfold accept. rewrite !bind_snd, service_session by done.
  unfold service_of, with_present. cbn. f_equal. apply map_eq. intros t. rewrite !lookup_omap.
  destruct (decide (s = t)) as [<-|Hne]; [by rewrite lookup_insert_eq, Hs|].
  by rewrite lookup_insert_ne.
Qed.

(* ===================================================================== *)
(** * The theorems *)

(** The service goes from one state to another by steps of one party. *)
Definition refines (who : Actor) (w w' : W) : Prop :=
  rtc (does who) (service_of w) (service_of w').

Lemma line_refines s line (w : W) :
  orderly (service_of w) -> refines (Guest s) w (on_line s line w).2.
Proof.
  intros Ho. apply (guest_reached s (service_of w)); [done|]. intros n HQ.
  refine (gw_line s _ (session_is_guest s _ Ho) _ n line w HQ).
  intros nick key w1 Hne. by apply session_signs_in.
Qed.

Lemma read_error_refines s (w : W) :
  orderly (service_of w) -> refines (Guest s) w (on_read_error s w).2.
Proof.
  intros Ho. apply (guest_reached s (service_of w)); [done|]. intros n HQ. exists n.
  exact (gw_read_error s _ (session_is_guest s _ Ho) n w HQ).
Qed.
Lemma handshake_refines s failed (w : W) :
  orderly (service_of w) -> refines (Guest s) w (on_handshake s failed w).2.
Proof.
  intros Ho. apply (guest_reached s (service_of w)); [done|]. intros n HQ. exists n.
  exact (gw_handshake s _ (session_is_guest s _ Ho) n failed w HQ).
Qed.

(** C5: the server implements the service. Every event is, for the service of
    [Service.v] (rooms, keys, bans, who is present under which nickname), a sequence
    of steps of the party it comes from: what a session sends, or its connection
    does, of the guest it is; what the consoles call, of the consoles; accepting and
    stopping, of the network. Writing changes nothing. *)
Theorem server_refines_service (w : W) :
  fresh (server w) ->
  (forall s line, refines (Guest s) w (on_line s line w).2) /\
  (forall s, refines (Guest s) w (on_read_error s w).2) /\
  (forall s failed, refines (Guest s) w (on_handshake s failed w).2) /\
  (forall call, refines Console w (run_admin call w).2) /\
  (forall t, refines Network w (run_task t w).2) /\
  (forall s, heap w !! s = None -> refines Network w (accept s w).2) /\
  (forall s, service_of (on_session s written w).2 = service_of w) /\
  (forall s aborted text, service_of (on_write_error s aborted text w).2 = service_of w).
Proof.
  intros Ho%fresh_orderly. split_and!.
  - intros s line. by apply line_refines.
  - intros s. by apply read_error_refines.
  - intros s failed. by apply handshake_refines.
  - intros call. apply (ow_admin _ (console_is_operator _ Ho) call w). apply rtc_refl.
  - intros t. unfold refines. destruct t as [s wire|s|s|]; cbn [run_task].
    + rewrite service_session; [done|]. intros x. unfold task_deliver. by destruct (negb _).
    + rewrite service_session; [done|]. intros x. unfold task_close. cbn. by destruct (negb _).
    + by rewrite service_session.
    + rewrite service_stop. apply rtc_once, network_closes.
  - intros s Hs. unfold refines. rewrite service_accept by done. apply rtc_once, network_accepts.
    cbn. by rewrite lookup_omap, Hs.
  - intros s. apply service_session. intros x. unfold written.
    destruct (write_queue_ x) as [|wire rest]; [done|]. destruct rest; [|done].
    cbn. by destruct (close_after_write_ x).
  - intros s aborted text. unfold on_write_error. rewrite bind_snd, service_frames by frames_tac.
    by apply service_session.
Qed.

(** C6: a line changes nothing of the others'. Whatever a client sends, nobody is
    banned or unbanned, the local user and the other sessions keep their nicknames,
    and every room stays, with its name and owner. Its topic changes only if its
    owner is the client; of the other sessions none enters a room, and those that
    stay connected stay in theirs; one that is disconnected was in a room that the
    client owns. A new room is the client's. *)
Theorem line_confined s line (w : W) :
  fresh (server w) ->
  let w' := (on_line s line w).2 in
  let mine r := owner_nickname r = nickname w' s /\ nickname w' s <> "" in
  banned_nicks_ (server w') = banned_nicks_ (server w) /\
  local_nickname_ (server w') = local_nickname_ (server w) /\
  (forall t, t <> s -> nickname w' t = nickname w t) /\
  (forall id r, rooms_ (server w) !! id = Some r -> exists r', rooms_ (server w') !! id = Some r' /\
     room_name r' = room_name r /\ owner_nickname r' = owner_nickname r /\
     (room_topic r' = room_topic r \/ mine r) /\
     (forall t, t <> s -> t ∈ members r' -> t ∈ members r) /\
     (forall t, t <> s -> t ∈ sessions_ (server w') -> t ∈ members r -> t ∈ members r')) /\
  (forall id r', rooms_ (server w') !! id = Some r' -> is_Some (rooms_ (server w) !! id) \/ mine r') /\
  (forall t, t <> s -> t ∈ sessions_ (server w) -> t ∉ sessions_ (server w') ->
     exists id r, rooms_ (server w) !! id = Some r /\ t ∈ members r /\ mine r).
Proof.
  intros Ho%fresh_orderly w' mine.
  pose proof (guest_keeps_bounds s _ _ (line_refines s line w Ho) Ho) as C. fold w' in C.
  assert (forall r, people (service_of w') !! s = Some (hall_owner (hall_of r)) -> mine r) as Hmine.
  { intros r. rewrite people_nickname. destruct (sempty (nickname w' s)) eqn:E; [done|].
    intros [= En]. split; [by symmetry|]. by apply sempty_false. }
  assert (forall (v : W) id r, rooms_ (server v) !! id = Some r ->
    halls (service_of v) !! id = Some (hall_of r)) as Hhall by (intros v id r Hr; by rewrite halls_lookup, Hr).
  assert (forall (v : W) id h, halls (service_of v) !! id = Some h ->
    exists r, rooms_ (server v) !! id = Some r /\ h = hall_of r) as Hroom
    by (intros v id h; rewrite halls_lookup; by intros (r & Hr & ->)%fmap_Some; eauto).
  split; [exact (kept_bans _ _ _ C)|]. split; [exact (kept_host _ _ _ C)|]. split_and!.
  - intros t Ht. pose proof (kept_people _ _ _ C t Ht) as Hp. rewrite !people_nickname in Hp.
    destruct (sempty (nickname w' t)) eqn:E1, (sempty (nickname w t)) eqn:E2; try done; [|by injection Hp].
    apply sempty_spec in E1, E2. congruence.
  - intros id r Hr. pose proof (Hhall w id r Hr) as Hh.
    destruct (kept_halls _ _ _ C id _ Hh) as (h & Hh' & [En Eo] & Ht).
    destruct (Hroom w' id h Hh') as (r' & Hr' & ->). exists r'. split_and!; [done..| | |].
    + destruct Ht as [?|?]; [by left|right; by apply Hmine].
    + intros t Hs Hin. destruct (kept_members _ _ _ C t id _ Hs Hh' Hin) as (h & Hx & Hin').
      rewrite Hh in Hx. by injection Hx as <-.
    + intros t Hs Hp Hin. destruct (kept_stay _ _ _ C t id _ Hs Hh Hin Hp) as (h & Hx & Hin').
      rewrite Hh' in Hx. by injection Hx as <-.
  - intros id r' Hr'. destruct (kept_new _ _ _ C id _ (Hhall w' id r' Hr')) as [[h Hh]|Hp].
    + left. destruct (Hroom w id h Hh) as (r & Hr & _). eauto.
    + right. by apply Hmine.
  - intros t Hs Hin Hout. destruct (kept_gone _ _ _ C t Hs Hin Hout) as (id & h & Hh & Hm & Hp).
    destruct (Hroom w id h Hh) as (r & Hr & ->). exists id, r. split_and!; [done..|by apply Hmine].
Qed.
End refinement.
