(* ===== verification/Shutdown.v ===== *)
(** The end of a server: what the thread that runs the [io_context] does once the
    server is stopped ([stop] of [chat/chat_server.h], and [network_thread.join()] of
    [ui/interactive_app.cpp]). [io_context::run] returns when no handler is left and no
    operation is pending; the theorem says when it does. *)

From Stdlib Require Import Relation_Operators Wellfounded.
From S2P Require Import Prelude Frame Message Utils AppState StorageApi World.
From S2P Require Import ChatServer ClientSession ServerInvariant ServerBoot ServerSteps Walk Stability.
From S2P Require Import Service ServiceProperties.
Local Open Scope string_scope.
Local Open Scope chat_scope.

(* ===================================================================== *)
(** * Sums over maps *)

Section total.
Context `{Countable K} {A : Type} (f : A -> nat).

Definition total (m : gmap K A) : nat := map_fold (fun _ x n => (f x + n)%nat) 0%nat m.

Lemma total_insert m k x : m !! k = None -> total (<[k := x]> m) = (f x + total m)%nat.
Proof. intros Hk. apply (map_fold_insert_L (fun _ x n => (f x + n)%nat)); [intros; lia|done]. Qed.

(** An entry is replaced; a missing one counts as [d]. *)
Lemma total_replace d m k x : f d = 0%nat ->
  (total (<[k := x]> m) + f (default d (m !! k)) = total m + f x)%nat.
Proof.
  intros Hd. destruct (m !! k) as [y|] eqn:E; cbn.
  - rewrite <- (insert_delete_id m k y E) at 2. rewrite <- (insert_delete_eq m k x).
    rewrite !total_insert by apply lookup_delete_eq. lia.
  - rewrite total_insert by done. lia.
Qed.
End total.

(* ===================================================================== *)
(** * Winding down *)

Section shutdown.
Context {S : Type} `{ServerStorage S} `{Sodium} `{Platform}.
Abbreviation W := (World S).

(** The lines the clients send until their streams are closed. *)
Abbreviation Lines := (gmap SessionId (list string)).
Definition lines_of (left : Lines) (s : SessionId) : list string := default [] (left !! s).

(** A pending operation of a session completes, or a posted task runs. The acceptor is
    closed: nobody is accepted any more. *)
Inductive winds_down : W * Lines -> W * Lines -> Prop :=
| down_line w left s line rest :
    reading (session w s) = true -> lines_of left s = line :: rest ->
    winds_down (w, left) ((on_line s line w).2, <[s := rest]> left)
| down_read_error w left s :
    reading (session w s) = true -> winds_down (w, left) ((on_read_error s w).2, left)
| down_handshake w left s failed :
    handshaking (session w s) = true -> winds_down (w, left) ((on_handshake s failed w).2, left)
| down_written w left s :
    write_pending (session w s) = true -> write_queue_ (session w s) <> [] ->
    winds_down (w, left) ((on_session s written w).2, left)
| down_write_error w left s aborted text :
    write_pending (session w s) = true -> winds_down (w, left) ((on_write_error s aborted text w).2, left)
| down_task w left t rest :
    tasks w = t :: rest -> winds_down (w, left) ((run_task t (put_tasks rest w)).2, left).

(** An operation of the session is pending. *)
Definition pending (x : ClientSession) : bool := handshaking x || reading x || write_pending x.

(** What goes on without the peers: tasks, and operations on closed streams, which fail. *)
Inductive unaided : W -> W -> Prop :=
| unaided_read w s : reading (session w s) = true -> stream_open (session w s) = false ->
    unaided w (on_read_error s w).2
| unaided_handshake w s : handshaking (session w s) = true -> stream_open (session w s) = false ->
    unaided w (on_handshake s true w).2
| unaided_write w s text : write_pending (session w s) = true -> stream_open (session w s) = false ->
    unaided w (on_write_error s true text w).2
| unaided_task w t rest : tasks w = t :: rest -> unaided w (run_task t (put_tasks rest w)).2.

Lemma unaided_winds_down w w' left : unaided w w' -> winds_down (w, left) (w', left).
Proof. destruct 1; by constructor. Qed.

(** Every step is one of the server's, but for the lines that are left. *)
Lemma winds_down_step c c' : winds_down c c' -> step c.1 c'.1.
Proof. destruct 1; cbn [fst]; by constructor. Qed.

(* ===================================================================== *)
(** * Termination *)

(** A weight of the sessions. *)
Definition weigh (f : ClientSession -> nat) (w : W) : nat := total f (heap w).

Section weigh.
Context (f : ClientSession -> nat) (f_new : f new_session = 0%nat).

Lemma weigh_session s g (w : W) :
  (weigh f (on_session s g w).2 + f (session w s) = weigh f w + f (g (session w s)))%nat.
Proof. exact (total_replace f new_session (heap w) s (g (session w s)) f_new). Qed.

Lemma weigh_heap {A} (m : M W A) : frames heap m -> frames (weigh f) m.
Proof. intros Hm w. unfold weigh. by rewrite Hm. Qed.

Lemma weigh_same s g : (forall x, f (g x) = f x) -> frames (weigh f) (on_session s g).
Proof. intros Hg w. pose proof (weigh_session s g w) as E. rewrite Hg in E. lia. Qed.
End weigh.

Lemma heap_core {A} (m : M W A) : frames core m -> frames heap m.
Proof. intros Hm w. specialize (Hm w). unfold core in Hm. by injection Hm as _ ->. Qed.
Lemma heap_server f : frames heap (on_server (S:=S) f).
Proof. done. Qed.
Lemma heap_deliver s msg : frames heap (deliver (S:=S) s msg).
Proof. apply heap_core, frames_core_deliver. Qed.
Lemma heap_broadcast_users id : frames heap (broadcast_users (S:=S) id).
Proof. apply heap_core. unfold broadcast_users. frames_tac. Qed.
Lemma heap_broadcast_room_lists : frames heap (broadcast_room_lists (S:=S)).
Proof. apply heap_core. unfold broadcast_room_lists. frames_tac. Qed.
Lemma heap_broadcast_room id msg nick : frames heap (broadcast_room (S:=S) id msg nick).
Proof.
  unfold broadcast_room, record_message. frames_tac; try done; apply heap_core; auto with chat_frames.
Qed.
#[local] Hint Resolve heap_server heap_deliver heap_broadcast_users heap_broadcast_room_lists
  heap_broadcast_room : chat_frames.

(** Leaving the server changes the room of a session, and nothing that is pending. *)
Lemma weigh_disconnect f s announce : f new_session = 0%nat ->
  (forall x id, f (with_active_room_id id x) = f x) -> frames (weigh f) (disconnect s announce).
Proof.
  intros Hn Hf. assert (frames (weigh f) (set_active_room_id s 0%N)) as Ha by (apply weigh_same; auto).
  unfold disconnect. frames_tac; try done; apply weigh_heap; auto with chat_frames.
Qed.

Definition hands (x : ClientSession) : nat := Nat.b2n (handshaking x).
Definition reads (x : ClientSession) : nat := Nat.b2n (reading x).
Definition writes (x : ClientSession) : nat := length (write_queue_ x) + Nat.b2n (write_pending x).

(** Lines, handshakes, reads, tasks, frames to write, in this order of importance. *)
Definition measure (c : W * Lines) : nat * nat * nat * nat * nat :=
  (total (@length string) c.2, weigh hands c.1, weigh reads c.1, length (tasks c.1), weigh writes c.1).
Definition smaller : nat * nat * nat * nat * nat -> nat * nat * nat * nat * nat -> Prop :=
  slexprod _ _ (slexprod _ _ (slexprod _ _ (slexprod _ _ lt lt) lt) lt) lt.

Lemma smaller_wf : well_founded smaller.
Proof. repeat apply wf_slexprod; apply lt_wf. Qed.

Lemma smaller_lines a a' b c d e b' c' d' e' : (a' < a)%nat -> smaller (a', b', c', d', e') (a, b, c, d, e).
Proof. intros Hlt. by do 4 apply left_slex. Qed.
Lemma smaller_hands a b b' c d e c' d' e' : (b' < b)%nat -> smaller (a, b', c', d', e') (a, b, c, d, e).
Proof. intros Hlt. do 3 apply left_slex. by apply right_slex. Qed.
Lemma smaller_reads a b c c' d e d' e' : (c' < c)%nat -> smaller (a, b, c', d', e') (a, b, c, d, e).
Proof. intros Hlt. do 2 apply left_slex. by apply right_slex. Qed.
Lemma smaller_tasks a b c d d' e e' : (d' < d)%nat -> smaller (a, b, c, d', e') (a, b, c, d, e).
Proof. intros Hlt. apply left_slex. by apply right_slex. Qed.
Lemma smaller_writes a b c d e e' : (e' < e)%nat -> smaller (a, b, c, d, e') (a, b, c, d, e).
Proof. intros Hlt. by apply right_slex. Qed.

(** Stopping a server without sessions posts nothing. *)
Lemma stop_again (w : W) : sessions_ (server w) = ∅ ->
  heap (run_stop w).2 = heap w /\ tasks (run_stop w).2 = tasks w.
Proof.
  intros Hs. unfold run_stop. rewrite bind_snd. run_get. rewrite !bind_snd.
  cbn [on_server modify snd put_server server with_acceptor_open sessions_]. rewrite Hs.
  change (set_iter (∅ : gset SessionId)) with (@nil SessionId). cbn [for_each ret snd].
  unfold flush_storage, modify. cbn. by destruct (storage_ w).
Qed.

Lemma run_task_kept t (w : W) : sessions_ (server w) = ∅ ->
  tasks (run_task t w).2 = tasks w /\ weigh hands (run_task t w).2 = weigh hands w /\
  weigh reads (run_task t w).2 = weigh reads w.
Proof.
  intros Hs. destruct t as [s wire|s|s|]; cbn [run_task].
  4: { destruct (stop_again w Hs) as [Hh Ht]. unfold weigh. by rewrite Hh, Ht. }
  all: split; [done|]; split; apply weigh_same; try done; intros x;
    unfold task_deliver, task_close; cbn; by destruct (negb _).
Qed.

Lemma winds_down_smaller (c c' : W * Lines) : sessions_ (server c.1) = ∅ -> winds_down c c' ->
  smaller (measure c') (measure c).
Proof.
  intros Hs Hd. destruct Hd as [w left s line rest Hr Hl|w left s Hr|w left s failed Hh
    |w left s Hw Hq|w left s aborted text Hw|w left t rest Ht]; unfold measure; cbn [fst snd] in *.
  - apply smaller_lines. pose proof (total_replace (@length string) [] left s rest eq_refl) as E.
    unfold lines_of in Hl. rewrite Hl in E. cbn in E. lia.
  - unfold on_read_error. rewrite bind_snd. run_get.
    rewrite !(weigh_disconnect _ s _) by done. rewrite (weigh_same hands) by done.
    apply smaller_reads. pose proof (weigh_session reads eq_refl s (with_reading false) w) as E.
    assert (reads (session w s) = 1) as E1 by (unfold reads; by rewrite Hr).
    change (reads (with_reading false (session w s))) with 0 in E. lia.
  - assert (weigh hands (on_handshake s failed w).2
      = weigh hands (on_session s (with_handshaking false) w).2) as ->.
    { unfold on_handshake. rewrite bind_snd. destruct failed; rewrite bind_snd.
      - rewrite (weigh_same hands) by done. by apply weigh_disconnect.
      - unfold read_loop. rewrite (weigh_same hands) by done. apply weigh_heap, heap_deliver. }
    apply smaller_hands. pose proof (weigh_session hands eq_refl s (with_handshaking false) w) as E.
    assert (hands (session w s) = 1) as E1 by (unfold hands; by rewrite Hh).
    change (hands (with_handshaking false (session w s))) with 0 in E. lia.
  - rewrite (weigh_same hands eq_refl s written), (weigh_same reads eq_refl s written) by
      (try done; intros x; unfold written; destruct (write_queue_ x) as [|? []]; [done| |done];
       cbn; by destruct (close_after_write_ x)).
    apply smaller_writes. pose proof (weigh_session writes eq_refl s written w) as E.
    assert (writes (written (session w s)) < writes (session w s))%nat; [|lia].
    unfold writes, written. rewrite Hw.
    destruct (write_queue_ (session w s)) as [|wire [|x rest]]; [done| |cbn; lia].
    destruct (close_after_write_ _); cbn; lia.
  - assert (forall f, frames (weigh f) (when (negb aborted) (print_error (S:=S) ("Write error: " +:+ text)))) as Hp
      by (intros f; by destruct aborted).
    assert (tasks (on_write_error s aborted text w).2 = tasks w) as ->
      by (unfold on_write_error; rewrite bind_snd; by destruct aborted).
    unfold on_write_error. rewrite !bind_snd, !Hp, (weigh_same hands), (weigh_same reads) by done.
    apply smaller_writes. pose proof (weigh_session writes eq_refl s (with_write_pending false) w) as E.
    assert (writes (with_write_pending false (session w s)) < writes (session w s))%nat; [|lia].
    unfold writes. cbn. rewrite Hw. cbn. lia.
  - destruct (run_task_kept t (put_tasks rest w) Hs) as (-> & -> & ->).
    rewrite Ht. apply smaller_tasks. cbn. lia.
Qed.

(** Nobody comes back, and the server's invariant holds. *)
Definition emptied (w : W) : Prop := Inv w /\ sessions_ (server w) = ∅.

Lemma guest_stays_out s (w w' : W) :
  refines (Guest s) w w' -> sessions_ (server w) = ∅ -> sessions_ (server w') = ∅.
Proof. intros Hr Hs. apply guest_admits_nobody in Hr. cbn in Hr. rewrite Hs in Hr. set_solver. Qed.

Lemma stop_empties (w : W) : sessions_ (server (run_stop w).2) = ∅.
Proof. pose proof (service_stop w) as E. by apply (f_equal present) in E. Qed.

Lemma emptied_step c c' : winds_down c c' -> emptied c.1 -> emptied c'.1.
Proof.
  intros Hd [I Hs]. split; [by eapply Inv_step; [apply winds_down_step|]|].
  pose proof (fresh_orderly _ (inv_fresh _ _ I)) as Ho.
  destruct Hd as [w left s line rest Hr Hl|w left s Hr|w left s failed Hh
    |w left s Hw Hq|w left s aborted text Hw|w left t rest Ht]; cbn [fst] in *.
  - by eapply guest_stays_out; [apply line_refines|].
  - by eapply guest_stays_out; [apply read_error_refines|].
  - by eapply guest_stays_out; [apply handshake_refines|].
  - done.
  - unfold on_write_error. by destruct aborted.
  - destruct t; try done. apply stop_empties.
Qed.

Lemma emptied_steps c c' : rtc winds_down c c' -> emptied c.1 -> emptied c'.1.
Proof. induction 1; eauto using emptied_step. Qed.

Lemma winding_down_ends c : emptied c.1 -> sn winds_down c.
Proof.
  remember (measure c) as n eqn:En. revert c En.
  induction (smaller_wf n) as [n _ IH]. intros c -> He. constructor. intros c' Hd.
  eapply IH; [|done|by eapply emptied_step]. by apply winds_down_smaller; [apply He|].
Qed.

(* ===================================================================== *)
(** * Who is left *)

(** The stream is closed or about to be. *)
Definition closing (s : SessionId) (w : W) : Prop :=
  stream_open (session w s) = false \/ TaskAbort s ∈ tasks w.

Lemma closing_simple s : simple (closing s).
Proof.
  split.
  - intros w w' Hc Ht. unfold closing, session, core in *. injection Hc as _ Hh. by rewrite Hh, Ht.
  - intros t w [Hc|Hc]; [by left|right]. apply elem_of_app. by left.
  - by intros f _ w.
  - intros t f Hf w [Hc|Hc]; [left|by right]. rewrite session_on_session.
    case_decide; [subst t|done]. destruct (Hf (session w s)) as (_ & _ & _ & _ & Ho).
    destruct (stream_open (f (session w s))); [|done]. by rewrite Ho in Hc.
Qed.

Lemma closing_session s t f (w : W) :
  (forall x, stream_open x = false -> stream_open (f x) = false) ->
  closing s w -> closing s (on_session t f w).2.
Proof.
  intros Hf [Hc|Hc]; [left|by right]. rewrite session_on_session. case_decide; [subst; by apply Hf|done].
Qed.

Lemma closing_task s t (w : W) : closing s w -> closing s (run_task t w).2.
Proof.
  pose proof (simple_stable _ (closing_simple s)) as St.
  destruct t as [u wire|u|u|]; cbn [run_task]; [..|apply (st_run_stop _ St)];
    apply closing_session; intros x Hx; try done; unfold task_deliver, task_close; cbn;
    by destruct (negb _).
Qed.

Lemma closing_step s c c' : winds_down c c' -> closing s c.1 -> closing s c'.1.
Proof.
  pose proof (simple_stable _ (closing_simple s)) as St.
  intros Hd. destruct Hd as [w left u line rest Hr Hl|w left u Hr|w left u failed Hh
    |w left u Hw Hq|w left u aborted text Hw|w left t rest Ht]; cbn [fst].
  - apply (st_line _ St). intros v nick w1. by apply closing_session.
  - apply (st_read_error _ St).
  - apply (st_handshake _ St).
  - apply closing_session. intros x Hx. unfold written.
    destruct (write_queue_ x) as [|? []]; try done. cbn. by destruct (close_after_write_ x).
  - intros Hc. unfold on_write_error. rewrite bind_snd.
    apply (closing_session s u (with_write_pending false)) in Hc; [|done]. by destruct aborted.
  - intros [Hc|Hc]; [by apply closing_task; left|]. rewrite Ht in Hc.
    apply elem_of_cons in Hc as [<-|Hc]; [|by apply closing_task; right].
    left. cbn [run_task]. by rewrite session_on_session, decide_True.
Qed.

(** The stop itself: every connected session is about to be aborted. *)
Lemma stop_closes s (w : W) : s ∈ sessions_ (server w) -> closing s (run_stop w).2.
Proof.
  intros Hs. right. unfold run_stop. rewrite bind_snd. run_get. do 3 rewrite bind_snd.
  cbn [on_server modify snd put_server server with_acceptor_open sessions_].
  assert (s ∈ set_iter (sessions_ (server w))) as Hin by by apply elem_of_set_iter.
  set (w1 := (clear_members _).2). clearbody w1.
  assert (forall w2 : W, tasks (flush_storage w2).2 = tasks w2) as ->
    by (intros w2; unfold flush_storage, modify; cbn; by destruct (storage_ w2)).
  revert w1. induction (set_iter (sessions_ (server w))) as [|t l IH]; intros w1; [by apply not_elem_of_nil in Hin|].
  cbn [for_each]. rewrite bind_snd. apply elem_of_cons in Hin as [->|Hin]; [|by apply IH].
  clear. assert (TaskAbort t ∈ tasks (abort t w1).2) as Ht by (apply elem_of_app; right; by left).
  revert Ht. generalize (abort t w1).2. induction l as [|u l IH]; intros w2 Ht; [done|].
  cbn [for_each]. rewrite bind_snd. apply IH. apply elem_of_app. by left.
Qed.

(** Nothing goes on any more unless a peer does something. *)
Definition stalled (w : W) : Prop := forall w', ~ unaided w w'.

(** C9: the thread of a stopped server ends, unless somebody who was not connected
    any more holds it up. From the moment the stop runs, whatever the clients still
    send and however their operations end, only finitely many handlers run; the
    server stays without sessions and keeps its invariant; and when nothing goes on
    by itself any more, no task is left, and whatever operation is still pending is
    one of a session that was not connected when the server was stopped, and whose
    stream was open nevertheless. Without such a session [io_context::run] returns. *)
Theorem stopped_server_ends (w : W) left :
  Inv w ->
  let w0 := (run_stop w).2 in
  sn winds_down (w0, left) /\
  forall w' left', rtc winds_down (w0, left) (w', left') ->
    Inv w' /\ sessions_ (server w') = ∅ /\
    (stalled w' -> tasks w' = [] /\ forall s, pending (session w' s) = true ->
       stream_open (session w s) = true /\ s ∉ sessions_ (server w)).
Proof.
  intros I w0.
  assert (emptied w0) as He.
  { split; [by apply keeps_run_stop|apply stop_empties]. }
  split; [by apply winding_down_ends|]. intros w' left' Hr.
  destruct (emptied_steps _ _ Hr He) as [I' Hs']. split; [done|]. split; [done|]. intros Hst.
  assert (tasks w' = []) as Ht.
  { destruct (tasks w') as [|t rest] eqn:E; [done|]. by destruct (Hst _ (unaided_task _ _ _ E)). }
  split; [done|]. intros s Hp.
  assert (~ closing s w') as Hnc.
  { intros [Hc|Hc]; [|rewrite Ht in Hc; by apply not_elem_of_nil in Hc].
    unfold pending in Hp. apply orb_true_iff in Hp as [[Hp|Hp]%orb_true_iff|Hp].
    - exact (Hst _ (unaided_handshake _ _ Hp Hc)).
    - exact (Hst _ (unaided_read _ _ Hp Hc)).
    - exact (Hst _ (unaided_write _ _ "" Hp Hc)). }
  assert (forall c c', rtc winds_down c c' -> closing s c.1 -> closing s c'.1) as Hcs
    by (induction 1; eauto using closing_step).
  split.
  - destruct (stream_open (session w s)) eqn:E; [done|]. destruct Hnc. apply (Hcs _ _ Hr).
    apply (st_run_stop _ (simple_stable _ (closing_simple s))). by left.
  - intros Hin. apply Hnc, (Hcs _ _ Hr). by apply stop_closes.
Qed.
End shutdown.
