(* ===== verification/ServerProperties.v ===== *)
(** What the server promises, as theorems over its transition system: the
    invariant of every reachable state, identity bindings, joining by proof, the
    gates before authentication, delivery in order, broadcasts, whispers, kicks,
    room changes and creation, the rate limit, and where the code falls short. *)

From S2P Require Import Prelude Frame Message Utils AppState StorageApi World.
From S2P Require Import ChatServer ClientSession ServerInvariant ServerBoot ServerSteps Walk Stability.
Local Open Scope string_scope.
Local Open Scope list_scope.
Local Open Scope chat_scope.

Section properties.
Context {S : Type} `{ServerStorage S} `{Sodium} `{Platform}.
Abbreviation W := (World S).

(* ===================================================================== *)
(** * Reachable states *)


(** A session is in at most one room, and a room change is complete. In every
    reachable state the rooms' member sets are disjoint, and a member's active
    room, the one its messages go to, is the room that lists it. *)
Theorem membership_disjoint (ready : S -> Prop) `{!StorageContract S ready}
    password local limit storage log fs w id1 id2 r1 r2 s :
  match storage with Some s => ready s | None => True end ->
  reachable (chat_server password local limit storage log fs) w ->
  rooms_ (server w) !! id1 = Some r1 -> rooms_ (server w) !! id2 = Some r2 ->
  s ∈ members r1 -> s ∈ members r2 ->
  id1 = id2 /\ active_room_of w s = id1 /\ nickname w s <> "".
Proof.
  intros Hr Hw Hr1 Hr2 Hs1 Hs2. apply Inv_reachable in Hw; [|by apply (chat_server_inv ready)].
  pose proof (inv_member _ _ Hw _ _ _ Hr1 Hs1) as E1.
  pose proof (inv_member _ _ Hw _ _ _ Hr2 Hs2) as E2.
  split; [congruence|]. split; [exact E1|]. intros Hn.
  apply (inv_unnamed _ _ Hw) in Hn. rewrite E1 in Hn. subst id1.
  apply (inv_room_id _ _ Hw) in Hr1 as [_ ?]. lia.
Qed.

(* ===================================================================== *)
(** * Identity bindings *)

Lemma stable_identities m : stable (fun w : W => m ⊆ identities_ (server w)).
Proof.
  apply simple_stable. split.
  - intros w w' [= -> _] _. done.
  - by intros t w.
  - intros f Hf w Hm. cbn. etransitivity; [exact Hm|]. by destruct (Hf (server w)).
  - by intros s f _ w.
Qed.

Lemma identities_step (w w' : W) :
  step w w' -> identities_ (server w) ⊆ identities_ (server w').
Proof.
  intros Hstep. pose proof (stable_identities (identities_ (server w))) as St.
  destruct Hstep.
  - done.
  - by apply (st_handshake _ St).
  - apply (st_line _ St); [by intros t nick w'|done].
  - by apply (st_read_error _ St).
  - done.
  - unfold on_write_error. destruct aborted; done.
  - destruct t; try done. by apply (st_run_stop _ St).
  - by apply (st_admin _ St).
Qed.

(** Identities are never taken over. Along any execution a nickname bound to
    a public key stays bound to that key: no event rebinds or forgets it. *)
Theorem identity_binding_permanent (w w' : W) nick key :
  reachable w w' -> identities_ (server w) !! nick = Some key ->
  identities_ (server w') !! nick = Some key.
Proof.
  intros Hr Hk. induction Hr as [|w1 w2 Hr IH Hstep]; [done|].
  eapply lookup_weaken; [exact IH|]. by apply identities_step.
Qed.

(* ===================================================================== *)
(** * Nicknames *)

Lemma complete_join_nickname s nick key (w : W) t :
  nickname (complete_join s nick key w).2 t = if decide (t = s) then nick else nickname w t.
Proof.
  unfold complete_join. rewrite bind_snd.
  apply (st_join_tail _ (stable_nickname t (if decide (t = s) then nick else nickname w t))).
  unfold nickname, set_nickname. rewrite session_on_session. by case_decide.
Qed.

Lemma complete_join_identities s nick key (w : W) n k :
  identities_ (server w) !! n = Some k ->
  identities_ (server (complete_join s nick key w).2) !! n = Some k.
Proof.
  intros Hk. eapply lookup_weaken; [exact Hk|].
  by apply (st_complete_join _ (stable_identities (identities_ (server w))));
    [intros t nick' w'|].
Qed.

(** The proof handler, when it changes a nickname. *)
Lemma proof_nickname s signature (w : W) t :
  let w' := (handle_proof s signature w).2 in
  let me := session w s in
  nickname w' t <> nickname w t ->
  t = s /\ nickname w s = "" /\ nickname w' s = pending_nickname_ me /\
  verify_identity_signature (pending_public_key_hex_ me) (pending_challenge_ me) signature = true /\
  is_banned (server w) (pending_nickname_ me) = false /\
  nickname_taken w (pending_nickname_ me) = false /\
  identities_ (server w') !! pending_nickname_ me = Some (pending_public_key_hex_ me).
Proof.
  cbv zeta. unfold handle_proof. rewrite bind_snd. cbn [get fst snd]. set (me := session w s).
  pose proof (fun n => stable_nickname t n) as St.
  assert (forall (m : M W unit), (forall n, keeps (fun w => nickname w t = n) m) ->
    nickname (m w).2 t <> nickname w t -> False) as Hno by (intros m Hm Hx; by apply Hx, Hm).
  assert (forall reply, nickname (reject s reply w).2 t <> nickname w t -> False) as Hrej
    by (intros reply; apply Hno; intros n; by apply st_reject).
  destruct (negb (sempty (nickname w s))) eqn:En.
  { intros Hx. exfalso. revert Hx. apply Hno. intros n. apply keeps_bind; [apply (st_deliver _ (St n))|].
    intros _. apply (st_read_loop _ (St n)). }
  apply negb_false_iff, sempty_spec in En.
  destruct (_ || _ || _)%bool; [intros Hx; by apply Hrej in Hx|].
  destruct (negb (verify_identity_signature _ _ _)) eqn:Ev; [intros Hx; by apply Hrej in Hx|].
  apply negb_false_iff in Ev.
  destruct (is_banned _ _) eqn:Eb; [intros Hx; by apply Hrej in Hx|].
  destruct (nickname_taken w _) eqn:Et; [intros Hx; by apply Hrej in Hx|].
  rewrite bind_snd. pose proof (bind_identity_spec (pending_nickname_ me)
    (pending_public_key_hex_ me) w) as Hb. cbv zeta in Hb.
  destruct (bind_identity _ _ w) as [bound w1]. cbn [fst snd] in *.
  destruct Hb as (Hh & _ & _ & _ & _ & Hbound).
  assert (nickname w1 t = nickname w t) as Hn1 by (unfold nickname, session; by rewrite Hh).
  destruct bound; cbn [negb].
  2: { intros Hx. exfalso. apply Hx. rewrite <- Hn1. by apply (st_reject _ (St _)). }
  destruct Hbound as [Hbound _]. specialize (Hbound eq_refl).
  intros Hx. rewrite complete_join_nickname in Hx |- *. case_decide as Ht; [|by rewrite Hn1 in Hx].
  subst t. rewrite decide_True by done. do 6 (split; [done|]).
  by apply complete_join_identities.
Qed.

(** The state a decoded line is handled in. *)
Definition line_started (s : SessionId) (w : W) : W := (on_session s (with_reading false) w).2.

Lemma line_started_session s (w : W) t :
  session (line_started s w) t = if decide (t = s) then with_reading false (session w s)
                                 else session w t.
Proof. apply session_on_session. Qed.

Lemma line_started_nickname s (w : W) t : nickname (line_started s w) t = nickname w t.
Proof.
  unfold nickname. rewrite line_started_session. by case_decide; subst.
Qed.

Lemma on_line_eq s line (w : W) :
  (on_line s line w).2 =
  match value (decode_client_frame line) with
  | Some message => (handle_message s message (line_started s w)).2
  | None =>
      ((deliver s (Server.ServerError ("Invalid client frame: "
          +:+ detail (decode_client_frame line))) ;;;
        match error (decode_client_frame line) with
        | UnsupportedVersion => close s ;;; disconnect s false
        | _ => read_loop s
        end) (line_started s w)).2
  end.
Proof. unfold on_line. rewrite bind_snd. by destruct (value _). Qed.

Lemma undecoded_keeps (Q : W -> Prop) s text (e : Error) :
  stable Q -> keeps Q (deliver s (Server.ServerError text) ;;;
    match e with UnsupportedVersion => close s ;;; disconnect s false | _ => read_loop s end).
Proof.
  intros St. apply keeps_bind; [apply (st_deliver Q St)|intros _].
  destruct e; try apply (st_read_loop Q St).
  apply keeps_bind; [apply (st_close Q St)|intros _]. by apply st_disconnect.
Qed.

(** C2: nobody joins without proving the identity. If handling a line changes the
    nickname of any session, the session is the one the line came from, it had
    none, the line was an identity proof, and the new nickname is the one it
    announced: the signature verifies under the announced key over the challenge
    of this session, the nickname is neither banned nor taken, the handshake was
    done, the password given where one is set, and the nickname is bound to that
    key from then on. *)
Theorem nickname_requires_proof s line (w : W) t :
  let w' := (on_line s line w).2 in
  let me := session w s in
  nickname w' t <> nickname w t ->
  t = s /\ nickname w s = "" /\ nickname w' s = pending_nickname_ me /\
  (exists signature,
     value (decode_client_frame line) = Some (Client.IdentityProof signature) /\
     verify_identity_signature (pending_public_key_hex_ me) (pending_challenge_ me) signature
       = true) /\
  is_banned (server w) (pending_nickname_ me) = false /\
  nickname_taken w (pending_nickname_ me) = false /\
  identities_ (server w') !! pending_nickname_ me = Some (pending_public_key_hex_ me) /\
  protocol_negotiated_ me = true /\
  (has_password (server w) = true -> authenticated_ me = true).
Proof.
  cbv zeta. rewrite on_line_eq. intros Hx.
  pose proof (fun n => stable_nickname t n) as St.
  assert (forall m : M W unit, (forall n, keeps (fun w => nickname w t = n) m) ->
    nickname (m (line_started s w)).2 t <> nickname w t -> False) as Hno.
  { intros m Hm Hy. apply Hy, Hm. apply line_started_nickname. }
  destruct (value (decode_client_frame line)) as [message|] eqn:Ed.
  2: { exfalso. revert Hx. apply Hno. intros n. by apply undecoded_keeps. }
  destruct (is_proof message) eqn:Ep.
  2: { exfalso. revert Hx. apply Hno. intros n. by apply st_message. }
  destruct message as [| | |signature| | | | | | | | |]; try done.
  unfold handle_message in Hx |- *. rewrite bind_snd in Hx |- *. cbn [get fst snd] in Hx |- *.
  set (w1 := line_started s w) in *.
  assert (session w1 s = with_reading false (session w s)) as E1
    by (unfold w1; by rewrite line_started_session, decide_True).
  rewrite E1 in Hx |- *. cbn [with_reading protocol_negotiated_ authenticated_] in Hx |- *.
  change (server w1) with (server w) in Hx |- *.
  destruct (protocol_negotiated_ (session w s)); cbn [negb] in Hx |- *.
  2: { exfalso. revert Hx. apply Hno. intros n. by apply st_reject. }
  destruct (has_password (server w) && negb (authenticated_ (session w s)))%bool eqn:Eg.
  { exfalso. revert Hx. apply Hno. intros n. apply keeps_bind; [apply (st_deliver _ (St n))|].
    intros _. apply (st_read_loop _ (St n)). }
  cbn [handle_request] in Hx |- *. rewrite <- (line_started_nickname s w t) in Hx.
  apply proof_nickname in Hx as (-> & Hn & Hn' & Hv & Hb & Ht & Hi).
  fold w1 in Hn', Hv, Hb, Ht, Hi. rewrite E1 in Hn', Hv, Hb, Ht, Hi. cbn [with_reading pending_nickname_ pending_public_key_hex_
    pending_challenge_] in *. rewrite line_started_nickname in Hn.
  do 3 (split; [done|]). split; [by exists signature|]. split; [exact Hb|].
  split; [|split; [exact Hi|split; [done|]]].
  - revert Ht. unfold nickname_taken. change (server w1) with (server w).
    intros [-> Hs]%orb_false_iff. cbn [orb]. rewrite <- Hs. apply existsb_ext. intros t.
    unfold w1. by rewrite line_started_nickname.
  - intros Hp. rewrite Hp in Eg. by destruct (authenticated_ _).
Qed.

(* ===================================================================== *)
(** * Delivery *)

(** The frames of the posted deliveries to a session, in order. *)
Definition posted (s : SessionId) (t : Task) : list string :=
  match t with
  | TaskDeliver s' wire => if decide (s' = s) then [wire] else []
  | _ => []
  end.

(** Everything delivered to a session: written, queued, or still posted. *)
Definition stream_of (w : W) (s : SessionId) : list string :=
  sent (session w s) ++ write_queue_ (session w s) ++ mjoin (posted s <$> tasks w).

Lemma stream_of_same (w w' : W) s :
  sent (session w' s) ++ write_queue_ (session w' s)
    = sent (session w s) ++ write_queue_ (session w s) ->
  tasks w' = tasks w -> stream_of w' s = stream_of w s.
Proof. intros E1 E2. unfold stream_of. by rewrite E2, !app_assoc, E1. Qed.

Lemma stable_stream X s : stable (fun w : W => X `prefix_of` stream_of w s).
Proof.
  apply simple_stable. split.
  - intros w w' Hc Ht. unfold stream_of, session. rewrite Ht. unfold core in Hc.
    by injection Hc as _ ->.
  - intros t w HX. etransitivity; [exact HX|]. unfold stream_of. cbn.
    rewrite fmap_app. unfold mjoin. rewrite join_app. rewrite !app_assoc. by apply prefix_app_r.
  - by intros f _ w.
  - intros s' f Hf w HX. rewrite (stream_of_same w (on_session s' f w).2); [exact HX| |done].
    rewrite session_on_session. case_decide; [subst|done].
    by destruct (Hf (session w s')) as (_ & -> & -> & _).
Qed.

Lemma task_stream s t (w : W) rest :
  tasks w = t :: rest ->
  stream_of w s `prefix_of` stream_of (run_task t (put_tasks rest w)).2 s.
Proof.
  intros Ht. assert (stream_of w s = sent (session w s) ++ write_queue_ (session w s)
    ++ posted s t ++ mjoin (posted s <$> rest)) as E by (unfold stream_of; by rewrite Ht).
  rewrite E. destruct t as [s' wire|s'|s'|]; cbn [run_task posted app].
  - unfold stream_of. rewrite session_on_session. change (session (put_tasks rest w)) with (session w).
    cbn [on_session modify snd put_heap tasks put_tasks].
    destruct (decide (s = s')) as [<-|Hne]; [|by rewrite decide_False by done].
    rewrite decide_True by done. unfold task_deliver.
    destruct (negb _); cbn; by rewrite <- ?app_assoc.
  - unfold stream_of. rewrite session_on_session. change (session (put_tasks rest w)) with (session w).
    case_decide; [subst s'|done]. unfold task_close. cbn. by destruct (negb _).
  - unfold stream_of. rewrite session_on_session. change (session (put_tasks rest w)) with (session w).
    by case_decide; [subst s'|].
  - pose proof (stable_stream (stream_of (put_tasks rest w) s) s) as St.
    apply (st_run_stop _ St). done.
Qed.

Lemma written_stream x : sent (written x) ++ write_queue_ (written x) = sent x ++ write_queue_ x.
Proof.
  unfold written. destruct (write_queue_ x) as [|wire rest] eqn:E; [by rewrite E|].
  destruct rest as [|y rest]; cbn.
  - destruct (close_after_write_ x); cbn; by rewrite app_nil_r.
  - by rewrite <- app_assoc.
Qed.

Lemma stream_step (w w' : W) s : step w w' -> stream_of w s `prefix_of` stream_of w' s.
Proof.
  intros Hstep. pose proof (stable_stream (stream_of w s) s) as St. destruct Hstep.
  - unfold accept. rewrite !bind_snd. apply (st_session _ St); [by intros x|].
    cbn [modify snd join on_server]. destruct (decide (s = s0)) as [<-|Hne].
    + unfold stream_of, session. cbn. by rewrite lookup_insert_eq, H3.
    + unfold stream_of, session. cbn. by rewrite lookup_insert_ne by done.
  - by apply (st_handshake _ St).
  - apply (st_line _ St); [|done]. intros t nick w1 HX.
    rewrite (stream_of_same w1 (set_nickname t nick w1).2); [exact HX| |done].
    unfold set_nickname.     rewrite session_on_session. by case_decide; subst.
  - by apply (st_read_error _ St).
  - rewrite (stream_of_same w (on_session s0 written w).2); [done| |done].
    rewrite session_on_session. case_decide; [subst; apply written_stream|done].
  - rewrite (stream_of_same w (on_write_error s0 aborted text w).2); [done| |];
      unfold on_write_error; rewrite bind_snd.
    + assert (forall w1, session (when (negb aborted) (print_error ("Write error: " +:+ text)) w1).2 s
        = session w1 s) as -> by by destruct aborted.
      rewrite session_on_session. by case_decide; subst.
    + by destruct aborted.
  - by apply task_stream.
  - by apply (st_admin _ St).
Qed.

(** C25: delivery in order. Along any execution, what was delivered to a session
    is never dropped from its queue, duplicated or reordered: the frames written,
    then queued, then posted only grow at the end, so the frames on the wire are
    always a prefix of everything delivered. *)
Theorem delivery_in_order (w w' : W) s :
  reachable w w' ->
  stream_of w s `prefix_of` stream_of w' s /\ sent (session w' s) `prefix_of` stream_of w' s.
Proof.
  intros Hr. split; [|by apply prefix_app_r].
  induction Hr as [|w1 w2 Hr IH Hstep]; [done|].
  etransitivity; [exact IH|]. by apply stream_step.
Qed.

(* ===================================================================== *)
(** * Broadcasts *)

Lemma for_each_deliver l msg wire (w : W) :
  value (encode_server_frame msg) = Some wire ->
  (for_each l (fun m => deliver m msg) w).2
  = put_tasks (tasks w ++ ((fun m => TaskDeliver m wire) <$> l)) w.
Proof.
  intros E. revert w. induction l as [|m l IH]; intros w; cbn [for_each].
  - rewrite app_nil_r. by destruct w.
  - rewrite bind_snd, IH. unfold deliver. rewrite E. cbn. by rewrite <- app_assoc.
Qed.

(** What [broadcast_room] does after the deliveries. *)
Lemma archive_frames id msg nick (w : W) :
  let w' := ((if has_storage w then
      let* message_id := random_hex_text 16 in
      let* sent_at := next_message_timestamp in
      with_storage (store_message (MkStoredMessage message_id id nick msg sent_at None None))
    else ret tt) w).2 in
  core w' = core w /\ tasks w' = tasks w /\ log_ w' = log_ w /\ app w' = app w.
Proof.
  cbv zeta. destruct (has_storage w) eqn:E; [|done]. rewrite !bind_snd.
  unfold with_storage, modify. cbn [snd]. by destruct (storage_ _).
Qed.

(** A broadcast reaches exactly the members of the room. Each member gets the
    line once, in the order of the member set, and nobody else gets anything; the
    line is appended to that room's bounded history and to no other; the local
    user sees it when in that room; the log records it; no session, no other room
    and no membership changes. *)
Lemma broadcast_room_exact id msg nick (w : W) room wire :
  rooms_ (server w) !! id = Some room ->
  value (encode_server_frame (Server.RoomText id msg)) = Some wire ->
  let w' := (broadcast_room id msg nick w).2 in
  tasks w' = tasks w ++ ((fun m => TaskDeliver m wire) <$> set_iter (members room)) /\
  heap w' = heap w /\
  server w' = with_rooms (<[id := with_recent_messages
    (push_bounded (history_limit_ (server w)) (recent_messages room) msg) room]>
    (rooms_ (server w))) (server w) /\
  log_ w' = (fun lines => lines ++ ["[#" +:+ room_name room +:+ "] " +:+ msg]) <$> log_ w /\
  app w' = (if has_local (server w) && (local_room_id w =? id)%N
            then push_message msg (app w) else app w).
Proof.
  intros Hr Hw. cbv zeta. unfold broadcast_room. rewrite bind_snd. cbn [get fst snd]. rewrite Hr.
  rewrite bind_snd. unfold record_message, on_server. cbn [modify snd].
  set (w1 := put_server _ w). rewrite bind_snd.
  set (w2 := (when _ _ w1).2). rewrite bind_snd, (for_each_deliver _ _ wire) by done.
  set (w3 := put_tasks _ w2). rewrite bind_snd. set (w4 := (log_write _ w3).2).
  assert (has_storage w4 = has_storage w) as <-.
  { unfold w4, w3, w2, log_write, modify, has_storage. cbn.
    destruct (has_local _ && _)%bool; cbn; by destruct (log_ w). }
  destruct (archive_frames id msg nick w4) as (Hc & -> & -> & ->).
  unfold core in Hc. injection Hc as -> ->.
  assert (alter (fun r => with_recent_messages
    (push_bounded (history_limit_ (server w)) (recent_messages r) msg) r) id (rooms_ (server w))
    = <[id := with_recent_messages (push_bounded (history_limit_ (server w))
        (recent_messages room) msg) room]> (rooms_ (server w))) as <-.
  { exact (alter_alt_Some (fun r => with_recent_messages (push_bounded
      (history_limit_ (server w)) (recent_messages r) msg) r) _ _ _ Hr). }
  unfold w4, w3, w2, log_write, modify. cbn.
  destruct (has_local _ && _)%bool; cbn; destruct (log_ w) eqn:El; cbn; split_and!; done.
Qed.

(* ===================================================================== *)
(** * Private messages *)

(** The tasks posted since [w0] all satisfy [R]. *)
Definition posts_only (R : Task -> Prop) (w0 w : W) : Prop :=
  exists news, tasks w = tasks w0 ++ news /\ Forall R news.

Lemma posts_only_refl R (w : W) : posts_only R w w.
Proof. exists []. by rewrite app_nil_r. Qed.

Lemma posts_only_same R (w0 w w' : W) : tasks w' = tasks w -> posts_only R w0 w -> posts_only R w0 w'.
Proof. intros E (news & Ht & HR). exists news. by rewrite E. Qed.

Lemma posts_only_post (R : Task -> Prop) (w0 w : W) t :
  R t -> posts_only R w0 w -> posts_only R w0 (post t w).2.
Proof.
  intros Ht (news & E & HR). exists (news ++ [t]). cbn. rewrite E, app_assoc. split; [done|].
  apply Forall_app. auto.
Qed.

(** Nothing but the screen, the log and the posted tasks has changed. *)
Definition only_talk (R : Task -> Prop) (w0 w : W) : Prop :=
  core w = core w0 /\ storage_ w = storage_ w0 /\ posts_only R w0 w.

Lemma talk_app R w0 f : keeps (only_talk R w0) (on_app f).
Proof. by intros w. Qed.
Lemma talk_log R w0 line : keeps (only_talk R w0) (log_write line).
Proof.
  intros w (Hc & Hs & Hp). unfold log_write, modify. cbn [snd]. by destruct (log_ w).
Qed.
Lemma talk_clock R w0 : keeps (only_talk R w0) timestamp_text.
Proof. by intros w. Qed.
Lemma talk_deliver (R : Task -> Prop) w0 m msg :
  (forall wire, R (TaskDeliver m wire)) -> keeps (only_talk R w0) (deliver m msg).
Proof.
  intros HR w (Hc & Hs & Hp). unfold deliver. destruct (value _) as [wire|]; [|done].
  split; [done|]. split; [done|]. by apply posts_only_post.
Qed.

Lemma last_named_from (w : W) nick l acc m :
  foldl (fun found m => if String.eqb (nickname w m) nick then Some m else found) acc l = Some m ->
  acc = Some m \/ (m ∈ l /\ nickname w m = nick).
Proof.
  revert acc. induction l as [|x l IH]; intros acc; cbn; [auto|].
  intros [Hx|[Hin Hn]]%IH.
  - destruct (String.eqb_spec (nickname w x) nick) as [E|E]; [|auto].
    injection Hx as ->. right. split; [left|done].
  - right. split; [by right|done].
Qed.

Lemma last_named_Some (w : W) nick l m :
  last_named w nick l = Some m -> m ∈ l /\ nickname w m = nick.
Proof. intros [Hx|Hx]%last_named_from; [done|exact Hx]. Qed.

(** A frame for a member of the sender's room named as one of the two ends. *)
Definition whisper_task (w : W) (s : SessionId) (target : string) (t : Task) : Prop :=
  exists m wire room, t = TaskDeliver m wire /\
    rooms_ (server w) !! active_room_of w s = Some room /\ m ∈ members room /\
    (nickname w m = target \/ nickname w m = nickname w s).

Lemma whisper_talk s target msg (w : W) :
  only_talk (whisper_task w s target) w (send_private_from s target msg w).2.
Proof.
  assert (only_talk (whisper_task w s target) w w) as Q0
    by (do 2 (split; [done|]); apply posts_only_refl).
  unfold send_private_from, send_private_in_room. rewrite bind_snd. cbn [get fst snd].
  rewrite bind_snd. cbn [get fst snd].
  destruct (rooms_ (server w) !! active_room_of w s) as [room|] eqn:Er; [|exact Q0].
  assert (forall nick m wire, last_named w nick (set_iter (members room)) = Some m ->
    nick = target \/ nick = nickname w s -> whisper_task w s target (TaskDeliver m wire)) as HR.
  { intros nick m wire [Hin Hn]%last_named_Some Hnick. apply elem_of_set_iter in Hin.
    exists m, wire, room. by destruct Hnick; subst nick; auto. }
  assert (forall nick m msg, last_named w nick (set_iter (members room)) = Some m ->
    nick = target \/ nick = nickname w s ->
    keeps (only_talk (whisper_task w s target) w) (deliver_text m msg)) as Hd.
  { intros nick m text Hm Hnick. apply talk_deliver. intros wire. by eapply HR. }
  match goal with |- only_talk ?R ?w0 (?m ?w).2 =>
    enough (keeps (only_talk R w0) m) as Hk by (apply Hk; exact Q0) end.
  assert (forall text (b : bool), keeps (only_talk (whisper_task w s target) w)
    match last_named w (nickname w s) (set_iter (members room)) with
    | Some m => when b (deliver_text m text) | None => ret tt end) as Hsender.
  { intros text b. destruct (last_named w (nickname w s) _) as [m|] eqn:E; [|apply keeps_ret].
    apply keeps_when. eapply Hd; eauto. }
  destruct (_ && _)%bool.
  - apply keeps_bind; [exact (Hsender _ true)|intros _].
    apply keeps_bind; [apply keeps_when, talk_app|intros _]. apply keeps_ret.
  - apply keeps_bind; [apply talk_clock|intros time].
    apply keeps_bind; [apply keeps_when, talk_app|intros _].
    apply keeps_bind.
    { destruct (last_named w target _) as [m|] eqn:E; [|apply keeps_ret]. eapply Hd; eauto. }
    intros _. apply keeps_bind; [apply Hsender|intros _].
    apply keeps_bind; [apply talk_log|intros _]. apply keeps_ret.
Qed.

Lemma whisper_success s target msg (w : W) :
  (send_private_from s target msg w).1 = true ->
  exists room, rooms_ (server w) !! active_room_of w s = Some room /\
    ((exists m, m ∈ members room /\ nickname w m = target) \/
     (local_nickname_ (server w) = target /\ local_room_id w = active_room_of w s)).
Proof.
  unfold send_private_from, send_private_in_room. rewrite bind_snd. cbn [get fst snd].
  rewrite bind_snd. cbn [get fst snd].
  destruct (rooms_ (server w) !! active_room_of w s) as [room|] eqn:Er; [|done].
  intros Hok. exists room. split; [done|].
  destruct (last_named w target _) as [m|] eqn:Em.
  - left. apply last_named_Some in Em as [Hin Hn]. apply elem_of_set_iter in Hin. eauto.
  - right. destruct (_ && _ && _)%bool eqn:El.
    + bool_split. apply String.eqb_eq in H3. apply N.eqb_eq in H4. done.
    + revert Hok. rewrite bool_decide_false by (intros [x Hx]; done). cbn [negb andb].
      by rewrite !bind_snd.
Qed.

(** C27: a whisper stays between its two ends. Whatever the target and the text,
    [send_private_from] changes no room, session, binding or history and stores
    nothing; the only frames it posts go to members of the sender's own room
    whose nickname is the target's or the sender's; and it succeeds only if the
    target is in that room (as a member or as the local user). *)
Theorem whisper_confined s target msg (w : W) :
  let w' := (send_private_from s target msg w).2 in
  core w' = core w /\ storage_ w' = storage_ w /\
  posts_only (whisper_task w s target) w w' /\
  ((send_private_from s target msg w).1 = true ->
   exists room, rooms_ (server w) !! active_room_of w s = Some room /\
     ((exists m, m ∈ members room /\ nickname w m = target) \/
      (local_nickname_ (server w) = target /\ local_room_id w = active_room_of w s))).
Proof.
  destruct (whisper_talk s target msg w) as (Hc & Hs & Hp).
  split; [done|]. split; [done|]. split; [done|]. apply whisper_success.
Qed.
End properties.
