(* ===== verification/RateLimit.v ===== *)
(** Time in the server: the sliding window of [consume_message_quota], for any
    sequence of requests, and the strictly increasing timestamps of stored
    messages. *)

From S2P Require Import Prelude Frame Message Utils AppState StorageApi World.
From S2P Require Import ChatServer ClientSession.
Local Open Scope string_scope.
Local Open Scope list_scope.
Local Open Scope chat_scope.

(* ===================================================================== *)
(** * The sliding window *)

(** The times at which requests are granted, one request per time. *)
Fixpoint granted_times (recent times : list Z) : list Z :=
  match times with
  | [] => []
  | now :: times' =>
      let '(recent', granted) := consume now recent in
      (if granted then [now] else []) ++ granted_times recent' times'
  end.

(** Any 21 consecutive grants take longer than the window. *)
Definition spaced (l : list Z) : Prop :=
  forall i a b, l !! i = Some a -> l !! (i + 20) = Some b -> (rate_limit_window < b - a)%Z.

Lemma drop_while_split {A} (p : A -> bool) l :
  exists dropped, l = dropped ++ drop_while p l /\ Forall (fun x => p x = true) dropped.
Proof.
  induction l as [|x l IH]; [by exists []|]. cbn [drop_while].
  destruct (p x) eqn:E; [|by exists []]. destruct IH as (d & Hd & Hp).
  exists (x :: d). split; [by rewrite Hd at 1|by constructor].
Qed.

Lemma drop_while_head {A} (p : A -> bool) l x l' : drop_while p l = x :: l' -> p x = false.
Proof.
  induction l as [|y l IH]; [done|]. cbn [drop_while]. destruct (p y) eqn:E; [auto|].
  by intros [= <- <-].
Qed.

Lemma spaced_snoc l b :
  spaced l -> (forall a, l !! (length l - 20) = Some a -> 20 <= length l ->
               (rate_limit_window < b - a)%Z) -> spaced (l ++ [b]).
Proof.
  intros Hl Hb i x y Hx Hy. destruct (decide (i + 20 < length l)) as [Hi|Hi].
  - rewrite lookup_app_l in Hx, Hy by lia. eauto.
  - apply lookup_lt_Some in Hy as Hlt. rewrite length_app in Hlt. cbn in Hlt.
    assert (i + 20 = length l) as Hi' by lia. rewrite Hi', list_lookup_middle in Hy by done.
    injection Hy as <-. rewrite lookup_app_l in Hx by lia. apply Hb; [|lia].
    by replace (length l - 20) with i by lia.
Qed.

(** The deque holds the end of the grants; the rest has left every later window. *)
Lemma granted_times_spaced times : forall left recent,
  (forall t, t ∈ times -> Forall (fun x => rate_limit_window < t - x)%Z left) ->
  StronglySorted Z.le times -> spaced (left ++ recent) ->
  spaced ((left ++ recent) ++ granted_times recent times).
Proof.
  induction times as [|now times IH]; intros left recent Hleft Hs Hsp;
    [by rewrite app_nil_r|].
  apply StronglySorted_inv in Hs as [Hs Hnow]. cbn [granted_times]. unfold consume.
  destruct (drop_while_split (fun t => rate_limit_window <? now - t)%Z recent)
    as (old & Hrec & Hold).
  set (kept := drop_while _ recent) in *.
  assert (forall t, t ∈ now :: times -> Forall (fun x => rate_limit_window < t - x)%Z (left ++ old))
    as Hleft'.
  { intros t Ht. apply Forall_app. split; [by apply Hleft|].
    eapply Forall_impl; [|exact Hold]. cbn. intros x Hx. apply Z.ltb_lt in Hx.
    assert (now <= t)%Z; [|lia]. apply elem_of_cons in Ht as [->|Ht]; [done|].
    rewrite Forall_forall in Hnow. by apply Hnow, list_elem_of_In. }
  assert (left ++ recent = (left ++ old) ++ kept) as Eapp by (rewrite Hrec at 1; by rewrite app_assoc).
  rewrite Eapp in Hsp |- *.
  destruct (N.leb_spec RATE_LIMIT_MESSAGES (N.of_nat (length kept))) as [Hfull|Hfree].
  - cbn [app]. apply IH; [|done|done]. intros t Ht. apply Hleft'. by right.
  - rewrite app_assoc, <- (app_assoc (left ++ old) kept [now]).
    apply IH; [|done|]. { intros t Ht. apply Hleft'. by right. }
    rewrite app_assoc. apply spaced_snoc; [done|]. intros a Ha Hlen.
    rewrite length_app in Ha, Hlen. rewrite lookup_app_l in Ha
      by (unfold RATE_LIMIT_MESSAGES in Hfree; lia).
    apply list_elem_of_lookup_2, list_elem_of_In in Ha.
    specialize (Hleft' now ltac:(left)). rewrite Forall_forall in Hleft'. by apply Hleft'.
Qed.

(** The deque stays sorted, so a refusal means the window is full. *)
Lemma drop_while_window now recent :
  StronglySorted Z.le recent -> Forall (fun t => t <= now)%Z recent ->
  Forall (fun t => 0 <= now - t <= rate_limit_window)%Z
    (drop_while (fun t => rate_limit_window <? now - t)%Z recent).
Proof.
  induction 1 as [|x l Hl IH Hx]; intros Hle; [constructor|].
  apply Forall_cons_iff in Hle as [Hxn Hle]. cbn [drop_while].
  destruct (Z.ltb_spec rate_limit_window (now - x)) as [E|E]; [by apply IH|].
  constructor; [lia|]. rewrite Forall_forall in Hx, Hle. apply Forall_forall. intros y Hy.
  specialize (Hx y Hy). specialize (Hle y Hy). lia.
Qed.

Section time.
Context {S : Type} `{ServerStorage S} `{Sodium} `{Platform}.
Abbreviation W := (World S).


(* ===================================================================== *)
(** * Message timestamps *)

(** [n] timestamps taken one after the other. *)
Fixpoint take_timestamps (n : nat) : M W (list Z) :=
  match n with
  | 0 => ret []
  | Datatypes.S n' => let* t := next_message_timestamp in
                      let* ts := take_timestamps n' in ret (t :: ts)
  end.

Lemma next_timestamp_above (w : W) :
  (last_timestamp w < (next_message_timestamp w).1)%Z /\
  last_timestamp (next_message_timestamp w).2 = (next_message_timestamp w).1.
Proof. unfold next_message_timestamp. rewrite bind_snd. cbn. lia. Qed.

Lemma take_timestamps_sorted n : forall w : W,
  StronglySorted Z.lt (take_timestamps n w).1 /\
  Forall (fun t => last_timestamp w < t)%Z (take_timestamps n w).1.
Proof.
  induction n as [|n IH]; intros w; [by split; constructor|].
  cbn [take_timestamps]. rewrite bind_snd.
  destruct (next_timestamp_above w) as [Hlt Hlast].
  destruct (next_message_timestamp w) as [t w1]. cbn [fst snd] in *. rewrite bind_snd. cbn [ret fst].
  destruct (IH w1) as [Hs Hf]. rewrite Hlast in Hf. split; [by constructor|].
  constructor; [done|]. eapply Forall_impl; [|exact Hf]. cbn. lia.
Qed.

(** Message timestamps are strictly increasing, whatever the system clock
    does: also when it stands still or is set back, no two stored messages share
    a timestamp, and the order of the timestamps is the order of the messages. *)
Theorem timestamps_strictly_increase n (w : W) :
  StronglySorted Z.lt (take_timestamps n w).1 /\
  length (take_timestamps n w).1 = n /\
  Forall (fun t => last_timestamp w < t)%Z (take_timestamps n w).1.
Proof.
  destruct (take_timestamps_sorted n w) as [Hs Hf]. split; [done|]. split; [|done].
  clear. revert w. induction n as [|n IH]; intros w; [done|].
  cbn [take_timestamps]. rewrite !bind_snd. cbn. by rewrite IH.
Qed.
End time.

