(* ===== verification/RoomProperties.v ===== *)
(** Rooms and access: what a client can do before it is authenticated, who may
    kick, what joining, creating and leaving a room do to the membership, and the
    window in which a kicked or banned client is still served. *)

From S2P Require Import Prelude Frame Message Utils AppState StorageApi World.
From S2P Require Import ChatServer ClientSession ServerInvariant ServerBoot ServerSteps Stability ServerProperties.
Local Open Scope string_scope.
Local Open Scope list_scope.
Local Open Scope chat_scope.

Section gates.
Context {S : Type} `{ServerStorage S} `{Sodium} `{Platform}.
Abbreviation W := (World S).

(* ===================================================================== *)
(** * Before authentication *)

Definition own_task (s : SessionId) (t : Task) : Prop :=
  match t with
  | TaskDeliver s' _ | TaskClose s' | TaskAbort s' => s' = s
  | TaskStop => False
  end.

(** All that has changed since [w0] belongs to the session [s], which has kept its
    nickname and is in no room; it is authenticated only as before, or by [A]. *)
Record confined (A : Prop) (s : SessionId) (w0 w : W) : Prop := {
  conf_rooms : rooms_ (server w) = rooms_ (server w0);
  conf_identities : identities_ (server w) = identities_ (server w0);
  conf_banned : banned_nicks_ (server w) = banned_nicks_ (server w0);
  conf_local : local_room_id_ (server w) = local_room_id_ (server w0);
  conf_sessions : sessions_ (server w) = sessions_ (server w0) \/
                  sessions_ (server w) = sessions_ (server w0) ∖ {[s]};
  conf_others : forall t, t <> s -> session w t = session w0 t;
  conf_nickname : nickname w s = nickname w0 s;
  conf_room : active_room_of w s = 0%N;
  conf_auth : authenticated_ (session w s) = true ->
              authenticated_ (session w0 s) = true \/ A;
  conf_screen : app w = app w0 /\ log_ w = log_ w0 /\ storage_ w = storage_ w0;
  conf_posts : posts_only (own_task s) w0 w;
}.

Lemma confined_refl A s (w : W) : active_room_of w s = 0%N -> confined A s w w.
Proof. intros Hr. split; auto. apply posts_only_refl. Qed.

Lemma conf_post A s w0 t : own_task s t -> keeps (confined A s w0) (post t).
Proof. intros Ht w []. split; auto. by apply posts_only_post. Qed.

Lemma conf_deliver A s w0 msg : keeps (confined A s w0) (deliver s msg).
Proof.
  unfold deliver. destruct (value _); [by apply conf_post|]. intros w []. by split.
Qed.

Lemma conf_on_session (A : Prop) s w0 f :
  (forall x, nickname_ (f x) = nickname_ x /\ active_room_id_ (f x) = active_room_id_ x /\
             (authenticated_ (f x) = true -> authenticated_ x = true \/ A)) ->
  keeps (confined A s w0) (on_session s f).
Proof.
  intros Hf w []. destruct (Hf (session w s)) as (F1 & F2 & F3).
  assert (session (on_session s f w).2 s = f (session w s)) as Es
    by by rewrite session_on_session, decide_True.
  split; auto.
  - intros t Ht. rewrite session_on_session, decide_False by done. auto.
  - unfold nickname. rewrite Es, F1. exact conf_nickname0.
  - unfold active_room_of. rewrite Es, F2. exact conf_room0.
  - rewrite Es. intros Ha%F3. destruct Ha; auto.
Qed.

(** [disconnect] of a session that is in no room. *)
Lemma conf_disconnect A s w0 b : keeps (confined A s w0) (disconnect s b).
Proof.
  intros w C. unfold disconnect. rewrite bind_snd. set (w1 := (on_server _ w).2).
  assert (confined A s w0 w1) as C1.
  { destruct C. split; auto. cbn. right. destruct conf_sessions0 as [-> | ->]; [done|].
    by rewrite difference_difference_l_L, union_idemp_L. }
  rewrite bind_snd. cbn [get fst snd]. rewrite bind_snd.
  assert (active_room_of w1 s = 0%N) as Hz by by destruct C1.
  rewrite Hz. cbn [N.eqb ret snd]. unfold set_active_room_id.
  destruct C1. split; auto.
  - intros t Ht. rewrite session_on_session, decide_False by done. auto.
  - unfold nickname. rewrite session_on_session, decide_True by done. exact conf_nickname0.
  - unfold active_room_of. by rewrite session_on_session, decide_True.
  - rewrite session_on_session, decide_True by done. exact conf_auth0.
Qed.

Lemma conf_reject A s w0 reply : keeps (confined A s w0) (reject s reply).
Proof.
  unfold reject. apply keeps_bind; [apply conf_deliver|intros _].
  apply keeps_bind; [by apply conf_post|intros _]. apply conf_disconnect.
Qed.

Lemma conf_read_loop A s w0 : keeps (confined A s w0) (read_loop s).
Proof. apply conf_on_session. intros x. cbn. auto. Qed.

Definition gate_closed (c : ChatServer) (x : ClientSession) : Prop :=
  protocol_negotiated_ x = false \/ (has_password c = true /\ authenticated_ x = false).

(** The one way to open the gate: the right password, after the handshake. *)
Definition password_line (c : ChatServer) (x : ClientSession) (line : string) : Prop :=
  exists password, value (decode_client_frame line) = Some (Client.Authenticate password) /\
    check_password c password = true /\ protocol_negotiated_ x = true.

(** C7: the gate. While the protocol handshake is missing, or a password is set
    and the session has not given it, no line of that session has any effect
    beyond the session itself: no room, membership, history, identity, ban,
    nickname, screen, log or storage changes, no other session is touched, and
    frames are posted to no one else. The session becomes authenticated only by
    the right password after the handshake. *)
Theorem gate_blocks s line (w : W) :
  active_room_of w s = 0%N -> gate_closed (server w) (session w s) ->
  confined (password_line (server w) (session w s) line) s w (on_line s line w).2.
Proof.
  intros Hr Hg. rewrite on_line_eq.
  set (A := password_line (server w) (session w s) line).
  assert (confined A s w (line_started s w)) as C1.
  { apply conf_on_session; [intros x; cbn; auto|]. by apply confined_refl. }
  assert (session (line_started s w) s = with_reading false (session w s)) as Es
    by by rewrite line_started_session, decide_True.
  change (server w) with (server (line_started s w)) in Hg. revert C1 Es Hg.
  assert (server (line_started s w) = server w) as Esv by done. revert Esv.
  generalize (line_started s w). intros w1 Esv C1 Es Hg.
  destruct (value (decode_client_frame line)) as [message|] eqn:Ed.
  2: { refine (_ w1 C1). change (keeps (confined A s w) (deliver s (Server.ServerError
        ("Invalid client frame: " +:+ detail (decode_client_frame line))) ;;;
        match error (decode_client_frame line) with
        | UnsupportedVersion => close s ;;; disconnect s false
        | _ => read_loop s end)).
    apply keeps_bind; [apply conf_deliver|intros _].
    destruct (error _); try apply conf_read_loop.
    apply keeps_bind; [by apply conf_post|intros _]. apply conf_disconnect. }
  unfold handle_message. rewrite bind_snd. cbn [get fst snd].
  rewrite Es, Esv in *. unfold gate_closed in Hg. cbn [with_reading protocol_negotiated_
    authenticated_] in *.
  assert (forall m : M W unit, keeps (confined A s w) m -> confined A s w (m w1).2) as Hgo
    by (intros m Hm; by apply Hm).
  destruct message as [version|password| | | | | | | | | | |]; cbv iota beta.
  1: { apply Hgo. unfold handle_hello. apply keeps_bind; [apply keeps_get|intros w2].
    apply keeps_bind; [|intros _; apply conf_read_loop].
    destruct (protocol_negotiated_ (session w2 s)); [apply conf_deliver|].
    apply keeps_bind; [apply conf_on_session; intros x; cbn; auto|intros _]. apply conf_deliver. }
  1: { destruct (protocol_negotiated_ (session w s)) eqn:Ep; cbn [negb]; [|apply Hgo, conf_reject].
    unfold handle_authenticate. rewrite bind_snd. cbn [get fst snd]. rewrite Esv.
    destruct (check_password (server w) password) eqn:Ec; [|apply Hgo, conf_reject].
    apply Hgo. apply keeps_bind.
    { apply conf_on_session. intros x. cbn. split; [done|]. split; [done|]. intros _. right.
      exists password. done. }
    intros _. apply keeps_bind; [apply conf_deliver|intros _]. apply conf_read_loop. }
  all: destruct (protocol_negotiated_ (session w s)); cbn [negb]; [|apply Hgo, conf_reject];
    destruct Hg as [?|[-> ->]]; [done|]; cbn [andb negb]; apply Hgo;
    apply keeps_bind; [apply conf_deliver|intros _]; apply conf_read_loop.
Qed.

(* ===================================================================== *)
(** * Membership *)

(** Everything about rooms and sessions but the histories. *)
Definition forget_history (r : Room) : Room := with_recent_messages [] r.
Definition roster (w : W) : gmap RoomId Room * gset SessionId * Heap :=
  (forget_history <$> rooms_ (server w), sessions_ (server w), heap w).

Lemma frames_roster_core {A} (m : M W A) : frames core m -> frames roster m.
Proof. intros Hf w. specialize (Hf w). unfold core in Hf. unfold roster. by injection Hf as -> ->. Qed.

Lemma frames_roster_record id msg : frames roster (record_message id msg).
Proof.
  intros w. unfold roster, record_message, on_server. cbn. do 2 f_equal. apply map_eq. intros i.
  rewrite !lookup_fmap. destruct (decide (i = id)) as [->|Hne].
  - rewrite lookup_alter_eq. by destruct (rooms_ (server w) !! id).
  - by rewrite lookup_alter_ne.
Qed.

Ltac roster_tac :=
  intros; repeat first [ apply frames_roster_core; solve [auto with chat_frames nocore]
                       | solve [auto with chat_frames nocore] | frames_step ].

Lemma frames_roster_broadcast_room id msg nick : frames roster (broadcast_room id msg nick).
Proof. unfold broadcast_room. roster_tac. apply frames_roster_record. Qed.
Lemma frames_roster_broadcast_users id : frames roster (broadcast_users id).
Proof. unfold broadcast_users. roster_tac. Qed.
Lemma frames_roster_broadcast_room_lists : frames roster broadcast_room_lists.
Proof. unfold broadcast_room_lists. roster_tac. Qed.
#[local] Hint Resolve frames_roster_broadcast_room frames_roster_broadcast_users
  frames_roster_broadcast_room_lists : chat_frames.

(** What two worlds with the same roster agree on. *)
Lemma roster_active (w w' : W) s : roster w' = roster w -> active_room_of w' s = active_room_of w s.
Proof. unfold roster, active_room_of, session. by intros [= _ _ ->]. Qed.

Lemma roster_sessions (w w' : W) : roster w' = roster w -> sessions_ (server w') = sessions_ (server w).
Proof. by intros [= _ -> _]. Qed.

Lemma roster_room (w w' : W) id :
  roster w' = roster w ->
  forget_history <$> rooms_ (server w') !! id = forget_history <$> rooms_ (server w) !! id.
Proof. intros [= Hr _ _]. by rewrite <- !lookup_fmap, Hr. Qed.

(** The core of a move and of a departure, as worlds. *)
Definition after_move (s : SessionId) (target : RoomId) (w : W) : W :=
  (change_room s (active_room_of w s) target w).2.

Lemma move_roster s target announce (w : W) :
  is_Some (rooms_ (server w) !! target) ->
  roster (move_session_to_room s target announce w).2 = roster (after_move s target w).
Proof.
  intros [room Hr]. unfold move_session_to_room. rewrite bind_snd. cbn [get fst snd]. rewrite Hr.
  rewrite bind_snd.
  match goal with |- roster (?m ?w1).2 = _ => assert (frames roster m) as Hf by roster_tac end.
  apply Hf.
Qed.

Lemma after_move_rooms s target (w : W) :
  rooms_ (server (after_move s target w))
  = moved_rooms s (active_room_of w s) target (rooms_ (server w)).
Proof.
  unfold after_move, change_room. rewrite !bind_snd. reflexivity.
Qed.

Lemma after_move_active s target (w : W) t :
  active_room_of (after_move s target w) t = if decide (t = s) then target else active_room_of w t.
Proof.
  unfold after_move, change_room, active_room_of. rewrite !bind_snd. unfold set_active_room_id.
  rewrite session_on_session. by case_decide.
Qed.

(** Membership after a move, room by room. *)
Lemma moved_member s target (w : W) id r t :
  Inv w -> moved_rooms s (active_room_of w s) target (rooms_ (server w)) !! id = Some r ->
  exists r0, rooms_ (server w) !! id = Some r0 /\
    (t ∈ members r <-> if decide (t = s) then id = target else t ∈ members r0).
Proof.
  intros I E. rewrite moved_rooms_lookup in E.
  destruct (rooms_ (server w) !! id) as [r0|] eqn:E0; [|done]. injection E as <-.
  exists r0. split; [done|]. cbn [with_members members].
  rewrite elem_of_union, elem_of_difference.
  assert (s ∈ members r0 -> id = active_room_of w s) as Hin
    by (intros Hm; symmetry; by apply (inv_member _ _ I _ _ _ E0)).
  destruct (decide (t = s)) as [->|Hts].
  - destruct (decide (id = target)) as [->|Hid].
    + split; [done|]. intros _. left. by apply elem_of_singleton.
    + split; [|done]. intros [Hm|[Hm Hn]]; [by apply elem_of_empty in Hm|].
      rewrite decide_True in Hn by auto. by rewrite elem_of_singleton in Hn.
  - split.
    + intros [Hm|[Hm _]]; [|done]. case_decide; [|by apply elem_of_empty in Hm].
      by apply elem_of_singleton in Hm.
    + intros Hm. right. split; [done|]. case_decide; [by rewrite elem_of_singleton|].
      apply not_elem_of_empty.
Qed.

(** The statement shared by the ways a client changes room: [s] is in [id] and in
    no other room, and nobody else has moved. *)
Record in_room_only (s : SessionId) (id : RoomId) (w w' : W) : Prop := {
  only_active : active_room_of w' s = id;
  only_others_active : forall t, t <> s -> active_room_of w' t = active_room_of w t;
  only_members : forall id' r', rooms_ (server w') !! id' = Some r' ->
    exists r, rooms_ (server w) !! id' = Some r /\ (s ∈ members r' <-> id' = id) /\
      forall t, t <> s -> (t ∈ members r' <-> t ∈ members r);
  only_rooms : forall id', is_Some (rooms_ (server w) !! id') -> is_Some (rooms_ (server w') !! id');
  only_connected : sessions_ (server w') = sessions_ (server w);
}.

Lemma move_in_room_only s target announce (w : W) :
  Inv w -> is_Some (rooms_ (server w) !! target) ->
  in_room_only s target w (move_session_to_room s target announce w).2.
Proof.
  intros I Ht. pose proof (move_roster s target announce w Ht) as Hr.
  set (w' := (move_session_to_room s target announce w).2) in *.
  split.
  - rewrite (roster_active _ _ s Hr), after_move_active. by rewrite decide_True.
  - intros t Hne. rewrite (roster_active _ _ t Hr), after_move_active. by rewrite decide_False.
  - intros id r' E. pose proof (roster_room _ _ id Hr) as Hf. rewrite E, after_move_rooms in Hf.
    destruct (moved_rooms _ _ _ _ !! id) as [r1|] eqn:E1; [|done].
    assert (members r' = members r1) as Hm.
    { unfold forget_history in Hf. cbn in Hf. by injection Hf. }
    destruct (moved_member s target w id r1 s I E1) as (r0 & E0 & Hs).
    exists r0. split; [done|]. rewrite Hm. rewrite decide_True in Hs by done. split; [done|].
    intros t Hne. destruct (moved_member s target w id r1 t I E1) as (r0' & E0' & Ht').
    rewrite decide_False in Ht' by done. rewrite E0 in E0'. by injection E0' as <-.
  - intros id [r E]. pose proof (roster_room _ _ id Hr) as Hf. rewrite after_move_rooms in Hf.
    rewrite moved_rooms_lookup, E in Hf. destruct (rooms_ (server w') !! id); [eauto|done].
  - rewrite (roster_sessions _ _ Hr). unfold after_move, change_room. by rewrite !bind_snd.
Qed.

(** Joining a room. [join_room] finds the room by its name, whatever the case;
    an unknown name or the room the session is already in is an error that
    changes nothing; otherwise the session ends up a member of that room and of
    no other, its active room is that room, and nobody else moves. *)
Theorem join_room_spec s name (w : W) :
  Inv w ->
  match join_room s name w with
  | (None, w') => exists id room, rooms_ (server w) !! id = Some room /\
      normalized_room_name (room_name room) = normalized_room_name name /\
      active_room_of w s <> id /\ in_room_only s id w w'
  | (Some error, w') => w' = w /\
      (error = no_such_room name /\ find_room_by_name_locked (server w) name = None \/
       exists room, rooms_ (server w) !! active_room_of w s = Some room /\
         normalized_room_name (room_name room) = normalized_room_name name)
  end.
Proof.
  intros I. unfold join_room. rewrite bind_snd. cbn [get fst snd].
  destruct (find_room_by_name_locked (server w) name) as [[id room]|] eqn:E; [|cbn; auto].
  apply find_room_Some in E as [Hr Hn].
  destruct (N.eqb_spec (active_room_of w s) id) as [Ha|Ha].
  - cbn. split; [done|]. right. exists room. by rewrite Ha.
  - rewrite bind_snd. cbn [ret]. exists id, room. split_and!; [done..|]. by apply move_in_room_only.
Qed.

(** Leaving goes to the lobby. [leave_room] refuses in the lobby; from anywhere
    else the session becomes a member of the lobby and of no other room. *)
Theorem leave_room_spec s (w : W) :
  Inv w ->
  match leave_room s w with
  | (None, w') => in_room_only s DEFAULT_ROOM_ID w w'
  | (Some _, w') => w' = w /\ active_room_of w s = DEFAULT_ROOM_ID
  end.
Proof.
  intros I. unfold leave_room. rewrite bind_snd. cbn [get fst snd].
  destruct (N.eqb_spec (active_room_of w s) DEFAULT_ROOM_ID) as [Ha|Ha]; [done|].
  rewrite bind_snd. cbn [ret]. apply move_in_room_only; [done|]. apply (inv_lobby _ _ I).
Qed.

(* ===================================================================== *)
(** * Creating a room *)

Lemma emplaced_room_only s name (w : W) :
  Inv w -> nickname w s <> "" -> room_creation_error (server w) name = None ->
  let id := next_room_id_ (server w) in
  let w1 := (persist_room id (on_server (emplace_room name (nickname w s)) w).2).2 in
  Inv w1 /\ rooms_ (server w1) = <[id := new_room (server w) name (nickname w s)]> (rooms_ (server w))
  /\ rooms_ (server w) !! id = None /\ heap w1 = heap w /\ sessions_ (server w1) = sessions_ (server w).
Proof.
  intros I Hn E. cbv zeta.
  pose proof (frames_core_persist_room (next_room_id_ (server w))
    (on_server (emplace_room name (nickname w s)) w).2) as Hc.
  pose proof (Inv_emplace name (nickname w s) w E I) as I1.
  apply room_creation_ok in E as (_ & Hs & _).
  destruct (fresh_emplace _ name (nickname w s) (inv_fresh _ _ I) Hs) as [He Hno].
  split; [by eapply core_Inv|].
  pose proof (f_equal fst Hc) as Hc1. pose proof (f_equal snd Hc) as Hc2.
  unfold core in Hc1, Hc2. cbn [fst snd] in Hc1, Hc2. rewrite Hc1, Hc2.
  cbn [on_server modify snd put_server server heap]. by rewrite He.
Qed.

(** Creating a room. [create_room] gives the first error that applies, in the
    order invalid name, room limit, name in use whatever the case, and then
    changes nothing. Otherwise a new room appears under a fresh identifier with
    that name, an empty topic and the creator as owner, and the creator is in it
    and in no other room; the rooms that existed keep their other members. *)
Theorem create_room_spec s name (w : W) :
  Inv w -> nickname w s <> "" ->
  match create_room s name w with
  | (Some error, w') => w' = w /\ room_creation_error (server w) name = Some error
  | (None, w') =>
      let id := next_room_id_ (server w) in
      room_creation_error (server w) name = None /\ rooms_ (server w) !! id = None /\
      active_room_of w' s = id /\
      (exists r, rooms_ (server w') !! id = Some r /\ room_id r = id /\ room_name r = name /\
         room_topic r = "" /\ owner_nickname r = nickname w s /\ members r = {[s]}) /\
      (forall id' r', id' <> id -> rooms_ (server w') !! id' = Some r' ->
         exists r, rooms_ (server w) !! id' = Some r /\ (s ∉ members r') /\
           (forall t, t <> s -> (t ∈ members r' <-> t ∈ members r)))
  end.
Proof.
  intros I Hn. unfold create_room. rewrite bind_snd. cbn [get fst snd].
  destruct (room_creation_error (server w) name) as [error|] eqn:E; [done|].
  destruct (emplaced_room_only s name w I Hn E) as (I1 & Hr1 & Hno & Hh & Hs).
  rewrite bind_snd. rewrite bind_snd.
  set (w1 := (persist_room _ _).2) in *. set (id := next_room_id_ (server w)) in *.
  assert (is_Some (rooms_ (server w1) !! id)) as Hid by (rewrite Hr1, lookup_insert_eq; eauto).
  rewrite bind_snd. cbn [ret]. destruct (move_in_room_only s id true w1 I1 Hid) as [M1 M2 M3 M4 M5].
  pose proof (move_roster s id true w1 Hid) as Hro.
  set (w' := (move_session_to_room s id true w1).2) in *.
  split; [done|]. split; [done|]. split; [done|]. split.
  - destruct (M4 id Hid) as [r Hr]. exists r. split; [done|].
    pose proof (roster_room _ _ id Hro) as Hf. rewrite Hr, after_move_rooms, moved_rooms_lookup in Hf.
    rewrite Hr1, lookup_insert_eq in Hf. cbn in Hf. unfold forget_history, with_recent_messages in Hf.
    cbn in Hf. injection Hf as F1 F2 F3 F4 F5. rewrite decide_True in F5 by done.
    do 4 (split; [done|]). rewrite F5.
    apply set_eq. intros t. rewrite elem_of_union, elem_of_difference. split; [|by left].
    intros [Ht|[Ht _]]; [done|by apply elem_of_empty in Ht].
  - intros id' r' Hne Hr'. destruct (M3 id' r' Hr') as (r & Hr & Hsr & Hothers).
    rewrite Hr1, lookup_insert_ne in Hr by done. exists r. split; [done|]. split; [|done].
    rewrite Hsr. done.
Qed.

(* ===================================================================== *)
(** * Kicks *)

Definition after_disconnect (s : SessionId) (w : W) : W :=
  put_heap (<[s := with_active_room_id 0%N (session w s)]> (heap w))
    (put_server (with_rooms (alter (erase_member s) (active_room_of w s) (rooms_ (server w)))
      (with_sessions (sessions_ (server w) ∖ {[s]}) (server w))) w).

Lemma disconnect_roster s announce (w : W) :
  active_room_of w s <> 0%N ->
  roster (disconnect s announce w).2 = roster (after_disconnect s w).
Proof.
  intros Hne. unfold disconnect. rewrite bind_snd. cbn [on_server modify snd].
  rewrite bind_snd. cbn [get fst snd]. rewrite bind_snd.
  change (active_room_of (put_server _ w) s) with (active_room_of w s).
  rewrite (proj2 (N.eqb_neq _ _)) by done. rewrite bind_snd.
  match goal with |- roster (?m ?w1).2 = _ => assert (frames roster m) as Hf by roster_tac end.
  rewrite Hf. reflexivity.
Qed.

Lemma after_disconnect_roster s (w w1 : W) :
  core w1 = core w -> roster (after_disconnect s w1) = roster (after_disconnect s w).
Proof.
  intros Hc. assert (server w1 = server w) as Hc1 by apply (f_equal fst Hc).
  assert (heap w1 = heap w) as Hc2 by apply (f_equal snd Hc).
  unfold roster, after_disconnect, active_room_of, session.
  cbn [put_heap put_server server heap]. by rewrite Hc1, Hc2.
Qed.

Lemma core_active (w w1 : W) s : core w1 = core w -> active_room_of w1 s = active_room_of w s.
Proof.
  intros Hc. assert (heap w1 = heap w) as Hc2 by apply (f_equal snd Hc).
  unfold active_room_of, session. by rewrite Hc2.
Qed.

Lemma kick_in_room_roster id nick reason (w : W) room target :
  rooms_ (server w) !! id = Some room ->
  first_named w nick (set_iter (members room)) = Some target ->
  active_room_of w target <> 0%N ->
  (kick_user_in_room id nick reason w).1 = true /\
  roster (kick_user_in_room id nick reason w).2 = roster (after_disconnect target w).
Proof.
  intros Hr Ht Hne. unfold kick_user_in_room. rewrite bind_snd. cbn [get fst snd]. rewrite Hr, Ht.
  set (d := deliver target (Server.Kick nick reason)). set (cl := close target).
  rewrite (bind_snd d). set (w1 := (d w).2).
  assert (core w1 = core w) as Hc1 by apply frames_core_deliver. clearbody w1 d. clear d.
  rewrite (bind_snd cl). set (w2 := (cl w1).2).
  assert (core w2 = core w) as Hc2 by (rewrite <- Hc1; apply frames_core_close).
  clearbody w2 cl. clear cl. rewrite (bind_snd (disconnect target false)).
  assert (roster (disconnect target false w2).2 = roster (after_disconnect target w)) as Hd.
  { rewrite disconnect_roster by by rewrite (core_active w w2). by apply after_disconnect_roster. }
  revert Hd. generalize (disconnect target false w2).2. intros w3 Hd.
  split; [by rewrite !bind_snd|]. rewrite <- Hd.
  match goal with |- roster (?m ?w1).2 = _ => assert (frames roster m) as Hf by roster_tac end.
  apply Hf.
Qed.

(** Who is in which room once a session has left. *)
Record out_of_rooms (target : SessionId) (w w' : W) : Prop := {
  out_connected : sessions_ (server w') = sessions_ (server w) ∖ {[target]};
  out_active : active_room_of w' target = 0%N;
  out_others : forall t, t <> target -> active_room_of w' t = active_room_of w t;
  out_members : forall id r', rooms_ (server w') !! id = Some r' ->
    exists r, rooms_ (server w) !! id = Some r /\ members r' = members r ∖ {[target]};
}.

Lemma after_disconnect_out target (w w' : W) :
  Inv w -> roster w' = roster (after_disconnect target w) -> out_of_rooms target w w'.
Proof.
  intros I Hro. split.
  - by rewrite (roster_sessions _ _ Hro).
  - rewrite (roster_active _ _ _ Hro). unfold active_room_of at 1, session at 1, after_disconnect.
    cbn [put_heap heap]. by rewrite lookup_insert_eq.
  - intros t Hnt. rewrite (roster_active _ _ _ Hro). unfold active_room_of at 1, session at 1,
      after_disconnect. cbn [put_heap heap]. by rewrite lookup_insert_ne.
  - intros id r' Hr'. pose proof (roster_room _ _ id Hro) as Hf. rewrite Hr' in Hf.
    cbn [after_disconnect put_heap put_server server with_rooms rooms_] in Hf.
    destruct (decide (id = active_room_of w target)) as [->|Hid].
    + rewrite lookup_alter_eq in Hf. destruct (rooms_ (server w) !! _) as [room|]; [|done].
      exists room. split; [done|]. unfold forget_history in Hf. cbn in Hf. by injection Hf.
    + rewrite lookup_alter_ne in Hf by done.
      destruct (rooms_ (server w) !! id) as [r|] eqn:Er'; [|done].
      exists r. split; [done|]. unfold forget_history in Hf. cbn in Hf. injection Hf as _ _ _ _ ->.
      symmetry. apply difference_disjoint_L. intros x Hx Hx'%elem_of_singleton. subst x.
      apply Hid. symmetry. exact (inv_member _ _ I _ _ _ Er' Hx).
Qed.

(** Only the creator of a room can kick from it, and only members of it. A
    refused [kick_from] changes nothing. An accepted one means the requester is
    the room's creator and another member carries the nickname: that member is no
    longer connected, is in no room, and nobody else's membership changes. *)
Theorem kick_from_spec s nick reason (w : W) :
  Inv w ->
  match kick_from s nick reason w with
  | (Some _, w') => w' = w
  | (None, w') => exists room target,
      rooms_ (server w) !! active_room_of w s = Some room /\
      owner_nickname room = nickname w s /\
      target ∈ members room /\ nickname w target = nick /\ nick <> nickname w s /\
      out_of_rooms target w w'
  end.
Proof.
  intros I. unfold kick_from. rewrite bind_snd. cbn [get fst snd].
  destruct (rooms_ (server w) !! active_room_of w s) as [room|] eqn:Er; cbn [negb]; [|done].
  destruct (String.eqb_spec (owner_nickname room) (nickname w s)) as [Ho|Ho]; cbn [negb]; [|done].
  destruct (String.eqb_spec nick (nickname w s)) as [Hs|Hs]; [done|].
  rewrite bind_snd.
  destruct (first_named w nick (set_iter (members room))) as [target|] eqn:Et.
  - pose proof Et as [Hin Hnick]%List.find_some. apply list_elem_of_In, elem_of_set_iter in Hin.
    apply String.eqb_eq in Hnick.
    assert (active_room_of w target <> 0%N) as Hne.
    { pose proof (inv_member _ _ I _ _ _ Er Hin) as Ha.
      apply (inv_room_id _ _ I) in Er as [_ ?]. unfold active_room_of, session_of in *.
      change (active_room_id_ (session w target)) with
        (active_room_id_ (default new_session (heap w !! target))). rewrite Ha. lia. }
    destruct (kick_in_room_roster _ nick reason w room target Er Et Hne) as [Hk Hro].
    destruct (kick_user_in_room _ nick reason w) as [b w']. cbn [fst snd] in *. subst b. cbn [ret].
    exists room, target. split_and!; try done. by apply after_disconnect_out.
  - unfold kick_user_in_room. rewrite bind_snd. cbn [get fst snd]. by rewrite Er, Et.
Qed.
End gates.
