(* ===== verification/Scenarios.v ===== *)
(** Concrete executions. The events of [ServerSteps.v] as an executable function,
    a server with two clients who identify themselves, the instances of the
    server's theorems on it, and an execution that shows how a banned client is
    still served. *)

From S2P Require Import Prelude Frame Message Utils AppState StorageApi World.
From S2P Require Import ChatServer ClientSession ServerInvariant ServerBoot ServerSteps Stability ServerProperties.
From S2P Require Import RoomProperties.
Local Open Scope string_scope.
Local Open Scope list_scope.
Local Open Scope chat_scope.

Inductive Event :=
| EventAccept (s : SessionId)
| EventHandshake (s : SessionId)
| EventSend (s : SessionId) (message : Client.message)
| EventProve (s : SessionId) (draw : nat)
| EventReadError (s : SessionId)
| EventTask
| EventWritten (s : SessionId)
| EventAdmin (a : Admin).

Section events.
Context {S : Type} `{ServerStorage S} `{Sodium} `{Platform}.
Abbreviation W := (World S).

Definition frame_of (message : Client.message) : string :=
  default "" (value (encode_client_frame message)).

(** The proof a client holding the key pair of a draw answers with. *)
Definition proof_of (draw : nat) (w : W) (s : SessionId) : Client.message :=
  let '(pk, sk) := crypto_sign_keypair draw in
  Client.IdentityProof
    (sign_identity_challenge (MkIdentity pk sk (bytes_to_hex pk)) (pending_challenge_ (session w s))).

Definition run_event (e : Event) (w : W) : option W :=
  match e with
  | EventAccept s =>
      match heap w !! s with
      | None => if acceptor_open (server w) then Some (accept s w).2 else None
      | Some _ => None
      end
  | EventHandshake s =>
      if handshaking (session w s) then Some (on_handshake s false w).2 else None
  | EventSend s message =>
      if reading (session w s) then Some (on_line s (frame_of message) w).2 else None
  | EventProve s draw =>
      if reading (session w s) then Some (on_line s (frame_of (proof_of draw w s)) w).2 else None
  | EventReadError s => if reading (session w s) then Some (on_read_error s w).2 else None
  | EventTask =>
      match tasks w with
      | t :: rest => Some (run_task t (put_tasks rest w)).2
      | [] => None
      end
  | EventWritten s =>
      if write_pending (session w s) then Some (on_session s written w).2 else None
  | EventAdmin a => Some (run_admin a w).2
  end.

Fixpoint run_events (es : list Event) (w : W) : option W :=
  match es with
  | [] => Some w
  | e :: es' => match run_event e w with Some w' => run_events es' w' | None => None end
  end.

Lemma run_event_step e (w w' : W) : run_event e w = Some w' -> step w w'.
Proof.
  destruct e as [s|s|s m|s d|s| |s|a]; cbn [run_event].
  - destruct (heap w !! s) eqn:E; [done|]. destruct (acceptor_open _) eqn:Ea; [|done].
    intros <-%(inj Some). by apply step_accept.
  - destruct (handshaking _) eqn:E; [|done]. intros <-%(inj Some). by apply step_handshake.
  - destruct (reading _) eqn:E; [|done]. intros <-%(inj Some). by apply step_line.
  - destruct (reading _) eqn:E; [|done]. intros <-%(inj Some). by apply step_line.
  - destruct (reading _) eqn:E; [|done]. intros <-%(inj Some). by apply step_read_error.
  - destruct (tasks w) as [|t rest] eqn:E; [done|]. intros <-%(inj Some). by apply step_task.
  - destruct (write_pending _) eqn:E; [|done]. intros <-%(inj Some). by apply step_written.
  - intros <-%(inj Some). apply step_admin.
Qed.

Lemma run_events_reachable es (w0 w w' : W) :
  reachable w0 w -> run_events es w = Some w' -> reachable w0 w'.
Proof.
  revert w. induction es as [|e es IH]; intros w Hr; cbn [run_events]; [by intros [= <-]|].
  destruct (run_event e w) as [w1|] eqn:E; [|done]. apply IH.
  eapply reachable_step; [exact Hr|]. by eapply run_event_step.
Qed.
End events.

(* ===================================================================== *)
(** * Two clients *)

(** A server without storage, password or local user, with a log. *)
Definition start : World unit := chat_server "" "" 100 None (Some []) ∅.

Definition key_hex (draw : nat) : string := bytes_to_hex (crypto_sign_keypair draw).1.

(** A client connects, and joins under a nickname with the keys of a draw. *)
Definition join_events (s : SessionId) (nick : string) (draw : nat) : list Event :=
  [EventAccept s; EventHandshake s; EventSend s (Client.Hello VERSION);
   EventSend s (Client.Identify nick (key_hex draw)); EventProve s draw].

Definition two_clients_events : list Event :=
  join_events 1%N "ann" 1 ++ join_events 2%N "bob" 2 ++ [EventSend 1%N (Client.CreateRoom "den");
    EventSend 2%N (Client.JoinRoom "DEN")].

Definition two_clients : World unit := default start (run_events two_clients_events start).

Example two_clients_members :
  (fun r => (room_name r, owner_nickname r, set_iter (members r))) <$> (map_iter (rooms_ (server two_clients))).*2
  = [("lobby", "", []); ("den", "ann", [1%N; 2%N])].
Proof. vm_compute. reflexivity. Qed.

Definition bool_of {A} (o : option A) : bool := match o with Some _ => true | None => false end.

(** A state that a list of events leads to, from the start. *)
Lemma run_reachable es w : run_events es start = Some w -> reachable start w.
Proof. apply run_events_reachable. apply reachable_start. Qed.

Lemma default_run {A} (o : option A) d : bool_of o = true -> o = Some (default d o).
Proof. by destruct o. Qed.

Lemma two_clients_reachable : reachable start two_clients.
Proof.
  apply (run_reachable two_clients_events). apply default_run.
  vm_compute. reflexivity.
Qed.

Lemma two_clients_inv : Inv two_clients.
Proof.
  eapply Inv_reachable; [apply two_clients_reachable|].
  by apply (chat_server_inv (fun _ : unit => True)).
Qed.

(* ===================================================================== *)
(** * The theorems on it *)


Definition den : Room := default (MkRoom 0%N "" "" "" [] ∅) (rooms_ (server two_clients) !! 2%N).

Lemma membership_disjoint_witness :
  2%N = 2%N /\ active_room_of two_clients 1%N = 2%N /\ nickname two_clients 1%N <> "".
Proof.
  apply (membership_disjoint (fun _ : unit => True) "" "" 100 None (Some []) ∅ two_clients
    2%N 2%N den den 1%N I two_clients_reachable); vm_compute; try reflexivity; exact I.
Defined.

Lemma identity_binding_permanent_witness :
  identities_ (server two_clients) !! "ann" = Some (key_hex 1).
Proof.
  apply (identity_binding_permanent two_clients two_clients "ann" (key_hex 1)).
  - apply reachable_start.
  - vm_compute. reflexivity.
Defined.

(** The state in which the first client has announced itself. *)
Definition announced : World unit :=
  default start (run_events [EventAccept 1%N; EventHandshake 1%N;
    EventSend 1%N (Client.Hello VERSION); EventSend 1%N (Client.Identify "ann" (key_hex 1))] start).

Definition proof_line : string := frame_of (proof_of 1 announced 1%N).

Lemma nickname_requires_proof_witness :
  let w' := (on_line 1%N proof_line announced).2 in
  let me := session announced 1%N in
  1%N = 1%N /\ nickname announced 1%N = "" /\ nickname w' 1%N = pending_nickname_ me /\
  (exists signature,
     value (decode_client_frame proof_line) = Some (Client.IdentityProof signature) /\
     verify_identity_signature (pending_public_key_hex_ me) (pending_challenge_ me) signature
       = true) /\
  is_banned (server announced) (pending_nickname_ me) = false /\
  nickname_taken announced (pending_nickname_ me) = false /\
  identities_ (server w') !! pending_nickname_ me = Some (pending_public_key_hex_ me) /\
  protocol_negotiated_ me = true /\
  (has_password (server announced) = true -> authenticated_ me = true).
Proof.
  apply (nickname_requires_proof 1%N proof_line announced 1%N). vm_compute. discriminate.
Defined.

Lemma delivery_in_order_witness :
  stream_of start 1%N `prefix_of` stream_of two_clients 1%N /\
  sent (session two_clients 1%N) `prefix_of` stream_of two_clients 1%N.
Proof. apply (delivery_in_order start two_clients 1%N). apply two_clients_reachable. Defined.

Lemma broadcast_room_exact_witness :
  let w' := (broadcast_room 2%N "hi" "ann" two_clients).2 in
  tasks w' = tasks two_clients ++
    ((fun m => TaskDeliver m "Uk9PTV9URVhUfDJ8aGk=
") <$> set_iter (members den)) /\
  heap w' = heap two_clients /\
  server w' = with_rooms (<[2%N := with_recent_messages
    (push_bounded (history_limit_ (server two_clients)) (recent_messages den) "hi") den]>
    (rooms_ (server two_clients))) (server two_clients) /\
  log_ w' = (fun lines => lines ++ ["[#" +:+ room_name den +:+ "] " +:+ "hi"]) <$> log_ two_clients /\
  app w' = (if has_local (server two_clients) && (local_room_id two_clients =? 2)%N
            then push_message "hi" (app two_clients) else app two_clients).
Proof. apply broadcast_room_exact; vm_compute; reflexivity. Defined.

Lemma whisper_confined_witness :
  (send_private_from 1%N "bob" "psst" two_clients).1 = true /\
  exists room, rooms_ (server two_clients) !! active_room_of two_clients 1%N = Some room /\
    ((exists m, m ∈ members room /\ nickname two_clients m = "bob") \/
     (local_nickname_ (server two_clients) = "bob" /\
      local_room_id two_clients = active_room_of two_clients 1%N)).
Proof.
  split; [vm_compute; reflexivity|].
  apply (whisper_confined 1%N "bob" "psst" two_clients). vm_compute. reflexivity.
Defined.

(** A server with a password, and a client that has not given it. *)
Definition locked : World unit :=
  default (chat_server "secret" "" 100 None None ∅)
    (run_events [EventAccept 1%N; EventHandshake 1%N; EventSend 1%N (Client.Hello VERSION)]
       (chat_server "secret" "" 100 None None ∅)).

Lemma gate_blocks_witness :
  let line := frame_of (Client.JoinRoom "lobby") in
  confined (password_line (server locked) (session locked 1%N) line) 1%N locked
    (on_line 1%N line locked).2.
Proof.
  apply gate_blocks; [vm_compute; reflexivity|]. right. vm_compute. split; reflexivity.
Defined.

Lemma join_room_spec_witness :
  match join_room 1%N "Lobby" two_clients with
  | (None, w') => exists id room, rooms_ (server two_clients) !! id = Some room /\
      normalized_room_name (room_name room) = normalized_room_name "Lobby" /\
      active_room_of two_clients 1%N <> id /\ in_room_only 1%N id two_clients w'
  | (Some error, w') => w' = two_clients /\
      (error = no_such_room "Lobby" /\ find_room_by_name_locked (server two_clients) "Lobby" = None \/
       exists room, rooms_ (server two_clients) !! active_room_of two_clients 1%N = Some room /\
         normalized_room_name (room_name room) = normalized_room_name "Lobby")
  end.
Proof. apply join_room_spec. apply two_clients_inv. Defined.

Lemma leave_room_spec_witness :
  match leave_room 1%N two_clients with
  | (None, w') => in_room_only 1%N DEFAULT_ROOM_ID two_clients w'
  | (Some _, w') => w' = two_clients /\ active_room_of two_clients 1%N = DEFAULT_ROOM_ID
  end.
Proof. apply leave_room_spec. apply two_clients_inv. Defined.

Lemma create_room_spec_witness :
  match create_room 2%N "attic" two_clients with
  | (Some error, w') => w' = two_clients /\ room_creation_error (server two_clients) "attic" = Some error
  | (None, w') =>
      let id := next_room_id_ (server two_clients) in
      room_creation_error (server two_clients) "attic" = None /\
      rooms_ (server two_clients) !! id = None /\
      active_room_of w' 2%N = id /\
      (exists r, rooms_ (server w') !! id = Some r /\ room_id r = id /\ room_name r = "attic" /\
         room_topic r = "" /\ owner_nickname r = nickname two_clients 2%N /\ members r = {[2%N]}) /\
      (forall id' r', id' <> id -> rooms_ (server w') !! id' = Some r' ->
         exists r, rooms_ (server two_clients) !! id' = Some r /\ (2%N ∉ members r') /\
           (forall t, t <> 2%N -> (t ∈ members r' <-> t ∈ members r)))
  end.
Proof. apply create_room_spec; [apply two_clients_inv|]. vm_compute. discriminate. Defined.

Lemma kick_from_spec_witness :
  match kick_from 1%N "bob" "noise" two_clients with
  | (Some _, w') => w' = two_clients
  | (None, w') => exists room target,
      rooms_ (server two_clients) !! active_room_of two_clients 1%N = Some room /\
      owner_nickname room = nickname two_clients 1%N /\
      target ∈ members room /\ nickname two_clients target = "bob" /\
      "bob" <> nickname two_clients 1%N /\ out_of_rooms target two_clients w'
  end.
Proof. apply kick_from_spec. apply two_clients_inv. Defined.

(* ===================================================================== *)
(** * A banned client that is still served *)

(** The client stops reading its socket, so that a write stays pending; it is
    banned; all posted tasks run; it then asks to join the lobby. *)
Definition ban_events : list Event :=
  two_clients_events ++ [EventAdmin (AdminBan "bob" "spam")].

Fixpoint run_all_tasks (n : nat) (w : World unit) : World unit :=
  match n with
  | 0 => w
  | Datatypes.S n' => match run_event EventTask w with
                      | Some w' => run_all_tasks n' w'
                      | None => w
                      end
  end.

Lemma run_all_tasks_reachable n w : reachable start w -> reachable start (run_all_tasks n w).
Proof.
  revert w. induction n as [|n IH]; intros w Hr; cbn [run_all_tasks]; [done|].
  destruct (run_event EventTask w) as [w'|] eqn:E; [|done]. apply IH.
  eapply reachable_step; [exact Hr|]. by eapply run_event_step.
Qed.

Definition after_ban : World unit := run_all_tasks 100 (default start (run_events ban_events start)).
(** A ban does not end a session at once. There is a reachable state in which
    a nickname is banned and every posted task has run, and in which the session
    that carries it, no longer listed as connected, still has its read pending:
    the frame it sends next makes it a member of the lobby again, where it sends
    and receives messages. [ban_user] (like a kick) takes the session out of the
    rooms but leaves its nickname and its pending read, and [close] waits for
    pending writes, which a client that stops reading its socket holds back. *)
Theorem banned_client_rejoins :
  exists w line lobby, let w' := (on_line 2%N line w).2 in
    reachable start w /\ tasks w = [] /\
    is_banned (server w) "bob" = true /\ nickname w 2%N = "bob" /\
    (2%N ∉ sessions_ (server w)) /\ reading (session w 2%N) = true /\
    rooms_ (server w') !! DEFAULT_ROOM_ID = Some lobby /\ (2%N ∈ members lobby) /\
    nickname_taken w' "bob" = false.
Proof.
  exists after_ban, (frame_of (Client.JoinRoom "lobby")). eexists. split.
  { apply run_all_tasks_reachable. apply (run_reachable ban_events). apply default_run.
    vm_compute. reflexivity. }
  split; [vm_compute; reflexivity|]. split; [vm_compute; reflexivity|].
  split; [vm_compute; reflexivity|].
  split; [by refine (bool_decide_eq_true_1 _ _); vm_compute|].
  split; [vm_compute; reflexivity|]. split; [vm_compute; reflexivity|].
  split; [by refine (bool_decide_eq_true_1 _ _); vm_compute|]. vm_compute. reflexivity.
Qed.
