(* ===== verification/ServiceScenarios.v ===== *)
(** The theorems of [ServiceProperties.v] and [Shutdown.v] on a server with two clients:
    the owner of a room kicks the other, who tries to change the topic before; the server
    is stopped; and a client that was banned holds up the thread of its host. *)

From S2P Require Import Prelude Frame Message Utils AppState StorageApi World.
From S2P Require Import ChatServer ClientSession ServerInvariant ServerBoot ServerSteps Walk Stability.
From S2P Require Import Service ServiceProperties Shutdown Scenarios.
Local Open Scope string_scope.
Local Open Scope list_scope.
Local Open Scope chat_scope.

Lemma two_clients_fresh : fresh (server two_clients).
Proof. eapply inv_fresh, two_clients_inv. Qed.

(** The service of the two clients: two rooms, both bound, nobody banned. *)
Example two_clients_service :
  let a := service_of two_clients in
  ((fun h => (hall_name h, hall_owner h, set_iter (hall_members h))) <$> (map_iter (halls a)).*2,
   set_iter (present a), map_iter (people a), set_iter (banned a))
  = ([("lobby", "", []); ("den", "ann", [1%N; 2%N])], [1%N; 2%N],
     [(1%N, "ann"); (2%N, "bob")], []).
Proof. vm_compute. reflexivity. Qed.

Definition kick_line : string := frame_of (Client.KickRequest "bob" "noise").
Definition topic_line : string := frame_of (Client.TopicRequest (Some "ours")).

(** The owner's kick departs; the other's topic is refused. *)
Example owner_kicks :
  set_iter (present (service_of (on_line 1%N kick_line two_clients).2)) = [1%N].
Proof. vm_compute. reflexivity. Qed.
Example guest_topic_refused :
  hall_topic <$> (map_iter (halls (service_of (on_line 2%N topic_line two_clients).2))).*2
  = hall_topic <$> (map_iter (halls (service_of two_clients))).*2.
Proof. vm_compute. reflexivity. Qed.

Lemma server_refines_service_witness :
  fresh (server two_clients) /\
  rtc (guest_does 1%N) (service_of two_clients) (service_of (on_line 1%N kick_line two_clients).2) /\
  rtc console_does (service_of two_clients)
    (service_of (run_admin (AdminBan "bob" "spam") two_clients).2) /\
  rtc network_does (service_of two_clients) (service_of (accept 3%N two_clients).2).
Proof.
  split; [exact two_clients_fresh|].
  destruct (server_refines_service two_clients two_clients_fresh) as (Hl & _ & _ & Ha & _ & Hc & _).
  split; [exact (Hl 1%N kick_line)|]. split; [exact (Ha (AdminBan "bob" "spam"))|].
  apply (Hc 3%N). vm_compute. reflexivity.
Defined.

Lemma line_confined_witness :
  let w' := (on_line 1%N kick_line two_clients).2 in
  nickname w' 2%N = "bob" /\ (2%N ∈ sessions_ (server two_clients)) /\
  (2%N ∉ sessions_ (server w')) /\
  exists id r, rooms_ (server two_clients) !! id = Some r /\ (2%N ∈ members r) /\
    owner_nickname r = nickname w' 1%N /\ nickname w' 1%N <> "".
Proof.
  pose proof (line_confined 1%N kick_line two_clients two_clients_fresh) as (_ & _ & Hn & _ & _ & Hg).
  assert (2%N ∈ sessions_ (server two_clients)) as Hin by (apply (bool_decide_eq_true_1 _); vm_compute; reflexivity).
  assert (2%N ∉ sessions_ (server (on_line 1%N kick_line two_clients).2)) as Hout
    by (apply (bool_decide_eq_true_1 _); vm_compute; reflexivity).
  split; [etransitivity; [apply Hn; done|vm_compute; reflexivity]|].
  split; [exact Hin|]. split; [exact Hout|]. apply (Hg 2%N); [done|exact Hin|exact Hout].
Defined.

(* ===================================================================== *)
(** * A stopped server *)

Lemma stopped_server_ends_witness :
  Inv two_clients /\
  sn winds_down ((run_stop two_clients).2, {[1%N := [frame_of (Client.Chat "bye")]]}) /\
  Inv (run_stop two_clients).2 /\ sessions_ (server (run_stop two_clients).2) = ∅.
Proof.
  pose proof (stopped_server_ends two_clients {[1%N := [frame_of (Client.Chat "bye")]]} two_clients_inv)
    as [Hs Hw].
  split; [exact two_clients_inv|]. split; [exact Hs|].
  destruct (Hw _ _ (rtc_refl _ _)) as (HI & He & _). split; [exact HI|exact He].
Defined.

(** The host stops after the ban of [banned_client_rejoins]: all tasks run, and the
    operations of the other client, whose stream is closed, fail. *)
Definition stopped_after_ban : World unit := run_all_tasks 100 (run_admin AdminStop after_ban).2.
Definition others_gone : World unit :=
  (on_write_error 1%N true "" (run_all_tasks 100 (on_read_error 1%N stopped_after_ban).2)).2.

Lemma others_gone_reachable : reachable start others_gone.
Proof.
  assert (reachable start after_ban) as H0.
  { apply run_all_tasks_reachable, (run_reachable ban_events), default_run. vm_compute. reflexivity. }
  apply (reachable_step _ (run_all_tasks 100 (on_read_error 1%N stopped_after_ban).2)).
  2: { apply step_write_error. vm_compute. reflexivity. }
  apply run_all_tasks_reachable. apply (reachable_step _ stopped_after_ban).
  2: { apply step_read_error. vm_compute. reflexivity. }
  apply run_all_tasks_reachable. apply (reachable_step _ after_ban); [exact H0|apply step_admin].
Qed.

(** A pending operation that cannot fail by itself. *)
Lemma stalled_check (w : World unit) :
  tasks w = [] -> map_Forall (fun _ x => pending x = true -> stream_open x = true) (heap w) -> stalled w.
Proof.
  intros Ht Hp w' Hu. assert (forall s, pending (session w s) = true -> stream_open (session w s) = false -> False) as Hno.
  { intros s Hs Ho. unfold session in *. destruct (heap w !! s) as [x|] eqn:E; [|done].
    cbn in *. rewrite (Hp s x E Hs) in Ho. done. }
  unfold pending in Hno. destruct Hu as [w s Hr Ho|w s Hr Ho|w s text Hr Ho|w t rest Hr].
  - apply (Hno s); [rewrite Hr; by rewrite orb_true_r|done].
  - apply (Hno s); [by rewrite Hr|done].
  - apply (Hno s); [rewrite Hr; by rewrite !orb_true_r|done].
  - by rewrite Ht in Hr.
Qed.

(** A banned client can keep its host from leaving. [stop] aborts the sessions that are
    connected; one that was kicked or banned while a write to it was pending is not
    among them, and its stream is only closed after that write. In this reachable
    state the server was stopped, every task has run, and nothing goes on without
    the peer, but its read and its write are pending: [io_context::run] does not
    return, and [network_thread.join()] waits as long as the banned client likes. *)
Theorem stop_waits_for_banned :
  let w := others_gone in
  reachable start w /\ acceptor_open (server w) = false /\ sessions_ (server w) = ∅ /\ stalled w /\
  is_banned (server w) "bob" = true /\ nickname w 2%N = "bob" /\
  pending (session w 2%N) = true /\ stream_open (session w 2%N) = true.
Proof.
  cbv zeta. split; [exact others_gone_reachable|]. split; [vm_compute; reflexivity|].
  split; [vm_compute; reflexivity|]. split; [|vm_compute; auto].
  apply stalled_check; [vm_compute; reflexivity|].
  by refine (bool_decide_eq_true_1 _ _); vm_compute.
Qed.
