(* ===== verification/Persistence.v ===== *)
(** What the server keeps in memory and what its storage holds. Over any storage
    that satisfies [StorageSpec.v], as long as no error is reported, the content of
    the storage mirrors the server's rooms, identities and bans in every reachable
    state, and a server started from that content has them again. *)

From S2P Require Import Prelude Frame Message Utils AppState StorageApi StorageSpec World.
From S2P Require Import ChatServer ClientSession ServerInvariant ServerBoot ServerSteps Walk Stability.
Local Open Scope string_scope.
Local Open Scope chat_scope.

(** The columns of a room. *)
Definition record_of (r : Room) : string * string * string :=
  (room_name r, room_topic r, owner_nickname r).

Record mirrors (c : ChatServer) (ct : Content) : Prop := {
  mirror_room : forall id r, rooms_ c !! id = Some r ->
    content_rooms ct !! to_int64 id = Some (record_of r);
  mirror_back : forall z x, content_rooms ct !! z = Some x ->
    exists id r, rooms_ c !! id = Some r /\ to_int64 id = z;
  mirror_identities : forall nick, content_identities ct !! nick = identities_ c !! nick;
  mirror_bans : forall nick, nick ∈ banned_nicks_ c <-> is_Some (content_bans ct !! nick);
}.

(** Two servers that differ in nothing that is stored. *)
Definition same_records (c c' : ChatServer) : Prop :=
  record_of <$> rooms_ c' = record_of <$> rooms_ c /\ next_room_id_ c' = next_room_id_ c /\
  identities_ c' = identities_ c /\ banned_nicks_ c' = banned_nicks_ c.

Lemma same_lookup c c' id r' :
  same_records c c' -> rooms_ c' !! id = Some r' ->
  exists r, rooms_ c !! id = Some r /\ record_of r' = record_of r.
Proof.
  intros (Hr & _) H'. apply (f_equal (lookup id)) in Hr. rewrite !lookup_fmap, H' in Hr.
  destruct (rooms_ c !! id) as [r|]; [|done]. apply (inj Some) in Hr. eauto.
Qed.

Lemma same_sym c c' : same_records c c' -> same_records c' c.
Proof. intros (? & ? & ? & ?). by split_and!. Qed.

Lemma same_size c c' : same_records c c' -> size (rooms_ c') = size (rooms_ c).
Proof. intros (Hr & _). apply (f_equal size) in Hr. by rewrite !map_size_fmap in Hr. Qed.

Lemma fresh_same c c' : same_records c c' -> fresh c -> fresh c'.
Proof.
  intros Hs (Hp & Hi & Hn & Hm). pose proof Hs as (_ & En & _). unfold fresh.
  rewrite En, (same_size c c' Hs). split_and!; [done| |done..].
  intros id r' Hr'. destruct (same_lookup c c' id r' Hs Hr') as (r & Hr & _). eauto.
Qed.

Lemma mirrors_same c c' ct : same_records c c' -> mirrors c ct -> mirrors c' ct.
Proof.
  intros Hs M. pose proof Hs as (_ & _ & Ei & Eb). split.
  - intros id r' Hr'. destruct (same_lookup c c' id r' Hs Hr') as (r & Hr & ->).
    by apply (mirror_room _ _ M).
  - intros z x Hz. destruct (mirror_back _ _ M z x Hz) as (id & r & Hr & E).
    destruct (same_lookup c' c id r (same_sym _ _ Hs) Hr) as (r' & Hr' & _). eauto.
  - intros nick. rewrite Ei. apply (mirror_identities _ _ M).
  - intros nick. rewrite Eb. apply (mirror_bans _ _ M).
Qed.

(** Rooms may change in what is not stored. *)
Lemma same_alter c id f :
  (forall r, record_of (f r) = record_of r) ->
  same_records c (with_rooms (alter f id (rooms_ c)) c).
Proof.
  intros Hf. split_and!; try done. cbn. apply map_eq. intros i.
  rewrite !lookup_fmap, lookup_alter. case_decide; subst; [|done].
  destruct (rooms_ c !! _) as [r|]; [|done]. cbn. by rewrite Hf.
Qed.

Section persistence.
Context {S : Type} `{ServerStorage S} `{Sodium} `{Platform}.
Context (content : S -> option Content) (idle : S -> Prop) `{!StorageSpec S content idle}.
Abbreviation W := (World S).

(** As long as the storage reports no error, its content mirrors the server. *)
Definition mirrored (c : ChatServer) (st : option S) : Prop :=
  match st with
  | None => True
  | Some s => last_error s = "" -> exists ct, content s = Some ct /\ mirrors c ct
  end.
Definition Persisted (w : W) : Prop := fresh (server w) /\ mirrored (server w) (storage_ w).

Lemma persisted_same (w w' : W) :
  same_records (server w) (server w') -> storage_ w' = storage_ w -> Persisted w -> Persisted w'.
Proof.
  intros Hs Es [Hf Hm]. split; [by eapply fresh_same|]. rewrite Es. unfold mirrored in *.
  destruct (storage_ w) as [s|]; [|done]. intros He. destruct (Hm He) as (ct & Hc & M).
  exists ct. split; [done|]. by eapply mirrors_same.
Qed.

(** A change of the server together with the write that records it. *)
Lemma persisted_write {A} (op : S -> A * S) fits f (w w' : W) :
  (forall s, turns content fits f s (op s).2) ->
  Persisted w -> fresh (server w') -> storage_ w' = storage_ w ->
  (forall ct, mirrors (server w) ct -> fits ct /\ mirrors (server w') (f ct)) ->
  Persisted (with_storage op w').2.
Proof.
  intros Hop [_ Hm] Hf' Es Hct. unfold Persisted, with_storage, modify. cbn [snd]. rewrite Es.
  unfold mirrored in *. destruct (storage_ w) as [s|]; [|by rewrite Es].
  cbn [put_storage server storage_]. split; [done|]. intros He.
  destruct (Hop s He) as [He0 Hc]. destruct (Hm He0) as (ct & Hct0 & M).
  destruct (Hct ct M) as [Hfit M']. exists (f ct). split; [|done]. by apply Hc.
Qed.

(* ===================================================================== *)
(** * Operations that store nothing *)

(** Predicates that only look at what is stored. *)
Definition calm (Q : W -> Prop) : Prop :=
  forall w w', same_records (server w) (server w') -> storage_ w' = storage_ w -> Q w -> Q w'.

Lemma calm_persisted : calm Persisted.
Proof. intros w w'. apply persisted_same. Qed.

Definition Persisted_room (id : RoomId) (w : W) : Prop :=
  Persisted w /\ is_Some (rooms_ (server w) !! id).

Lemma calm_room id : calm (Persisted_room id).
Proof.
  intros w w' Hs Es [HP [r Hr]]. split; [by eapply persisted_same|].
  destruct (same_lookup _ _ id r (same_sym _ _ Hs) Hr) as (r' & Hr' & _). eauto.
Qed.

Section calm.
Context (Q : W -> Prop) (C : calm Q).

Lemma calm_frame {A} (m : M W A) : frames server m -> frames storage_ m -> keeps Q m.
Proof. intros Hs Ht w. apply C; [rewrite Hs; by split_and!|apply Ht]. Qed.
Lemma calm_server f : (forall c, same_records c (f c)) -> keeps Q (on_server f).
Proof. intros Hf w. apply C; [apply Hf|done]. Qed.
Lemma calm_app f : keeps Q (on_app f).
Proof. by apply calm_frame. Qed.
Lemma calm_post t : keeps Q (post t).
Proof. by apply calm_frame. Qed.
Lemma calm_print line : keeps Q (print_error line).
Proof. by apply calm_frame. Qed.
Lemma calm_log line : keeps Q (log_write line).
Proof. apply calm_frame; intros w; unfold log_write, modify; cbn; by destruct (log_ w). Qed.
Lemma calm_clock : keeps Q read_system_clock.
Proof. by apply calm_frame. Qed.
Lemma calm_unix : keeps Q current_unix_seconds.
Proof. by apply calm_frame. Qed.
Lemma calm_random n : keeps Q (random_hex_text n).
Proof. by apply calm_frame. Qed.
Lemma calm_message_timestamp : keeps Q next_message_timestamp.
Proof. by apply calm_frame. Qed.
Lemma calm_write_file path lines : keeps Q (write_file path lines).
Proof.
  apply calm_frame; intros w; unfold write_file, modify; cbn; by destruct (can_write path).
Qed.
Lemma calm_session s f : keeps Q (on_session s f).
Proof. by apply calm_frame. Qed.
#[local] Hint Resolve calm_app calm_post calm_print calm_log calm_clock calm_unix calm_random
  calm_message_timestamp calm_write_file calm_session : chat_keeps.
Lemma calm_deliver s msg : keeps Q (deliver s msg).
Proof. unfold deliver. keeps_tac. Qed.
Lemma calm_record_message id msg : keeps Q (record_message id msg).
Proof.
  apply calm_server. intros c. split_and!; try done. cbn. apply map_eq. intros i.
  rewrite !lookup_fmap, lookup_alter. case_decide; subst; [|done].
  by destruct (rooms_ c !! _).
Qed.
Lemma calm_save_bans : keeps Q save_bans.
Proof. unfold save_bans. keeps_tac. Qed.
Lemma calm_save_identities : keeps Q save_identities_locked.
Proof. unfold save_identities_locked. keeps_tac. Qed.
#[local] Hint Resolve calm_deliver : chat_keeps.
Lemma calm_broadcast_room_lists : keeps Q broadcast_room_lists.
Proof. unfold broadcast_room_lists. keeps_tac. Qed.
End calm.

#[local] Hint Resolve calm_app calm_post calm_print calm_log calm_clock calm_unix calm_random
  calm_message_timestamp calm_write_file calm_session calm_deliver calm_record_message
  calm_save_bans calm_save_identities calm_broadcast_room_lists calm_persisted calm_room
  : chat_keeps.

(* ===================================================================== *)
(** * Operations that store *)

(** A message changes no content: its room is there. *)
Lemma store_message_persisted m (w : W) :
  Persisted_room (stored_message_room m) w -> Persisted (with_storage (store_message m) w).2.
Proof.
  intros [HP [r Hr]]. eapply persisted_write; [apply spec_message|exact HP|apply HP|done|].
  intros ct M. cbn beta. rewrite (mirror_room _ _ M _ _ Hr). split; [eauto|exact M].
Qed.

Lemma chain {A B} (P P' : W -> Prop) (m : M W A) (k : A -> M W B) w :
  P w -> keeps P m -> (forall a w', P w' -> P' (k a w').2) -> P' (bind m k w).2.
Proof. intros Hw Hm Hk. rewrite bind_snd. by apply Hk, Hm. Qed.

Lemma persisted_broadcast_room id msg nick : keeps Persisted (broadcast_room id msg nick).
Proof.
  intros w HP. unfold broadcast_room. rewrite bind_snd. cbn [get fst snd].
  destruct (rooms_ (server w) !! id) as [room|] eqn:Er; [|exact HP].
  assert (Persisted_room id w) as HR by (split; [done|eauto]).
  apply (chain _ _ _ _ _ HR); [auto with chat_keeps|]. intros _ w1 HR1.
  apply (chain _ _ _ _ _ HR1); [apply keeps_when; auto with chat_keeps|]. intros _ w2 HR2.
  apply (chain _ _ _ _ _ HR2); [apply keeps_for_each; auto with chat_keeps|]. intros _ w3 HR3.
  apply (chain _ _ _ _ _ HR3); [auto with chat_keeps|]. intros _ w4 HR4.
  destruct (has_storage w); [|apply HR4].
  apply (chain _ _ _ _ _ HR4); [auto with chat_keeps|]. intros mid w5 HR5.
  apply (chain _ _ _ _ _ HR5); [auto with chat_keeps|]. intros at_ w6 HR6.
  by apply store_message_persisted.
Qed.
#[local] Hint Resolve persisted_broadcast_room : chat_keeps.

Lemma fresh_alter c id f : fresh c -> fresh (with_rooms (alter f id (rooms_ c)) c).
Proof.
  intros (Hp & Hi & Hn & Hs). unfold fresh. cbn. rewrite size_alter. split_and!; [done| |done..].
  intros i r Hr. apply mk_is_Some in Hr. rewrite lookup_alter_is_Some in Hr.
  destruct Hr as [r' Hr]. eauto.
Qed.

Lemma mirrors_topic c ct id topic :
  fresh c -> is_Some (rooms_ c !! id) -> mirrors c ct ->
  mirrors (with_rooms (alter (with_topic topic) id (rooms_ c)) c) (put_topic id topic ct).
Proof.
  intros Hf [r0 Hr0] M. split; cbn; [| |apply M|apply M].
  - intros i r. rewrite !lookup_alter. destruct (decide (id = i)) as [->|Hne].
    + rewrite decide_True, Hr0 by done. intros [= <-]. by rewrite (mirror_room _ _ M _ _ Hr0).
    + intros Hr. rewrite decide_False; [by apply (mirror_room _ _ M)|].
      intros E. apply Hne. eapply to_int64_inj; [by eapply fresh_small..|done].
  - intros z x Hz. apply mk_is_Some in Hz. rewrite lookup_alter_is_Some in Hz.
    destruct Hz as [x' Hz]. destruct (mirror_back _ _ M z x' Hz) as (i & r & Hr & E).
    destruct (decide (id = i)) as [->|Hne].
    + exists i, (with_topic topic r). by rewrite lookup_alter_eq, Hr.
    + exists i, r. by rewrite lookup_alter_ne.
Qed.

Lemma persisted_topic id actor privileged topic :
  keeps Persisted (set_topic_for_room id actor privileged topic).
Proof.
  intros w HP. unfold set_topic_for_room. destruct (is_valid_room_topic topic); [|exact HP].
  cbn [negb]. rewrite bind_snd. cbn [get fst snd].
  destruct (rooms_ (server w) !! id) as [room|] eqn:Er; [|exact HP].
  destruct (negb privileged && _); [exact HP|]. rewrite bind_snd.
  apply keeps_then.
  - eapply (persisted_write _ always (put_topic id topic) w); [apply spec_topic|exact HP| |done|].
    + apply fresh_alter, HP.
    + intros ct M. split; [done|]. apply mirrors_topic; [apply HP|eauto|done].
  - intros _. apply keeps_bind; [apply keeps_for_each; auto with chat_keeps|].
    intros _. keeps_tac.
Qed.

(** A change that is recorded by one write, or by a file without a storage. *)
Lemma persisted_recorded {A} (f : ChatServer -> ChatServer) (op : S -> A * S) fits g
    (alt : M W unit) (w : W) :
  Persisted w -> (forall c, rooms_ (f c) = rooms_ c /\ next_room_id_ (f c) = next_room_id_ c) ->
  (forall s, turns content fits g s (op s).2) ->
  (forall ct, mirrors (server w) ct -> fits ct /\ mirrors (f (server w)) (g ct)) ->
  keeps Persisted alt ->
  Persisted ((if has_storage w then with_storage op else alt) (on_server f w).2).2.
Proof.
  intros HP Hf Hop Hct Ha. assert (fresh (f (server w))) as Hfr.
  { unfold fresh. destruct (Hf (server w)) as [-> ->]. apply HP. }
  unfold has_storage. destruct (storage_ w) as [s|] eqn:Es.
  - by apply (persisted_write _ fits g w).
  - apply Ha. split; [exact Hfr|]. cbn. by rewrite Es.
Qed.

Lemma persisted_bind nick key : keeps Persisted (bind_identity nick key).
Proof.
  intros w HP. unfold bind_identity. rewrite bind_snd. cbn [get fst snd].
  destruct (identities_ (server w) !! nick); [exact HP|]. rewrite bind_snd.
  apply keeps_then; [|keeps_tac].
  eapply persisted_recorded; [exact HP|done|apply spec_identity| |auto with chat_keeps].
  intros ct M. split; [done|]. split; cbn; [apply M..| |apply M].
  intros n. destruct (decide (nick = n)) as [->|?].
  - by rewrite !lookup_insert_eq.
  - rewrite !lookup_insert_ne by done. apply M.
Qed.

Lemma mirrors_ban c ct ban :
  mirrors c ct ->
  mirrors (with_banned_nicks ({[ban_nickname ban]} ∪ banned_nicks_ c) c) (put_ban ban ct).
Proof.
  intros M. split; cbn; [apply M..|]. intros n. rewrite elem_of_union, elem_of_singleton,
    (mirror_bans _ _ M n), lookup_insert_is_Some'.
  split; (intros [->|?]; [by left|by right]).
Qed.

Lemma persisted_ban nick reason : keeps Persisted (record_ban nick reason).
Proof.
  intros w HP. unfold record_ban. rewrite !bind_snd. cbn [get fst snd].
  change (has_storage (on_server _ w).2) with (has_storage w).
  unfold has_storage. destruct (storage_ w) as [s|] eqn:Es.
  - rewrite bind_snd. eapply (persisted_write _ always _ w); [apply spec_ban|exact HP|apply HP|done|].
    intros ct M. split; [done|]. apply (mirrors_ban (server w) ct (MkStoredBan nick reason _ None) M).
  - apply calm_save_bans; [apply calm_persisted|]. split; [apply HP|]. cbn. by rewrite Es.
Qed.

Lemma persisted_unban nick : keeps Persisted (unban_user nick).
Proof.
  intros w HP. unfold unban_user. rewrite !bind_snd. cbn [get fst snd].
  destruct (is_banned (server w) nick) eqn:Eb; cbn [when].
  - cbn [ret snd]. apply keeps_then; [|intros _; apply calm_log, calm_persisted].
    eapply persisted_recorded; [exact HP|done|apply spec_remove_ban| |auto with chat_keeps].
    intros ct M. split; [done|]. split; cbn; [apply M..|]. intros n.
    rewrite elem_of_difference, elem_of_singleton, (mirror_bans _ _ M n), lookup_delete_is_Some.
    by split; intros [? ?]; split; auto.
  - cbn [ret snd]. apply (persisted_same w); [|done|exact HP]. split_and!; try done. cbn.
    apply bool_decide_eq_false in Eb. apply set_eq. intros n.
    rewrite elem_of_difference, elem_of_singleton. split; [by intros [? _]|].
    intros Hn. split; [done|]. by intros ->.
Qed.

Lemma name_fits c ct stored :
  find_room_by_name_locked c (stored_room_name stored) = None -> mirrors c ct ->
  room_fits stored ct.
Proof.
  intros Hf M z x Hz _. destruct (mirror_back _ _ M z x Hz) as (i & r & Hr & <-).
  rewrite (mirror_room _ _ M _ _ Hr) in Hz. injection Hz as <-. by eapply find_room_None.
Qed.

Lemma mirrors_found c ct name owner now :
  fresh c -> (N.of_nat (size (rooms_ c)) < MAX_ROOMS)%N -> mirrors c ct ->
  mirrors (emplace_room name owner c)
    (put_room (MkStoredRoom (next_room_id_ c) name "" owner now) ct).
Proof.
  intros Hf Hs M. destruct (fresh_emplace c name owner Hf Hs) as [-> Hno].
  assert (next_room_id_ c < 2 ^ 64)%N as Hn by (destruct Hf as (_ & _ & ? & ?); unfold MAX_ROOMS in *; lia).
  split; cbn; [| |apply M|apply M].
  - intros i r [[<- <-]|[Hne Hr]]%lookup_insert_Some; [by rewrite lookup_insert_eq|].
    rewrite lookup_insert_ne; [by apply (mirror_room _ _ M)|].
    intros E. apply Hne. eapply to_int64_inj; [done|by eapply fresh_small|done].
  - intros z x [[<- <-]|[Hne Hz]]%lookup_insert_Some.
    + eexists _, _. by rewrite lookup_insert_eq.
    + destruct (mirror_back _ _ M z x Hz) as (i & r & Hr & E). exists i, r.
      rewrite lookup_insert_ne; [done|]. intros <-. by rewrite Hno in Hr.
Qed.

Lemma fresh_found c name owner :
  fresh c -> (N.of_nat (size (rooms_ c)) < MAX_ROOMS)%N -> fresh (emplace_room name owner c).
Proof.
  intros Hf Hs. destruct (fresh_emplace c name owner Hf Hs) as [-> Hno].
  destruct Hf as (Hp & Hi & Hn & Hm). unfold fresh. cbn. rewrite map_size_insert_None by done.
  split_and!; [lia| |lia..]. intros i r [[<- <-]|[_ Hr]]%lookup_insert_Some; [lia|].
  specialize (Hi i r Hr). lia.
Qed.

Lemma persisted_found name owner (w : W) :
  room_creation_error (server w) name = None -> Persisted w ->
  Persisted (persist_room (next_room_id_ (server w)) (on_server (emplace_room name owner) w).2).2.
Proof.
  intros (_ & Hs & Hf)%room_creation_ok HP. pose proof (proj1 HP) as Hfr.
  pose proof (fresh_found (server w) name owner Hfr Hs) as Hfr'.
  unfold persist_room. rewrite bind_snd. cbn [get fst snd].
  change (has_storage (on_server _ w).2) with (has_storage w).
  change (rooms_ (server (on_server _ w).2)) with (rooms_ (emplace_room name owner (server w))).
  unfold has_storage. destruct (storage_ w) as [s|] eqn:Es; cbn [negb].
  - destruct (fresh_emplace (server w) name owner Hfr Hs) as [He _].
    assert (rooms_ (emplace_room name owner (server w)) !! next_room_id_ (server w)
      = Some (new_room (server w) name owner)) as Hr by (rewrite He; apply lookup_insert_eq).
    rewrite Hr, bind_snd. cbn [new_room room_id room_name room_topic owner_nickname].
    eapply (persisted_write _ _ _ w); [apply spec_store_room|exact HP|exact Hfr'|done|].
    intros ct M. split; [by eapply name_fits|]. by apply mirrors_found.
  - cbn [ret snd]. split; [exact Hfr'|]. cbn. by rewrite Es.
Qed.

(** The second lookup of [create_admin_room] finds the room just made. *)
Lemma find_emplaced c name owner :
  fresh c -> room_creation_error c name = None ->
  find_room_by_name_locked (emplace_room name owner c) name
    = Some (next_room_id_ c, new_room c name owner).
Proof.
  intros Hfr (_ & Hs & Hf)%room_creation_ok. destruct (fresh_emplace c name owner Hfr Hs) as [-> _].
  set (c' := with_rooms _ _). assert (rooms_ c' !! next_room_id_ c = Some (new_room c name owner)) as Hr
    by apply lookup_insert_eq.
  destruct (find_room_by_name_locked c' name) as [[id r]|] eqn:E.
  - apply find_room_Some in E as [Hr' Hn]. unfold c' in Hr'. cbn in Hr'.
    apply lookup_insert_Some in Hr' as [[<- <-]|[_ Hr']]; [done|].
    by destruct (find_room_None c name id r Hf Hr').
  - by destruct (find_room_None c' name _ _ E Hr).
Qed.

Lemma persisted_create_admin name : keeps Persisted (create_admin_room name).
Proof.
  intros w HP. unfold create_admin_room. rewrite bind_snd. cbn [get fst snd].
  destruct (room_creation_error (server w) name) as [e|] eqn:E; [exact HP|].
  rewrite !bind_snd. cbn [get fst snd ret].
  apply calm_broadcast_room_lists; [apply calm_persisted|].
  change (server (on_server _ w).2) with (emplace_room name "" (server w)).
  rewrite find_emplaced by (apply HP || done). cbv iota beta.
  destruct HP as [Hfr Hm]. pose proof (proj1 Hfr) as Hp.
  rewrite (proj2 (N.eqb_neq _ _)) by lia. cbn [negb when].
  by apply (persisted_found name "" w).
Qed.

Lemma persisted_flush : keeps Persisted flush_storage.
Proof.
  intros w [Hf Hm]. unfold flush_storage, modify. cbn [snd]. unfold mirrored in Hm.
  destruct (storage_ w) as [s|] eqn:Es; [|split; [done|by rewrite Es]].
  split; [exact Hf|]. cbn. intros He. destruct (proj1 (spec_flush s) He) as [He0 Hc].
  destruct (Hm He0) as (ct & Hct & M). exists ct. split; [by apply Hc|done].
Qed.

(** The operations that touch what is stored keep the mirror, so everything does. *)
Lemma persisted_base : base Persisted.
Proof.
  split.
  - intros w w' Hc _ Es. unfold core in Hc. injection Hc as Hc _.
    apply persisted_same; [rewrite Hc; by split_and!|done].
  - intros t. apply calm_post, calm_persisted.
  - intros s f _. apply calm_session, calm_persisted.
  - intros s id w _. apply calm_server; [apply calm_persisted|]. intros c. by apply same_alter.
Qed.

Lemma persisted_stable : stable Persisted.
Proof.
  split; [exact persisted_base|..].
  - intros g. apply calm_server; [apply calm_persisted|]. intros c. by split_and!.
  - intros id. apply calm_server; [apply calm_persisted|]. intros c. by split_and!.
  - intros id g. apply calm_server; [apply calm_persisted|]. intros c. by apply same_alter.
  - apply persisted_broadcast_room.
  - apply persisted_topic.
  - apply persisted_bind.
  - intros name owner w E HP. rewrite bind_snd. by apply persisted_found.
  - apply persisted_create_admin.
  - apply persisted_ban.
  - apply persisted_unban.
  - apply persisted_flush.
  - apply calm_server; [apply calm_persisted|]. intros c. split_and!; try done. cbn.
    rewrite <- map_fmap_compose. by apply map_fmap_ext.
  - apply calm_server; [apply calm_persisted|]. intros c. by split_and!.
Qed.

(* ===================================================================== *)
(** * Every step keeps the mirror *)

Lemma persisted_step (w w' : W) : step w w' -> Persisted w -> Persisted w'.
Proof.
  intros Hstep HP. pose proof persisted_stable as St. destruct Hstep.
  - unfold accept, join. rewrite !bind_snd. apply (calm_session Persisted); [apply calm_persisted|].
    apply (calm_server Persisted); [apply calm_persisted|intros c; by split_and!|]. apply (persisted_same w); [by split_and!|done..].
  - by apply (st_handshake _ St).
  - apply (st_line _ St); [|done]. intros t nick. apply calm_session, calm_persisted.
  - by apply (st_read_error _ St).
  - by apply calm_session; [apply calm_persisted|].
  - unfold on_write_error. rewrite bind_snd. apply keeps_when; [apply calm_print, calm_persisted|].
    by apply calm_session; [apply calm_persisted|].
  - assert (Persisted (put_tasks rest w)) as Hp by (apply (persisted_same w); [by split_and!|done..]).
    destruct t; cbn [run_task]; [..|by apply (st_run_stop _ St), Hp];
      (apply calm_session; [apply calm_persisted|exact Hp]).
  - by apply (st_admin _ St).
Qed.

(* ===================================================================== *)
(** * Starting from a storage *)

Context (ready : S -> Prop) `{!StorageContract S ready}.

(** While the rooms are loaded the storage keeps its content. *)
Definition holds (ct : Content) (w : W) : Prop :=
  exists s, storage_ w = Some s /\ content s = Some ct /\ idle s /\ last_error s = "".

Lemma load_room_holds ct stored (w : W) :
  holds ct w ->
  holds ct (load_room stored w).2 /\
  identities_ (server (load_room stored w).2) = identities_ (server w) /\
  banned_nicks_ (server (load_room stored w).2) = banned_nicks_ (server w).
Proof.
  intros (s & Es & Hc & Hi & He). unfold load_room. rewrite bind_snd. cbn [get fst snd].
  rewrite bind_snd. unfold call_storage. rewrite Es.
  pose proof (spec_load_history (stored_room_id stored) (history_limit_ (server w)) None s ct Hc Hi)
    as (Hc' & Hi' & He'). destruct (load_history _ _ _ s) as [page s']. cbn [fst snd] in *.
  split.
  - exists s'. cbn. split_and!; [done..|congruence].
  - cbn. by case_match.
Qed.

Lemma load_rooms_holds ct rs (w : W) :
  holds ct w ->
  holds ct (for_each rs load_room w).2 /\
  identities_ (server (for_each rs load_room w).2) = identities_ (server w) /\
  banned_nicks_ (server (for_each rs load_room w).2) = banned_nicks_ (server w).
Proof.
  revert w. induction rs as [|stored rs IH]; intros w Hh; [done|].
  cbn [for_each]. rewrite bind_snd.
  destruct (load_room_holds ct stored w Hh) as (Hh' & Ei & Eb).
  destruct (IH _ Hh') as (Hh2 & Ei2 & Eb2). split_and!; [done|congruence..].
Qed.

Lemma foldl_foldr_rev {A B} (f : B -> A -> B) b l :
  foldl f b l = foldr (fun x y => f y x) b (rev l).
Proof. revert b. induction l as [|x l IH]; intros b; [done|]. cbn. by rewrite foldr_app, IH. Qed.

Lemma insert_identities_all entries (m : gmap string string) :
  entries ≡ₚ map_to_list m -> insert_identities entries ∅ = m.
Proof.
  intros Hp. transitivity (list_to_map (rev entries) : gmap string string).
  - unfold insert_identities, list_to_map. apply foldl_foldr_rev.
  - assert (rev entries ≡ₚ map_to_list m) as Hr.
    { etrans; [symmetry; apply Permutation_rev|done]. }
    rewrite (list_to_map_proper _ (map_to_list m)); [apply list_to_map_to_list| |done].
    rewrite Hr. apply NoDup_fst_map_to_list.
Qed.

Lemma elem_of_insert_bans bans b n :
  n ∈ insert_bans bans b <-> n ∈ b \/ n ∈ ban_nickname <$> bans.
Proof.
  unfold insert_bans. revert b. induction bans as [|ban bans IH]; intros b; cbn [foldl fmap list_fmap].
  - rewrite elem_of_nil. tauto.
  - rewrite IH, elem_of_cons, elem_of_union, elem_of_singleton. tauto.
Qed.

Lemma booted_mirrors rs c ct :
  booted rs c -> clean ct ->
  (listed_room <$> rs) ≡ₚ
    ((fun entry => (of_int64 entry.1, entry.2)) <$> map_to_list (content_rooms ct)) ->
  (forall id r, rooms_ c !! id = Some r -> content_rooms ct !! to_int64 id = Some (record_of r)) /\
  (forall z x, content_rooms ct !! z = Some x ->
     exists id r, rooms_ c !! id = Some r /\ to_int64 id = z).
Proof.
  intros B (Hcl & _) Hp. split.
  - intros id r Hr. destruct (boot_room _ _ B id r Hr) as (_ & _ & _ & st & Hst & <- & Hn & Ht & Ho).
    apply (list_elem_of_fmap_2 listed_room) in Hst. rewrite Hp in Hst.
    apply list_elem_of_fmap in Hst as ([z x] & Hx & Hz%elem_of_map_to_list).
    unfold listed_room in Hx. cbn in Hx. injection Hx as -> <-. destruct (Hcl z _ Hz) as (Hb & _).
    rewrite to_of_int64 by done. rewrite Hz. unfold record_of. congruence.
  - intros z x Hz. destruct (Hcl z x Hz) as (Hb & _).
    assert ((of_int64 z, x) ∈ listed_room <$> rs) as Hin.
    { rewrite Hp. apply list_elem_of_fmap. exists (z, x). split; [done|by apply elem_of_map_to_list]. }
    apply list_elem_of_fmap in Hin as (st & Hst & Hin). unfold listed_room in Hst.
    destruct (boot_all _ _ B st Hin) as [r Hr]. exists (stored_room_id st), r. split; [done|].
    injection Hst as <- _. by apply to_of_int64.
Qed.

Lemma stored_identities_holds ct (w : W) :
  holds ct w -> clean ct -> identities_ (server w) = ∅ ->
  let w' := (load_stored_identities w).2 in
  holds ct w' /\ identities_ (server w') = content_identities ct /\
  rooms_ (server w') = rooms_ (server w) /\ banned_nicks_ (server w') = banned_nicks_ (server w).
Proof.
  intros (s & Es & Hc & Hi & He) Hcl Hn. cbv zeta. unfold load_stored_identities.
  rewrite bind_snd. unfold call_storage. rewrite Es.
  destruct (spec_load_identities s ct Hc Hi Hcl) as (Hp & Hc' & Hi' & He').
  destruct (StorageApi.load_identities s) as [entries s']. cbn [fst snd] in *. split_and!.
  - exists s'. cbn. split_and!; [done..|congruence].
  - cbn. rewrite Hn. by apply insert_identities_all.
  - done.
  - done.
Qed.

Lemma stored_bans_holds ct (w : W) :
  holds ct w -> clean ct -> banned_nicks_ (server w) = ∅ ->
  exists now, let w' := (load_stored_bans w).2 in
  holds (unexpired now ct) w' /\
  (forall n, n ∈ banned_nicks_ (server w') <-> is_Some (content_bans (unexpired now ct) !! n)) /\
  rooms_ (server w') = rooms_ (server w) /\ identities_ (server w') = identities_ (server w).
Proof.
  intros (s & Es & Hc & Hi & He) Hcl Hn. unfold load_stored_bans.
  exists (current_unix_seconds w).1. cbv zeta. rewrite !bind_snd.
  set (now := (current_unix_seconds w).1). unfold call_storage.
  change (storage_ (current_unix_seconds w).2) with (storage_ w). rewrite Es.
  destruct (spec_load_bans now s ct Hc Hi Hcl) as (Hp & Hc' & Hi' & He').
  destruct (StorageApi.load_bans now s) as [bans s']. cbn [fst snd] in *. split_and!.
  - exists s'. cbn. split_and!; [done..|congruence].
  - intros n. cbn [on_server modify snd server put_server with_banned_nicks banned_nicks_ default].
    change (banned_nicks_ (server (put_storage (Some s') (current_unix_seconds w).2)))
      with (banned_nicks_ (server w)).
    rewrite Hn, elem_of_insert_bans, elem_of_empty. change (id bans) with bans. rewrite Hp.
    rewrite list_elem_of_fmap. split.
    + intros [[]|([n' t] & -> & Ht%elem_of_map_to_list)]. eauto.
    + intros [t Ht]. right. exists (n, t). split; [done|by apply elem_of_map_to_list].
  - done.
  - done.
Qed.

(** The reading part of [load_persistent_state]. *)
Lemma load_storage_mirrors s0 ct (w0 : W) :
  storage_ w0 = Some s0 -> Boot ready [] w0 -> identities_ (server w0) = ∅ ->
  banned_nicks_ (server w0) = ∅ ->
  ready s0 -> content s0 = Some ct -> idle s0 -> clean ct -> last_error s0 = "" ->
  exists now,
    let w := ((let* stored_rooms := call_storage StorageApi.load_rooms in
               for_each (default [] stored_rooms) load_room ;;;
               load_stored_identities ;;;
               load_stored_bans) w0).2 in
    holds (unexpired now ct) w /\ mirrors (server w) (unexpired now ct) /\
    is_Some (rooms_ (server w) !! DEFAULT_ROOM_ID).
Proof.
  intros Es (B & Hh0 & _) Ei0 Eb0 Hr Hc Hi Hcl He.
  destruct (spec_load_rooms s0 ct Hc Hi Hcl) as (Hp & Hc1 & Hi1 & He1).
  destruct (load_rooms_ok s0 Hr) as [Hok Hr1].
  destruct (StorageApi.load_rooms s0) as [rs s1] eqn:El. cbn [fst snd] in *.
  assert (call_storage StorageApi.load_rooms w0 = (Some rs, put_storage (Some s1) w0)) as Hl
    by (unfold call_storage; by rewrite Es, El).
  rewrite !bind_snd, Hl. cbn [fst snd default].
  change (id rs) with rs. set (w1 := put_storage (Some s1) w0) in *.
  assert (holds ct w1) as Hh1 by (exists s1; split_and!; [done..|congruence]).
  destruct (load_rooms_holds ct rs w1 Hh1) as (Hh2 & Ei2 & Eb2).
  assert (Boot ready ([] ++ rs)%list (for_each rs load_room w1).2) as (B2 & _).
  { refine (boot_load_rooms ready [] rs w1 _ (conj B (conj Hh0 Hr1))).
    eapply Forall_impl; [|apply (stored_valid _ Hok)]. by intros ? [? _]. }
  set (w2 := (for_each rs load_room w1).2) in *. clearbody w2.
  destruct (booted_mirrors rs _ ct B2 Hcl Hp) as [Hm Hb].
  destruct (stored_identities_holds ct w2 Hh2 Hcl) as (Hh3 & Ei3 & Er3 & Eb3);
    [exact (eq_trans Ei2 Ei0)|].
  set (w3 := (load_stored_identities w2).2) in *. clearbody w3.
  destruct (stored_bans_holds ct w3 Hh3 Hcl) as (now & Hh4 & Eb4 & Er4 & Ei4);
    [exact (eq_trans Eb3 (eq_trans Eb2 Eb0))|].
  exists now. cbv zeta. split_and!; [exact Hh4| |].
  - split; [|intros z x Hz|intros n|exact Eb4].
    + intros id r. rewrite Er4, Er3. apply Hm.
    + rewrite Er4, Er3. by apply (Hb z x).
    + by rewrite Ei4, Ei3.
  - rewrite Er4, Er3. pose proof (stored_lobby _ Hok) as (st & Hid & Hst)%list_elem_of_fmap.
    unfold DEFAULT_ROOM_ID. rewrite Hid. by apply (boot_all _ _ B2).
Qed.

(** A server started from an idle storage has its rooms, identities and unexpired
    bans. *)
Lemma chat_server_mirrors password local limit s0 ct log fs :
  ready s0 -> content s0 = Some ct -> idle s0 -> clean ct -> last_error s0 = "" ->
  exists now, let w := chat_server password local limit (Some s0) log fs in
    holds (unexpired now ct) w /\ mirrors (server w) (unexpired now ct).
Proof.
  intros Hr Hc Hi Hcl He. set (w0 := initial_world password local limit (Some s0) log fs).
  pose proof (boot_initial ready password local limit (Some s0) log fs Hr) as B. fold w0 in B.
  destruct (load_storage_mirrors s0 ct w0 eq_refl B eq_refl eq_refl Hr Hc Hi Hcl He)
    as (now & Hh & M & [lobby Hl]).
  exists now. unfold chat_server, load_persistent_state. fold w0.
  rewrite bind_snd. cbn [get fst snd]. change (has_storage w0) with true. cbn [when].
  rewrite bind_snd. cbv zeta in *. set (w := ((let* _ := _ in _) w0).2) in *. clearbody w.
  rewrite bind_snd. cbn [get fst snd]. by rewrite Hl.
Qed.

(* ===================================================================== *)
(** * The theorems *)

(** A storage may also change by itself, as a write queue does, without losing or
    gaining content. *)
Context (stir : S -> S -> Prop).
Context (stir_turns : forall s s', stir s s' -> turns content always id s s').

(** Executions of the server in which the storage stirs at any time. *)
Inductive runs (w0 : W) : W -> Prop :=
| runs_start : runs w0 w0
| runs_step w w' : runs w0 w -> step w w' -> runs w0 w'
| runs_stir w s s' : runs w0 w -> storage_ w = Some s -> stir s s' ->
    runs w0 (put_storage (Some s') w).

Lemma runs_persisted (w0 w : W) : runs w0 w -> Persisted w0 -> Persisted w.
Proof.
  intros Hr HP. induction Hr as [|w w' Hr IH Hs|w s s' Hr IH Es Hs]; [done|by eapply persisted_step|].
  destruct IH as [Hf Hm]. split; [exact Hf|]. unfold mirrored in Hm. rewrite Es in Hm. cbn.
  intros He. destruct (stir_turns s s' Hs He) as [He0 Hc]. destruct (Hm He0) as (ct & Hct & M).
  exists ct. split; [by apply Hc|done].
Qed.

Lemma chat_server_persisted password local limit s0 ct log fs :
  ready s0 -> content s0 = Some ct -> idle s0 -> clean ct -> last_error s0 = "" ->
  Persisted (chat_server password local limit (Some s0) log fs).
Proof.
  intros Hr Hc Hi Hcl He.
  destruct (chat_server_mirrors password local limit s0 ct log fs Hr Hc Hi Hcl He)
    as (now & (s & Es & Hs & _) & M).
  split; [eapply inv_fresh, (chat_server_inv ready); exact Hr|]. rewrite Es. intros _. eauto.
Qed.


Lemma mirrors_rooms_eq c1 c2 ct1 ct2 :
  fresh c1 -> fresh c2 -> content_rooms ct1 = content_rooms ct2 ->
  mirrors c1 ct1 -> mirrors c2 ct2 -> record_of <$> rooms_ c1 = record_of <$> rooms_ c2.
Proof.
  intros Hf1 Hf2 E M1 M2.
  assert (forall c c' ct ct' id r, fresh c -> fresh c' -> content_rooms ct = content_rooms ct' ->
    mirrors c ct -> mirrors c' ct' -> rooms_ c !! id = Some r ->
    exists r', rooms_ c' !! id = Some r' /\ record_of r' = record_of r) as Hsub.
  { intros c c' ct ct' id r Hf Hf' Ec M M' Hr. pose proof (mirror_room _ _ M _ _ Hr) as Hz.
    rewrite Ec in Hz. destruct (mirror_back _ _ M' _ _ Hz) as (id' & r' & Hr' & Hid).
    assert (id' = id) as -> by (apply to_int64_inj; [exact (fresh_small _ _ _ Hf' Hr')|exact (fresh_small _ _ _ Hf Hr)|done]).
    exists r'. split; [done|]. rewrite (mirror_room _ _ M' _ _ Hr') in Hz. congruence. }
  apply map_eq. intros id. rewrite !lookup_fmap.
  destruct (rooms_ c1 !! id) as [r|] eqn:E1.
  - destruct (Hsub c1 c2 ct1 ct2 id r) as (r' & -> & Hrec); [done..|]. cbn. by rewrite Hrec.
  - destruct (rooms_ c2 !! id) as [r'|] eqn:E2; [|done].
    destruct (Hsub c2 c1 ct2 ct1 id r') as (r & Hr & _); [done..|congruence].
Qed.

End persistence.
