(* ===== verification/StorageScenarios.v ===== *)
(** Concrete executions over the SQLite storage: the instances of the theorems of
    [SqliteProperties.v] and [Persistence.v]. *)

From S2P Require Import Prelude Frame Message Utils AppState StorageApi StorageSpec Sqlite.
From S2P Require Import SqliteProperties SqliteSpec World ChatServer ClientSession ServerInvariant.
From S2P Require Import ServerBoot ServerSteps Scenarios Persistence.
Local Open Scope string_scope.
Local Open Scope list_scope.

#[export] Instance toy_sqlite : SqliteEnv := {
  errmsg e := match e with
              | UniqueRoomName => "UNIQUE constraint failed: rooms.name"
              | ForeignKey => "FOREIGN KEY constraint failed"
              end;
  worker_seconds n := Z.of_nat n;
}.

(** A new database. *)
Definition new_database : Database :=
  match migrate 0 empty_file with inl d => d | inr _ => empty_file end.

Definition ann_message (n : string) (at_ : Z) : StoredMessage :=
  MkStoredMessage n 1%N "ann" ("text " +:+ n) at_ None None.

(** Calls and worker steps, interleaved. *)
Definition some_acts : list Act :=
  [Store (IdentityWrite "ann" "aa"); Work; Store (MessageWrite (ann_message "m1" 5));
   Store (RoomWrite (MkStoredRoom 2%N "den" "" "ann" 7)); Work; Work;
   Store (MessageWrite (ann_message "m2" 6)); Store (TopicWrite 2%N "talk");
   Store (BanWrite (MkStoredBan "eve" "spam" 8 None)); Work; Store (BanRemove "eve")].

Definition some_result : list Write * Sqlite := run_acts some_acts (opened new_database).

Definition some_database : Database :=
  match (execute_all some_result.1 0 new_database).2 with inl d => d | inr _ => empty_file end.

Lemma write_behind_exact_witness :
  length some_result.1 = 7 /\ length (queue some_result.2) = 4 /\
  db (drain some_result.2) = some_database /\ queue (drain some_result.2) = [] /\
  batch (drain some_result.2) = None.
Proof.
  split; [vm_compute; reflexivity|]. split; [vm_compute; reflexivity|].
  apply (write_behind_exact some_acts new_database some_result.1 some_result.2 1 some_database);
    vm_compute; reflexivity.
Defined.

(** A ban is lost because a message of an unknown room waits in the same batch. *)
Lemma failed_batch_dropped_witness :
  let ws := [BanWrite (MkStoredBan "eve" "spam" 8 None);
             MessageWrite (MkStoredMessage "m1" 9%N "ann" "text" 5 None None)] in
  let '(accepted, s) := run_acts (Store <$> ws) (opened new_database) in
  accepted = ws /\ db (drain s) = new_database /\ queue (drain s) = [] /\
  error (drain s) = "Could not execute SQLite write: " +:+ errmsg ForeignKey.
Proof.
  apply (failed_batch_dropped _ new_database 0 ForeignKey);
    [discriminate|vm_compute; lia|vm_compute; reflexivity].
Defined.

(** Three messages, two of them at the same time, in pages of one. *)
Definition three_messages : Database :=
  with_messages_table (list_to_map ((fun m => (stored_id m,
      MkMessageRow 1 (stored_nickname m) (stored_body m) (stored_sent_at m) None None))
    <$> [ann_message "m1" 5; ann_message "m3" 6; ann_message "m2" 6])) new_database.

Lemma three_messages_clean : clean_ids three_messages.
Proof.
  assert (forallb (fun e => String.eqb (column_text e.1) e.1)
    (map_to_list (messages_table three_messages)) = true) as Hf by (vm_compute; reflexivity).
  intros i row Hi%elem_of_map_to_list%list_elem_of_In.
  by apply String.eqb_eq, (proj1 (forallb_forall _ _) Hf _ Hi).
Qed.

Lemma history_paging_complete_witness :
  let rows := history_rows 1%N None three_messages in
  rows.*1 = ["m3"; "m2"; "m1"] /\
  pages (length rows + 1) 1%N 1%N None three_messages = (read_message <$> rows) /\
  (rows ≡ₚ room_entries 1%N three_messages) /\ StronglySorted newer_first rows.
Proof.
  split; [vm_compute; reflexivity|].
  apply (history_paging_complete 1%N 1%N three_messages). apply three_messages_clean.
Defined.

(* ===================================================================== *)
(** * A server over SQLite *)

Definition sqlite_start : World Sqlite :=
  chat_server "" "" 100 (Some (opened new_database)) (Some []) ∅.

(** Two clients, a room with a topic, a ban. *)
Definition sqlite_events : list Event :=
  two_clients_events ++ [EventSend 1%N (Client.TopicRequest (Some "plans"));
    EventAdmin (AdminBan "bob" "spam")].

Definition sqlite_world : World Sqlite :=
  default sqlite_start (run_events sqlite_events sqlite_start).

Definition stored (w : World Sqlite) : Sqlite :=
  match storage_ w with Some s => s | None => opened new_database end.

(** The worker, with faults that report something. *)
Definition worker_stirs (s s' : Sqlite) : Prop :=
  exists fault, fault <> Some "" /\ s' = worker_step fault s.

Lemma worker_stirs_turns s s' : worker_stirs s s' -> turns sqlite_content always id s s'.
Proof. intros (fault & Hf & ->). by apply turns_worker. Qed.

Lemma run_events_runs es (w0 w w' : World Sqlite) :
  runs worker_stirs w0 w -> run_events es w = Some w' -> runs worker_stirs w0 w'.
Proof.
  revert w. induction es as [|e es IH]; intros w Hr; cbn [run_events]; [by intros [= <-]|].
  destruct (run_event e w) as [w1|] eqn:E; [|done]. apply IH.
  eapply runs_step; [exact Hr|]. by eapply run_event_step.
Qed.

(** One worker step after the events. *)
Definition sqlite_stirred : World Sqlite :=
  put_storage (Some (worker_step None (stored sqlite_world))) sqlite_world.

Lemma sqlite_stirred_runs : runs worker_stirs sqlite_start sqlite_stirred.
Proof.
  eapply (runs_stir _ _ sqlite_world).
  - eapply run_events_runs; [apply runs_start|]. apply default_run. vm_compute. reflexivity.
  - vm_compute. reflexivity.
  - by exists None.
Qed.

Lemma new_database_ready : rooms_ready (opened new_database).
Proof. apply (lobby_only_ok ""). Qed.

Lemma new_database_clean : clean (content_of new_database).
Proof. apply cleanb_ok. vm_compute. reflexivity. Qed.

Definition stirred_content : Content :=
  default (content_of new_database) (sqlite_content (stored sqlite_stirred)).


Definition flushed : Sqlite := flush (stored sqlite_stirred).

Lemma flushed_ready : rooms_ready flushed.
Proof.
  split.
  - refine (bool_decide_eq_true_1 _ _). vm_compute. reflexivity.
  - refine (bool_decide_eq_true_1 _ _). vm_compute. reflexivity.
  - refine (bool_decide_eq_true_1 _ _). vm_compute. reflexivity.
  - refine (bool_decide_eq_true_1 _ _). vm_compute. reflexivity.
  - vm_compute. discriminate.
Qed.

