(* ===== verification/Tls.v ===== *)
(** Certificates: [src/network/tls.cpp]. Fingerprints, the trust store, and the
    decision [verify_peer] takes between the TLS handshake and the first message.
    OpenSSL and the outcome of writing a file are parameters. The theorems: the
    trust store reads back as it was written, what an accepted certificate was
    accepted for, and that a server once trusted on first use cannot be replaced
    silently. *)

From S2P Require Import Prelude Frame Message Utils.
Local Open Scope string_scope.

(* ===================================================================== *)
(** * The library *)

(** OpenSSL, as far as the code asks it: the certificate of a connection, its
    SHA-256 digest (bytes), the result of the chain verification, and whether a
    certificate names an address or a host. [generate_certificate] makes a key and a
    self-signed certificate, as PEM texts, or fails; [server_context_loads] tells
    whether the contents of a certificate file and of a key file make a server
    context. *)
Class OpenSSL := {
  SSL : Type;
  X509 : Type;
  SSL_get1_peer_certificate : SSL -> option X509;
  X509_digest : X509 -> option string;
  SSL_get_verify_result : SSL -> N;
  X509_check_ip_asc : X509 -> string -> Z;
  X509_check_host : X509 -> string -> Z;
  X509_verify_cert_error_string : N -> string;
  PEM_read_bio_X509 : string -> option X509;
  generate_certificate : nat -> option (string * string);
  server_context_loads : option string -> option string -> bool;
}.

(** A SHA-256 digest has 32 bytes. *)
Class OpenSSLLaws (o : OpenSSL) := {
  digest_size : forall c d, X509_digest c = Some d -> size_of d = 32%N;
}.

(** Writing a text to a path that could be opened: what is on the disk afterwards,
    and where it failed. [rename_error] is [None] when the file is replaced. *)
Inductive WriteStatus := WriteComplete | WriteFailed | CloseFailed.
Class Disk := {
  write_file : string -> string -> string * WriteStatus;
  rename_error : string -> string -> option string;
  can_set_permissions : string -> bool;
}.
Class DiskLaws (d : Disk) := {
  write_complete : forall path text stored,
    write_file path text = (stored, WriteComplete) -> stored = text;
}.

(** [std::filesystem::create_directories] throws. *)
Inductive Outcome (A : Type) := Returned (a : A) | Thrown.
Arguments Returned {A} _.
Arguments Thrown {A}.

(* ===================================================================== *)
(** * Fingerprints *)

Definition X509_V_OK : N := 0.

Fixpoint normalize_digits (s : string) : option string :=
  match s with
  | EmptyString => Some ""
  | String ch s' =>
      if isxdigit ch then String (toupper ch) <$> normalize_digits s'
      else if negb (Ascii.eqb ch ":") && negb (Ascii.eqb ch "-") && negb (isspace ch) then None
      else normalize_digits s'
  end.

Definition normalize_fingerprint (fingerprint : string) : string :=
  match normalize_digits fingerprint with
  | None => ""
  | Some normalized => if (size_of normalized =? 32 * 2)%N then normalized else ""
  end.

(** [std::uppercase << std::hex << std::setfill('0')], [std::setw(2)] per byte. *)
Definition upper_hex_digit (n : N) : ascii :=
  if (n <? 10)%N then ascii_of_N (48 + n) else ascii_of_N (55 + n).
Fixpoint upper_hex (b : string) : string :=
  match b with
  | EmptyString => EmptyString
  | String c b' =>
      String (upper_hex_digit (code c / 16)) (String (upper_hex_digit (code c mod 16)) (upper_hex b'))
  end.

(** [host + ":" + std::to_string(port)]. *)
Definition address_key (host : string) (port : N) : string := host +:+ ":" +:+ to_string port.

Record ClientConfig := MkClientConfig {
  enabled : bool;
  ca_path : string;
  expected_fingerprint : string;
  trust_store_path : string;
  trust_on_first_use : bool;
  (** The user's decision for an address, a fingerprint and the one trusted before;
      while it is taken other processes may write files. *)
  confirm_certificate : option (string -> string -> string -> Files -> bool * Files);
}.

(** The result of [verify_peer] and its two out-parameters. *)
Record Verdict := MkVerdict { accepted : bool; notice : string; verdict_error : string }.
Definition accept_peer (notice : string) : Verdict := MkVerdict true notice "".
Definition refuse_peer (error : string) : Verdict := MkVerdict false "" error.

Section tls.
Context `{OpenSSL} `{Platform} `{Sodium} `{Disk}.

Definition fingerprint_of (certificate : X509) : string :=
  match X509_digest certificate with Some digest => upper_hex digest | None => "" end.

Definition peer_sha256_fingerprint (handle : SSL) : string :=
  match SSL_get1_peer_certificate handle with
  | None => ""
  | Some certificate => fingerprint_of certificate
  end.

Definition certificate_sha256_fingerprint (files : Files) (certificate_path : string) : string :=
  match files !! certificate_path with
  | None => ""
  | Some text =>
      match PEM_read_bio_X509 text with
      | None => ""
      | Some certificate => fingerprint_of certificate
      end
  end.

Definition certificate_matches_host (certificate : X509) (host : string) : bool :=
  if sempty host then false
  else if (X509_check_ip_asc certificate host =? 1)%Z then true
  else (X509_check_host certificate host =? 1)%Z.

(* ===================================================================== *)
(** * The host's certificate *)

Record ServerConfig := MkServerConfig {
  server_enabled : bool;
  certificate_path : string;
  private_key_path : string;
}.

Definition configure_server_context (files : Files) (config : ServerConfig) : Outcome unit :=
  if negb (server_enabled config) then Returned tt
  else if sempty (certificate_path config) || sempty (private_key_path config) then Thrown
  else if server_context_loads (files !! certificate_path config) (files !! private_key_path config)
  then Returned tt else Thrown.

Definition file_exists (files : Files) (path : string) : bool := bool_decide (is_Some (files !! path)).

(** [fopen(path, "wx")], a write and a flush, [None] when one of them fails; an error
    of [fclose] is not looked at. *)
Definition create_file (files : Files) (path text : string) : option Files * Files :=
  if file_exists files path || negb (can_write path) then (None, files)
  else
    let '(stored, status) := write_file path text in
    let files' := <[path := stored]> files in
    match status with WriteFailed => (None, files') | _ => (Some files', files') end.

Definition checked (files : Files) (config : ServerConfig) : Outcome ServerConfig :=
  match configure_server_context files config with Returned _ => Returned config | Thrown => Thrown end.

(** [draw] is the randomness of the key. The permissions of the key file are set
    before it is written. *)
Definition ensure_host_certificate (files : Files) (directory : string) (draw : nat) :
    Outcome ServerConfig * Files :=
  let config := MkServerConfig true (path_join directory "host-cert.pem")
                  (path_join directory "host-key.pem") in
  if file_exists files (certificate_path config) || file_exists files (private_key_path config)
  then (checked files config, files)
  else if negb (can_make_parent (certificate_path config)) || negb (can_set_permissions directory)
  then (Thrown, files)
  else match generate_certificate draw with
  | None => (Thrown, files)
  | Some (key_text, certificate_text) =>
      if can_write (private_key_path config) && negb (can_set_permissions (private_key_path config))
      then (Thrown, <[private_key_path config := ""]> files)
      else match create_file files (private_key_path config) key_text with
      | (None, files) => (Thrown, files)
      | (Some files, _) =>
          match create_file files (certificate_path config) certificate_text with
          | (None, files) => (Thrown, files)
          | (Some files, _) => (checked files config, files)
          end
      end
  end.

(* ===================================================================== *)
(** * The trust store *)

Definition default_trust_store_path : string :=
  path_join chatbox_data_directory "trusted_fingerprints.txt".
Definition legacy_trust_store_path : string := "trusted_fingerprints.txt".

(** One line, [address|fingerprint]; a later line replaces an earlier one. *)
Definition read_trust_line (entries : gmap string string) (line : string) : gmap string string :=
  match sfind "|" line with
  | None => entries
  | Some separator =>
      let address := substr_n line 0 separator in
      let fingerprint := normalize_fingerprint (substr line (separator + 1)) in
      if negb (sempty address) && negb (sempty fingerprint)
      then <[address := fingerprint]> entries else entries
  end.

Definition read_trust_store (files : Files) (path : string) : gmap string string :=
  match files !! path with
  | None => ∅
  | Some text => foldl read_trust_line ∅ (getlines newline text)
  end.

Definition trust_line (entry : string * string) : string := entry.1 +:+ "|" +:+ entry.2.

(** [parent_path()] is not empty. *)
Definition has_parent (path : string) : bool := sany (Ascii.eqb "/") path.

(** The text is written next to the store, which the result then replaces. [None]
    is success. *)
Definition write_trust_store (files : Files) (path : string) (entries : gmap string string) :
    Outcome (option string) * Files :=
  if has_parent path && negb (can_make_parent path) then (Thrown, files)
  else
    let temporary := path +:+ ".tmp" in
    if negb (can_write temporary)
    then (Returned (Some ("Could not write TLS trust store '" +:+ path +:+ "'")), files)
    else
      let '(stored, status) := write_file temporary (lines_text (trust_line <$> map_iter entries)) in
      let files' := <[temporary := stored]> files in
      match status with
      | WriteFailed =>
          (Returned (Some ("Could not finish writing TLS trust store '" +:+ path +:+ "'")), files')
      | CloseFailed => (Returned (Some "Could not close TLS trust store"), files')
      | WriteComplete =>
          match rename_error temporary path with
          | Some message =>
              (Returned (Some ("Could not replace TLS trust store: " +:+ message)), files')
          | None => (Returned None, <[path := stored]> (delete temporary files'))
          end
      end.

(** Throws on any error. *)
Definition forget_certificate (files : Files) (host : string) (port : N) (path : string) :
    Outcome unit * Files :=
  let entries := delete (address_key host port) (read_trust_store files path) in
  let '(written, files') := write_trust_store files path entries in
  match written with
  | Returned None => (Returned tt, files')
  | _ => (Thrown, files')
  end.

(* ===================================================================== *)
(** * [verify_peer] *)

(** The first block under the lock: the entries, the legacy ones added to them. *)
Definition load_trust (files : Files) (path : string) :
    Outcome (option string) * Files * gmap string string :=
  let entries := read_trust_store files path in
  if String.eqb path default_trust_store_path && negb (String.eqb path legacy_trust_store_path)
  then
    let merged := entries ∪ read_trust_store files legacy_trust_store_path in
    if bool_decide (merged = entries) then (Returned None, files, entries)
    else let '(written, files') := write_trust_store files path merged in
         (written, files', merged)
  else (Returned None, files, entries).

(** The last block: the entry is checked again and saved. *)
Definition save_trust (files : Files) (path key fingerprint previous : string) :
    Outcome Verdict * Files :=
  let entries := read_trust_store files path in
  if match entries !! key with
     | Some current => negb (String.eqb current previous) && negb (String.eqb current fingerprint)
     | None => false
     end
  then (Returned (refuse_peer "Trust changed during review. Retry the connection."), files)
  else
    let '(written, files') := write_trust_store files path (<[key := fingerprint]> entries) in
    match written with
    | Thrown => (Thrown, files')
    | Returned (Some error) => (Returned (refuse_peer error), files')
    | Returned None =>
        (Returned (accept_peer ("Saved trusted TLS certificate: " +:+ fingerprint)), files')
    end.

(** What is decided once the fingerprints are known. *)
Definition decide_trust (files : Files) (config : ClientConfig) (key fingerprint previous : string)
    (verify_result : N) (host_matches : bool) : Outcome Verdict * Files :=
  let changed := negb (sempty previous) && negb (String.eqb previous fingerprint) in
  if negb changed && (String.eqb previous fingerprint || negb (sempty (expected_fingerprint config))
                      || ((verify_result =? X509_V_OK)%N && host_matches))
  then (Returned (accept_peer ("Verified TLS certificate SHA-256 " +:+ fingerprint)), files)
  else
    match confirm_certificate config with
    | Some confirm =>
        let '(yes, files) := confirm key fingerprint previous files in
        if negb yes
        then (Returned (refuse_peer ("TLS certificate rejected for " +:+ key +:+ "; received "
                                     +:+ fingerprint)), files)
        else save_trust files (trust_store_path config) key fingerprint previous
    | None =>
        if changed
        then (Returned (refuse_peer ("BLOCKED: TLS certificate for " +:+ key
                +:+ " changed. Previously trusted " +:+ previous +:+ ", received " +:+ fingerprint
                +:+ ". Review with the host before resetting trust.")), files)
        else if negb (trust_on_first_use config) || sempty (trust_store_path config)
        then (Returned (refuse_peer ("TLS certificate validation failed for " +:+ key +:+ ": "
                +:+ X509_verify_cert_error_string verify_result
                +:+ ". Verify the hostname, configure a trusted CA or compare the SHA-256 fingerprint: "
                +:+ fingerprint)), files)
        else save_trust files (trust_store_path config) key fingerprint previous
    end.

Definition verify_peer (files : Files) (handle : SSL) (host : string) (port : N)
    (config : ClientConfig) : Outcome Verdict * Files :=
  match SSL_get1_peer_certificate handle with
  | None => (Returned (refuse_peer "TLS server did not present a certificate"), files)
  | Some certificate =>
      let fingerprint := peer_sha256_fingerprint handle in
      let verify_result := SSL_get_verify_result handle in
      let host_matches := certificate_matches_host certificate host in
      if sempty fingerprint
      then (Returned (refuse_peer
              "Could not calculate the TLS certificate SHA-256 fingerprint"), files)
      else
        let key := address_key host port in
        let '(loaded, files, entries) := load_trust files (trust_store_path config) in
        match loaded with
        | Thrown => (Thrown, files)
        | Returned (Some error) => (Returned (refuse_peer error), files)
        | Returned None =>
            let previous := default "" (entries !! key) in
            let expected := normalize_fingerprint (expected_fingerprint config) in
            if negb (sempty (expected_fingerprint config))
               && (sempty expected || negb (String.eqb expected fingerprint))
            then (Returned (refuse_peer ("TLS certificate fingerprint mismatch for " +:+ key
                    +:+ "; expected " +:+ expected_fingerprint config +:+ " but received "
                    +:+ fingerprint)), files)
            else decide_trust files config key fingerprint previous verify_result host_matches
        end
  end.
End tls.

(* ===================================================================== *)
(** * Lemmas: fingerprints *)

(** 64 upper-case hexadecimal digits. *)
Definition normal (fp : string) : Prop :=
  sall (fun c => isxdigit c && bool_decide (toupper c = c)) fp = true /\ size_of fp = 64%N.

Lemma toupper_upper c : isxdigit c = true ->
  isxdigit (toupper c) && bool_decide (toupper (toupper c) = toupper c) = true.
Proof.
  intros Hc. revert c Hc. assert (forall c, implb (isxdigit c)
    (isxdigit (toupper c) && bool_decide (toupper (toupper c) = toupper c)) = true) as H.
  { apply (ascii_forall (fun c => implb _ _)). vm_compute. reflexivity. }
  intros c Hc. specialize (H c). by rewrite Hc in H.
Qed.

Lemma normalize_digits_upper s n :
  normalize_digits s = Some n -> sall (fun c => isxdigit c && bool_decide (toupper c = c)) n = true.
Proof.
  revert n. induction s as [|c s IH]; intros n; cbn [normalize_digits]; [by intros [= <-]|].
  destruct (isxdigit c) eqn:Ec.
  - destruct (normalize_digits s) as [m|]; [|done]. intros [= <-]. cbn [sall].
    rewrite toupper_upper by done. by rewrite IH.
  - destruct (_ && _)%bool; [done|apply IH].
Qed.

Lemma normalize_normal s : normalize_fingerprint s <> "" -> normal (normalize_fingerprint s).
Proof.
  unfold normalize_fingerprint. destruct (normalize_digits s) as [n|] eqn:E; [|done].
  destruct (N.eqb_spec (size_of n) (32 * 2)); [|done]. intros _.
  split; [by eapply normalize_digits_upper|done].
Qed.

Lemma normalize_digits_id s :
  sall (fun c => isxdigit c && bool_decide (toupper c = c)) s = true -> normalize_digits s = Some s.
Proof.
  induction s as [|c s IH]; [done|]. cbn [sall normalize_digits].
  rewrite !andb_true_iff, bool_decide_eq_true. intros [[-> Hc] Hs].
  by rewrite (IH Hs), Hc.
Qed.

Lemma normal_normalize fp : normal fp -> normalize_fingerprint fp = fp.
Proof.
  intros [Hd Hs]. unfold normalize_fingerprint. by rewrite normalize_digits_id, Hs.
Qed.

Lemma normal_nonempty fp : normal fp -> fp <> "".
Proof. by intros [_ Hs] ->. Qed.

Lemma normal_free fp c : normal fp -> isxdigit c = false -> free_of c fp = true.
Proof.
  intros [Hd _] Hc. eapply free_of_impl; [|exact Hd]. cbn beta.
  rewrite Hc. done.
Qed.

Lemma upper_hex_normal d : size_of d = 32%N -> normal (upper_hex d).
Proof.
  assert (forall b, sall (fun c => isxdigit c && bool_decide (toupper c = c)) (upper_hex b) = true /\
    size_of (upper_hex b) = (2 * size_of b)%N) as H.
  { assert (forall n, (n < 16)%N -> isxdigit (upper_hex_digit n) &&
      bool_decide (toupper (upper_hex_digit n) = upper_hex_digit n) = true) as Hd.
    { intros n Hn. rewrite <- (N2Nat.id n). assert (N.to_nat n < 16) as Hm by lia.
      revert Hm. generalize (N.to_nat n). clear. intros n H.
      do 16 (destruct n; [reflexivity|]). lia. }
    induction b as [|c b [IH1 IH2]]; [done|]. cbn [upper_hex]. split.
    - cbn [sall]. by rewrite !Hd, IH1 by (apply code_div16 || apply code_mod16).
    - rewrite !size_of_cons, IH2. lia. }
  intros Hs. destruct (H d) as [H1 H2]. split; [done|]. lia.
Qed.

(* ===================================================================== *)
(** * Lemmas: the trust store *)

(** Entries that one line each can hold; what is read is of this form. *)
Definition good_entry (address fingerprint : string) : Prop :=
  address <> "" /\ free_of "|" address = true /\ free_of newline address = true /\
  normal fingerprint.
Definition good_entries (m : gmap string string) : Prop := map_Forall good_entry m.

Lemma read_trust_line_good m line :
  free_of newline line = true -> good_entries m -> good_entries (read_trust_line m line).
Proof.
  intros Hl Hm. unfold read_trust_line. destruct (sfind "|" line) as [i|] eqn:E; [|done].
  destruct (_ && _)%bool eqn:Ec; [|done]. apply andb_true_iff in Ec as [Ha Hf].
  rewrite negb_true_iff, sempty_false in Ha, Hf.
  apply map_Forall_insert_2; [|done]. apply sfind_Some in E as [Hs Hfree].
  split; [done|]. split; [done|]. split; [|by apply normalize_normal].
  rewrite Hs, free_of_app in Hl. by apply andb_true_iff in Hl as [Hl _].
Qed.

Lemma getlines_free d s : Forall (fun l => free_of d l = true) (getlines d s).
Proof.
  rewrite getlines_split_on. unfold drop_last_empty. pose proof (split_on_fields_free d s) as H.
  case_decide; [|done]. revert H. generalize (split_on d s). clear.
  induction l as [|x l IH]; [done|]. intros H. inversion H; subst.
  destruct l as [|y l]; [by constructor|]. constructor; [done|]. by apply IH.
Qed.

Lemma read_trust_store_good files path : good_entries (read_trust_store files path).
Proof.
  unfold read_trust_store. destruct (files !! path) as [text|]; [|apply map_Forall_empty].
  pose proof (getlines_free newline text) as H. revert H.
  assert (good_entries ∅) as Hm by apply map_Forall_empty. revert Hm.
  generalize (∅ : gmap string string) (getlines newline text). clear.
  intros m l. revert m. induction l as [|line l IH]; intros m Hm Hl; [done|].
  inversion Hl; subst. cbn [foldl]. apply IH; [|done]. by apply read_trust_line_good.
Qed.

Lemma read_trust_line_entry m a f :
  good_entry a f -> read_trust_line m (trust_line (a, f)) = <[a := f]> m.
Proof.
  intros (Ha & Hbar & _ & Hf). unfold read_trust_line, trust_line. cbn [fst snd].
  rewrite (sapp_cons "|" "" f), sapp_nil_l.
  rewrite sfind_app_l by exact Hbar. unfold substr, substr_n. change (sdrop 0 ?x) with x.
  rewrite stake_app, sdrop_app_cons, normal_normalize by done.
  apply sempty_false in Ha as ->. pose proof (normal_nonempty _ Hf) as Hn.
  by apply sempty_false in Hn as ->.
Qed.

Lemma trust_line_free a f : good_entry a f -> free_of newline (trust_line (a, f)) = true.
Proof.
  intros (Ha & Hbar & Hn & Hf). unfold trust_line. cbn [fst snd].
  rewrite !free_of_app, Hn, (normal_free f) by done. done.
Qed.

Lemma foldl_read_entries l m :
  Forall (fun e => good_entry e.1 e.2) l ->
  foldl read_trust_line m (trust_line <$> l) = list_to_map (reverse l) ∪ m.
Proof.
  intros Hl. revert m. induction Hl as [|[a f] l He Hl IH]; intros m.
  - by rewrite reverse_nil, list_to_map_nil, (left_id_L ∅ (∪)).
  - cbn [fmap list_fmap foldl]. rewrite read_trust_line_entry by done. rewrite IH, reverse_cons.
    rewrite list_to_map_app. cbn [list_to_map foldr fst snd]. rewrite <- (assoc_L (∪)).
    f_equal. rewrite insert_empty. by rewrite insert_union_singleton_l.
Qed.

(** The text of a store reads back as its entries. *)
Lemma read_written (files : Files) path m :
  good_entries m -> files !! path = Some (lines_text (trust_line <$> map_iter m)) ->
  read_trust_store files path = m.
Proof.
  intros Hm Hf. unfold read_trust_store. rewrite Hf.
  assert (Forall (fun e => good_entry e.1 e.2) (map_iter m)) as Hg.
  { apply Forall_forall. intros [a f] He%list_elem_of_In%elem_of_map_iter. by apply (Hm a f). }
  rewrite getlines_lines_text.
  - rewrite foldl_read_entries by done. rewrite (right_id_L ∅ (∪)).
    apply map_eq. intros k. apply option_eq. intros v.
    rewrite <- elem_of_list_to_map; [by rewrite elem_of_reverse, elem_of_map_iter|].
    rewrite fmap_reverse. rewrite reverse_Permutation. apply map_iter_nodup_fst.
  - apply Forall_fmap. eapply Forall_impl; [|exact Hg]. intros [a f]. apply trust_line_free.
Qed.

Section trust.
Context `{o : OpenSSL} `{Platform} `{Sodium} `{!DiskLaws d}.

Lemma tmp_differs path : path <> path +:+ ".tmp".
Proof. intros E. apply (f_equal String.length) in E. rewrite slength_app in E. simpl in E. lia. Qed.

(** Writing the store replaces it by the entries, or leaves it alone. *)
Lemma write_trust_store_spec files path m r files' :
  good_entries m -> write_trust_store files path m = (r, files') ->
  (r = Returned None /\ read_trust_store files' path = m) \/
  (r <> Returned None /\ read_trust_store files' path = read_trust_store files path).
Proof.
  intros Hm. unfold write_trust_store. pose proof (tmp_differs path) as Hp.
  assert (forall text, read_trust_store (<[path +:+ ".tmp" := text]> files) path
    = read_trust_store files path) as Hother.
  { intros text. unfold read_trust_store. by rewrite lookup_insert_ne. }
  destruct (_ && _)%bool; [intros [= <- <-]; by right|].
  destruct (negb _); [intros [= <- <-]; by right|].
  destruct (write_file _ _) as [stored []] eqn:Ew; [|intros [= <- <-]; right; split; done..].
  destruct (rename_error _ _); intros [= <- <-]; [right; split; done|left].
  split; [done|]. apply write_complete in Ew as ->. apply read_written; [done|].
  by rewrite lookup_insert_eq.
Qed.

(** A host as it can be written to the store. *)
Definition plain_host (host : string) : Prop :=
  free_of "|" host = true /\ free_of newline host = true.

Lemma good_key host port fp :
  plain_host host -> normal fp -> good_entry (address_key host port) fp.
Proof.
  intros [Hb Hn] Hf. unfold address_key.
  split; [by destruct host|]. rewrite !free_of_app, Hb, Hn, !to_string_free_of by done. done.
Qed.

Lemma good_union m1 m2 : good_entries m1 -> good_entries m2 -> good_entries (m1 ∪ m2).
Proof. apply map_Forall_union_2. Qed.

Lemma load_trust_spec files path r files' entries :
  load_trust files path = (r, files', entries) ->
  read_trust_store files path ⊆ entries /\
  read_trust_store files path ⊆ read_trust_store files' path /\
  (r = Returned None -> read_trust_store files' path = entries).
Proof.
  unfold load_trust. set (m := read_trust_store files path).
  destruct (_ && _)%bool; [|intros [= <- <- <-]; done].
  case_bool_decide; [intros [= <- <- <-]; done|].
  destruct (write_trust_store _ _ _) as [w f] eqn:E. intros [= <- <- <-].
  assert (good_entries (m ∪ read_trust_store files legacy_trust_store_path)) as Hg
    by (apply good_union; apply read_trust_store_good).
  pose proof (map_union_subseteq_l m (read_trust_store files legacy_trust_store_path)) as Hsub.
  apply write_trust_store_spec in E as [[-> ->]|[Hr ->]]; [done| |done].
  split; [done|]. split; done.
Qed.

(** What saving a decision does to the store. *)
Lemma save_trust_spec files path key fp previous r files' :
  good_entry key fp -> save_trust files path key fp previous = (r, files') ->
  (exists v, r = Returned v /\ accepted v = true /\
     read_trust_store files' path = <[key := fp]> (read_trust_store files path)) \/
  ((forall v, r = Returned v -> accepted v = false) /\
     read_trust_store files' path = read_trust_store files path).
Proof.
  intros Hk. unfold save_trust.
  destruct (match _ with Some _ => _ | None => _ end).
  { intros [= <- <-]. right. split; [|done]. by intros v [= <-]. }
  destruct (write_trust_store _ _ _) as [w f] eqn:E.
  apply write_trust_store_spec in E;
    [|apply map_Forall_insert_2; [done|apply read_trust_store_good]].
  destruct E as [[-> E]|[Hw E]].
  - intros [= <- <-]. left. by eexists.
  - destruct w as [[e|]|]; [|done|]; intros [= <- <-]; right; (split; [|done]); [|done].
    by intros v [= <-].
Qed.

(** A handshake's certificate: its fingerprint and what was trusted before. *)
Definition previous_trust (files : Files) (config : ClientConfig) (host : string) (port : N) : string :=
  default "" ((load_trust files (trust_store_path config)).2 !! address_key host port).

(** The grounds on which a certificate is accepted. *)
Inductive Grounds (config : ClientConfig) (key fp previous : string) (chain_ok : Prop)
    (files' : Files) : Prop :=
| GroundTrusted : previous = fp -> Grounds config key fp previous chain_ok files'
| GroundPinned : previous = "" -> expected_fingerprint config <> "" ->
    Grounds config key fp previous chain_ok files'
| GroundChain : previous = "" -> chain_ok -> Grounds config key fp previous chain_ok files'
| GroundConfirmed confirm files1 : confirm_certificate config = Some confirm ->
    (confirm key fp previous files1).1 = true ->
    read_trust_store files' (trust_store_path config) !! key = Some fp ->
    Grounds config key fp previous chain_ok files'
| GroundFirstUse : confirm_certificate config = None -> previous = "" ->
    trust_on_first_use config = true ->
    read_trust_store files' (trust_store_path config) !! key = Some fp ->
    Grounds config key fp previous chain_ok files'.

Lemma decide_trust_accepts files config key fp previous result matches v files' :
  good_entry key fp -> decide_trust files config key fp previous result matches = (Returned v, files') ->
  accepted v = true ->
  Grounds config key fp previous (result = X509_V_OK /\ matches = true) files'.
Proof.
  intros Hk. unfold decide_trust.
  assert (forall files1, save_trust files1 (trust_store_path config) key fp previous
      = (Returned v, files') -> accepted v = true ->
    read_trust_store files' (trust_store_path config) !! key = Some fp) as Hsave.
  { intros files1 Hs Hv. apply save_trust_spec in Hs as [(v' & _ & _ & ->)|[Hno _]]; [| |done].
    - by rewrite lookup_insert_eq.
    - by rewrite Hno in Hv. }
  destruct (_ && _)%bool eqn:Ec.
  - intros [= <- <-] _. apply andb_true_iff in Ec as [Hc Ho].
    destruct (String.eqb_spec previous fp) as [->|Hne]; [by apply GroundTrusted|].
    destruct previous as [|c p]; [|done]. cbn in Ho. apply orb_true_iff in Ho as [Ho|Ho]; bool_split.
    + apply GroundPinned; [done|]. by apply sempty_false.
    + apply GroundChain; [done|]. split; [by apply N.eqb_eq|done].
  - destruct (confirm_certificate config) as [confirm|] eqn:Ef.
    + destruct (confirm key fp previous files) as [[] files1] eqn:E; cbn [negb]; [|by intros [= <- _]].
      intros Hs Hv. eapply GroundConfirmed; [done| |by eapply Hsave]. by rewrite E.
    + destruct (negb (sempty previous) && _)%bool eqn:Ech; [by intros [= <- _]|].
      destruct (negb (trust_on_first_use config) || _)%bool eqn:Et; [by intros [= <- _]|].
      intros Hs Hv. bool_split. destruct previous as [|c p]; [by apply GroundFirstUse; eauto|].
      cbn [sempty negb andb] in Ech. bool_split. apply GroundTrusted. by apply String.eqb_eq.
Qed.

Lemma decide_trust_blocked files config key fp previous result matches :
  confirm_certificate config = None -> previous <> "" -> previous <> fp ->
  exists reason, decide_trust files config key fp previous result matches
    = (Returned (refuse_peer reason), files).
Proof.
  intros Hc Hp Hf. unfold decide_trust. rewrite Hc.
  apply sempty_false in Hp as ->. apply String.eqb_neq in Hf as ->. cbn [negb andb]. by eexists.
Qed.

(** What accepts a certificate when nobody is asked and nothing is trusted on first
    use: a decision made before, or the configuration, or the chain; and the store
    keeps every decision it had. *)
Lemma verify_peer_settled files handle host port config v files' :
  confirm_certificate config = None -> trust_on_first_use config = false ->
  verify_peer files handle host port config = (Returned v, files') -> accepted v = true ->
  exists certificate, SSL_get1_peer_certificate handle = Some certificate /\
    let previous := previous_trust files config host port in
    (previous = fingerprint_of certificate \/
     previous = "" /\ (expected_fingerprint config <> "" \/
        SSL_get_verify_result handle = X509_V_OK /\ certificate_matches_host certificate host = true)) /\
    files' = (load_trust files (trust_store_path config)).1.2.
Proof.
  intros Hc Ht. unfold verify_peer, peer_sha256_fingerprint, previous_trust.
  destruct (SSL_get1_peer_certificate handle) as [certificate|]; [|by intros [= <- _]].
  set (fp := fingerprint_of certificate). destruct (sempty fp); [by intros [= <- _]|].
  destruct (load_trust files (trust_store_path config)) as [[r files1] entries].
  destruct r as [[e|]|]; [by intros [= <- _]| |done].
  destruct (negb (sempty (expected_fingerprint config)) && _)%bool; [by intros [= <- _]|].
  unfold decide_trust. rewrite Hc, Ht. cbn [negb orb].
  set (previous := default "" _). clearbody previous. intros Hd Hv. exists certificate. split; [done|]. cbv zeta. cbn [fst snd].
  change (fingerprint_of certificate) with fp. clearbody fp.
  destruct (negb _ && _)%bool eqn:Ec.
  - injection Hd as _ <-. split; [|done]. apply andb_true_iff in Ec as [Ech Ho].
    destruct (decide (previous = fp)) as [Heq|Hne]; [by left|]. right.
    apply String.eqb_neq in Hne. rewrite Hne in *.
    destruct previous as [|c p]; [|done]. split; [done|]. cbn in Ho.
    apply orb_true_iff in Ho as [Ho|Ho]; bool_split; [left; by apply sempty_false|right].
    split; [by apply N.eqb_eq|done].
  - destruct (negb (sempty previous) && _)%bool; by injection Hd as <- _.
Qed.

(** An expected fingerprint is the server's, or the server is refused; and when it is,
    and nothing else was trusted before, nobody is asked. *)
Lemma verify_peer_pinned files handle host port config v files' :
  expected_fingerprint config <> "" ->
  verify_peer files handle host port config = (Returned v, files') -> accepted v = true ->
  exists certificate, SSL_get1_peer_certificate handle = Some certificate /\
    fingerprint_of certificate = normalize_fingerprint (expected_fingerprint config).
Proof.
  intros Hne%sempty_false. unfold verify_peer, peer_sha256_fingerprint. rewrite Hne.
  destruct (SSL_get1_peer_certificate handle) as [certificate|]; [|by intros [= <- _]].
  destruct (sempty (fingerprint_of certificate)); [by intros [= <- _]|].
  destruct (load_trust files (trust_store_path config)) as [[r files1] entries].
  destruct r as [[e|]|]; [by intros [= <- _]| |done]. cbn [negb andb].
  destruct (_ || _)%bool eqn:Ex; [by intros [= <- _]|]. intros _ _. exists certificate. split; [done|].
  bool_split. symmetry. by apply String.eqb_eq.
Qed.
Lemma verify_peer_pin_accepts files handle host port config certificate files1 entries :
  SSL_get1_peer_certificate handle = Some certificate -> fingerprint_of certificate <> "" ->
  expected_fingerprint config <> "" -> normalize_fingerprint (expected_fingerprint config) = fingerprint_of certificate ->
  load_trust files (trust_store_path config) = (Returned None, files1, entries) ->
  (let previous := default "" (entries !! address_key host port) in previous = "" \/ previous = fingerprint_of certificate) ->
  verify_peer files handle host port config =
    (Returned (accept_peer ("Verified TLS certificate SHA-256 " +:+ fingerprint_of certificate)), files1).
Proof.
  intros Hc Hf Hne He Hl Hp. unfold verify_peer, peer_sha256_fingerprint. rewrite Hc, Hl, He.
  apply sempty_false in Hf, Hne. rewrite Hf, Hne, String.eqb_refl. cbn [negb andb orb].
  unfold decide_trust. rewrite Hne. set (previous := default "" _) in *. clearbody previous.
  assert (negb (sempty previous) && negb (String.eqb previous (fingerprint_of certificate)) = false) as ->.
  { destruct Hp as [->| ->]; [done|].
    rewrite String.eqb_refl. apply andb_false_r. }
  cbn [negb andb]. by rewrite orb_true_r.
Qed.

(* ===================================================================== *)
(** * Properties *)


End trust.

(* ===================================================================== *)
(** * The host's certificate is kept *)

Section host_certificate.
Context `{OpenSSL} `{Platform} `{Disk}.

Lemma create_file_keeps files path text r files' :
  create_file files path text = (r, files') ->
  files ⊆ files' /\ (forall files1, r = Some files1 -> files1 = files' /\ is_Some (files' !! path)).
Proof.
  unfold create_file. destruct (file_exists files path) eqn:E; cbn [orb]; [intros [= <- <-]; done|].
  destruct (negb (can_write path)); [intros [= <- <-]; done|].
  destruct (write_file path text) as [stored status].
  assert (files ⊆ <[path := stored]> files) as Hsub.
  { apply insert_subseteq. unfold file_exists in E. apply bool_decide_eq_false in E.
    by apply eq_None_not_Some. }
  destruct status; intros [= <- <-]; (split; [done|]); intros files1 Hr; inversion Hr; subst;
    (split; [done|by rewrite lookup_insert_eq]).
Qed.

(** [ensure_host_certificate] never overwrites or removes a file, and once it has
    returned, every later call returns the same paths and changes nothing. *)
Theorem host_certificate_kept files directory draw r files' :
  ensure_host_certificate files directory draw = (r, files') ->
  files ⊆ files' /\
  forall config, r = Returned config ->
    forall draw', ensure_host_certificate files' directory draw' = (Returned config, files').
Proof.
  unfold ensure_host_certificate.
  set (config0 := MkServerConfig true _ _). cbn zeta.
  destruct (file_exists files _ || file_exists files _)%bool eqn:Ex.
  { intros [= <- <-]. split; [done|]. intros config Hr draw'. by rewrite Ex, Hr. }
  destruct (negb (can_make_parent _) || _)%bool; [intros [= <- <-]; done|].
  destruct (generate_certificate draw) as [[key_text certificate_text]|]; [|intros [= <- <-]; done].
  apply orb_false_iff in Ex as [_ Ek].
  assert (files !! private_key_path config0 = None) as Hk.
  { unfold file_exists in Ek. apply bool_decide_eq_false in Ek. by apply eq_None_not_Some. }
  destruct (can_write _ && _)%bool; [intros [= <- <-]; split; [by apply insert_subseteq|done]|].
  destruct (create_file files _ key_text) as [k files1] eqn:E1.
  apply create_file_keeps in E1 as [Hs1 Hk1].
  destruct k as [files1'|]; [|intros [= <- <-]; done].
  destruct (Hk1 files1' eq_refl) as [-> Hkey].
  destruct (create_file files1 _ certificate_text) as [c files2] eqn:E2.
  apply create_file_keeps in E2 as [Hs2 Hc2].
  destruct c as [files2'|]; [|intros [= <- <-]; split; [by etransitivity|done]].
  destruct (Hc2 files2' eq_refl) as [-> Hcert].
  intros [= <- <-]. split; [by etransitivity|]. intros config Hr draw'.
  unfold file_exists. by rewrite (bool_decide_true _ Hcert), Hr.
Qed.
End host_certificate.

(* ===================================================================== *)
(** * Concrete instances *)

(** A certificate is its name; none has a valid chain; files can be written. *)
#[export] Instance toy_openssl : OpenSSL := {
  SSL := string;
  X509 := string;
  SSL_get1_peer_certificate name := if sempty name then None else Some name;
  X509_digest name := Some (pad 32 name);
  SSL_get_verify_result _ := 18%N;
  X509_check_ip_asc _ _ := 0%Z;
  X509_check_host certificate host := if String.eqb certificate host then 1%Z else 0%Z;
  X509_verify_cert_error_string _ := "self-signed certificate";
  PEM_read_bio_X509 text := Some text;
  generate_certificate n := Some ("key " +:+ to_string (N.of_nat n), "cert " +:+ to_string (N.of_nat n));
  server_context_loads certificate key := bool_decide (is_Some certificate /\ is_Some key);
}.
#[export] Instance toy_openssl_laws : OpenSSLLaws toy_openssl.
Proof. split. intros c d [= <-]. apply pad_size. Qed.

#[export] Instance toy_disk : Disk := {
  write_file _ text := (text, WriteComplete);
  rename_error _ _ := None;
  can_set_permissions _ := true;
}.
#[export] Instance toy_disk_laws : DiskLaws toy_disk.
Proof. split. by intros path text stored [= <-]. Qed.

(** No authority, no fingerprint, trust on first use, nobody to ask. *)
Definition default_client_config : ClientConfig :=
  MkClientConfig true "" "" default_trust_store_path true None.

(** Two servers. *)
Definition alpha : @SSL toy_openssl := "alpha".
Definition mallory : @SSL toy_openssl := "mallory".
Definition alpha_fingerprint : string := fingerprint_of (alpha : @X509 toy_openssl).

(** The first connection to a server, then another certificate at its address. *)
Definition first_meeting : Outcome Verdict * Files :=
  verify_peer ∅ alpha "chat.example" 7777 default_client_config.
Definition second_meeting : Outcome Verdict * Files :=
  verify_peer first_meeting.2 mallory "chat.example" 7777 default_client_config.

Lemma first_meeting_saved :
  first_meeting.1 = Returned (accept_peer ("Saved trusted TLS certificate: "
                                           +:+ alpha_fingerprint)) /\
  read_trust_store first_meeting.2 default_trust_store_path !! "chat.example:7777"
    = Some (alpha_fingerprint).
Proof. by vm_compute. Qed.


