(* ===== verification/ChatClient.v ===== *)
(** The client: [ChatClient] of [src/chat/chat_client.h]. Its members and the world
    around it, connecting (name resolution, TCP, TLS and the check of the
    certificate, each phase under a deadline), sending, the write chain and the
    read callback with every message of the server; then its events as a step
    relation. *)

From S2P Require Import Prelude Frame Message Utils AppState Tls.
Local Open Scope string_scope.
Local Open Scope chat_scope.

(* ===================================================================== *)
(** * State *)

Inductive ConnectionFailure :=
| NoFailure | Dns | Refused | Timeout | TlsFailure | Cancelled | NetworkFailure.

(** The members of [ChatClient]. Attempts to connect are numbered: the shared pointer
    [attempt_lifetime_] and the callback [connect_completed_] are known by the number
    of their attempt. Of the stream: whether it is open, whether a read or a write is
    pending, and the frames written so far. *)
Record ChatClient := MkClient {
  connect_completed_ : option nat;
  deadline_generation_ : N;
  connecting_ : bool;
  connection_failure_ : ConnectionFailure;
  connection_phase_ : string;
  tls_config_ : ClientConfig;
  write_queue_ : list string;
  disconnect_reason_ : string;
  connected_ : bool;
  auth_required_ : bool;
  auth_resolved_ : bool;
  auth_ok_ : bool;
  join_resolved_ : bool;
  kicked_ : bool;
  banned_ : bool;
  nickname_taken_ : bool;
  join_failed_ : bool;
  closing_ : bool;
  protocol_negotiated_ : bool;
  room_list_requested_ : bool;
  identity_ : option ClientIdentity;
  kick_reason_ : string;
  join_failure_reason_ : string;
  connect_error_ : string;
  attempt_lifetime_ : option nat;
  stream_open : bool;
  reading : bool;
  write_pending : bool;
  sent : list string;
}.

Definition with_connect_completed (v : option nat) (x : ChatClient) : ChatClient :=
  MkClient v (deadline_generation_ x) (connecting_ x) (connection_failure_ x)
    (connection_phase_ x) (tls_config_ x) (write_queue_ x) (disconnect_reason_ x)
    (connected_ x) (auth_required_ x) (auth_resolved_ x) (auth_ok_ x) (join_resolved_ x)
    (kicked_ x) (banned_ x) (nickname_taken_ x) (join_failed_ x) (closing_ x)
    (protocol_negotiated_ x) (room_list_requested_ x) (identity_ x) (kick_reason_ x)
    (join_failure_reason_ x) (connect_error_ x) (attempt_lifetime_ x) (stream_open x)
    (reading x) (write_pending x) (sent x).
Definition with_deadline_generation (v : N) (x : ChatClient) : ChatClient :=
  MkClient (connect_completed_ x) v (connecting_ x) (connection_failure_ x)
    (connection_phase_ x) (tls_config_ x) (write_queue_ x) (disconnect_reason_ x)
    (connected_ x) (auth_required_ x) (auth_resolved_ x) (auth_ok_ x) (join_resolved_ x)
    (kicked_ x) (banned_ x) (nickname_taken_ x) (join_failed_ x) (closing_ x)
    (protocol_negotiated_ x) (room_list_requested_ x) (identity_ x) (kick_reason_ x)
    (join_failure_reason_ x) (connect_error_ x) (attempt_lifetime_ x) (stream_open x)
    (reading x) (write_pending x) (sent x).
Definition with_connecting (v : bool) (x : ChatClient) : ChatClient :=
  MkClient (connect_completed_ x) (deadline_generation_ x) v (connection_failure_ x)
    (connection_phase_ x) (tls_config_ x) (write_queue_ x) (disconnect_reason_ x)
    (connected_ x) (auth_required_ x) (auth_resolved_ x) (auth_ok_ x) (join_resolved_ x)
    (kicked_ x) (banned_ x) (nickname_taken_ x) (join_failed_ x) (closing_ x)
    (protocol_negotiated_ x) (room_list_requested_ x) (identity_ x) (kick_reason_ x)
    (join_failure_reason_ x) (connect_error_ x) (attempt_lifetime_ x) (stream_open x)
    (reading x) (write_pending x) (sent x).
Definition with_connection_failure (v : ConnectionFailure) (x : ChatClient) : ChatClient :=
  MkClient (connect_completed_ x) (deadline_generation_ x) (connecting_ x) v
    (connection_phase_ x) (tls_config_ x) (write_queue_ x) (disconnect_reason_ x)
    (connected_ x) (auth_required_ x) (auth_resolved_ x) (auth_ok_ x) (join_resolved_ x)
    (kicked_ x) (banned_ x) (nickname_taken_ x) (join_failed_ x) (closing_ x)
    (protocol_negotiated_ x) (room_list_requested_ x) (identity_ x) (kick_reason_ x)
    (join_failure_reason_ x) (connect_error_ x) (attempt_lifetime_ x) (stream_open x)
    (reading x) (write_pending x) (sent x).
Definition with_connection_phase (v : string) (x : ChatClient) : ChatClient :=
  MkClient (connect_completed_ x) (deadline_generation_ x) (connecting_ x)
    (connection_failure_ x) v (tls_config_ x) (write_queue_ x) (disconnect_reason_ x)
    (connected_ x) (auth_required_ x) (auth_resolved_ x) (auth_ok_ x) (join_resolved_ x)
    (kicked_ x) (banned_ x) (nickname_taken_ x) (join_failed_ x) (closing_ x)
    (protocol_negotiated_ x) (room_list_requested_ x) (identity_ x) (kick_reason_ x)
    (join_failure_reason_ x) (connect_error_ x) (attempt_lifetime_ x) (stream_open x)
    (reading x) (write_pending x) (sent x).
Definition with_tls_config (v : ClientConfig) (x : ChatClient) : ChatClient :=
  MkClient (connect_completed_ x) (deadline_generation_ x) (connecting_ x)
    (connection_failure_ x) (connection_phase_ x) v (write_queue_ x) (disconnect_reason_ x)
    (connected_ x) (auth_required_ x) (auth_resolved_ x) (auth_ok_ x) (join_resolved_ x)
    (kicked_ x) (banned_ x) (nickname_taken_ x) (join_failed_ x) (closing_ x)
    (protocol_negotiated_ x) (room_list_requested_ x) (identity_ x) (kick_reason_ x)
    (join_failure_reason_ x) (connect_error_ x) (attempt_lifetime_ x) (stream_open x)
    (reading x) (write_pending x) (sent x).
Definition with_write_queue (v : list string) (x : ChatClient) : ChatClient :=
  MkClient (connect_completed_ x) (deadline_generation_ x) (connecting_ x)
    (connection_failure_ x) (connection_phase_ x) (tls_config_ x) v (disconnect_reason_ x)
    (connected_ x) (auth_required_ x) (auth_resolved_ x) (auth_ok_ x) (join_resolved_ x)
    (kicked_ x) (banned_ x) (nickname_taken_ x) (join_failed_ x) (closing_ x)
    (protocol_negotiated_ x) (room_list_requested_ x) (identity_ x) (kick_reason_ x)
    (join_failure_reason_ x) (connect_error_ x) (attempt_lifetime_ x) (stream_open x)
    (reading x) (write_pending x) (sent x).
Definition with_disconnect_reason (v : string) (x : ChatClient) : ChatClient :=
  MkClient (connect_completed_ x) (deadline_generation_ x) (connecting_ x)
    (connection_failure_ x) (connection_phase_ x) (tls_config_ x) (write_queue_ x) v
    (connected_ x) (auth_required_ x) (auth_resolved_ x) (auth_ok_ x) (join_resolved_ x)
    (kicked_ x) (banned_ x) (nickname_taken_ x) (join_failed_ x) (closing_ x)
    (protocol_negotiated_ x) (room_list_requested_ x) (identity_ x) (kick_reason_ x)
    (join_failure_reason_ x) (connect_error_ x) (attempt_lifetime_ x) (stream_open x)
    (reading x) (write_pending x) (sent x).
Definition with_connected (v : bool) (x : ChatClient) : ChatClient :=
  MkClient (connect_completed_ x) (deadline_generation_ x) (connecting_ x)
    (connection_failure_ x) (connection_phase_ x) (tls_config_ x) (write_queue_ x)
    (disconnect_reason_ x) v (auth_required_ x) (auth_resolved_ x) (auth_ok_ x)
    (join_resolved_ x) (kicked_ x) (banned_ x) (nickname_taken_ x) (join_failed_ x)
    (closing_ x) (protocol_negotiated_ x) (room_list_requested_ x) (identity_ x)
    (kick_reason_ x) (join_failure_reason_ x) (connect_error_ x) (attempt_lifetime_ x)
    (stream_open x) (reading x) (write_pending x) (sent x).
Definition with_auth_required (v : bool) (x : ChatClient) : ChatClient :=
  MkClient (connect_completed_ x) (deadline_generation_ x) (connecting_ x)
    (connection_failure_ x) (connection_phase_ x) (tls_config_ x) (write_queue_ x)
    (disconnect_reason_ x) (connected_ x) v (auth_resolved_ x) (auth_ok_ x)
    (join_resolved_ x) (kicked_ x) (banned_ x) (nickname_taken_ x) (join_failed_ x)
    (closing_ x) (protocol_negotiated_ x) (room_list_requested_ x) (identity_ x)
    (kick_reason_ x) (join_failure_reason_ x) (connect_error_ x) (attempt_lifetime_ x)
    (stream_open x) (reading x) (write_pending x) (sent x).
Definition with_auth_resolved (v : bool) (x : ChatClient) : ChatClient :=
  MkClient (connect_completed_ x) (deadline_generation_ x) (connecting_ x)
    (connection_failure_ x) (connection_phase_ x) (tls_config_ x) (write_queue_ x)
    (disconnect_reason_ x) (connected_ x) (auth_required_ x) v (auth_ok_ x)
    (join_resolved_ x) (kicked_ x) (banned_ x) (nickname_taken_ x) (join_failed_ x)
    (closing_ x) (protocol_negotiated_ x) (room_list_requested_ x) (identity_ x)
    (kick_reason_ x) (join_failure_reason_ x) (connect_error_ x) (attempt_lifetime_ x)
    (stream_open x) (reading x) (write_pending x) (sent x).
Definition with_auth_ok (v : bool) (x : ChatClient) : ChatClient :=
  MkClient (connect_completed_ x) (deadline_generation_ x) (connecting_ x)
    (connection_failure_ x) (connection_phase_ x) (tls_config_ x) (write_queue_ x)
    (disconnect_reason_ x) (connected_ x) (auth_required_ x) (auth_resolved_ x) v
    (join_resolved_ x) (kicked_ x) (banned_ x) (nickname_taken_ x) (join_failed_ x)
    (closing_ x) (protocol_negotiated_ x) (room_list_requested_ x) (identity_ x)
    (kick_reason_ x) (join_failure_reason_ x) (connect_error_ x) (attempt_lifetime_ x)
    (stream_open x) (reading x) (write_pending x) (sent x).
Definition with_join_resolved (v : bool) (x : ChatClient) : ChatClient :=
  MkClient (connect_completed_ x) (deadline_generation_ x) (connecting_ x)
    (connection_failure_ x) (connection_phase_ x) (tls_config_ x) (write_queue_ x)
    (disconnect_reason_ x) (connected_ x) (auth_required_ x) (auth_resolved_ x) (auth_ok_ x)
    v (kicked_ x) (banned_ x) (nickname_taken_ x) (join_failed_ x) (closing_ x)
    (protocol_negotiated_ x) (room_list_requested_ x) (identity_ x) (kick_reason_ x)
    (join_failure_reason_ x) (connect_error_ x) (attempt_lifetime_ x) (stream_open x)
    (reading x) (write_pending x) (sent x).
Definition with_kicked (v : bool) (x : ChatClient) : ChatClient :=
  MkClient (connect_completed_ x) (deadline_generation_ x) (connecting_ x)
    (connection_failure_ x) (connection_phase_ x) (tls_config_ x) (write_queue_ x)
    (disconnect_reason_ x) (connected_ x) (auth_required_ x) (auth_resolved_ x) (auth_ok_ x)
    (join_resolved_ x) v (banned_ x) (nickname_taken_ x) (join_failed_ x) (closing_ x)
    (protocol_negotiated_ x) (room_list_requested_ x) (identity_ x) (kick_reason_ x)
    (join_failure_reason_ x) (connect_error_ x) (attempt_lifetime_ x) (stream_open x)
    (reading x) (write_pending x) (sent x).
Definition with_banned (v : bool) (x : ChatClient) : ChatClient :=
  MkClient (connect_completed_ x) (deadline_generation_ x) (connecting_ x)
    (connection_failure_ x) (connection_phase_ x) (tls_config_ x) (write_queue_ x)
    (disconnect_reason_ x) (connected_ x) (auth_required_ x) (auth_resolved_ x) (auth_ok_ x)
    (join_resolved_ x) (kicked_ x) v (nickname_taken_ x) (join_failed_ x) (closing_ x)
    (protocol_negotiated_ x) (room_list_requested_ x) (identity_ x) (kick_reason_ x)
    (join_failure_reason_ x) (connect_error_ x) (attempt_lifetime_ x) (stream_open x)
    (reading x) (write_pending x) (sent x).
Definition with_nickname_taken (v : bool) (x : ChatClient) : ChatClient :=
  MkClient (connect_completed_ x) (deadline_generation_ x) (connecting_ x)
    (connection_failure_ x) (connection_phase_ x) (tls_config_ x) (write_queue_ x)
    (disconnect_reason_ x) (connected_ x) (auth_required_ x) (auth_resolved_ x) (auth_ok_ x)
    (join_resolved_ x) (kicked_ x) (banned_ x) v (join_failed_ x) (closing_ x)
    (protocol_negotiated_ x) (room_list_requested_ x) (identity_ x) (kick_reason_ x)
    (join_failure_reason_ x) (connect_error_ x) (attempt_lifetime_ x) (stream_open x)
    (reading x) (write_pending x) (sent x).
Definition with_join_failed (v : bool) (x : ChatClient) : ChatClient :=
  MkClient (connect_completed_ x) (deadline_generation_ x) (connecting_ x)
    (connection_failure_ x) (connection_phase_ x) (tls_config_ x) (write_queue_ x)
    (disconnect_reason_ x) (connected_ x) (auth_required_ x) (auth_resolved_ x) (auth_ok_ x)
    (join_resolved_ x) (kicked_ x) (banned_ x) (nickname_taken_ x) v (closing_ x)
    (protocol_negotiated_ x) (room_list_requested_ x) (identity_ x) (kick_reason_ x)
    (join_failure_reason_ x) (connect_error_ x) (attempt_lifetime_ x) (stream_open x)
    (reading x) (write_pending x) (sent x).
Definition with_closing (v : bool) (x : ChatClient) : ChatClient :=
  MkClient (connect_completed_ x) (deadline_generation_ x) (connecting_ x)
    (connection_failure_ x) (connection_phase_ x) (tls_config_ x) (write_queue_ x)
    (disconnect_reason_ x) (connected_ x) (auth_required_ x) (auth_resolved_ x) (auth_ok_ x)
    (join_resolved_ x) (kicked_ x) (banned_ x) (nickname_taken_ x) (join_failed_ x) v
    (protocol_negotiated_ x) (room_list_requested_ x) (identity_ x) (kick_reason_ x)
    (join_failure_reason_ x) (connect_error_ x) (attempt_lifetime_ x) (stream_open x)
    (reading x) (write_pending x) (sent x).
Definition with_protocol_negotiated (v : bool) (x : ChatClient) : ChatClient :=
  MkClient (connect_completed_ x) (deadline_generation_ x) (connecting_ x)
    (connection_failure_ x) (connection_phase_ x) (tls_config_ x) (write_queue_ x)
    (disconnect_reason_ x) (connected_ x) (auth_required_ x) (auth_resolved_ x) (auth_ok_ x)
    (join_resolved_ x) (kicked_ x) (banned_ x) (nickname_taken_ x) (join_failed_ x)
    (closing_ x) v (room_list_requested_ x) (identity_ x) (kick_reason_ x)
    (join_failure_reason_ x) (connect_error_ x) (attempt_lifetime_ x) (stream_open x)
    (reading x) (write_pending x) (sent x).
Definition with_room_list_requested (v : bool) (x : ChatClient) : ChatClient :=
  MkClient (connect_completed_ x) (deadline_generation_ x) (connecting_ x)
    (connection_failure_ x) (connection_phase_ x) (tls_config_ x) (write_queue_ x)
    (disconnect_reason_ x) (connected_ x) (auth_required_ x) (auth_resolved_ x) (auth_ok_ x)
    (join_resolved_ x) (kicked_ x) (banned_ x) (nickname_taken_ x) (join_failed_ x)
    (closing_ x) (protocol_negotiated_ x) v (identity_ x) (kick_reason_ x)
    (join_failure_reason_ x) (connect_error_ x) (attempt_lifetime_ x) (stream_open x)
    (reading x) (write_pending x) (sent x).
Definition with_identity (v : option ClientIdentity) (x : ChatClient) : ChatClient :=
  MkClient (connect_completed_ x) (deadline_generation_ x) (connecting_ x)
    (connection_failure_ x) (connection_phase_ x) (tls_config_ x) (write_queue_ x)
    (disconnect_reason_ x) (connected_ x) (auth_required_ x) (auth_resolved_ x) (auth_ok_ x)
    (join_resolved_ x) (kicked_ x) (banned_ x) (nickname_taken_ x) (join_failed_ x)
    (closing_ x) (protocol_negotiated_ x) (room_list_requested_ x) v (kick_reason_ x)
    (join_failure_reason_ x) (connect_error_ x) (attempt_lifetime_ x) (stream_open x)
    (reading x) (write_pending x) (sent x).
Definition with_kick_reason (v : string) (x : ChatClient) : ChatClient :=
  MkClient (connect_completed_ x) (deadline_generation_ x) (connecting_ x)
    (connection_failure_ x) (connection_phase_ x) (tls_config_ x) (write_queue_ x)
    (disconnect_reason_ x) (connected_ x) (auth_required_ x) (auth_resolved_ x) (auth_ok_ x)
    (join_resolved_ x) (kicked_ x) (banned_ x) (nickname_taken_ x) (join_failed_ x)
    (closing_ x) (protocol_negotiated_ x) (room_list_requested_ x) (identity_ x) v
    (join_failure_reason_ x) (connect_error_ x) (attempt_lifetime_ x) (stream_open x)
    (reading x) (write_pending x) (sent x).
Definition with_join_failure_reason (v : string) (x : ChatClient) : ChatClient :=
  MkClient (connect_completed_ x) (deadline_generation_ x) (connecting_ x)
    (connection_failure_ x) (connection_phase_ x) (tls_config_ x) (write_queue_ x)
    (disconnect_reason_ x) (connected_ x) (auth_required_ x) (auth_resolved_ x) (auth_ok_ x)
    (join_resolved_ x) (kicked_ x) (banned_ x) (nickname_taken_ x) (join_failed_ x)
    (closing_ x) (protocol_negotiated_ x) (room_list_requested_ x) (identity_ x)
    (kick_reason_ x) v (connect_error_ x) (attempt_lifetime_ x) (stream_open x) (reading x)
    (write_pending x) (sent x).
Definition with_connect_error (v : string) (x : ChatClient) : ChatClient :=
  MkClient (connect_completed_ x) (deadline_generation_ x) (connecting_ x)
    (connection_failure_ x) (connection_phase_ x) (tls_config_ x) (write_queue_ x)
    (disconnect_reason_ x) (connected_ x) (auth_required_ x) (auth_resolved_ x) (auth_ok_ x)
    (join_resolved_ x) (kicked_ x) (banned_ x) (nickname_taken_ x) (join_failed_ x)
    (closing_ x) (protocol_negotiated_ x) (room_list_requested_ x) (identity_ x)
    (kick_reason_ x) (join_failure_reason_ x) v (attempt_lifetime_ x) (stream_open x)
    (reading x) (write_pending x) (sent x).
Definition with_attempt_lifetime (v : option nat) (x : ChatClient) : ChatClient :=
  MkClient (connect_completed_ x) (deadline_generation_ x) (connecting_ x)
    (connection_failure_ x) (connection_phase_ x) (tls_config_ x) (write_queue_ x)
    (disconnect_reason_ x) (connected_ x) (auth_required_ x) (auth_resolved_ x) (auth_ok_ x)
    (join_resolved_ x) (kicked_ x) (banned_ x) (nickname_taken_ x) (join_failed_ x)
    (closing_ x) (protocol_negotiated_ x) (room_list_requested_ x) (identity_ x)
    (kick_reason_ x) (join_failure_reason_ x) (connect_error_ x) v (stream_open x)
    (reading x) (write_pending x) (sent x).
Definition with_stream_open (v : bool) (x : ChatClient) : ChatClient :=
  MkClient (connect_completed_ x) (deadline_generation_ x) (connecting_ x)
    (connection_failure_ x) (connection_phase_ x) (tls_config_ x) (write_queue_ x)
    (disconnect_reason_ x) (connected_ x) (auth_required_ x) (auth_resolved_ x) (auth_ok_ x)
    (join_resolved_ x) (kicked_ x) (banned_ x) (nickname_taken_ x) (join_failed_ x)
    (closing_ x) (protocol_negotiated_ x) (room_list_requested_ x) (identity_ x)
    (kick_reason_ x) (join_failure_reason_ x) (connect_error_ x) (attempt_lifetime_ x) v
    (reading x) (write_pending x) (sent x).
Definition with_reading (v : bool) (x : ChatClient) : ChatClient :=
  MkClient (connect_completed_ x) (deadline_generation_ x) (connecting_ x)
    (connection_failure_ x) (connection_phase_ x) (tls_config_ x) (write_queue_ x)
    (disconnect_reason_ x) (connected_ x) (auth_required_ x) (auth_resolved_ x) (auth_ok_ x)
    (join_resolved_ x) (kicked_ x) (banned_ x) (nickname_taken_ x) (join_failed_ x)
    (closing_ x) (protocol_negotiated_ x) (room_list_requested_ x) (identity_ x)
    (kick_reason_ x) (join_failure_reason_ x) (connect_error_ x) (attempt_lifetime_ x)
    (stream_open x) v (write_pending x) (sent x).
Definition with_write_pending (v : bool) (x : ChatClient) : ChatClient :=
  MkClient (connect_completed_ x) (deadline_generation_ x) (connecting_ x)
    (connection_failure_ x) (connection_phase_ x) (tls_config_ x) (write_queue_ x)
    (disconnect_reason_ x) (connected_ x) (auth_required_ x) (auth_resolved_ x) (auth_ok_ x)
    (join_resolved_ x) (kicked_ x) (banned_ x) (nickname_taken_ x) (join_failed_ x)
    (closing_ x) (protocol_negotiated_ x) (room_list_requested_ x) (identity_ x)
    (kick_reason_ x) (join_failure_reason_ x) (connect_error_ x) (attempt_lifetime_ x)
    (stream_open x) (reading x) v (sent x).
Definition with_sent (v : list string) (x : ChatClient) : ChatClient :=
  MkClient (connect_completed_ x) (deadline_generation_ x) (connecting_ x)
    (connection_failure_ x) (connection_phase_ x) (tls_config_ x) (write_queue_ x)
    (disconnect_reason_ x) (connected_ x) (auth_required_ x) (auth_resolved_ x) (auth_ok_ x)
    (join_resolved_ x) (kicked_ x) (banned_ x) (nickname_taken_ x) (join_failed_ x)
    (closing_ x) (protocol_negotiated_ x) (room_list_requested_ x) (identity_ x)
    (kick_reason_ x) (join_failure_reason_ x) (connect_error_ x) (attempt_lifetime_ x)
    (stream_open x) (reading x) (write_pending x) v.

(** Closures posted to the [io_context]. *)
Inductive Task :=
| TaskSend (wire : string)
| TaskClose.
#[export] Instance task_eq_dec : EqDecision Task.
Proof. solve_decision. Defined.

(** Asynchronous operations of an attempt that have not completed. *)
Inductive Pending :=
| Resolving (attempt : nat) (host : string) (port : N)
| ConnectingTcp (attempt : nat) (host : string) (port : N)
| Handshaking (attempt : nat) (host : string) (port : N)
| Deadline (attempt : nat) (generation : N).
#[export] Instance pending_eq_dec : EqDecision Pending.
Proof. solve_decision. Defined.

(** The client, the chat state of its process, the files of the trust store, the
    posted closures, the pending operations, how many attempts were started, the calls
    of the callbacks, and how often a handler ended by an exception. *)
Record ClientWorld := MkClientWorld {
  client : ChatClient;
  app : AppState;
  files : Files;
  tasks : list Task;
  pending : list Pending;
  attempts : nat;
  completions : list (nat * bool);
  uncaught : nat;
}.

Definition put_client (v : ChatClient) (w : ClientWorld) : ClientWorld :=
  MkClientWorld v (app w) (files w) (tasks w) (pending w) (attempts w) (completions w)
    (uncaught w).
Definition put_app (v : AppState) (w : ClientWorld) : ClientWorld :=
  MkClientWorld (client w) v (files w) (tasks w) (pending w) (attempts w) (completions w)
    (uncaught w).
Definition put_files (v : Files) (w : ClientWorld) : ClientWorld :=
  MkClientWorld (client w) (app w) v (tasks w) (pending w) (attempts w) (completions w)
    (uncaught w).
Definition put_tasks (v : list Task) (w : ClientWorld) : ClientWorld :=
  MkClientWorld (client w) (app w) (files w) v (pending w) (attempts w) (completions w)
    (uncaught w).
Definition put_pending (v : list Pending) (w : ClientWorld) : ClientWorld :=
  MkClientWorld (client w) (app w) (files w) (tasks w) v (attempts w) (completions w)
    (uncaught w).
Definition put_attempts (v : nat) (w : ClientWorld) : ClientWorld :=
  MkClientWorld (client w) (app w) (files w) (tasks w) (pending w) v (completions w)
    (uncaught w).
Definition put_completions (v : list (nat * bool)) (w : ClientWorld) : ClientWorld :=
  MkClientWorld (client w) (app w) (files w) (tasks w) (pending w) (attempts w) v
    (uncaught w).
Definition put_uncaught (v : nat) (w : ClientWorld) : ClientWorld :=
  MkClientWorld (client w) (app w) (files w) (tasks w) (pending w) (attempts w)
    (completions w) v.

Definition no_identity_client (config : ClientConfig) : ChatClient :=
  MkClient None 0 false NoFailure "" config [] "" false false false false false false false
    false false false false false None "" "" "" None false false false [].

(** A process that has constructed a client. *)
Definition new_client (config : ClientConfig) (app : AppState) (files : Files) : ClientWorld :=
  MkClientWorld (no_identity_client config) app files [] [] 0 [] 0.

Definition on_client (f : ChatClient -> ChatClient) : M ClientWorld unit :=
  modify (fun w => put_client (f (client w)) w).
Definition on_app (f : AppState -> AppState) : M ClientWorld unit :=
  modify (fun w => put_app (f (app w)) w).
Definition say (text : string) : M ClientWorld unit := on_app (push_message text).
Definition post (t : Task) : M ClientWorld unit :=
  modify (fun w => put_tasks (tasks w ++ [t])%list w).
Definition start (p : Pending) : M ClientWorld unit :=
  modify (fun w => put_pending (pending w ++ [p])%list w).

(* ===================================================================== *)
(** * Sending and closing *)

(** [stream_.close()]. *)
Definition close_stream : M ClientWorld unit := on_client (with_stream_open false).

Definition send (msg : Client.message) : M ClientWorld unit :=
  let* w := get in
  if negb (connected_ (client w)) || closing_ (client w) then ret tt
  else
    let encoded := encode_client_frame msg in
    match value encoded with
    | None => say ("[system] Could not encode message: " +:+ detail encoded)
    | Some wire => post (TaskSend wire)
    end.

Definition set_identity (identity : ClientIdentity) : M ClientWorld unit :=
  on_client (with_identity (Some identity)).

(** [join_failed_], [join_failure_reason_] and [join_resolved_]. *)
Definition fail_join (reason : string) : M ClientWorld unit :=
  on_client (with_join_failed true) ;;;
  on_client (with_join_failure_reason reason) ;;;
  on_client (with_join_resolved true).

Definition identify (nick : string) : M ClientWorld unit :=
  let* w := get in
  match identity_ (client w) with
  | None => fail_join "No local identity key loaded"
  | Some identity => send (Client.Identify nick (public_key_hex identity))
  end.

Definition request_rooms : M ClientWorld unit :=
  on_client (with_room_list_requested true) ;;;
  send Client.ListRooms.

Definition close : M ClientWorld unit :=
  on_client (with_closing true) ;;;
  post TaskClose.

Definition read_loop : M ClientWorld unit := on_client (with_reading true).
Definition write_next : M ClientWorld unit := on_client (with_write_pending true).

Definition run_task (t : Task) : M ClientWorld unit :=
  match t with
  | TaskSend wire =>
      let* w := get in
      if negb (connected_ (client w)) || closing_ (client w) then ret tt
      else
        let writing := negb (bool_decide (write_queue_ (client w) = [])) in
        on_client (with_write_queue (write_queue_ (client w) ++ [wire])%list) ;;;
        when (negb writing) write_next
  | TaskClose =>
      on_client (with_connected false) ;;;
      close_stream
  end.

(** The callback of [async_write]. *)
Definition on_written : M ClientWorld unit :=
  on_client (with_write_pending false) ;;;
  let* w := get in
  match write_queue_ (client w) with
  | [] => ret tt   (* no write is pending on an empty queue *)
  | wire :: rest =>
      on_client (with_sent (sent (client w) ++ [wire])%list) ;;;
      on_client (with_write_queue rest) ;;;
      when (negb (bool_decide (rest = []))) write_next
  end.

Definition on_write_error (aborted : bool) (message : string) : M ClientWorld unit :=
  on_client (with_write_pending false) ;;;
  on_client (with_disconnect_reason message) ;;;
  on_client (with_connected false) ;;;
  close_stream ;;;
  let* w := get in
  when (negb aborted && negb (closing_ (client w)))
    (say ("[system] Send failed: " +:+ message +:+ ". Delivery may be uncertain.")).

(* ===================================================================== *)
(** * Connecting *)

Definition arm_deadline : M ClientWorld unit :=
  let* w := get in
  let generation := u64 (deadline_generation_ (client w) + 1) in
  on_client (with_deadline_generation generation) ;;;
  match attempt_lifetime_ (client w) with
  | Some attempt => start (Deadline attempt generation)
  | None => ret tt   (* only called during an attempt *)
  end.

(** The call of [completed], which is moved out of its member first. *)
Definition call_completed (result : bool) : M ClientWorld unit :=
  let* w := get in
  on_client (with_connect_completed None) ;;;
  match connect_completed_ (client w) with
  | Some attempt => modify (fun w => put_completions (completions w ++ [(attempt, result)])%list w)
  | None => ret tt
  end.

(** [deadline_.cancel()] and [resolver_.cancel()] make their handlers complete. *)
Definition finish_connect (failure : ConnectionFailure) (error : string) : M ClientWorld unit :=
  let* w := get in
  if negb (connecting_ (client w)) then ret tt
  else
    on_client (with_connecting false) ;;;
    on_client (with_attempt_lifetime None) ;;;
    on_client (with_connection_failure failure) ;;;
    on_client (with_connect_error error) ;;;
    (match failure with
     | NoFailure =>
         on_client (with_connected true) ;;;
         send (Client.Hello VERSION) ;;;
         read_loop
     | _ => close_stream
     end) ;;;
    call_completed (match failure with NoFailure => true | _ => false end).

Definition async_connect (host : string) (port : N) : M ClientWorld unit :=
  let* w := get in
  let attempt := attempts w in
  modify (put_attempts (S attempt)) ;;;
  on_client (with_attempt_lifetime (Some attempt)) ;;;
  on_client (with_connect_error "") ;;;
  on_client (with_connection_failure NoFailure) ;;;
  on_client (with_connect_completed (Some attempt)) ;;;
  on_client (with_connecting true) ;;;
  on_client (with_connection_phase "Resolving address") ;;;
  arm_deadline ;;;
  start (Resolving attempt host port).

Definition cancel_connect : M ClientWorld unit :=
  let* w := get in
  when (connecting_ (client w)) (finish_connect Cancelled "Connection cancelled.").

(** [lifetime.expired() || !connecting_]: a handler of an attempt that is over. *)
Definition stale (w : ClientWorld) (attempt : nat) : bool :=
  negb (bool_decide (attempt_lifetime_ (client w) = Some attempt)) || negb (connecting_ (client w)).

Definition on_deadline (attempt : nat) (generation : N) (cancelled : bool) : M ClientWorld unit :=
  let* w := get in
  when (negb (stale w attempt) && negb cancelled
        && (generation =? deadline_generation_ (client w))%N)
    (finish_connect Timeout (connection_phase_ (client w) +:+ " timed out.")).

Definition on_resolved (attempt : nat) (host : string) (port : N) (error : option string) :
    M ClientWorld unit :=
  let* w := get in
  if stale w attempt then ret tt
  else match error with
  | Some message => finish_connect Dns message
  | None =>
      on_client (with_connection_phase "Connecting TCP") ;;;
      arm_deadline ;;;
      start (ConnectingTcp attempt host port)
  end.

(** Without an error the socket is open; [server_name_error] is what [set_server_name] throws. *)
Definition on_connected (attempt : nat) (host : string) (port : N)
    (error : option (bool * string)) (server_name_error : option string) : M ClientWorld unit :=
  let* w := get in
  if stale w attempt then ret tt
  else match error with
  | Some (refused, message) => finish_connect (if refused then Refused else NetworkFailure) message
  | None =>
      on_client (with_stream_open true) ;;;
      if negb (enabled (tls_config_ (client w))) then finish_connect NoFailure ""
      else
        on_client (with_connection_phase "Negotiating TLS") ;;;
        arm_deadline ;;;
        match server_name_error with
        | Some what => finish_connect TlsFailure what
        | None => start (Handshaking attempt host port)
        end
  end.

Section chat_client.
Context `{OpenSSL} `{Platform} `{Sodium} `{Disk}.

(** An exception of [verify_peer] leaves the handler. *)
Definition on_handshake (attempt : nat) (host : string) (port : N) (error : option string)
    (handle : SSL) : M ClientWorld unit :=
  let* w := get in
  if stale w attempt then ret tt
  else match error with
  | Some message => finish_connect TlsFailure message
  | None =>
      let '(outcome, files') := verify_peer (files w) handle host port (tls_config_ (client w)) in
      modify (put_files files') ;;;
      match outcome with
      | Thrown => modify (fun w => put_uncaught (S (uncaught w)) w)
      | Returned verdict =>
          if negb (accepted verdict) then finish_connect TlsFailure (verdict_error verdict)
          else
            when (negb (sempty (notice verdict))) (say ("[security] " +:+ notice verdict)) ;;;
            finish_connect NoFailure ""
      end
  end.

(* ===================================================================== *)
(** * The read callback *)

Definition set_auth (ok : bool) : M ClientWorld unit :=
  on_client (with_auth_ok ok) ;;;
  on_client (with_auth_resolved true).

Definition fail_handshake (reason : string) : M ClientWorld unit :=
  set_auth false ;;;
  fail_join reason.

Definition on_read_error (message : string) : M ClientWorld unit :=
  on_client (with_reading false) ;;;
  on_client (with_disconnect_reason message) ;;;
  on_client (with_connected false) ;;;
  close_stream ;;;
  let* w := get in
  when (negb (closing_ (client w)) && negb (auth_resolved_ (client w)))
    (fail_handshake "Connection closed during protocol handshake") ;;;
  let* w := get in
  when (negb (closing_ (client w)) && negb (kicked_ (client w)) && negb (banned_ (client w))
        && auth_ok_ (client w))
    (say "[system] disconnected").

Definition handle_challenge (challenge : string) : M ClientWorld unit :=
  let* w := get in
  match identity_ (client w) with
  | Some identity => send (Client.IdentityProof (sign_identity_challenge identity challenge))
  | None => fail_join "Identity challenge could not be answered"
  end.

Definition handle_kick (reason : string) : M ClientWorld unit :=
  on_client (with_kicked true) ;;;
  on_client (with_kick_reason reason) ;;;
  say ("[system] You have been kicked" +:+ (if sempty reason then "" else ": " +:+ reason)) ;;;
  on_app mark_kicked.

Definition room_line (current : RoomId) (room : RoomSummary) : string :=
  "[system]   " +:+ (if (summary_id room =? current)%N then "* " else "- ")
  +:+ summary_name room +:+ " (" +:+ to_string (summary_user_count room) +:+ ")".

Definition handle_room_list (rooms : list RoomSummary) : M ClientWorld unit :=
  on_app (update_room_list rooms) ;;;
  let* w := get in
  on_client (with_room_list_requested false) ;;;
  when (room_list_requested_ (client w))
    (say "[system] Available rooms:" ;;;
     for_each rooms (fun room => say (room_line (active_room_id (app w)) room))).

Definition handle_room_topic (id : RoomId) (topic : string) : M ClientWorld unit :=
  on_app (update_room_topic id topic) ;;;
  let* w := get in
  when (id =? active_room_id (app w))%N
    (say ("[system] Topic: " +:+ (if sempty topic then "(none)" else topic))).

Definition handle_room_text (id : RoomId) (body : string) : M ClientWorld unit :=
  let* w := get in
  when (id =? active_room_id (app w))%N (say body).

(** The messages after the handshake. *)
Definition handle_server_message (message : Server.message) : M ClientWorld unit :=
  match message with
  | Server.Hello version => on_client (with_protocol_negotiated (version =? VERSION)%N)
  | Server.AuthRequired => on_client (with_auth_required true)
  | Server.AuthAccepted => set_auth true
  | Server.AuthRejected =>
      set_auth false ;;;
      say "[system] Wrong password - disconnected"
  | Server.JoinAccepted => on_client (with_join_resolved true)
  | Server.Challenge challenge => handle_challenge challenge
  | Server.IdentityAccepted fingerprint => say ("[system] Identity verified: " +:+ fingerprint)
  | Server.Banned =>
      on_client (with_banned true) ;;;
      on_client (with_join_resolved true) ;;;
      say "[system] You are banned from this server"
  | Server.NicknameTaken =>
      on_client (with_nickname_taken true) ;;;
      on_client (with_join_resolved true) ;;;
      say "[system] Nickname is already in use"
  | Server.JoinRejected reason =>
      fail_join reason ;;;
      say ("[system] Join failed: " +:+ reason)
  | Server.Kick _ reason => handle_kick reason
  | Server.UserList id nicknames => on_app (update_room_users id nicknames)
  | Server.RoomList rooms => handle_room_list rooms
  | Server.RoomJoined id name topic =>
      on_app (activate_room id name topic) ;;;
      say ("[system] Entered #" +:+ name +:+ (if sempty topic then "" else " - " +:+ topic))
  | Server.RoomTopic id topic => handle_room_topic id topic
  | Server.RoomText id body => handle_room_text id body
  | Server.Text body => say body
  | Server.ServerError reason => say ("[system] " +:+ reason)
  end.

Definition is_hello (message : Server.message) : bool :=
  match message with Server.Hello _ => true | _ => false end.

(** The callback of a read that delivered a line. *)
Definition on_line (line : string) : M ClientWorld unit :=
  on_client (with_reading false) ;;;
  let parsed := decode_server_frame line in
  match value parsed with
  | None =>
      say ("[system] Ignored invalid server frame: " +:+ detail parsed) ;;;
      match error parsed with
      | UnsupportedVersion =>
          fail_handshake (detail parsed) ;;;
          close
      | _ => read_loop
      end
  | Some message =>
      let* w := get in
      if negb (is_hello message) && negb (protocol_negotiated_ (client w)) then
        fail_handshake "Server did not complete the protocol handshake" ;;;
        say "[system] Server did not complete the protocol handshake" ;;;
        close
      else
        handle_server_message message ;;;
        read_loop
  end.
End chat_client.
