(* ===== verification/ClientProperties.v ===== *)
(** The client as a transition system, and what it promises: no application data
    before the certificate was accepted, and connecting that always ends, with one
    call of its callback. *)

From S2P Require Import Prelude Frame Message Utils AppState Tls ChatClient.
Local Open Scope string_scope.
Local Open Scope chat_scope.

(* ===================================================================== *)
(** * Events *)

Section client_steps.
Context `{OpenSSL} `{Platform} `{Sodium} `{Disk}.

(** Calls of the interface, completions of pending operations, posted closures. *)
Inductive Event :=
| Connect (host : string) (port : N)
| CancelConnect
| DeadlineOver (attempt : nat) (generation : N) (cancelled : bool)
| Resolved (attempt : nat) (host : string) (port : N) (error : option string)
| TcpDone (attempt : nat) (host : string) (port : N) (error : option (bool * string))
    (server_name_error : option string)
| HandshakeDone (attempt : nat) (host : string) (port : N) (error : option string) (handle : SSL)
| LineRead (line : string)
| ReadFailed (message : string)
| WriteDone
| WriteFailed (aborted : bool) (message : string)
| TaskRuns (t : Task)
| CallSend (msg : Client.message)
| CallIdentify (nick : string)
| CallRequestRooms
| CallClose
| CallSetIdentity (identity : ClientIdentity).

Definition perform (e : Event) : M ClientWorld unit :=
  match e with
  | Connect host port => async_connect host port
  | CancelConnect => cancel_connect
  | DeadlineOver attempt generation cancelled => on_deadline attempt generation cancelled
  | Resolved attempt host port error => on_resolved attempt host port error
  | TcpDone attempt host port error name_error => on_connected attempt host port error name_error
  | HandshakeDone attempt host port error handle => on_handshake attempt host port error handle
  | LineRead line => on_line line
  | ReadFailed message => on_read_error message
  | WriteDone => on_written
  | WriteFailed aborted message => on_write_error aborted message
  | TaskRuns t => run_task t
  | CallSend msg => send msg
  | CallIdentify nick => identify nick
  | CallRequestRooms => request_rooms
  | CallClose => close
  | CallSetIdentity identity => set_identity identity
  end.

(** The pending operation an event completes. *)
Definition completes (e : Event) : option Pending :=
  match e with
  | DeadlineOver attempt generation _ => Some (Deadline attempt generation)
  | Resolved attempt host port _ => Some (Resolving attempt host port)
  | TcpDone attempt host port _ _ => Some (ConnectingTcp attempt host port)
  | HandshakeDone attempt host port _ _ => Some (Handshaking attempt host port)
  | _ => None
  end.

(** When an event can happen. A wait for the deadline ends early only when the
    deadline has been moved or the attempt is over. *)
Definition allowed (e : Event) (w : ClientWorld) : Prop :=
  match e with
  | LineRead _ | ReadFailed _ => reading (client w) = true
  | WriteDone | WriteFailed _ _ => write_pending (client w) = true
  | DeadlineOver attempt generation true =>
      connecting_ (client w) = false \/ attempt_lifetime_ (client w) <> Some attempt \/
      generation <> deadline_generation_ (client w)
  | _ => True
  end.

(** The world without what the event uses up: a pending operation, or the first
    posted closure. *)
Inductive consumes (w : ClientWorld) : Event -> ClientWorld -> Prop :=
| consumes_pending e p before after :
    completes e = Some p -> pending w = (before ++ p :: after)%list ->
    consumes w e (put_pending (before ++ after)%list w)
| consumes_task t rest : tasks w = t :: rest -> consumes w (TaskRuns t) (put_tasks rest w)
| consumes_nothing e : completes e = None -> (forall t, e <> TaskRuns t) -> consumes w e w.

Inductive step (w : ClientWorld) (e : Event) : ClientWorld -> Prop :=
| do_step w1 : allowed e w -> consumes w e w1 -> step w e (perform e w1).2.

(** An execution, with the state before each event. *)
Inductive runs (w0 : ClientWorld) : list (ClientWorld * Event) -> ClientWorld -> Prop :=
| runs_start : runs w0 [] w0
| runs_step tr w e w' : runs w0 tr w -> step w e w' -> runs w0 (tr ++ [(w, e)]) w'.

(** The blocking [connect]: events are handled until the callback has been called. *)
Inductive connect (host : string) (port : N) (w : ClientWorld) : bool -> ClientWorld -> Prop :=
| connect_done tr w' result :
    runs (async_connect host port w).2 tr w' -> (attempts w, result) ∈ completions w' ->
    connect host port w result w'.
End client_steps.

(* ===================================================================== *)
(** * The connection as a state machine *)

(** What of the client belongs to connecting. *)
Record Connection := MkConnection {
  trying : bool;
  lifetime : option nat;
  callback : option nat;
  generation : N;
  outcome : ConnectionFailure;
  started : nat;
  called : list (nat * bool);
  waiting : list Pending;
}.

Definition connection (w : ClientWorld) : Connection :=
  MkConnection (connecting_ (client w)) (attempt_lifetime_ (client w)) (connect_completed_ (client w))
    (deadline_generation_ (client w)) (connection_failure_ (client w)) (attempts w) (completions w)
    (pending w).

Definition succeeded (failure : ConnectionFailure) : bool :=
  match failure with NoFailure => true | _ => false end.

(** The moves: a new attempt, the next phase, the end. *)
Definition begin_attempt (host : string) (port : N) (c : Connection) : Connection :=
  let a := started c in
  let g := u64 (generation c + 1) in
  MkConnection true (Some a) (Some a) g NoFailure (S a) (called c)
    (waiting c ++ [Deadline a g; Resolving a host port]).
Definition next_phase (a : nat) (next : list Pending) (c : Connection) : Connection :=
  let g := u64 (generation c + 1) in
  MkConnection (trying c) (lifetime c) (callback c) g (outcome c) (started c) (called c)
    (waiting c ++ Deadline a g :: next).
Definition finish (failure : ConnectionFailure) (c : Connection) : Connection :=
  MkConnection false None None (generation c) failure (started c)
    (called c ++ match callback c with Some a => [(a, succeeded failure)] | None => [] end)
    (waiting c).

(** What remains to be said of an event besides the operation it completes. *)
Inductive move (c : Connection) : Connection -> Prop :=
| move_none : move c c
| move_begin host port : move c (begin_attempt host port c)
| move_next a next : trying c = true -> lifetime c = Some a -> move c (next_phase a next c)
| move_finish failure : trying c = true -> move c (finish failure c)
| move_next_finish a failure : trying c = true -> lifetime c = Some a ->
    move c (finish failure (next_phase a [] c)).

(** Every attempt calls its callback at most once, and only the last can be under
    way; once it is over its callback has been called, with its outcome. *)
Record connection_ok (c : Connection) : Prop := {
  trying_last : trying c = true ->
    exists a, started c = S a /\ lifetime c = Some a /\ callback c = Some a /\ a ∉ (called c).*1;
  idle_called : trying c = false ->
    lifetime c = None /\ callback c = None /\
    forall a, started c = S a -> exists before, called c = (before ++ [(a, succeeded (outcome c))])%list;
  called_once : NoDup (called c).*1;
  called_started : forall a, a ∈ (called c).*1 -> a < started c;
}.

(** While an attempt is under way its current deadline is waited for. *)
Definition armed (c : Connection) : Prop :=
  trying c = true -> forall a, lifetime c = Some a -> Deadline a (generation c) ∈ waiting c.

Lemma finish_ok failure c : trying c = true -> connection_ok c -> connection_ok (finish failure c).
Proof.
  intros Ht [Htry _ Honce Hstart]. destruct (Htry Ht) as (a & Ha & Hl & Hc & Hn).
  unfold finish. rewrite Hc. split; cbn; [done| | |].
  - intros _. split; [done|]. split; [done|]. intros a' Ha'. exists (called c). congruence.
  - rewrite fmap_app. apply list.NoDup_app. split; [done|]. split; [|apply NoDup_singleton].
    intros x Hx ->%list_elem_of_singleton. done.
  - intros x. rewrite fmap_app, elem_of_app. cbn. rewrite list_elem_of_singleton.
    intros [Hx| ->]; [auto|lia].
Qed.

Lemma next_phase_ok a next c : connection_ok c -> connection_ok (next_phase a next c).
Proof. intros [H1 H2 H3 H4]. split; [exact H1|exact H2|exact H3|exact H4]. Qed.

Lemma begin_ok host port c : connection_ok c -> connection_ok (begin_attempt host port c).
Proof.
  intros [H1 H2 H3 H4]. split; cbn; [|done|done|].
  - intros _. exists (started c). split; [done|]. split; [done|]. split; [done|].
    intros Hc. specialize (H4 _ Hc). lia.
  - intros a Ha. specialize (H4 a Ha). lia.
Qed.

Lemma move_ok c c' : move c c' -> connection_ok c -> connection_ok c'.
Proof.
  intros []; intros Hc; auto using begin_ok, next_phase_ok, finish_ok.
Qed.

Lemma move_armed c c' : move c c' -> armed c -> armed c'.
Proof.
  unfold armed. intros []; cbn; try done.
  - intros _ _ a [= <-]. set_solver.
  - intros _ _ a' Ha'. assert (a' = a) as -> by congruence. set_solver.
Qed.

(** What does not connect leaves the connection alone. *)
Lemma frames_client {B} (p : ClientWorld -> B) f :
  (forall w, p (put_client (f (client w)) w) = p w) -> frames p (on_client f).
Proof. intros Hf w. apply Hf. Qed.
Lemma frames_connection_app f : frames connection (on_app f).
Proof. done. Qed.
Lemma frames_connection_say text : frames connection (say text).
Proof. done. Qed.
Lemma frames_connection_post t : frames connection (post t).
Proof. done. Qed.
#[export] Hint Resolve frames_connection_app frames_connection_say frames_connection_post : chat_frames.

Ltac frames_client_tac :=
  frames_tac; try (apply frames_client; intros; reflexivity).

Lemma frames_connection_send msg : frames connection (send msg).
Proof. unfold send. frames_client_tac. Qed.
#[export] Hint Resolve frames_connection_send : chat_frames.
Lemma frames_connection_fail_join reason : frames connection (fail_join reason).
Proof. unfold fail_join. frames_client_tac. Qed.
#[export] Hint Resolve frames_connection_fail_join : chat_frames.
Lemma frames_connection_fail_handshake reason : frames connection (fail_handshake reason).
Proof. unfold fail_handshake, set_auth. frames_client_tac. Qed.
#[export] Hint Resolve frames_connection_fail_handshake : chat_frames.
Lemma frames_connection_close : frames connection close.
Proof. unfold close. frames_client_tac. Qed.
Lemma frames_connection_run_task t : frames connection (run_task t).
Proof. unfold run_task, close_stream, write_next. frames_client_tac. Qed.
Lemma frames_connection_written : frames connection on_written.
Proof. unfold on_written, write_next. frames_client_tac. Qed.
Lemma frames_connection_write_error aborted message : frames connection (on_write_error aborted message).
Proof. unfold on_write_error, close_stream. frames_client_tac. Qed.
Lemma frames_connection_read_error message : frames connection (on_read_error message).
Proof. unfold on_read_error, close_stream. frames_client_tac. Qed.
Lemma frames_connection_identify nick : frames connection (identify nick).
Proof. unfold identify. frames_client_tac. Qed.
Lemma frames_connection_rooms : frames connection request_rooms.
Proof. unfold request_rooms. frames_client_tac. Qed.
#[export] Hint Resolve frames_connection_close frames_connection_run_task frames_connection_written
  frames_connection_write_error frames_connection_read_error frames_connection_identify
  frames_connection_rooms : chat_frames.

Lemma frames_connection_message `{Sodium} message : frames connection (handle_server_message message).
Proof.
  unfold handle_server_message, set_auth, handle_challenge, handle_kick, handle_room_list,
    handle_room_topic, handle_room_text.
  frames_client_tac.
Qed.
#[export] Hint Resolve frames_connection_message : chat_frames.
Lemma frames_connection_line `{Sodium} line : frames connection (on_line line).
Proof. unfold on_line, read_loop. frames_client_tac. Qed.
#[export] Hint Resolve frames_connection_line : chat_frames.

(** The callback is called and forgotten. *)
Definition call_back (r : bool) (c : Connection) : Connection :=
  MkConnection (trying c) (lifetime c) None (generation c) (outcome c) (started c)
    (called c ++ match callback c with Some a => [(a, r)] | None => [] end) (waiting c).

Lemma connection_called r w : connection (call_completed r w).2 = call_back r (connection w).
Proof.
  unfold call_completed, call_back. cbn. destruct (connect_completed_ (client w)); [done|].
  unfold connection. cbn. by rewrite app_nil_r.
Qed.

Lemma connection_finish failure error w :
  connecting_ (client w) = true ->
  connection (finish_connect failure error w).2 = finish failure (connection w).
Proof.
  intros Hc. unfold finish_connect. rewrite !bind_snd. cbn [get fst snd]. rewrite Hc. cbn [negb].
  rewrite !bind_snd. cbn [on_client modify fst snd].
  assert (forall (m : M ClientWorld unit) w0, frames connection m -> connection (call_completed (succeeded failure) (m w0).2).2
    = connection (call_completed (succeeded failure) w0).2) as Hframe.
  { intros m w0 Hm. by rewrite !connection_called, Hm. }
  destruct failure; cbn [succeeded] in *; rewrite ?bind_snd; try (by rewrite connection_called).
  rewrite Hframe by frames_client_tac. rewrite (Hframe (send _)) by auto with chat_frames.
  by rewrite connection_called.
Qed.

Lemma move_finish_connect failure error w :
  move (connection w) (connection (finish_connect failure error w).2).
Proof.
  destruct (connecting_ (client w)) eqn:E.
  - rewrite connection_finish by done. by apply move_finish.
  - unfold finish_connect. rewrite bind_snd. cbn [get fst snd]. rewrite E. apply move_none.
Qed.

Lemma stale_false w a :
  stale w a = false -> connecting_ (client w) = true /\ attempt_lifetime_ (client w) = Some a.
Proof. unfold stale. intros Hs. bool_split. done. Qed.

Lemma connection_armed w a :
  attempt_lifetime_ (client w) = Some a ->
  connection (arm_deadline w).2 = next_phase a [] (connection w).
Proof. intros Ha. unfold arm_deadline. rewrite bind_snd. cbn. by rewrite Ha. Qed.

(** A phase is entered by moving the deadline, then starting its operation. *)
Lemma connection_phase p a w :
  attempt_lifetime_ (client w) = Some a ->
  connection ((arm_deadline ;;; start p) w).2 = next_phase a [p] (connection w).
Proof.
  intros Ha. rewrite bind_snd.
  assert (forall w1, connection w1 = next_phase a [] (connection w) ->
    connection (start p w1).2 = next_phase a [p] (connection w)) as Hstart.
  { intros w1 E. transitivity (MkConnection (trying (connection w1)) (lifetime (connection w1))
      (callback (connection w1)) (generation (connection w1)) (outcome (connection w1))
      (started (connection w1)) (called (connection w1)) (waiting (connection w1) ++ [p])); [done|].
    rewrite E. unfold next_phase. cbn [waiting]. by rewrite <- app_assoc. }
  apply Hstart. by apply connection_armed.
Qed.

Section refinement.
Context `{OpenSSL} `{Platform} `{Sodium} `{Disk}.

Lemma move_resolved a host port error w :
  move (connection w) (connection (on_resolved a host port error w).2).
Proof.
  unfold on_resolved. rewrite bind_snd. cbn [get fst snd].
  destruct (stale w a) eqn:Es; [apply move_none|]. apply stale_false in Es as [Hc Ha].
  destruct error as [message|]; [apply move_finish_connect|].
  rewrite bind_snd. rewrite (connection_phase _ a) by done. by apply (move_next (connection w) a).
Qed.

Lemma move_tcp a host port error name_error w :
  move (connection w) (connection (on_connected a host port error name_error w).2).
Proof.
  unfold on_connected. rewrite bind_snd. cbn [get fst snd].
  destruct (stale w a) eqn:Es; [apply move_none|]. apply stale_false in Es as [Hc Ha].
  destruct error as [[refused message]|]; [apply move_finish_connect|].
  rewrite bind_snd. set (w0 := (on_client (with_stream_open true) w).2).
  destruct (negb _); [apply (move_finish_connect NoFailure "" w0)|].
  rewrite bind_snd. set (w1 := (on_client _ _).2).
  assert (attempt_lifetime_ (client w1) = Some a) as Ha1 by done.
  destruct name_error as [what|].
  - rewrite bind_snd. assert (connection (arm_deadline w1).2 = next_phase a [] (connection w)) as E
      by by rewrite (connection_armed w1 a).
    rewrite connection_finish; [rewrite E; by apply move_next_finish|].
    change (trying (connection (arm_deadline w1).2) = true). by rewrite E.
  - rewrite (connection_phase _ a) by done. by apply (move_next (connection w) a).
Qed.

Lemma move_handshake a host port error handle w :
  move (connection w) (connection (on_handshake a host port error handle w).2).
Proof.
  unfold on_handshake. rewrite bind_snd. cbn [get fst snd].
  destruct (stale w a); [apply move_none|].
  destruct error as [message|]; [apply move_finish_connect|].
  destruct (verify_peer _ _ _ _ _) as [[verdict|] files']; rewrite bind_snd; [|apply move_none].
  destruct (negb (accepted verdict)); [apply (move_finish_connect TlsFailure _ (put_files files' w))|].
  rewrite bind_snd. set (w1 := (when _ _ _).2).
  replace (connection w) with (connection w1); [apply move_finish_connect|].
  subst w1. by destruct (negb (sempty (notice verdict))).
Qed.

Lemma connection_connect host port w :
  connection (async_connect host port w).2 = begin_attempt host port (connection w).
Proof.
  symmetry. unfold async_connect. rewrite !bind_snd. cbn [get fst snd].
  set (w1 := (on_client (with_connection_phase _) _).2).
  assert (attempt_lifetime_ (client w1) = Some (attempts w)) as Ha by done.
  rewrite <- (bind_snd arm_deadline (fun _ => start (Resolving (attempts w) host port)) w1).
  by rewrite (connection_phase _ (attempts w)).
Qed.
Lemma move_connect host port w :
  move (connection w) (connection (async_connect host port w).2).
Proof. rewrite connection_connect. apply move_begin. Qed.

(** Every event of the client is a move of the connection, after the operation it
    completes has left the list of the pending ones. *)
Lemma perform_move e w : move (connection w) (connection (perform e w).2).
Proof.
  assert (forall m : M ClientWorld unit, frames connection m -> move (connection w) (connection (m w).2))
    as Hframe by (intros m Hm; rewrite Hm; apply move_none).
  destruct e; cbn [perform]; auto with chat_frames.
  - apply move_connect.
  - unfold cancel_connect. rewrite bind_snd. cbn [get fst snd].
    destruct (connecting_ (client w)); [apply move_finish_connect|apply move_none].
  - unfold on_deadline. rewrite bind_snd. cbn [get fst snd].
    destruct (_ && _)%bool; [apply move_finish_connect|apply move_none].
  - apply move_resolved.
  - apply move_tcp.
  - apply move_handshake.
Qed.

(* ===================================================================== *)
(** * Connecting ends *)

Lemma consumes_connection w e w1 :
  consumes w e w1 -> connection_ok (connection w) -> connection_ok (connection w1).
Proof. by intros [] []. Qed.

Lemma elem_of_removed {A} (x y : A) (before after : list A) :
  x ∈ (before ++ y :: after)%list -> x <> y -> x ∈ (before ++ after)%list.
Proof. rewrite !elem_of_app, elem_of_cons. tauto. Qed.

Lemma consumes_armed w e w1 :
  consumes w e w1 -> armed (connection w) ->
  (forall a, connecting_ (client w) = true -> attempt_lifetime_ (client w) = Some a ->
     completes e <> Some (Deadline a (deadline_generation_ (client w)))) ->
  armed (connection w1).
Proof.
  intros Hc Harmed Hne. destruct Hc as [e' p before after Hp Hw| |]; [|exact Harmed..].
  intros Ht a Ha. specialize (Harmed Ht a Ha). specialize (Hne a Ht Ha).
  cbn in *. rewrite Hw in Harmed. eapply elem_of_removed; [done|congruence].
Qed.

(** The deadline of the current phase ends the attempt. *)
Lemma deadline_over w a :
  connecting_ (client w) = true -> attempt_lifetime_ (client w) = Some a ->
  connection (perform (DeadlineOver a (deadline_generation_ (client w)) false) w).2
    = finish Timeout (connection w).
Proof.
  intros Ht Ha. cbn [perform]. unfold on_deadline. rewrite bind_snd. cbn [get fst snd].
  unfold stale. rewrite bool_decide_true, Ht, N.eqb_refl by done. by apply connection_finish.
Qed.

Lemma step_connection w e w' :
  step w e w' -> connection_ok (connection w) /\ armed (connection w) ->
  connection_ok (connection w') /\ armed (connection w').
Proof.
  intros [w1 Hallowed Hc] [Hok Harmed].
  split; [eapply move_ok; [apply perform_move|]; by eapply consumes_connection|].
  destruct (connecting_ (client w)) eqn:Et.
  2:{ eapply move_armed; [apply perform_move|]. eapply consumes_armed; [done|done|congruence]. }
  destruct (trying_last _ Hok Et) as (a & _ & Ha & _).
  destruct (decide (completes e = Some (Deadline a (deadline_generation_ (client w))))) as [Ee|Ee].
  - destruct e; inversion Ee; subst. destruct cancelled.
    { destruct Hallowed as [|[|]]; [congruence|by destruct H3|done]. }
    assert (client w1 = client w) as Ew by by destruct Hc.
    rewrite <- Ew. rewrite deadline_over; [|by rewrite Ew..]. by unfold armed.
  - eapply move_armed; [apply perform_move|]. eapply consumes_armed; [done..|].
    intros a' _ Ha'. by replace a' with a by (cbn in Ha; congruence).
Qed.

Lemma runs_connection config app0 files0 tr w :
  runs (new_client config app0 files0) tr w -> connection_ok (connection w) /\ armed (connection w).
Proof.
  induction 1 as [|tr w e w' _ IH Hs]; [|by eapply step_connection].
  split; [|done]. split; cbn; [done| |constructor|set_solver]. by intros _.
Qed.

(** The pending deadline fires: the attempt ends as a timeout. *)
Lemma deadline_fires w a : armed (connection w) -> connecting_ (client w) = true -> attempt_lifetime_ (client w) = Some a ->
  exists w', step w (DeadlineOver a (deadline_generation_ (client w)) false) w' /\
    connecting_ (client w') = false /\ connection_failure_ (client w') = Timeout /\
    completions w' = (completions w ++ match connect_completed_ (client w) with Some a => [(a, false)] | None => [] end)%list.
Proof.
  intros Harmed Et Ha. specialize (Harmed Et a Ha). apply list_elem_of_split in Harmed as (before & after & Hw).
  set (w1 := put_pending (before ++ after)%list w).
  pose proof (deadline_over w1 a Et Ha) as Hd.
  eexists. split.
  { econstructor; [done|]. by apply (consumes_pending w _ (Deadline a (deadline_generation_ (client w))) before after). }
  fold w1. change (deadline_generation_ (client w1)) with (deadline_generation_ (client w)) in Hd.
  revert Hd. cbn [perform]. generalize (on_deadline a (deadline_generation_ (client w)) false w1).2.
  intros w2 Hd. split; [exact (f_equal trying Hd)|]. split; [exact (f_equal outcome Hd)|]. exact (f_equal called Hd).
Qed.


(* ===================================================================== *)
(** * Nothing is sent before the certificate is accepted *)

(** A client that has sent nothing and is about to send nothing. *)
Record silent (config : ClientConfig) (w : ClientWorld) : Prop := {
  silent_config : tls_config_ (client w) = config;
  silent_connected : connected_ (client w) = false;
  silent_queue : write_queue_ (client w) = [];
  silent_sent : sent (client w) = [];
  silent_tasks : Forall (fun t => t = TaskClose) (tasks w);
}.

Section silence.
Context (config : ClientConfig).

Lemma keeps_silent_client f :
  (forall c, tls_config_ (f c) = tls_config_ c) ->
  (forall c, connected_ c = false -> connected_ (f c) = false) ->
  (forall c, write_queue_ (f c) = write_queue_ c) -> (forall c, sent (f c) = sent c) ->
  keeps (silent config) (on_client f).
Proof. intros H3 H4 H5 H6 w []. split; cbn; by rewrite ?H3, ?H4, ?H5, ?H6. Qed.
Lemma keeps_silent_app f : keeps (silent config) (on_app f).
Proof. by intros w []. Qed.
Lemma keeps_silent_say text : keeps (silent config) (say text).
Proof. by intros w []. Qed.
Lemma keeps_silent_start p : keeps (silent config) (start p).
Proof. by intros w []. Qed.
Lemma keeps_silent_post_close : keeps (silent config) (post TaskClose).
Proof. intros w []. split; cbn; [done..|]. apply Forall_app. by repeat constructor. Qed.

Lemma keeps_silent_send msg : keeps (silent config) (send msg).
Proof.
  intros w Hw. unfold send. rewrite bind_snd. cbn [get fst snd].
  by rewrite (silent_connected _ _ Hw).
Qed.
End silence.
#[local] Hint Resolve keeps_silent_app keeps_silent_say keeps_silent_start keeps_silent_post_close
  keeps_silent_send : chat_keeps.

Ltac silent_tac :=
  keeps_tac; try (apply keeps_silent_client; done); try (intros ? []; split; done).

Lemma keeps_silent_finish config failure message :
  failure <> NoFailure -> keeps (silent config) (finish_connect failure message).
Proof.
  intros Hf. unfold finish_connect, close_stream, call_completed.
  destruct failure; [done|..]; silent_tac.
Qed.
Lemma keeps_silent_arm config : keeps (silent config) arm_deadline.
Proof. unfold arm_deadline. silent_tac. Qed.
Lemma keeps_silent_fail_join config reason : keeps (silent config) (fail_join reason).
Proof. unfold fail_join. silent_tac. Qed.
Lemma keeps_silent_close config : keeps (silent config) close.
Proof. unfold close. silent_tac. Qed.
#[local] Hint Resolve keeps_silent_arm keeps_silent_fail_join keeps_silent_close : chat_keeps.
Lemma keeps_silent_fail_handshake config reason : keeps (silent config) (fail_handshake reason).
Proof. unfold fail_handshake, set_auth. silent_tac. Qed.
#[local] Hint Resolve keeps_silent_fail_handshake : chat_keeps.

Lemma keeps_silent_line config line : keeps (silent config) (on_line line).
Proof.
  unfold on_line, read_loop, handle_server_message, set_auth, handle_challenge, handle_kick,
    handle_room_list, handle_room_topic, handle_room_text.
  silent_tac.
Qed.

Lemma keeps_silent_task config t w :
  t = TaskClose -> silent config w -> silent config (run_task t w).2.
Proof.
  intros -> Hw. cbn [run_task]. revert w Hw.
  change (keeps (silent config) (on_client (with_connected false) ;;; close_stream)).
  unfold close_stream. silent_tac.
Qed.

Lemma keeps_silent_written config : keeps (silent config) on_written.
Proof.
  intros w Hw. unfold on_written. rewrite !bind_snd. cbn [get fst snd].
  change (write_queue_ (client (on_client (with_write_pending false) w).2))
    with (write_queue_ (client w)).
  rewrite (silent_queue _ _ Hw). by destruct Hw.
Qed.

Lemma keeps_silent_connected config attempt host port error name_error :
  enabled config = true ->
  keeps (silent config) (on_connected attempt host port error name_error).
Proof.
  intros He w Hw. unfold on_connected. rewrite bind_snd. cbn [get fst snd].
  destruct (stale w attempt); [done|].
  destruct error as [[refused message]|]; [apply keeps_silent_finish; by destruct refused|].
  rewrite (silent_config _ _ Hw), He. cbn [negb]. revert w Hw.
  match goal with |- forall w, _ -> silent config (?m w).2 => change (keeps (silent config) m) end.
  silent_tac. by apply keeps_silent_finish.
Qed.

(** Everything but an accepted handshake leaves a TLS client silent. *)
Lemma perform_silent config e w :
  enabled config = true -> (forall t, e = TaskRuns t -> t = TaskClose) ->
  (forall attempt host port error handle, e <> HandshakeDone attempt host port error handle) ->
  silent config w -> silent config (perform e w).2.
Proof.
  intros He Ht Hh. destruct e; cbn [perform]; revert w;
    try match goal with |- forall w, _ -> silent config (?m w).2 => change (keeps (silent config) m) end.
  - unfold async_connect. silent_tac.
  - unfold cancel_connect. silent_tac. by apply keeps_silent_finish.
  - unfold on_deadline. silent_tac. by apply keeps_silent_finish.
  - unfold on_resolved. silent_tac; try by apply keeps_silent_finish.
  - by apply keeps_silent_connected.
  - by destruct (Hh attempt host port error handle).
  - apply keeps_silent_line.
  - unfold on_read_error, close_stream. silent_tac.
  - apply keeps_silent_written.
  - unfold on_write_error, close_stream. silent_tac.
  - intros w. apply keeps_silent_task. by apply Ht.
  - apply keeps_silent_send.
  - unfold identify. silent_tac.
  - unfold request_rooms. silent_tac.
  - apply keeps_silent_close.
  - unfold set_identity. silent_tac.
Qed.

(** A handshake of the execution whose certificate [verify_peer] accepted. *)
Definition certificate_accepted (config : ClientConfig) (tr : list (ClientWorld * Event)) : Prop :=
  exists w attempt host port handle verdict files',
    (w, HandshakeDone attempt host port None handle) ∈ tr /\
    verify_peer (files w) handle host port config = (Returned verdict, files') /\
    accepted verdict = true.

Lemma handshake_silent config attempt host port error handle w :
  silent config w ->
  silent config (on_handshake attempt host port error handle w).2 \/
  error = None /\ exists verdict files',
    verify_peer (files w) handle host port config = (Returned verdict, files') /\
    accepted verdict = true.
Proof.
  intros Hw. unfold on_handshake. rewrite bind_snd. cbn [get fst snd].
  destruct (stale w attempt); [by left|].
  destruct error as [message|]; [left; by apply keeps_silent_finish|].
  rewrite (silent_config _ _ Hw).
  destruct (verify_peer _ _ _ _ _) as [[verdict|] files']; [|left; by destruct Hw].
  destruct (accepted verdict) eqn:Ea; [right; by eauto|]. left. rewrite bind_snd. cbn [negb].
  apply keeps_silent_finish; [done|]. by destruct Hw.
Qed.

Lemma consumes_silent config w e w1 :
  consumes w e w1 -> silent config w ->
  silent config w1 /\ files w1 = files w /\ forall t, e = TaskRuns t -> t = TaskClose.
Proof.
  intros Hc [H3 H4 H5 H6 H7]. destruct Hc as [e' p before after Hp Hw|t rest Hw|e' Hp Ht].
  - split; [by split|]. split; [done|]. by intros t ->.
  - rewrite Hw in H7. inversion H7; subst. split; [by split|]. split; [done|]. by intros t [= <-].
  - split; [by split|]. split; [done|]. by intros t Ee%Ht.
Qed.

(** C12: no application data before trust. In every execution of a client with TLS, as
    long as [verify_peer] has not accepted the certificate of a handshake of this
    execution, the client is not connected, has written nothing, has queued nothing
    and has posted nothing to be sent: no password, nickname or message leaves it. *)
Theorem silent_until_accepted config app0 files0 tr w :
  enabled config = true -> runs (new_client config app0 files0) tr w ->
  certificate_accepted config tr \/
  (connected_ (client w) = false /\ sent (client w) = [] /\ write_queue_ (client w) = [] /\
   forall wire, TaskSend wire ∉ tasks w).
Proof.
  intros He Hr. assert (certificate_accepted config tr \/ silent config w) as [Ha|Hs].
  { induction Hr as [|tr w e w' _ IH [w1 _ Hc]]; [right; by split|].
    destruct IH as [(w0 & a & h & p & s & v & f & Hin & Hv)|Hs].
    - left. exists w0, a, h, p, s, v, f. split; [|done]. apply elem_of_app. by left.
    - destruct (consumes_silent _ _ _ _ Hc Hs) as (Hs1 & Hf & Ht).
      destruct e; try (right; by apply perform_silent).
      destruct (handshake_silent config attempt host port error handle w1 Hs1)
        as [Hq|(-> & v & f & Hv & Hok)]; [by right|].
      left. exists w, attempt, host, port, handle, v, f. rewrite <- Hf. split; [|done].
      apply elem_of_app. right. by apply list_elem_of_singleton. }
  - by left.
  - right. destruct Hs as [H3 H4 H5 H6 H7]. split; [done|]. split; [done|]. split; [done|].
    intros wire Hin. rewrite Forall_forall in H7. specialize (H7 _ (proj1 (list_elem_of_In _ _) Hin)).
    done.
Qed.
End refinement.
