(* ===== verification/ClientEnd.v ===== *)
(** The end of a session of a guest: [finish] of [run_curses_app] in
    [ui/interactive_app.cpp] closes the client, lets the thread run out and joins it.
    Unlike a server ([Shutdown.v]) a client never holds up the thread. *)

From Stdlib Require Import Relation_Operators Wellfounded.
From S2P Require Import Prelude Frame Message Utils AppState Tls ChatClient ClientProperties.
Local Open Scope string_scope.
Local Open Scope chat_scope.

Section client_end.
Context `{OpenSSL} `{Platform} `{Sodium} `{Disk}.

(** What the thread does: the callbacks, but no call of the terminal thread. *)
Definition own_event (e : Event) : bool :=
  match e with
  | DeadlineOver _ _ _ | Resolved _ _ _ _ | TcpDone _ _ _ _ _ | HandshakeDone _ _ _ _ _
  | ReadFailed _ | WriteDone | WriteFailed _ _ | TaskRuns _ => true
  | _ => false
  end.

(** The lines are those the server still sends until the stream is closed. *)
Inductive runs_out : ClientWorld * list string -> ClientWorld * list string -> Prop :=
| out_line w line left w' : step w (LineRead line) w' -> runs_out (w, line :: left) (w', left)
| out_event w left e w' : own_event e = true -> step w e w' -> runs_out (w, left) (w', left).

(** What happens without the server: posted tasks, operations that were cancelled, and
    those on a closed stream. *)
Definition by_itself (w : ClientWorld) (e : Event) : bool :=
  match e with
  | TaskRuns _ | DeadlineOver _ _ true | Resolved _ _ _ (Some _) | TcpDone _ _ _ (Some _) _
  | HandshakeDone _ _ _ (Some _) _ => true
  | ReadFailed _ | WriteFailed true _ => negb (stream_open (client w))
  | _ => false
  end.

(* ===================================================================== *)
(** * A client that was closed *)

Record quiet (w : ClientWorld) : Prop := {
  quiet_closing : closing_ (client w) = true;
  quiet_trying : connecting_ (client w) = false;
  quiet_closed : connected_ (client w) = false /\ stream_open (client w) = false \/ TaskClose ∈ tasks w;
}.

Lemma keeps_quiet_client f :
  (forall c, closing_ c = true -> closing_ (f c) = true) -> (forall c, connecting_ (f c) = connecting_ c) ->
  (forall c, connected_ c = false -> connected_ (f c) = false) ->
  (forall c, stream_open c = false -> stream_open (f c) = false) -> keeps quiet (on_client f).
Proof.
  intros Hc Ht Hn Hs w [Qc Qt Qd]. split; cbn; [auto|by rewrite Ht|].
  destruct Qd as [[? ?]|?]; [left; split; auto|by right].
Qed.
Lemma keeps_quiet_app f : keeps quiet (on_app f).
Proof. by intros w []. Qed.
Lemma keeps_quiet_say text : keeps quiet (say text).
Proof. by intros w []. Qed.
Lemma keeps_quiet_post t : keeps quiet (post t).
Proof. intros w [Qc Qt Qd]. split; [done..|]. destruct Qd as [?|Qd]; [by left|right]. apply elem_of_app. by left. Qed.
Lemma keeps_quiet_send msg : keeps quiet (send msg).
Proof.
  intros w Hq. unfold send. rewrite bind_snd. cbn [get fst snd]. rewrite (quiet_closing _ Hq), orb_true_r. done.
Qed.
#[local] Hint Resolve keeps_quiet_app keeps_quiet_say keeps_quiet_post keeps_quiet_send : chat_keeps.
Ltac quiet_tac := keeps_tac; try (apply keeps_quiet_client; done).

Lemma keeps_quiet_line line : keeps quiet (on_line line).
Proof.
  unfold on_line, read_loop, handle_server_message, set_auth, handle_challenge, handle_kick, fail_handshake, fail_join,
    handle_room_list, handle_room_topic, handle_room_text, set_auth, close.
  quiet_tac.
Qed.

(** Handlers of attempts find that the client does not connect any more. *)
Lemma late_handler e w : quiet w -> own_event e = true -> is_Some (completes e) -> (perform e w).2 = w.
Proof.
  intros Hq He Hc. assert (forall a, stale w a = true) as Hst.
  { intros a. unfold stale. by rewrite (quiet_trying _ Hq), orb_true_r. }
  destruct e; try done; try (by destruct Hc); cbn [perform].
  - unfold on_deadline. rewrite bind_snd. cbn [get fst snd]. by rewrite Hst.
  - unfold on_resolved. rewrite bind_snd. cbn [get fst snd]. by rewrite Hst.
  - unfold on_connected. rewrite bind_snd. cbn [get fst snd]. by rewrite Hst.
  - unfold on_handshake. rewrite bind_snd. cbn [get fst snd]. by rewrite Hst.
Qed.

(** A frame that waited is not sent any more. *)
Lemma late_send wire w : quiet w -> (run_task (TaskSend wire) w).2 = w.
Proof.
  intros Hq. cbn [run_task]. rewrite bind_snd. cbn [get fst snd]. by rewrite (quiet_closing _ Hq), orb_true_r.
Qed.

Lemma quiet_task w t rest : tasks w = t :: rest -> quiet w -> quiet (run_task t (put_tasks rest w)).2.
Proof.
  intros Ht Hq. destruct t as [wire|].
  - assert (quiet (put_tasks rest w)) as Hq'; [|by rewrite late_send].
    destruct Hq as [Qc Qt Qd]. split; [done..|]. rewrite Ht in Qd. destruct Qd as [?|Qd]; [by left|right].
    by apply elem_of_cons in Qd as [?|?].
  - destruct Hq as [Qc Qt Qd]. split; [done..|]. by left.
Qed.

Lemma quiet_perform e w : own_event e = true -> completes e = None -> (forall t, e <> TaskRuns t) ->
  quiet w -> quiet (perform e w).2.
Proof.
  intros He Hc Ht. destruct e; try done; cbn [perform]; try by destruct (Ht t).
  - unfold on_read_error, close_stream, fail_handshake, fail_join, set_auth. revert w. change (keeps quiet (on_read_error message)).
    unfold on_read_error, close_stream, fail_handshake, fail_join, set_auth. quiet_tac.
  - revert w. change (keeps quiet on_written). unfold on_written, write_next. quiet_tac.
  - revert w. change (keeps quiet (on_write_error aborted message)). unfold on_write_error, close_stream. quiet_tac.
Qed.

Lemma quiet_out c c' : runs_out c c' -> quiet c.1 -> quiet c'.1.
Proof.
  intros [w line left w' Hs|w left e w' He Hs] Hq; cbn [fst] in *; destruct Hs as [w1 _ Hc].
  - inversion Hc; subst; [done|]. by apply keeps_quiet_line.
  - inversion Hc as [e' p before after Hp Hw|t rest Ht|e' Hp Ht]; subst; cbn [perform].
    + rewrite late_handler; [|by destruct Hq|done|by eexists]. by destruct Hq.
    + by apply quiet_task.
    + by apply quiet_perform.
Qed.

(* ===================================================================== *)
(** * The end of the thread *)

(** Lines, and everything else that is outstanding. *)
Definition outstanding (w : ClientWorld) : nat :=
  Nat.b2n (reading (client w)) + length (tasks w) + length (pending w)
  + length (write_queue_ (client w)) + Nat.b2n (write_pending (client w)).
Definition left_to_do (c : ClientWorld * list string) : nat * nat := (length c.2, outstanding c.1).
Definition less_to_do : nat * nat -> nat * nat -> Prop := slexprod _ _ lt lt.
Lemma less_to_do_wf : well_founded less_to_do.
Proof. apply wf_slexprod; apply lt_wf. Qed.

Lemma task_outstanding t w : quiet w -> outstanding (run_task t w).2 = outstanding w.
Proof. intros Hq. destruct t; [by rewrite late_send|done]. Qed.

Lemma frames_outstanding_say text : frames outstanding (say text).
Proof. done. Qed.
#[local] Hint Resolve frames_outstanding_say : chat_frames.

Lemma read_error_outstanding message w : reading (client w) = true ->
  (outstanding (on_read_error message w).2 < outstanding w)%nat.
Proof.
  intros Hr. unfold on_read_error. rewrite bind_snd.
  match goal with |- (outstanding (?m ?w1).2 < _)%nat =>
    assert (frames outstanding m) as -> by
      (unfold close_stream, fail_handshake, fail_join, set_auth; frames_client_tac)
  end.
  unfold outstanding. cbn. rewrite Hr. cbn. lia.
Qed.
Lemma written_outstanding w : write_pending (client w) = true -> (outstanding (on_written w).2 < outstanding w)%nat.
Proof.
  intros Hp. unfold on_written. rewrite !bind_snd. cbn [get fst snd].
  change (write_queue_ (client (on_client (with_write_pending false) w).2)) with (write_queue_ (client w)).
  destruct (write_queue_ (client w)) as [|wire rest] eqn:Eq.
  - unfold outstanding. cbn. rewrite Hp, Eq. cbn. lia.
  - rewrite !bind_snd. unfold outstanding. destruct rest; cbn; rewrite Hp, Eq; cbn; lia.
Qed.
Lemma write_error_outstanding aborted message w : write_pending (client w) = true ->
  (outstanding (on_write_error aborted message w).2 < outstanding w)%nat.
Proof.
  intros Hp. unfold on_write_error. rewrite !bind_snd. cbn [get fst snd].
  unfold outstanding. destruct (_ && _)%bool; cbn; rewrite Hp; cbn; lia.
Qed.

Lemma runs_out_less c c' : runs_out c c' -> quiet c.1 -> less_to_do (left_to_do c') (left_to_do c).
Proof.
  intros [w line left w' Hs|w left e w' He Hs] Hq; cbn [fst] in *; [apply left_slex; cbn; lia|].
  apply right_slex. cbn [fst]. destruct Hs as [w1 Ha Hc].
  inversion Hc as [e' p before after Hp Hw|t rest Ht|e' Hp Ht]; subst; cbn [perform].
  - rewrite late_handler; [|by destruct Hq|done|by eexists].
    unfold outstanding. cbn. rewrite Hw, !length_app. cbn. lia.
  - assert (outstanding (run_task t (put_tasks rest w)).2 = outstanding (put_tasks rest w)) as ->.
    { destruct t; [|done]. destruct Hq as [Qc Qt Qd]. unfold run_task. rewrite bind_snd. cbn [get fst snd].
      change (closing_ (client (put_tasks rest w))) with (closing_ (client w)). by rewrite Qc, orb_true_r. }
    unfold outstanding. cbn. rewrite Ht. cbn. lia.
  - destruct e; try done; try (by destruct (Ht t)); cbn [perform].
    + by apply read_error_outstanding.
    + by apply written_outstanding.
    + by apply write_error_outstanding.
Qed.

Lemma runs_out_ends c : quiet c.1 -> sn runs_out c.
Proof.
  remember (left_to_do c) as n eqn:En. revert c En.
  induction (less_to_do_wf n) as [n _ IH]. intros c -> Hq. constructor. intros c' Hr.
  eapply IH; [|done|by eapply quiet_out]. by apply runs_out_less.
Qed.

(** C10: the thread of a guest ends. After [close], once no attempt to connect is under
    way, whatever lines the server still sends and however operations end, only finitely
    many handlers run; and when nothing goes on without the server any more, nothing is
    left: no task, no operation, no read and no write; the client is not connected and
    its stream is closed. So [network_thread.join()] returns, and the client is
    destroyed when no handler refers to it. *)
Theorem closed_client_ends (handle : SSL) (w : ClientWorld) left :
  connecting_ (client w) = false ->
  let w0 := (close w).2 in
  sn runs_out (w0, left) /\
  forall w' left', rtc runs_out (w0, left) (w', left') ->
    (forall e w'', own_event e = true -> by_itself w' e = true -> ~ step w' e w'') ->
    tasks w' = [] /\ pending w' = [] /\ reading (client w') = false /\ write_pending (client w') = false /\
    connected_ (client w') = false /\ stream_open (client w') = false.
Proof.
  intros Hn w0. assert (quiet w0) as Hq.
  { split; [done|done|right]. unfold w0, close. rewrite bind_snd. cbn. apply elem_of_app. right. by left. }
  split; [by apply runs_out_ends|]. intros w' left' Hr Hst.
  assert (forall c c', rtc runs_out c c' -> quiet c.1 -> quiet c'.1) as Hqs by (induction 1; eauto using quiet_out).
  apply (Hqs _ _ Hr) in Hq. cbn [fst] in Hq. clear Hqs Hr w0 Hn.
  assert (tasks w' = []) as Ht.
  { destruct (tasks w') as [|t rest] eqn:E; [done|].
    destruct (Hst (TaskRuns t) _ eq_refl eq_refl (do_step w' (TaskRuns t) _ I (consumes_task _ _ _ E))). }
  destruct (quiet_closed _ Hq) as [[Hc Hs]|Hc]; [|rewrite Ht in Hc; by apply not_elem_of_nil in Hc].
  split_and!; try done.
  - destruct (pending w') as [|p rest] eqn:E; [done|].
    assert (forall e, completes e = Some p -> own_event e = true -> by_itself w' e = true -> allowed e w' -> False) as Hno.
    { intros e Hp He Hb Ha. eapply (Hst e _ He Hb). apply do_step; [exact Ha|].
      by apply (consumes_pending w' e p [] rest). }
    destruct p as [a host port|a host port|a host port|a g]; exfalso.
    + by apply (Hno (Resolved a host port (Some ""))).
    + by apply (Hno (TcpDone a host port (Some (false, "")) None)).
    + by apply (Hno (HandshakeDone a host port (Some "") handle)).
    + apply (Hno (DeadlineOver a g true)); try done. left. apply Hq.
  - destruct (reading (client w')) eqn:E; [|done]. exfalso.
    eapply (Hst (ReadFailed "")); [done|cbn; by rewrite Hs|]. by apply do_step; [|apply consumes_nothing].
  - destruct (write_pending (client w')) eqn:E; [|done]. exfalso.
    eapply (Hst (WriteFailed true "")); [done|cbn; by rewrite Hs|]. by apply do_step; [|apply consumes_nothing].
Qed.
End client_end.
