(* ===== verification/Login.v ===== *)
(** Client and server together. A conversation is the lines one side posts, read
    by the other: [std::getline] takes the newline off each frame. The theorem is
    about joining: what [ChatClient] sends to identify itself and what it answers
    to the server's challenge is what [ClientSession] accepts. *)

From S2P Require Import Prelude Frame Message Utils AppState Tls ChatClient.
From S2P Require Import StorageApi World ChatServer ClientSession ServerInvariant ServerBoot ServerSteps Walk Stability ServerProperties RoomProperties.
Local Open Scope string_scope.
Local Open Scope chat_scope.

(* ===================================================================== *)
(** * Lines *)

Lemma client_line message :
  valid_client_message message = true ->
  exists frame, encode_client_frame message = success frame /\
    decode_client_frame (line_of frame) = success message.
Proof.
  intros Hv. destruct (serialize_client_size _ Hv) as [Hne Hs].
  destruct (encode_frame_small _ Hne Hs) as (frame & He & Hf). exists frame.
  unfold encode_client_frame, decode_client_frame, decode_message_frame.
  rewrite (decode_line _ _ Hf). cbn [value success]. rewrite parse_serialize_client by done. done.
Qed.

Lemma server_line message :
  valid_server_message message = true -> (size_of (serialize_server message) <= 3069)%N ->
  exists frame, encode_server_frame message = success frame /\
    decode_server_frame (line_of frame) = success message.
Proof.
  intros Hv Hs. pose proof (serialize_server_nonempty message) as Hne.
  destruct (encode_frame_small _ Hne Hs) as (frame & He & Hf). exists frame.
  unfold encode_server_frame, decode_server_frame, decode_message_frame.
  rewrite (decode_line _ _ Hf). cbn [value success]. rewrite parse_serialize_server by done. done.
Qed.

(* ===================================================================== *)
(** * The client's side *)

Section client_side.
Context `{Sodium}.

(** A client that is connected and has an identity. *)
Record client_ready (i : ClientIdentity) (cw : ClientWorld) : Prop := {
  ready_connected : ChatClient.connected_ (client cw) = true;
  ready_open : ChatClient.closing_ (client cw) = false;
  ready_negotiated : ChatClient.protocol_negotiated_ (client cw) = true;
  ready_identity : ChatClient.identity_ (client cw) = Some i;
}.

Lemma client_sends message frame cw :
  ChatClient.connected_ (client cw) = true -> ChatClient.closing_ (client cw) = false ->
  encode_client_frame message = success frame ->
  (ChatClient.send message cw).2
    = ChatClient.put_tasks (ChatClient.tasks cw ++ [TaskSend frame])%list cw.
Proof.
  intros Hc Ho He. unfold ChatClient.send. rewrite bind_snd. cbn [get fst snd].
  by rewrite Hc, Ho, He.
Qed.

Lemma client_reads line message cw :
  ChatClient.protocol_negotiated_ (client cw) = true ->
  decode_server_frame line = success message ->
  (ChatClient.on_line line cw).2 =
  (ChatClient.read_loop
     (ChatClient.handle_server_message message
        (ChatClient.on_client (ChatClient.with_reading false) cw).2).2).2.
Proof.
  intros Hn Hd. unfold ChatClient.on_line. rewrite bind_snd, Hd. cbn [value success].
  rewrite bind_snd. cbn [get fst snd].
  change (ChatClient.protocol_negotiated_
    (client (ChatClient.on_client (ChatClient.with_reading false) cw).2))
    with (ChatClient.protocol_negotiated_ (client cw)).
  rewrite Hn, andb_false_r. by rewrite bind_snd.
Qed.

(** The answer to a challenge. *)
Lemma client_answers i cw challenge line :
  client_ready i cw -> is_hex (sign_identity_challenge i challenge) 128 = true ->
  decode_server_frame line = success (Server.Challenge challenge) ->
  exists frame,
    decode_client_frame (line_of frame)
      = success (Client.IdentityProof (sign_identity_challenge i challenge)) /\
    let cw' := (ChatClient.on_line line cw).2 in
    ChatClient.tasks cw' = (ChatClient.tasks cw ++ [TaskSend frame])%list /\ client_ready i cw' /\
    ChatClient.join_failed_ (client cw') = ChatClient.join_failed_ (client cw).
Proof.
  intros [Hc Ho Hn Hi] Hs Hd. destruct (client_line (Client.IdentityProof (sign_identity_challenge i challenge)))
    as (frame & He & Hf); [done|].
  exists frame. split; [done|]. cbv zeta. rewrite (client_reads _ _ _ Hn Hd).
  cbn [ChatClient.handle_server_message]. unfold ChatClient.handle_challenge. rewrite bind_snd.
  cbn [get fst snd]. change (ChatClient.identity_
    (client (ChatClient.on_client (ChatClient.with_reading false) cw).2))
    with (ChatClient.identity_ (client cw)).
  rewrite Hi, (client_sends _ frame) by done.
  split; [done|]. split; [by split|done].
Qed.
End client_side.

(* ===================================================================== *)
(** * The server's side *)

Section server_side.
Context {S : Type} `{ServerStorage S} `{so : Sodium} `{!SodiumLaws so} `{Platform}.
Abbreviation W := (World S).

(** The session may join as [nick] with the key: handshake and password are done, it
    has no nickname, and nothing speaks against the nickname. *)
Record admissible (nick key : string) (s : SessionId) (w : W) : Prop := {
  adm_negotiated : protocol_negotiated_ (session w s) = true;
  adm_password : has_password (server w) && negb (authenticated_ (session w s)) = false;
  adm_unnamed : nickname w s = "";
  adm_identity : identity_available_for (server w) nick key = None;
  adm_banned : is_banned (server w) nick = false;
  adm_taken : nickname_taken w nick = false;
  adm_lobby : is_Some (rooms_ (server w) !! DEFAULT_ROOM_ID);
}.

Lemma available_valid c nick key :
  identity_available_for c nick key = None ->
  Message.is_valid_nickname nick = true /\ is_hex key 64 = true /\
  forall bound, identities_ c !! nick = Some bound -> bound = key.
Proof.
  unfold identity_available_for. rewrite utils_nickname.
  destruct (Message.is_valid_nickname nick); cbn [negb]; [|done].
  pose proof (is_hex_of_len_hex key crypto_sign_PUBLICKEYBYTES eq_refl) as Hk. rewrite Hk.
  change (2 * crypto_sign_PUBLICKEYBYTES)%N with 64%N. destruct (is_hex key 64); cbn [negb]; [|done].
  intros Hb. split; [done|]. split; [done|]. intros bound Hi. rewrite Hi in Hb.
  destruct (String.eqb_spec bound key); [done|]. done.
Qed.

Lemma hex_valid n k : (k < 2 ^ 63)%N -> is_hex (random_hex n k) (2 * k) = true.
Proof.
  intros Hk. rewrite <- is_hex_of_len_hex by done. unfold random_hex.
  apply bytes_to_hex_of_len; [apply randombytes_size|done].
Qed.

Lemma hex_text_size h n : is_hex h n = true -> size_of h = n.
Proof. unfold is_hex. intros [Hs _]%andb_true_iff. by apply N.eqb_eq. Qed.

Lemma session_post t (w : W) : session (post t w).2 = session w.
Proof. done. Qed.
Lemma session_random k (w : W) : session (random_hex_text k w).2 = session w.
Proof. done. Qed.

(** The session after an identification. *)
Definition challenged (nick key challenge : string) (x : ClientSession) : ClientSession :=
  with_reading true (with_pending_challenge challenge
    (with_pending_public_key_hex key (with_pending_nickname nick x))).

Lemma server_challenges nick key s line (w : W) :
  admissible nick key s w -> decode_client_frame line = success (Client.Identify nick key) ->
  let w1 := (on_line s line w).2 in
  exists challenge frame,
    is_hex challenge 64 = true /\
    decode_server_frame (line_of frame) = success (Server.Challenge challenge) /\
    tasks w1 = (tasks w ++ [TaskDeliver s frame])%list /\ server w1 = server w /\
    forall t, session w1 t = if decide (t = s)
      then challenged nick key challenge (with_reading false (session w s)) else session w t.
Proof.
  intros [Hn Hp Hu Hi Hb Ht _] Hd. cbv zeta. rewrite on_line_eq, Hd. cbn [value success].
  unfold handle_message. rewrite bind_snd. cbn [get fst snd].
  rewrite line_started_session, decide_True by done. cbn [with_reading protocol_negotiated_ authenticated_].
  rewrite Hn. cbn [negb]. change (server (line_started s w)) with (server w). rewrite Hp.
  cbn [handle_request]. unfold handle_identify. rewrite bind_snd. cbn [get fst snd].
  rewrite line_started_nickname, Hu. cbn [sempty negb].
  change (server (line_started s w)) with (server w). rewrite Hi, Hb.
  assert (nickname_taken (line_started s w) nick = false) as ->.
  { rewrite <- Ht. unfold nickname_taken. change (server (line_started s w)) with (server w).
    f_equal. apply existsb_ext. intros t. by rewrite line_started_nickname. }
  rewrite !bind_snd.
  set (challenge := random_hex (random_draws w) IDENTITY_CHALLENGE_BYTES).
  assert (is_hex challenge 64 = true) as Hc by by apply (hex_valid _ 32).
  destruct (server_line (Server.Challenge challenge)) as (frame & He & Hf); [done| |].
  { cbn [serialize_server]. rewrite size_of_app, (hex_text_size _ _ Hc). done. }
  exists challenge, frame. split; [done|]. split; [done|].
  change ((random_hex_text IDENTITY_CHALLENGE_BYTES _).1) with challenge.
  unfold deliver. rewrite He. cbn [value success].
  split; [done|]. split; [done|]. intros t. unfold read_loop.
  repeat rewrite ?session_post, ?session_random, ?session_on_session.
  rewrite !line_started_session, !(decide_True (P := s = s)) by done.
  by destruct (decide (t = s)).
Qed.


Lemma fingerprint_valid key : is_hex key 64 = true -> is_hex (identity_fingerprint key) 16 = true.
Proof.
  intros Hk. pose proof (hex_text_size _ _ Hk) as Hs. unfold is_hex in *.
  apply andb_true_iff in Hk as [_ Hk]. unfold identity_fingerprint. rewrite Hs. change (64 <=? 16)%N with false. cbv iota.
  change (substr_n key 0 16) with (stake 16 key).
  rewrite size_stake by (rewrite Hs; lia). rewrite sall_stake by done. done.
Qed.

Lemma stream_on_session s f (w : W) :
  (sent (f (session w s)) ++ write_queue_ (f (session w s)))%list
    = (sent (session w s) ++ write_queue_ (session w s))%list ->
  stream_of (on_session s f w).2 s = stream_of w s.
Proof.
  intros Hf. apply stream_of_same; [|done]. rewrite session_on_session. by rewrite decide_True.
Qed.

Lemma stream_deliver s msg frame (w : W) :
  encode_server_frame msg = success frame ->
  stream_of (deliver s msg w).2 s = (stream_of w s ++ [frame])%list.
Proof.
  intros He. unfold deliver. rewrite He. cbn [value success]. unfold stream_of.
  change (session (post _ w).2) with (session w). cbn [post modify snd put_tasks tasks].
  rewrite fmap_app. unfold mjoin. rewrite join_app. cbn. rewrite decide_True by done.
  rewrite app_nil_r. by rewrite !app_assoc.
Qed.

(** A move takes the session to the room. *)
Lemma moved_into s target announce (w : W) :
  is_Some (rooms_ (server w) !! target) ->
  exists r, rooms_ (server (move_session_to_room s target announce w).2) !! target = Some r /\
    s ∈ members r.
Proof.
  intros Ht. pose proof (move_roster s target announce w Ht) as Hr.
  apply (roster_room _ _ target) in Hr. rewrite after_move_rooms, moved_rooms_lookup in Hr.
  destruct Ht as [r0 E0]. rewrite E0 in Hr.
  destruct (rooms_ (server (move_session_to_room s target announce w).2) !! target) as [r|]; [|done].
  exists r. split; [done|]. cbn in Hr. unfold forget_history in Hr. injection Hr as _ _ _ _ Hm.
  rewrite Hm, decide_True by done.
  apply elem_of_union. left. by apply elem_of_singleton.
Qed.

Lemma joined_and_admitted s nick key fa fj (w : W) :
  encode_server_frame (Server.IdentityAccepted (identity_fingerprint key)) = success fa ->
  encode_server_frame Server.JoinAccepted = success fj ->
  is_Some (rooms_ (server w) !! DEFAULT_ROOM_ID) ->
  let w' := (complete_join s nick key w).2 in
  (stream_of w s ++ [fa; fj])%list `prefix_of` stream_of w' s /\
  exists r, rooms_ (server w') !! DEFAULT_ROOM_ID = Some r /\ s ∈ members r.
Proof.
  intros Ha Hj Hl. cbv zeta. unfold complete_join. rewrite !bind_snd.
  set (w3 := (deliver s Server.JoinAccepted _).2).
  assert (stream_of w3 s = (stream_of w s ++ [fa; fj])%list) as E3.
  { subst w3. rewrite (stream_deliver _ _ _ _ Hj), (stream_deliver _ _ _ _ Ha).
    unfold set_nickname. rewrite !stream_on_session by done. by rewrite <- app_assoc. }
  assert (is_Some (rooms_ (server w3) !! DEFAULT_ROOM_ID)) as Hl3.
  { subst w3. unfold deliver. by rewrite Ha, Hj. }
  clearbody w3. rewrite <- E3. split.
  - apply (st_read_loop _ (stable_stream (stream_of w3 s) s)).
    by apply (st_move_session _ (stable_stream (stream_of w3 s) s)).
  - by apply moved_into.
Qed.

Lemma frames_tasks_bind nick key : frames tasks (bind_identity nick key).
Proof.
  unfold bind_identity, save_identities_locked.
  frames_tac; try (intros w; unfold with_storage, log_write, write_file; cbn; by repeat case_match).
Qed.

Lemma server_admits nick key challenge signature s line (w : W) :
  protocol_negotiated_ (session w s) = true ->
  has_password (server w) && negb (authenticated_ (session w s)) = false ->
  nickname w s = "" -> pending_nickname_ (session w s) = nick ->
  pending_public_key_hex_ (session w s) = key -> pending_challenge_ (session w s) = challenge ->
  is_hex challenge 64 = true -> identity_available_for (server w) nick key = None ->
  is_banned (server w) nick = false -> nickname_taken w nick = false ->
  is_Some (rooms_ (server w) !! DEFAULT_ROOM_ID) ->
  verify_identity_signature key challenge signature = true ->
  decode_client_frame line = success (Client.IdentityProof signature) ->
  let w' := (on_line s line w).2 in
  nickname w' s = nick /\ identities_ (server w') !! nick = Some key /\
  (exists r, rooms_ (server w') !! DEFAULT_ROOM_ID = Some r /\ s ∈ members r) /\
  exists fa fj,
    decode_server_frame (line_of fa) = success (Server.IdentityAccepted (identity_fingerprint key)) /\
    decode_server_frame (line_of fj) = success Server.JoinAccepted /\
    (stream_of w s ++ [fa; fj])%list `prefix_of` stream_of w' s.
Proof.
  intros Hn Hp Hu Hpn Hpk Hpc Hch Hi Hb Ht Hl Hv Hd. cbv zeta. rewrite on_line_eq, Hd. cbn [value success].
  destruct (available_valid _ _ _ Hi) as (Hnick & Hkey & Hbound).
  set (w0 := line_started s w).
  assert (session w0 s = with_reading false (session w s)) as E0
    by (unfold w0; by rewrite line_started_session, decide_True).
  unfold handle_message. rewrite bind_snd. cbn [get fst snd]. rewrite E0.
  cbn [with_reading protocol_negotiated_ authenticated_]. rewrite Hn. cbn [negb].
  change (server w0) with (server w). rewrite Hp. cbn [handle_request].
  unfold handle_proof. rewrite bind_snd. cbn [get fst snd]. rewrite E0.
  cbn [with_reading pending_nickname_ pending_public_key_hex_ pending_challenge_].
  rewrite Hpn, Hpk, Hpc. 
  assert (nickname w0 s = "") as -> by (unfold w0; by rewrite line_started_nickname).
  cbn [sempty negb].
  assert (sempty nick || sempty key || sempty challenge = false) as ->.
  { apply hex_text_size in Hkey, Hch. destruct nick; [done|]. destruct key; [done|]. by destruct challenge. }
  rewrite Hv. cbn [negb]. change (server w0) with (server w). rewrite Hb.
  assert (nickname_taken w0 nick = false) as ->.
  { rewrite <- Ht. unfold nickname_taken. change (server w0) with (server w).
    f_equal. apply existsb_ext. intros t. unfold w0. by rewrite line_started_nickname. }
  rewrite bind_snd. destruct (bind_identity_spec nick key w0) as (Hh & _ & _ & Hr & _ & Hok).
  assert ((bind_identity nick key w0).1 = true) as Hbind.
  { unfold bind_identity. rewrite bind_snd. cbn [get fst snd]. change (server w0) with (server w).
    destruct (identities_ (server w) !! nick) as [bound|] eqn:E; [|by rewrite !bind_snd].
    rewrite (Hbound _ eq_refl). apply String.eqb_refl. }
  rewrite Hbind. cbn [negb]. apply Hok in Hbind. set (w1 := (bind_identity nick key w0).2) in *.
  assert (stream_of w1 s = stream_of w s) as Hstream.
  { transitivity (stream_of w0 s); [|by apply stream_on_session].
    apply stream_of_same; [unfold session; by rewrite Hh|apply frames_tasks_bind]. }
  destruct (server_line (Server.IdentityAccepted (identity_fingerprint key))) as (fa & Hfa & Hda).
  { by apply fingerprint_valid. }
  { cbn [serialize_server]. rewrite size_of_app, (hex_text_size _ _ (fingerprint_valid _ Hkey)). done. }
  destruct (server_line Server.JoinAccepted) as (fj & Hfj & Hdj); [done|done|].
  rewrite complete_join_nickname, decide_True by done. split; [done|].
  split; [by apply complete_join_identities|].
  destruct (joined_and_admitted s nick key fa fj w1 Hfa Hfj) as [Hpre Hroom]; [by rewrite Hr|].
  split; [done|]. exists fa, fj. rewrite <- Hstream. done.
Qed.
End server_side.

(* ===================================================================== *)
(** * Joining *)

Section login.
Context {S : Type} `{ServerStorage S} `{so : Sodium} `{!SodiumLaws so} `{Platform}.
Abbreviation W := (World S).

(** C8: joining works. A connected client whose key signs, and a server that has
    nothing against its nickname (free, not banned, unbound or bound to that key,
    handshake and password done): the frame [identify] posts makes the server post
    one frame, a challenge; the frame the client posts in answer makes the server
    bind the nickname to the key, give it to the session and take the session into
    the lobby; and the next two frames of that session tell the client that it has
    joined, and no failure. *)
Theorem login_completes i nick s cw (w : W) :
  client_ready i cw -> ChatClient.join_failed_ (client cw) = false ->
  (forall challenge, verify_identity_signature (public_key_hex i) challenge
                       (sign_identity_challenge i challenge) = true) ->
  admissible nick (public_key_hex i) s w ->
  exists f1 f2 f3 fa fj,
    let cw1 := (ChatClient.identify nick cw).2 in
    let w1 := (on_line s (line_of f1) w).2 in
    let cw2 := (ChatClient.on_line (line_of f2) cw1).2 in
    let w2 := (on_line s (line_of f3) w1).2 in
    let cw3 := (ChatClient.on_line (line_of fj) (ChatClient.on_line (line_of fa) cw2).2).2 in
    ChatClient.tasks cw1 = (ChatClient.tasks cw ++ [TaskSend f1])%list /\
    tasks w1 = (tasks w ++ [TaskDeliver s f2])%list /\
    ChatClient.tasks cw2 = (ChatClient.tasks cw1 ++ [TaskSend f3])%list /\
    (stream_of w1 s ++ [fa; fj])%list `prefix_of` stream_of w2 s /\
    nickname w2 s = nick /\ identities_ (server w2) !! nick = Some (public_key_hex i) /\
    (exists r, rooms_ (server w2) !! DEFAULT_ROOM_ID = Some r /\ s ∈ members r) /\
    ChatClient.join_resolved_ (client cw3) = true /\ ChatClient.join_failed_ (client cw3) = false.
Proof.
  intros Hready Hnofail Hsigns Hadm.
  destruct (available_valid _ _ _ (adm_identity _ _ _ _ Hadm)) as (Hnick & Hkey & _).
  destruct (client_line (Client.Identify nick (public_key_hex i))) as (f1 & He1 & Hd1).
  { cbn [valid_client_message]. by rewrite Hnick, Hkey. }
  destruct (server_challenges _ _ _ _ _ Hadm Hd1) as (challenge & f2 & Hch & Hd2 & Ht & Hsv & Hse).
  set (w1 := (on_line s (line_of f1) w).2) in *.
  set (cw1 := (ChatClient.identify nick cw).2).
  assert (cw1 = ChatClient.put_tasks (ChatClient.tasks cw ++ [TaskSend f1])%list cw) as Ecw1.
  { subst cw1. unfold ChatClient.identify. rewrite bind_snd. cbn [get fst snd].
    destruct Hready as [Hc Ho _ Hi]. rewrite Hi. by apply client_sends. }
  assert (client_ready i cw1) as Hready1 by (rewrite Ecw1; by destruct Hready).
  destruct (client_answers i cw1 challenge (line_of f2) Hready1) as (f3 & Hd3 & Ht3 & Hready2 & Hfail);
    [|done|].
  { rewrite <- (is_hex_of_len_hex _ crypto_sign_BYTES) by done.
    apply bytes_to_hex_of_len; [apply signature_size|done]. }
  set (cw2 := (ChatClient.on_line (line_of f2) cw1).2) in *.
  assert (session w1 s = challenged nick (public_key_hex i) challenge
    (with_reading false (session w s))) as Es by by rewrite Hse, decide_True.
  assert (nickname_taken w1 nick = false) as Htaken.
  { rewrite <- (adm_taken _ _ _ _ Hadm). unfold nickname_taken. rewrite Hsv. f_equal.
    apply existsb_ext. intros t. unfold nickname. rewrite Hse. by case_decide; subst. }
  destruct (server_admits nick (public_key_hex i) challenge (sign_identity_challenge i challenge) s
    (line_of f3) w1) as (Hn & Hid & Hroom & fa & fj & Hda & Hdj & Hpre);
    rewrite ?Hsv, ?Es; try done; try apply Hadm;
    [by unfold nickname; rewrite Es; apply Hadm|].
  exists f1, f2, f3, fa, fj. cbv zeta.
  split; [by rewrite Ecw1|]. do 6 (split; [done|]).
  destruct Hready2 as [_ _ Hneg _].
  rewrite (client_reads (line_of fa) _ cw2 Hneg Hda).
  rewrite (client_reads (line_of fj) Server.JoinAccepted) by done.
  split; [done|]. transitivity (ChatClient.join_failed_ (client cw2)); [done|].
  rewrite Hfail, Ecw1. exact Hnofail.
Qed.
End login.
