(* ===== verification/Commands.v ===== *)
(** The commands of the chat window: [src/app/commands.cpp]. A process is a host with
    its server, or a guest with its client, or neither, around the one chat state and
    clock they share. The theorems: what a whisper's text is split into, which lines
    change the ban list, and that what a guest types arrives at the server as the
    message it means. *)

From S2P Require Import Prelude Frame Message Utils AppState Tls ChatClient Login.
From S2P Require Import StorageApi World ChatServer ServerSteps ClientSession.
Local Open Scope string_scope.
Local Open Scope chat_scope.

(* ===================================================================== *)
(** * Parsing a line *)

Record Command := MkCommand { command_name : string; command_args : list string }.

Inductive ChatInputResult := Continue | Exit.

Definition parse_command (input : string) : option Command :=
  match input with
  | String "/"%char rest =>
      match split rest " " with
      | [] => None
      | name :: args => Some (MkCommand name (filter (fun a => a <> "") args))
      end
  | _ => None
  end.

(** [s.find_first_not_of(' ', pos)]. *)
Fixpoint sfind_not (c : ascii) (s : string) : option nat :=
  match s with
  | EmptyString => None
  | String c' s' => if decide (c' = c) then Datatypes.S <$> sfind_not c s' else Some 0
  end.
Definition sfind_not_from (c : ascii) (s : string) (pos : nat) : option nat :=
  Nat.add pos <$> sfind_not c (sdrop pos s).

(** The target and the message of a whisper. *)
Definition extract_whisper (input : string) : option (string * string) :=
  match sfind " " input with
  | None => None
  | Some command_end =>
      match sfind_not_from " " input command_end with
      | None => None
      | Some target_start =>
          match sfind_from " " input target_start with
          | None => None
          | Some target_end =>
              match sfind_not_from " " input target_end with
              | None => None
              | Some message_start =>
                  let target := substr_n input target_start (target_end - target_start) in
                  let message := substr input message_start in
                  if negb (sempty target) && negb (sempty message)
                  then Some (target, message) else None
              end
          end
      end
  end.

Record ChatInputContext := MkContext {
  context_nickname : string;
  host_commands_enabled : bool;
}.

(* ===================================================================== *)
(** * The process *)

Section commands.
Context {S : Type} `{ServerStorage S} `{Sodium} `{Platform}.
Abbreviation W := (World S).

(** [context.server] and [context.client], the chat state, and how often the system
    clock was read. *)
Record Process := MkProcess {
  host : option W;
  guest : option ClientWorld;
  screen : AppState;
  clock_reads : nat;
}.

Definition say (text : string) : M Process unit :=
  modify (fun p => MkProcess (host p) (guest p) (push_message text (screen p)) (clock_reads p)).

(** A call of the server or of the client, on the process's chat state and clock. *)
Definition server_call {A} (m : M W A) (default_result : A) : M Process A :=
  fun p =>
    match host p with
    | None => (default_result, p)
    | Some w =>
        let '(a, w') := m (put_system_reads (clock_reads p) (put_app (screen p) w)) in
        (a, MkProcess (Some w') (guest p) (app w') (system_reads w'))
    end.
Definition client_call (m : M ClientWorld unit) : M Process unit :=
  modify (fun p =>
    match guest p with
    | None => p
    | Some cw =>
        let cw' := (m (ChatClient.put_app (screen p) cw)).2 in
        MkProcess (host p) (Some cw') (ChatClient.app cw') (clock_reads p)
    end).

(** [if (context.server) ... else if (context.client) ...]. *)
Definition either (on_server on_client : M Process unit) : M Process unit :=
  let* p := get in
  match host p, guest p with
  | Some _, _ => on_server
  | None, Some _ => on_client
  | None, None => ret tt
  end.

Definition client_send (msg : Client.message) : M Process unit := client_call (ChatClient.send msg).

(** [if (!context.server->op(..., error)) push_message("[system] " + error)]. *)
Definition server_try (op : M W (option string)) : M Process unit :=
  let* error := server_call op None in
  match error with Some e => say ("[system] " +:+ e) | None => ret tt end.

Definition now_text : M Process string :=
  fun p => (timestamp (clock_reads p),
            MkProcess (host p) (guest p) (screen p) (clock_reads p + 1)).

Definition is_host (p : Process) : bool := bool_decide (is_Some (host p)).

(* ===================================================================== *)
(** * The commands *)

Definition show_command_help : M Process unit :=
  for_each [
    "[system] === Rooms: /create music, /join music ===";
    "[system] /help                    - Show this help message";
    "[system] /rooms                   - List available rooms";
    "[system] /create <name>           - Create and enter a room";
    "[system] /join <name>             - Switch to a room";
    "[system] /leave                   - Return to the lobby";
    "[system] /topic [text]            - View or set the room topic";
    "[system] === People: /whisper alex hello ===";
    "[system] /users                   - List users in this room";
    "[system] /clear                   - Clear message history";
    "[system] /time                    - Show current time";
    "[system] /whisper <nick> <msg>    - Whisper within this room";
    "[system] /kick <nick> [reason]    - Kick a room member (room creator/host)";
    "[system] /exit                    - Return to server selection";
    "[system] === End Help ==="]%list say.

Definition show_host_command_help : M Process unit :=
  for_each [
    "[system] /ban  <nick> [reason] - Ban a user server-wide (host only)";
    "[system] /unban <nick>         - Unban a user (host only)";
    "[system] /bans                 - List server-wide bans"]%list say.

Definition chat_line (context : ChatInputContext) (input : string) : M Process unit :=
  either
    (let* time := now_text in
     server_call (broadcast ("[" +:+ time +:+ "] " +:+ context_nickname context +:+ ": " +:+ input)) tt)
    (client_send (Client.Chat input)).

Definition list_users : M Process unit :=
  let* p := get in
  say ("[system] Users in #" +:+ active_room_name (screen p) +:+ ":") ;;;
  for_each (user_snapshot (screen p)) (fun user => say ("[system]   - " +:+ user)).

(** [/create] and [/join]. *)
Definition room_command (usage : string) (args : list string) (op : string -> M W (option string))
    (message : string -> Client.message) : M Process unit :=
  match args with
  | [name] => either (server_try (op name)) (client_send (message name))
  | _ => say ("[system] Usage: " +:+ usage)
  end.

Definition leave_command (args : list string) : M Process unit :=
  match args with
  | [] => either (server_try leave_local_room) (client_send Client.Leave)
  | _ => say "[system] Usage: /leave"
  end.

Definition topic_command (args : list string) : M Process unit :=
  match args with
  | [] =>
      either
        (let* p := get in
         let topic := active_room_topic (screen p) in
         say ("[system] Topic: " +:+ (if sempty topic then "(none)" else topic)))
        (client_send (Client.TopicRequest None))
  | _ =>
      let topic := join_fields args 0 " " in
      either (server_try (set_local_topic topic)) (client_send (Client.TopicRequest (Some topic)))
  end.

Definition whisper_command (context : ChatInputContext) (input : string) : M Process unit :=
  match extract_whisper input with
  | None => say "[system] Usage: /whisper <nick> <message>"
  | Some (target, message) =>
      either
        (server_call (send_private (context_nickname context) target message true) false ;;; ret tt)
        (client_send (Client.Whisper target message))
  end.

Definition kick_command (context : ChatInputContext) (nick reason : string) : M Process unit :=
  let* p := get in
  if is_host p && host_commands_enabled context then
    let* kicked := server_call (kick_user nick reason) false in
    when (negb kicked) (say ("[system] User '" +:+ nick +:+ "' is not in this room"))
  else client_call (ChatClient.send (Client.KickRequest nick reason)).

Definition ban_command (nick reason : string) : M Process unit :=
  server_call (ban_user nick reason) false ;;;
  say ("[system] " +:+ nick +:+ " has been banned server-wide").

Definition unban_command (nick : string) : M Process unit :=
  let* removed := server_call (unban_user nick) false in
  say (if removed then "[system] " +:+ nick +:+ " has been unbanned"
       else "[system] '" +:+ nick +:+ "' is not on the ban list").

Definition bans_command : M Process unit :=
  let* bans := server_call (let* w := get in ret (ban_list (server w))) [] in
  match bans with
  | [] => say "[system] Ban list is empty"
  | _ =>
      say "[system] Banned users:" ;;;
      for_each bans (fun banned => say ("[system]   - " +:+ banned))
  end.

Definition unknown_command (name : string) : M Process unit :=
  say ("[system] Unknown command: " +:+ name +:+ ". Type /help.").

(** The chain of comparisons, each with all of its conditions. *)
Definition run_command (context : ChatInputContext) (input : string) (cmd : Command) :
    M Process ChatInputResult :=
  let* p := get in
  let name := command_name cmd in
  let args := command_args cmd in
  let host_command := is_host p && host_commands_enabled context in
  let continue m := m ;;; ret Continue in
  if String.eqb name "help" then
    continue (show_command_help ;;; when (host_commands_enabled context) show_host_command_help)
  else if String.eqb name "users" then continue list_users
  else if String.eqb name "rooms" then
    continue (either (server_call show_room_list_local tt) (client_call ChatClient.request_rooms))
  else if String.eqb name "create" then
    continue (room_command "/create <name>" args create_local_room Client.CreateRoom)
  else if String.eqb name "join" then
    continue (room_command "/join <name>" args join_local_room Client.JoinRoom)
  else if String.eqb name "leave" then continue (leave_command args)
  else if String.eqb name "topic" then continue (topic_command args)
  else if String.eqb name "clear" then
    continue (modify (fun p => MkProcess (host p) (guest p) (clear_messages (screen p)) (clock_reads p)) ;;;
              say "[system] Message history cleared")
  else if String.eqb name "time" then
    continue (let* time := now_text in say ("[system] Current time: " +:+ time))
  else if String.eqb name "whisper" then continue (whisper_command context input)
  else if String.eqb name "kick" then
    continue match args with
             | nick :: _ => kick_command context nick (join_fields args 1 " ")
             | [] => say "[system] Usage: /kick <nick> [reason]"
             end
  else match args with
  | nick :: _ =>
      if String.eqb name "ban" && host_command then continue (ban_command nick (join_fields args 1 " "))
      else if String.eqb name "unban" && host_command then continue (unban_command nick)
      else if String.eqb name "bans" && host_command then continue bans_command
      else if String.eqb name "exit" then ret Exit
      else continue (unknown_command name)
  | [] =>
      if String.eqb name "bans" && host_command then continue bans_command
      else if String.eqb name "exit" then ret Exit
      else continue (unknown_command name)
  end.

Definition handle_chat_input (input : string) (context : ChatInputContext) :
    M Process ChatInputResult :=
  if sempty input then ret Continue
  else match parse_command input with
  | None => chat_line context input ;;; ret Continue
  | Some cmd => run_command context input cmd
  end.
End commands.

(* ===================================================================== *)
(** * Lemmas: lines *)

(** [n] spaces. *)
Fixpoint spaces (n : nat) : string :=
  match n with 0 => "" | Datatypes.S n' => String " " (spaces n') end.

Lemma spaces_length n : String.length (spaces n) = n.
Proof. induction n as [|n IH]; [done|]. cbn. by rewrite IH. Qed.

(** The text does not begin with a space, and is not empty. *)
Definition begins (s : string) : Prop :=
  match s with EmptyString => False | String c _ => c <> " "%char end.

Lemma sfind_not_spaces n s : begins s -> sfind_not " " (spaces n +:+ s) = Some n.
Proof.
  intros Hs. induction n as [|n IH].
  - destruct s as [|c s]; [done|]. cbn [spaces]. rewrite sapp_nil_l. cbn [sfind_not].
    by rewrite decide_False.
  - cbn [spaces]. rewrite sapp_cons. cbn [sfind_not]. by rewrite decide_True, IH.
Qed.

Lemma sfind_not_split s :
  match sfind_not " " s with
  | None => s = spaces (String.length s)
  | Some n => exists s', s = spaces n +:+ s' /\ begins s'
  end.
Proof.
  induction s as [|c s IH]; [done|]. cbn [sfind_not]. case_decide as Hc.
  - subst c. destruct (sfind_not " " s) as [n|]; cbn in *; [|by f_equal].
    destruct IH as (s' & -> & Hb). by exists s'.
  - exists (String c s). by split.
Qed.

Lemma sdrop_plus s1 s2 n : sdrop (String.length s1 + n) (s1 +:+ s2) = sdrop n s2.
Proof. by rewrite <- sdrop_sdrop, sdrop_app. Qed.

Lemma sdrop_spaces n s : sdrop n (spaces n +:+ s) = s.
Proof. rewrite <- (spaces_length n) at 1. apply sdrop_app. Qed.

(** A word up to the next space. *)
Definition word (s : string) : Prop := s <> "" /\ free_of " " s = true.

Lemma word_begins s r : word s -> begins (s +:+ r).
Proof.
  intros [Hne Hf]. destruct s as [|c s]; [done|]. cbn in *. unfold free_of in Hf. cbn in Hf.
  by case_bool_decide.
Qed.

Lemma sfind_space s r n : free_of " " s = true -> sfind " " (s +:+ spaces (Datatypes.S n) +:+ r) = Some (String.length s).
Proof. intros Hf. cbn [spaces]. rewrite sapp_cons. by apply sfind_app_l. Qed.

Lemma extract_whisper_parts cmd a target b message :
  free_of " " cmd = true -> word target -> begins message ->
  extract_whisper (cmd +:+ spaces (Datatypes.S a) +:+ target +:+ spaces (Datatypes.S b) +:+ message)
  = Some (target, message).
Proof.
  intros Hc Ht Hm. set (input := cmd +:+ _).
  assert (sdrop (String.length cmd + Datatypes.S a) input
    = target +:+ spaces (Datatypes.S b) +:+ message) as E1
    by by unfold input; rewrite sdrop_plus, sdrop_spaces.
  assert (sdrop (String.length cmd + Datatypes.S a + String.length target) input
    = spaces (Datatypes.S b) +:+ message) as E2 by by rewrite <- sdrop_sdrop, E1, sdrop_app.
  assert (sdrop (String.length cmd + Datatypes.S a + String.length target + Datatypes.S b) input
    = message) as E3 by by rewrite <- sdrop_sdrop, E2, sdrop_spaces.
  assert (sfind " " input = Some (String.length cmd)) as E0 by by apply sfind_space.
  assert (sdrop (String.length cmd) input
    = spaces (Datatypes.S a) +:+ target +:+ spaces (Datatypes.S b) +:+ message) as E4
    by apply sdrop_app.
  clearbody input. unfold extract_whisper, sfind_not_from, sfind_from.
  rewrite E0, E4, sfind_not_spaces by by apply word_begins. cbn [fmap option_fmap option_map].
  rewrite E1, sfind_space by apply Ht. cbn [fmap option_fmap option_map].
  rewrite E2, sfind_not_spaces by done. cbn [fmap option_fmap option_map].
  unfold substr, substr_n. rewrite E1, E3.
  replace (_ - _) with (String.length target) by lia. rewrite stake_app.
  destruct Ht as [Ht _]. apply sempty_false in Ht as ->. by destruct message.
Qed.

(** A text up to its first space, and the spaces after it. *)
Lemma sfind_space_split s i :
  sfind " " s = Some i ->
  free_of " " (stake i s) = true /\ s = stake i s +:+ sdrop i s /\
  (forall n r, sdrop i s = spaces n +:+ r -> begins r -> exists k, n = Datatypes.S k).
Proof.
  intros E. pose proof (sfind_Some _ _ _ E) as [Hs Hf]. split; [exact Hf|].
  split; [by rewrite stake_sdrop|]. intros n r Hd Hr.
  assert (sdrop i s = String " " (sdrop (Datatypes.S i) s)) as Hi.
  { clear -E. revert i E. induction s as [|c s IH]; intros i; cbn [sfind]; [done|].
    case_decide; [by intros [= <-]; subst|]. destruct (sfind " " s) as [j|] eqn:E; [|done].
    intros [= <-]. cbn [sdrop]. by apply IH. }
  destruct n as [|k]; [|by exists k]. exfalso. rewrite Hi in Hd. cbn [spaces] in Hd.
  rewrite sapp_nil_l in Hd. by subst r.
Qed.

(** One step of the scan: the word at the front, and where the next one begins. *)
Lemma scan_word s i n :
  sfind " " s = Some i -> sfind_not " " (sdrop i s) = Some n ->
  exists k, n = Datatypes.S k /\ free_of " " (stake i s) = true /\ begins (sdrop (i + n) s) /\
    s = stake i s +:+ spaces n +:+ sdrop (i + n) s.
Proof.
  intros Hi Hn. destruct (sfind_space_split _ _ Hi) as (Hf & Hs & Hk).
  pose proof (sfind_not_split (sdrop i s)) as Hsp. rewrite Hn in Hsp.
  destruct Hsp as (r & Hr & Hb). destruct (Hk n r Hr Hb) as [k ->].
  assert (sdrop (i + Datatypes.S k) s = r) as Hd by by rewrite <- sdrop_sdrop, Hr, sdrop_spaces.
  exists k. rewrite Hd. split; [done|]. split; [done|]. split; [done|]. by rewrite <- Hr.
Qed.

(** What a whisper's text means. [extract_whisper] finds a target and a message
    exactly when the line is a command word, spaces, a word, spaces and the rest;
    the target is that word, and the message is the rest with all its inner spaces. *)
Theorem whisper_text input target message :
  extract_whisper input = Some (target, message) <->
  exists cmd a b, free_of " " cmd = true /\ word target /\ begins message /\
    input = cmd +:+ spaces (Datatypes.S a) +:+ target +:+ spaces (Datatypes.S b) +:+ message.
Proof.
  split.
  - unfold extract_whisper, sfind_not_from, sfind_from.
    destruct (sfind " " input) as [i|] eqn:Ei; [|done].
    destruct (sfind_not " " (sdrop i input)) as [n|] eqn:En; [|done]. cbn [fmap option_fmap option_map].
    destruct (scan_word _ _ _ Ei En) as (a & -> & Hf & Hb & Hs).
    set (rest := sdrop (i + Datatypes.S a) input) in *.
    destruct (sfind " " rest) as [j|] eqn:Ej; [|done]. cbn [fmap option_fmap option_map].
    assert (forall k, sdrop (i + Datatypes.S a + k) input = sdrop k rest) as Hrest
      by (intros k; unfold rest; by rewrite sdrop_sdrop).
    rewrite Hrest. destruct (sfind_not " " (sdrop j rest)) as [m|] eqn:Em; [|done].
    cbn [fmap option_fmap option_map]. destruct (scan_word _ _ _ Ej Em) as (b & -> & Hf2 & Hb2 & Hs2).
    unfold substr, substr_n. fold rest. replace (i + Datatypes.S a + j - (i + Datatypes.S a)) with j by lia.
    rewrite <- Nat.add_assoc, Hrest. destruct (_ && _)%bool eqn:Ec; [|done]. intros [= <- <-].
    exists (stake i input), a, b. apply andb_true_iff in Ec as [Ht _].
    split; [done|]. split; [split; [|done]|]. { by apply negb_true_iff, sempty_false in Ht. }
    split; [done|]. by rewrite <- Hs2.
  - intros (cmd & a & b & Hc & Ht & Hm & ->). by apply extract_whisper_parts.
Qed.

(* ===================================================================== *)
(** * Who changes the ban list *)

Section moderation.
Context {S : Type} `{ServerStorage S} `{Sodium} `{Platform}.
Abbreviation W := (World S).
Abbreviation P := (Process (S := S)).

Definition bans (w : W) : gset string := banned_nicks_ (server w).

Lemma frames_bans_core {A} (m : M W A) : frames core m -> frames bans m.
Proof. intros Hf w. specialize (Hf w). unfold core in Hf. unfold bans. by injection Hf as -> _. Qed.
Lemma frames_bans_server f :
  (forall c, banned_nicks_ (f c) = banned_nicks_ c) -> frames bans (on_server f).
Proof. intros Hf w. apply Hf. Qed.
Lemma frames_bans_room id f : frames bans (on_room id f).
Proof. done. Qed.
Lemma frames_bans_session s f : frames bans (on_session s f).
Proof. done. Qed.
#[local] Hint Resolve frames_bans_room frames_bans_session : chat_frames.

Ltac bans_tac := frames_tac; first [apply frames_bans_core; solve [auto with chat_frames nocore]
  | apply frames_bans_server; done | idtac].

Lemma frames_bans_broadcast_room id msg nick : frames bans (broadcast_room id msg nick).
Proof. unfold broadcast_room, record_message. bans_tac. Qed.
#[local] Hint Resolve frames_bans_broadcast_room : chat_frames.
Lemma frames_bans_users id : frames bans (broadcast_users id).
Proof. unfold broadcast_users. bans_tac. Qed.
Lemma frames_bans_lists : frames bans broadcast_room_lists.
Proof. unfold broadcast_room_lists. bans_tac. Qed.
Lemma frames_bans_persist id : frames bans (persist_room id).
Proof. unfold persist_room. bans_tac. Qed.
#[local] Hint Resolve frames_bans_users frames_bans_lists frames_bans_persist : chat_frames.
Lemma frames_bans_broadcast msg : frames bans (broadcast msg).
Proof. unfold broadcast. bans_tac. Qed.
Lemma frames_bans_show : frames bans show_room_list_local.
Proof. unfold show_room_list_local. bans_tac. Qed.
Lemma frames_bans_move_local id announce : frames bans (move_local_to_room id announce).
Proof. unfold move_local_to_room. bans_tac. Qed.
#[local] Hint Resolve frames_bans_broadcast frames_bans_show frames_bans_move_local : chat_frames.
Lemma frames_bans_create name : frames bans (create_local_room name).
Proof.
  unfold create_local_room. bans_tac. apply frames_bans_server. intros c. unfold emplace_room.
  by destruct (rooms_ _ !! _).
Qed.
Lemma frames_bans_join name : frames bans (join_local_room name).
Proof. unfold join_local_room. bans_tac. Qed.
Lemma frames_bans_leave : frames bans leave_local_room.
Proof. unfold leave_local_room. bans_tac. Qed.
Lemma frames_bans_topic topic : frames bans (set_local_topic topic).
Proof. unfold set_local_topic, set_topic_for_room. bans_tac. Qed.
Lemma frames_bans_private sender target msg mirror : frames bans (send_private sender target msg mirror).
Proof. unfold send_private, send_private_in_room. bans_tac. Qed.
Lemma frames_bans_disconnect s announce : frames bans (disconnect s announce).
Proof. unfold disconnect, set_active_room_id. bans_tac. Qed.
#[local] Hint Resolve frames_bans_disconnect : chat_frames.
Lemma frames_bans_kick nick reason : frames bans (kick_user nick reason).
Proof. unfold kick_user, kick_user_in_room. bans_tac. Qed.
#[local] Hint Resolve frames_bans_create frames_bans_join frames_bans_leave frames_bans_topic
  frames_bans_private frames_bans_kick : chat_frames.

Lemma frames_bans_save : frames bans save_bans.
Proof. unfold save_bans, ChatServer.write_file. intros w. cbn. by repeat case_match. Qed.
#[local] Hint Resolve frames_bans_save : chat_frames.

Lemma bans_ban_user nick reason (w : W) : bans (ban_user nick reason w).2 = {[nick]} ∪ bans w.
Proof.
  unfold ban_user. rewrite bind_snd. transitivity (bans (record_ban nick reason w).2).
  - generalize (record_ban nick reason w).2. intros w1. revert w1.
    match goal with |- forall w1, bans (?m w1).2 = _ => change (frames bans m) end. bans_tac.
  - unfold record_ban. rewrite bind_snd. cbn [on_server modify snd].
    set (w1 := put_server _ w). change ({[nick]} ∪ bans w) with (bans w1). clearbody w1. revert w1.
    match goal with |- forall w1, bans (?m w1).2 = _ => change (frames bans m) end. bans_tac.
Qed.

Lemma bans_unban_user nick (w : W) : bans (unban_user nick w).2 = bans w ∖ {[nick]}.
Proof.
  unfold unban_user. rewrite bind_snd. cbn [get fst snd]. rewrite bind_snd. cbn [on_server modify snd].
  set (w1 := put_server _ w). change (bans w ∖ {[nick]}) with (bans w1). clearbody w1.
  generalize (is_banned (server w) nick). intros removed. revert w1.
  match goal with |- forall w1, bans (?m w1).2 = _ => change (frames bans m) end. bans_tac.
Qed.

(** The ban list of the process's server. *)
Definition process_bans (p : P) : option (gset string) := bans <$> host p.

Lemma frames_pbans_say text : frames process_bans (say text).
Proof. done. Qed.
Lemma frames_pbans_now : frames process_bans (now_text (S := S)).
Proof. done. Qed.
Lemma frames_pbans_client m : frames process_bans (client_call (S := S) m).
Proof. intros p. unfold client_call, modify. by destruct (guest p). Qed.
Lemma frames_pbans_server {A} (m : M W A) d : frames bans m -> frames process_bans (server_call m d).
Proof.
  intros Hm p. unfold server_call, process_bans. destruct (host p) as [w|] eqn:E; [|cbn; by rewrite E].
  specialize (Hm (put_system_reads (clock_reads p) (put_app (screen p) w))).
  destruct (m _) as [a w']. cbn in *. by rewrite Hm.
Qed.
Lemma frames_pbans_either m1 m2 :
  frames process_bans m1 -> frames process_bans m2 -> frames process_bans (either (S := S) m1 m2).
Proof. intros H1' H2'. unfold either. apply frames_bind; [done|]. intros p. by repeat case_match. Qed.
#[local] Hint Resolve frames_pbans_say frames_pbans_now frames_pbans_client : chat_frames.
#[local] Hint Extern 1 (frames process_bans (server_call _ _)) =>
  apply frames_pbans_server; solve [auto with chat_frames nocore] : chat_frames.

Ltac pbans_tac :=
  frames_tac;
  repeat match goal with
  | |- frames process_bans (either _ _) => apply frames_pbans_either
  | |- frames process_bans (modify _) => done
  | |- _ => frames_step
  end.

Lemma frames_pbans_chat context input : frames process_bans (chat_line (S := S) context input).
Proof. unfold chat_line, client_send. pbans_tac. Qed.
Lemma frames_pbans_whisper context input : frames process_bans (whisper_command (S := S) context input).
Proof. unfold whisper_command, client_send. pbans_tac. Qed.
Lemma frames_pbans_topic args : frames process_bans (topic_command (S := S) args).
Proof. unfold topic_command, client_send, server_try. pbans_tac. Qed.
Lemma frames_pbans_leave args : frames process_bans (leave_command (S := S) args).
Proof. unfold leave_command, client_send, server_try. pbans_tac. Qed.
Lemma frames_pbans_room usage args op message :
  (forall name, frames bans (op name)) -> frames process_bans (room_command (S := S) usage args op message).
Proof. intros Hop. unfold room_command, client_send, server_try. pbans_tac. Qed.
Lemma frames_pbans_users : frames process_bans (list_users (S := S)).
Proof. unfold list_users. pbans_tac. Qed.
Lemma frames_pbans_bans : frames process_bans (bans_command (S := S)).
Proof.
  unfold bans_command. apply frames_bind; [by apply frames_pbans_server|]. intros [|]; pbans_tac.
Qed.
Lemma frames_pbans_unknown name : frames process_bans (unknown_command (S := S) name).
Proof. unfold unknown_command. pbans_tac. Qed.
Lemma frames_pbans_kick context nick reason : frames process_bans (kick_command (S := S) context nick reason).
Proof. unfold kick_command. pbans_tac. Qed.
#[local] Hint Resolve frames_pbans_chat frames_pbans_whisper frames_pbans_topic frames_pbans_leave
  frames_pbans_room frames_pbans_kick frames_pbans_users frames_pbans_bans frames_pbans_unknown : chat_frames.

Lemma pbans_server_call {A} (m : M W A) d (p : P) w :
  host p = Some w ->
  (forall w0, bans w0 = bans w -> bans (m w0).2 = bans (m w).2) ->
  process_bans (server_call m d p).2 = Some (bans (m w).2).
Proof.
  intros Hp Hm. unfold server_call, process_bans. rewrite Hp.
  rewrite <- (Hm (put_system_reads (clock_reads p) (put_app (screen p) w)) eq_refl).
  destruct (m (put_system_reads _ _)). reflexivity.
Qed.

Lemma frames_pbans_continue (m : M P unit) :
  frames process_bans m -> frames process_bans (m ;;; ret Continue).
Proof. intros Hm. apply frames_bind; [done|]. intros _ p. done. Qed.

Lemma pbans_ban nick reason (p : P) w :
  host p = Some w ->
  process_bans ((ban_command nick reason ;;; ret Continue) p).2 = Some ({[nick]} ∪ bans w).
Proof.
  intros Hp. rewrite bind_snd. unfold ban_command. rewrite bind_snd. cbn [ret snd].
  rewrite frames_pbans_say, (pbans_server_call _ _ _ w Hp).
  - by rewrite bans_ban_user.
  - intros w0 Hw. by rewrite !bans_ban_user, Hw.
Qed.

Lemma pbans_unban nick (p : P) w :
  host p = Some w ->
  process_bans ((unban_command nick ;;; ret Continue) p).2 = Some (bans w ∖ {[nick]}).
Proof.
  intros Hp. rewrite bind_snd. unfold unban_command. rewrite bind_snd. cbn [ret snd].
  rewrite frames_pbans_say, (pbans_server_call _ _ _ w Hp).
  - by rewrite bans_unban_user.
  - intros w0 Hw. by rewrite !bans_unban_user, Hw.
Qed.

(** The end of the chain, without [/ban] and [/unban]. *)
Ltac bare_tail :=
  repeat match goal with |- context [if ?b then _ else _] => destruct b end;
  first [done | by apply frames_pbans_continue; auto with chat_frames nocore].

(** [/ban] and [/unban] apart, no command changes the list. *)
Lemma run_command_bans context input name args (p : P) :
  let p' := (run_command context input (MkCommand name args) p).2 in
  process_bans p' = process_bans p \/
  exists w nick args', host p = Some w /\ host_commands_enabled context = true /\
    args = nick :: args' /\
    ((name = "ban" /\ process_bans p' = Some ({[nick]} ∪ bans w)) \/
     (name = "unban" /\ process_bans p' = Some (bans w ∖ {[nick]}))).
Proof.
  cbv zeta. unfold run_command. rewrite bind_snd. cbn [get fst snd command_name command_args].
  repeat lazymatch goal with
  | |- context [if String.eqb name ?c then (?m ;;; ret Continue) else _] =>
      destruct (String.eqb name c) eqn:?; [left; apply frames_pbans_continue; pbans_tac|]
  end.
  destruct args as [|nick args'].
  - left. bare_tail.
  - destruct (is_host p && host_commands_enabled context) eqn:Eh; rewrite ?andb_false_r, ?andb_true_r;
      [|left; bare_tail].
    apply andb_true_iff in Eh as [Eh Hh]. unfold is_host in Eh. apply bool_decide_eq_true in Eh as [w Hw].
    destruct (String.eqb_spec name "ban") as [->|].
    { right. exists w, nick, args'. do 3 (split; [done|]). left. split; [done|]. by apply pbans_ban. }
    destruct (String.eqb_spec name "unban") as [->|].
    { right. exists w, nick, args'. do 3 (split; [done|]). right. split; [done|]. by apply pbans_unban. }
    left. bare_tail.
Qed.

(** C15: only the host bans. Whatever is typed, the ban list of the server changes
    only through [/ban] with a nickname, which adds it, and [/unban] with a
    nickname, which removes it, and only where host commands are enabled. *)
Theorem ban_list_changes input context (p : P) :
  let p' := (handle_chat_input input context p).2 in
  process_bans p' = process_bans p \/
  host_commands_enabled context = true /\
  exists w nick args, host p = Some w /\
    ((parse_command input = Some (MkCommand "ban" (nick :: args)) /\
      process_bans p' = Some ({[nick]} ∪ bans w)) \/
     (parse_command input = Some (MkCommand "unban" (nick :: args)) /\
      process_bans p' = Some (bans w ∖ {[nick]}))).
Proof.
  cbv zeta. unfold handle_chat_input. destruct (sempty input); [by left|].
  destruct (parse_command input) as [[name args]|].
  2:{ left. rewrite bind_snd. apply frames_pbans_chat. }
  destruct (run_command_bans context input name args p)
    as [Hf | (w & nick & args' & Hp & Hh & -> & [[-> He] | [-> He]])].
  - by left.
  - right. split; [done|]. exists w, nick, args'. split; [done|]. left. done.
  - right. split; [done|]. exists w, nick, args'. split; [done|]. right. done.
Qed.
End moderation.

(* ===================================================================== *)
(** * What a guest types *)

(** Words with the spaces before them, and the spaces at the end of the line. *)
Fixpoint gaps (ws : list (nat * string)) (trail : nat) : string :=
  match ws with
  | [] => spaces trail
  | (a, w) :: ws' => spaces (Datatypes.S a) +:+ w +:+ gaps ws' trail
  end.

(** The message a line of the chat window is meant to send. *)
Inductive means : string -> Client.message -> Prop :=
| means_chat text :
    text <> "" -> (forall rest, text <> String "/" rest) -> means text (Client.Chat text)
| means_rooms ws t :
    Forall word (snd <$> ws) -> means ("/rooms" +:+ gaps ws t) Client.ListRooms
| means_create a name t : word name -> means ("/create" +:+ gaps [(a, name)] t) (Client.CreateRoom name)
| means_join a name t : word name -> means ("/join" +:+ gaps [(a, name)] t) (Client.JoinRoom name)
| means_leave t : means ("/leave" +:+ spaces t) Client.Leave
| means_topic t : means ("/topic" +:+ spaces t) (Client.TopicRequest None)
| means_set_topic a w ws t :
    word w -> Forall word (snd <$> ws) ->
    means ("/topic" +:+ gaps ((a, w) :: ws) t)
      (Client.TopicRequest (Some (join_with " " (w :: (snd <$> ws)))))
| means_whisper a target b body :
    word target -> begins body ->
    means ("/whisper" +:+ spaces (Datatypes.S a) +:+ target +:+ spaces (Datatypes.S b) +:+ body)
      (Client.Whisper target body)
| means_kick a nick ws t :
    word nick -> Forall word (snd <$> ws) ->
    means ("/kick" +:+ gaps ((a, nick) :: ws) t)
      (Client.KickRequest nick (join_with " " (snd <$> ws))).

Definition nonempty_fields (s : string) : list string := filter (fun a => a <> "") (getlines " " s).

Lemma getlines_word w : word w -> getlines " " w = [w].
Proof. intros [Hne Hf]. by apply getlines_one. Qed.

Lemma fields_spaces n s : nonempty_fields (spaces n +:+ s) = nonempty_fields s.
Proof.
  unfold nonempty_fields. induction n as [|n IH]; [done|]. cbn [spaces]. rewrite sapp_cons.
  cbn [getlines]. rewrite decide_True, filter_cons_False by (try done; intros Hn; by apply Hn). done.
Qed.

Lemma fields_only_spaces n : nonempty_fields (spaces n) = [].
Proof. rewrite <- (sapp_nil_r (spaces n)), fields_spaces. done. Qed.

(** After a word the line ends, or goes on with a space. *)
Lemma gaps_cases ws t :
  gaps ws t = "" /\ ws = [] \/
  exists r, gaps ws t = String " " r /\ nonempty_fields r = nonempty_fields (gaps ws t).
Proof.
  destruct ws as [|[a w] ws]; [destruct t as [|t]; [by left|]|]; right; cbn [gaps spaces].
  - exists (spaces t). split; [done|]. symmetry. apply (fields_spaces 1 (spaces t)).
  - exists (spaces a +:+ w +:+ gaps ws t). split; [by rewrite sapp_cons|].
    symmetry. apply (fields_spaces 1).
Qed.

Lemma getlines_gaps w ws t : word w ->
  exists tail, getlines " " (w +:+ gaps ws t) = w :: tail /\
    filter (fun a => a <> "") tail = nonempty_fields (gaps ws t).
Proof.
  intros Hw. destruct (gaps_cases ws t) as [[-> ->] | (r & -> & Hr)].
  - exists []. rewrite sapp_nil_r. split; [by apply getlines_word|done].
  - exists (getlines " " r). split; [apply getlines_app, Hw|]. done.
Qed.

Lemma fields_gaps ws t : Forall word (snd <$> ws) -> nonempty_fields (gaps ws t) = snd <$> ws.
Proof.
  induction ws as [|[a w] ws IH]; cbn [gaps fmap list_fmap snd]; [intros _; apply fields_only_spaces|].
  intros [Hw Hf]%list.Forall_cons. rewrite fields_spaces.
  destruct (getlines_gaps w ws t Hw) as (tail & He & Ht). unfold nonempty_fields at 1. rewrite He.
  rewrite filter_cons, decide_True by apply Hw. f_equal. by rewrite Ht, IH.
Qed.

(** What [parse_command] reads of a command and its words. *)
Lemma parse_typed name ws t :
  word name -> Forall word (snd <$> ws) ->
  parse_command (String "/" (name +:+ gaps ws t)) = Some (MkCommand name (snd <$> ws)).
Proof.
  intros Hn Hf. unfold parse_command, split. destruct (getlines_gaps name ws t Hn) as (tail & -> & ->).
  by rewrite fields_gaps.
Qed.

Section guest_lines.
Context {S : Type} `{ServerStorage S} `{Sodium} `{Platform}.
Abbreviation P := (Process (S := S)).

(** What a guest's line makes of the process: the client posts one frame. *)
Definition posts (p p' : P) (message : Client.message) : Prop :=
  exists cw cw' frame,
    guest p = Some cw /\ guest p' = Some cw' /\
    ChatClient.tasks cw' = (ChatClient.tasks cw ++ [TaskSend frame])%list /\
    decode_client_frame (line_of frame) = success message /\
    screen p' = screen p /\ host p' = None.

(** A guest that is connected. *)
Record guest_ready (p : P) (cw : ClientWorld) : Prop := {
  guest_only : host p = None;
  guest_client : guest p = Some cw;
  guest_connected : ChatClient.connected_ (client cw) = true;
  guest_open : ChatClient.closing_ (client cw) = false;
}.

Lemma client_send_posts message (p : P) cw :
  guest_ready p cw -> valid_client_message message = true -> posts p (client_send message p).2 message.
Proof.
  intros [Hh Hg Hc Ho] Hv. destruct (client_line _ Hv) as (frame & He & Hd).
  unfold client_send, client_call, modify. cbn [snd]. rewrite Hg.
  rewrite (client_sends _ frame) by done. exists cw. do 2 eexists. by split.
Qed.

Lemma either_guest m1 m2 (p : P) cw : guest_ready p cw -> (either m1 m2 p).2 = (m2 p).2.
Proof. intros [Hh Hg _ _]. unfold either. rewrite bind_snd. cbn [get fst snd]. by rewrite Hh, Hg. Qed.

Lemma continue_snd (m : M P unit) (p : P) : ((m ;;; ret Continue) p).2 = (m p).2.
Proof. by rewrite bind_snd. Qed.

(** A line that is not a command. *)
Lemma guest_chat_posts text context (p : P) cw :
  text <> "" -> (forall rest, text <> String "/" rest) -> valid_client_message (Client.Chat text) = true ->
  guest_ready p cw -> posts p (handle_chat_input text context p).2 (Client.Chat text).
Proof.
  intros Hne Hc Hv Hg. pose proof (client_send_posts _ _ _ Hg Hv) as Hs.
  unfold handle_chat_input. apply sempty_false in Hne as ->. unfold parse_command.
  assert (match text with String "/" _ => False | _ => True end) as Hslash.
  { destruct text as [|[[] [] [] [] [] [] [] []] text]; try done. by apply (Hc text). }
  destruct text as [|[[] [] [] [] [] [] [] []] text]; try done;
    rewrite continue_snd; unfold chat_line; rewrite (either_guest _ _ p cw Hg); exact Hs.
Qed.

Lemma request_rooms_posts (p : P) cw :
  guest_ready p cw -> posts p (client_call (S := S) request_rooms p).2 Client.ListRooms.
Proof.
  intros [Hh Hg Hc Ho]. destruct (client_line Client.ListRooms eq_refl) as (frame & He & Hd).
  unfold client_call, modify. cbn [snd]. rewrite Hg. unfold request_rooms. rewrite bind_snd.
  rewrite (client_sends _ frame) by done. exists cw. do 2 eexists. by split.
Qed.

(** A command with its words, run. *)
Lemma run_typed name ws t context (p : P) :
  word name -> Forall word (snd <$> ws) ->
  handle_chat_input (String "/" (name +:+ gaps ws t)) context p
  = run_command context (String "/" (name +:+ gaps ws t)) (MkCommand name (snd <$> ws)) p.
Proof. intros Hn Hf. unfold handle_chat_input. by rewrite parse_typed. Qed.

Lemma run_whisper r context (p : P) :
  exists args, handle_chat_input ("/whisper " +:+ r) context p
    = run_command context ("/whisper " +:+ r) (MkCommand "whisper" args) p.
Proof.
  eexists. unfold handle_chat_input. cbn [sempty]. unfold parse_command, split.
  change ("/whisper " +:+ r) with (String "/" ("whisper" +:+ String " " r)). cbn match.
  rewrite getlines_app by done. done.
Qed.

(** Opens the goal about a command whose line is [name] with the words [ws]. *)
Ltac typed_command name ws t :=
  lazymatch goal with
  | |- context [handle_chat_input ?line _ _] =>
      change line with (String "/" (name +:+ gaps ws t))
  end;
  rewrite (run_typed name ws t) by (try done; repeat (apply list.Forall_cons_2 || apply list.Forall_nil_2); done);
  unfold run_command; rewrite bind_snd;
  cbn [get fst snd command_name command_args fmap list_fmap String.eqb Ascii.eqb Bool.eqb];
  rewrite continue_snd.

(** What a guest types arrives. A connected guest's line that means a message
    which the protocol can carry - chat, a whisper, or a room, topic, list or kick
    command, with any number of spaces between the words - makes the client post one
    frame, which the server decodes to exactly that message; the chat on the screen
    does not change. *)
Theorem guest_line_arrives input message context (p : P) cw :
  means input message -> valid_client_message message = true -> guest_ready p cw ->
  posts p (handle_chat_input input context p).2 message.
Proof.
  intros Hm Hv Hg. pose proof (client_send_posts _ _ _ Hg Hv) as Hs.
  destruct Hm as [text Hne Hc|ws t Hf|a name t Hn|a name t Hn|t|t|a w ws t Hw Hf
                 |a target b body Ht Hb|a nick ws t Hn Hf].
  - by apply (guest_chat_posts text context p cw).
  - typed_command "rooms" ws t. rewrite (either_guest _ _ p cw Hg). by apply (request_rooms_posts p cw).
  - typed_command "create" [(a, name)] t. unfold room_command.
    by rewrite (either_guest _ _ p cw Hg).
  - typed_command "join" [(a, name)] t. unfold room_command.
    by rewrite (either_guest _ _ p cw Hg).
  - typed_command "leave" (@nil (nat * string)) t. unfold leave_command. by rewrite (either_guest _ _ p cw Hg).
  - typed_command "topic" (@nil (nat * string)) t. unfold topic_command. by rewrite (either_guest _ _ p cw Hg).
  - typed_command "topic" ((a, w) :: ws) t. unfold topic_command.
    by rewrite (either_guest _ _ p cw Hg).
  - assert (exists r, "/whisper" +:+ spaces (Datatypes.S a) +:+ target +:+ spaces (Datatypes.S b) +:+ body
      = "/whisper " +:+ r) as [r Er] by by eexists.
    destruct (run_whisper r context p) as [args Erun]. rewrite <- Er in Erun. rewrite Erun. unfold run_command.
    rewrite bind_snd. cbn [get fst snd command_name String.eqb Ascii.eqb Bool.eqb].
    rewrite continue_snd. unfold whisper_command.
    rewrite (extract_whisper_parts "/whisper" a target b body) by done.
    by rewrite (either_guest _ _ p cw Hg).
  - typed_command "kick" ((a, nick) :: ws) t. unfold kick_command. rewrite bind_snd. cbn [get fst snd].
    unfold is_host. rewrite (guest_only _ _ Hg). exact Hs.
Qed.
End guest_lines.
