(* ===== verification/Conversation.v ===== *)
(** A line of chat from one terminal to all others: what a guest types is posted by its
    client, told to the room by the server, and shown by the client of each member. *)

From S2P Require Import Prelude Frame Message Utils AppState Tls ChatClient Login Commands.
From S2P Require Import StorageApi World ChatServer ClientSession ServerInvariant ServerBoot ServerSteps.
From S2P Require Import Walk Stability ServerProperties RoomProperties.
Local Open Scope string_scope.
Local Open Scope chat_scope.

(** A [%H:%M:%S] time: eight characters, none of them a control character. *)
Definition clock_format `{Platform} : Prop :=
  forall t, size_of (local_hms t) = 8%N /\ sall (fun c => negb (iscntrl c)) (local_hms t) = true.

(* ===================================================================== *)
(** * The frame of a line *)

Lemma text_of_plain s n :
  s <> "" -> (size_of s <= n)%N -> sall (fun c => negb (iscntrl c && negb (Ascii.eqb c tab))) s = true ->
  is_valid_text s n = true.
Proof.
  intros Hne Hs Hp. unfold is_valid_text. apply sempty_false in Hne as ->. apply N.ltb_ge in Hs as ->.
  cbn [orb]. by rewrite sany_sall, negb_involutive.
Qed.

Lemma plain_of_text s n : is_valid_text s n = true ->
  sall (fun c => negb (iscntrl c && negb (Ascii.eqb c tab))) s = true.
Proof.
  unfold is_valid_text. destruct (_ || _)%bool; [done|]. by rewrite sany_sall, negb_involutive.
Qed.

Lemma nickname_plain nick : is_valid_nickname nick = true ->
  (size_of nick <= 31)%N /\ sall (fun c => negb (iscntrl c && negb (Ascii.eqb c tab))) nick = true.
Proof.
  rewrite utils_nickname. unfold Message.is_valid_nickname. destruct (_ || _)%bool eqn:E; [done|].
  apply orb_false_iff in E as [_ Hs%N.ltb_ge]. rewrite sany_sall, negb_involutive. intros Hp. split; [done|].
  revert Hp. apply sall_impl. intros c. by destruct (iscntrl c).
Qed.

Section frames.
Context `{Platform} (HC : clock_format).

Lemma chat_line_plain reading nick body :
  is_valid_nickname nick = true -> is_valid_chat_message body = true ->
  is_valid_text (chat_line reading nick body) MAX_FRAME_LENGTH = true /\
  (size_of (chat_line reading nick body) <= 1044)%N.
Proof.
  intros [Hn Hpn]%nickname_plain Hb. rewrite utils_chat_message in Hb.
  destruct (valid_text_spec _ _ Hb) as [_ Hs]. pose proof (plain_of_text _ _ Hb) as Hpb.
  destruct (HC (system_clock reading)) as [Ht Hpt]. unfold MAX_CHAT_LENGTH in Hs.
  assert (size_of (chat_line reading nick body) <= 1044)%N as Hsize.
  { unfold chat_line, timestamp. rewrite !size_of_app, Ht.
    change (size_of "[") with 1%N. change (size_of "] ") with 2%N. change (size_of ": ") with 2%N. lia. }
  split; [|done]. apply text_of_plain; [done|unfold MAX_FRAME_LENGTH; lia|].
  assert (sall (fun c => negb (iscntrl c && negb (Ascii.eqb c tab))) (local_hms (system_clock reading)) = true) as Hpt'
    by (revert Hpt; apply sall_impl; intros c; by destruct (iscntrl c)).
  unfold chat_line, timestamp. by rewrite !sall_app, Hpt', Hpn, Hpb.
Qed.

Lemma room_text_line id reading nick body :
  (0 < id < 2 ^ 64)%N -> is_valid_nickname nick = true -> is_valid_chat_message body = true ->
  exists wire, encode_server_frame (Server.RoomText id (chat_line reading nick body)) = success wire /\
    decode_server_frame (line_of wire) = success (Server.RoomText id (chat_line reading nick body)).
Proof.
  intros Hid Hn Hb. destruct (chat_line_plain reading nick body Hn Hb) as [Hv Hs].
  apply server_line; cbn [valid_server_message serialize_server].
  - rewrite Hv, andb_true_r. unfold valid_room_id. apply andb_true_iff. rewrite !N.ltb_lt. lia.
  - pose proof (to_string_width 64 id ltac:(lia)). rewrite !size_of_app.
    change (size_of "ROOM_TEXT|") with 10%N. change (size_of "|") with 1%N. lia.
Qed.
End frames.

(* ===================================================================== *)
(** * Server and members *)

Section conversation.
Context {S : Type} `{ServerStorage S} `{Sodium} `{Platform}.
Abbreviation W := (World S).
Abbreviation P := (Process (S:=S)).

(** The session may speak in its room, and its quota there is not used up. *)
Record may_speak (s : SessionId) (nick : string) (room : Room) (w : W) : Prop := {
  speaks_negotiated : protocol_negotiated_ (session w s) = true;
  speaks_password : has_password (server w) && negb (authenticated_ (session w s)) = false;
  speaks_nickname : nickname w s = nick;
  speaks_named : nick <> "";
  speaks_room : rooms_ (server w) !! active_room_of w s = Some room;
  speaks_quota : (consume (steady_clock (steady_reads w))
    (default [] (recent_messages_by_room_ (session w s) !! active_room_of w s))).2 = true;
}.

(** What the room's line changes: one frame for each member, the room's history, the
    log, and the host's screen when the host is in the room. *)
Definition room_told (id : RoomId) (room : Room) (msg wire : string) (w w' : W) : Prop :=
  tasks w' = (tasks w ++ ((fun m => TaskDeliver m wire) <$> set_iter (members room)))%list /\
  server w' = with_rooms (<[id := with_recent_messages
    (push_bounded (history_limit_ (server w)) (recent_messages room) msg) room]> (rooms_ (server w))) (server w) /\
  log_ w' = (fun lines => lines ++ ["[#" +:+ room_name room +:+ "] " +:+ msg])%list <$> log_ w /\
  app w' = (if has_local (server w) && (local_room_id w =? id)%N then push_message msg (app w) else app w).

(** The quota is asked once, and a reading of the clock is taken. *)
Lemma quota_granted s (w : W) :
  (consume (steady_clock (steady_reads w))
    (default [] (recent_messages_by_room_ (session w s) !! active_room_of w s))).2 = true ->
  exists w1, consume_message_quota s w = (true, w1) /\ server w1 = server w /\ tasks w1 = tasks w /\
    log_ w1 = log_ w /\ app w1 = app w /\ system_reads w1 = system_reads w.
Proof.
  intros Hq. unfold consume_message_quota, read_steady_clock, bind, get, ret, on_session, modify. cbn.
  change (active_room_of (put_steady_reads (steady_reads w + 1) w) s) with (active_room_of w s).
  change (session (put_steady_reads (steady_reads w + 1) w) s) with (session w s).
  destruct (consume _ _) as [recent granted]. cbn in Hq. subst. by eexists.
Qed.

Lemma server_tells_room s nick body line room wire (w : W) :
  may_speak s nick room w -> is_valid_chat_message body = true ->
  decode_client_frame line = success (Client.Chat body) ->
  value (encode_server_frame (Server.RoomText (active_room_of w s) (chat_line (system_reads w) nick body))) = Some wire ->
  room_told (active_room_of w s) room (chat_line (system_reads w) nick body) wire w (on_line s line w).2.
Proof.
  intros [Hn Hp Hnick Hne Hr Hq] Hb Hd He. rewrite on_line_eq, Hd. cbn [value success].
  set (w0 := line_started s w).
  assert (session w0 s = with_reading false (session w s)) as E0
    by (unfold w0; by rewrite line_started_session, decide_True).
  unfold handle_message. rewrite bind_snd. cbn [get fst snd]. rewrite E0.
  cbn [with_reading protocol_negotiated_ authenticated_]. rewrite Hn. cbn [negb].
  change (server w0) with (server w). rewrite Hp. cbn [handle_request].
  unfold handle_chat. rewrite bind_snd. cbn [get fst snd]. 
  assert (nickname w0 s = nick) as -> by (unfold w0; by rewrite line_started_nickname). apply sempty_false in Hne as ->.
  destruct (quota_granted s w0) as (w1 & Eq & Hs1 & Ht1 & Hl1 & Ha1 & Hc1).
  { unfold active_room_of. rewrite E0. exact Hq. }
  rewrite !bind_snd, Eq. cbn [fst snd negb]. rewrite Hb. cbn [negb]. rewrite !bind_snd.
  assert (active_room_of w0 s = active_room_of w s) as Eid by (unfold active_room_of; by rewrite E0).
  unfold timestamp_text. cbn [bind read_system_clock ret fst snd]. rewrite Hc1, Eid.
  change (system_reads w0) with (system_reads w).
  set (w2 := put_system_reads _ w1).
  change ("[" +:+ timestamp (system_reads w) +:+ "] " +:+ nick +:+ ": " +:+ body)
    with (chat_line (system_reads w) nick body).
  destruct (broadcast_room_exact (active_room_of w s) (chat_line (system_reads w) nick body) nick w2 room wire)
    as (Ht & _ & Hs & Hl & Ha); [|done|].
  { change (server w2) with (server w1). by rewrite Hs1. }
  change (server w2) with (server w1) in *. change (tasks w2) with (tasks w1) in *.
  change (log_ w2) with (log_ w1) in *. change (app w2) with (app w1) in *.
  change (local_room_id w2) with (local_room_id_ (server w1)) in *.
  rewrite Hs1, Ht1, Hl1, Ha1 in *. unfold room_told. by split_and!.
Qed.

(** A member shows the line when it is in that room, and else nothing. *)
Lemma member_shows line id msg cw :
  ChatClient.protocol_negotiated_ (client cw) = true ->
  decode_server_frame line = success (Server.RoomText id msg) ->
  ChatClient.app (ChatClient.on_line line cw).2
  = (if (id =? g_active_room_id (ChatClient.app cw))%N then push_message msg (ChatClient.app cw) else ChatClient.app cw).
Proof.
  intros Hn Hd. rewrite (client_reads _ _ _ Hn Hd). cbn [ChatClient.handle_server_message].
  unfold ChatClient.handle_room_text. rewrite bind_snd. cbn [get fst snd].
  change (active_room_id (ChatClient.app (ChatClient.on_client (ChatClient.with_reading false) cw).2))
    with (g_active_room_id (ChatClient.app cw)). by destruct (_ =? _)%N.
Qed.

(** C26: a line of chat arrives. A guest types a line that is no command: its client
    posts one frame. When the server reads it from a session that may speak in a room,
    it posts one frame to each member of that room and none to anybody else, keeps the
    line in the room's bounded history and in the log, and changes nothing else of its
    state; the host sees the line when in that room. And whoever reads that frame shows
    the line, with the time and the speaker's nickname, exactly when in that room. *)
Theorem chat_arrives text context (p : P) cw s nick room (w : W) :
  clock_format -> Inv w -> guest_ready p cw -> may_speak s nick room w ->
  is_valid_chat_message text = true -> (forall rest, text <> String "/" rest) ->
  let id := active_room_of w s in
  let msg := chat_line (system_reads w) nick text in
  exists cw' frame wire,
    Commands.guest (handle_chat_input text context p).2 = Some cw' /\
    ChatClient.tasks cw' = (ChatClient.tasks cw ++ [TaskSend frame])%list /\
    screen (handle_chat_input text context p).2 = screen p /\
    room_told id room msg wire w (on_line s (line_of frame) w).2 /\
    forall member, ChatClient.protocol_negotiated_ (client member) = true ->
      ChatClient.app (ChatClient.on_line (line_of wire) member).2
      = (if (id =? g_active_room_id (ChatClient.app member))%N
         then push_message msg (ChatClient.app member) else ChatClient.app member).
Proof.
  intros HC I Hg Hm Hv Hs id msg.
  assert (is_valid_nickname nick = true) as Hnick.
  { rewrite <- (speaks_nickname _ _ _ _ Hm). apply (inv_nickname _ _ I s). 
    change (nickname w s <> ""). rewrite (speaks_nickname _ _ _ _ Hm). apply Hm. }
  assert (0 < id < 2 ^ 64)%N as Hid.
  { destruct (inv_room_id _ _ I _ _ (speaks_room _ _ _ _ Hm)) as [_ Hlt]. split; [apply Hlt|].
    by eapply fresh_small; [apply (inv_fresh _ _ I)|apply Hm]. }
  assert (valid_client_message (Client.Chat text) = true) as Hvm by (cbn; by rewrite <- utils_chat_message).
  destruct (guest_chat_posts text context p cw) as (cw0 & cw' & frame & Hcw & Hcw' & Ht & Hd & Hscreen & _); try done.
  { intros ->. done. }
  assert (cw0 = cw) as -> by (destruct Hg; congruence).
  destruct (room_text_line HC id (system_reads w) nick text Hid Hnick Hv) as (wire & He & Hdw).
  exists cw', frame, wire. split_and!; try done.
  - apply (server_tells_room s nick text); [done..|]. fold id. by rewrite He.
  - intros member Hmn. by apply member_shows.
Qed.
End conversation.
