(* ===== verification/ClientScenarios.v ===== *)
(** Concrete executions of a client, alone and against a server: the events of
    [ClientProperties.v] as an executable function, and the instances of the
    theorems of [ClientProperties.v], [ClientEnd.v], [Login.v], [Commands.v] and
    [Conversation.v]. *)

From S2P Require Import Prelude Frame Message Utils AppState Tls StorageApi World ChatServer ClientSession ServerInvariant ServerSteps ServerProperties Scenarios.
From S2P Require Import ChatClient ClientProperties ClientEnd Login Commands Conversation.
Local Open Scope string_scope.
Local Open Scope chat_scope.

(* ===================================================================== *)
(** * Events, executed *)

(** The list without the first occurrence of an operation, if there is one. *)
Fixpoint take_pending (p : Pending) (l : list Pending) : option (list Pending) :=
  match l with
  | [] => None
  | q :: l' => if decide (q = p) then Some l' else (fun r => q :: r) <$> take_pending p l'
  end.

Section client_events.
Context `{OpenSSL} `{Platform} `{Sodium} `{Disk}.

Definition consume (e : Event) (w : ClientWorld) : option ClientWorld :=
  match completes e with
  | Some p => (fun l => put_pending l w) <$> take_pending p (pending w)
  | None =>
      match e with
      | TaskRuns t =>
          match tasks w with
          | t' :: rest => if decide (t' = t) then Some (put_tasks rest w) else None
          | [] => None
          end
      | _ => Some w
      end
  end.

Definition allowedb (e : Event) (w : ClientWorld) : bool :=
  match e with
  | LineRead _ | ReadFailed _ => reading (client w)
  | WriteDone | WriteFailed _ _ => write_pending (client w)
  | DeadlineOver _ _ true => false
  | _ => true
  end.

Definition perform_event (e : Event) (w : ClientWorld) : option ClientWorld :=
  if allowedb e w then (fun w1 => (perform e w1).2) <$> consume e w else None.

Fixpoint perform_events (es : list Event) (tr : list (ClientWorld * Event)) (w : ClientWorld) :
    option (list (ClientWorld * Event) * ClientWorld) :=
  match es with
  | [] => Some (tr, w)
  | e :: es' => match perform_event e w with
                | Some w' => perform_events es' (tr ++ [(w, e)])%list w'
                | None => None
                end
  end.

Lemma take_pending_spec p l l' :
  take_pending p l = Some l' ->
  exists before after, l = (before ++ p :: after)%list /\ l' = (before ++ after)%list.
Proof.
  revert l'. induction l as [|q l IH]; intros l'; cbn [take_pending]; [done|].
  destruct (decide (q = p)) as [->|Hne]; [intros [= <-]; by exists [], l|].
  destruct (take_pending p l) as [r|]; [|done]. intros [= <-].
  destruct (IH r eq_refl) as (before & after & -> & ->). by exists (q :: before), after.
Qed.

Lemma consume_consumes e w w1 : consume e w = Some w1 -> consumes w e w1.
Proof.
  unfold consume. destruct (completes e) as [p|] eqn:Ep.
  - destruct (take_pending p (pending w)) as [l|] eqn:E; [|done]. intros [= <-].
    destruct (take_pending_spec _ _ _ E) as (before & after & Hw & ->).
    by apply (consumes_pending w e p before after).
  - destruct e; try (intros [= <-]; by apply consumes_nothing).
    destruct (tasks w) as [|t' rest] eqn:E; [done|]. destruct (decide (t' = t)) as [->|]; [|done].
    intros [= <-]. by apply consumes_task.
Qed.

Lemma perform_event_step e w w' : perform_event e w = Some w' -> step w e w'.
Proof.
  unfold perform_event. destruct (allowedb e w) eqn:Ea; [|done].
  destruct (consume e w) as [w1|] eqn:E; [|done]. intros [= <-].
  apply do_step; [|by apply consume_consumes]. by destruct e as [| |? ? []| | | | | | | | | | | | |].
Qed.

Lemma perform_events_runs es w0 tr w tr' w' :
  runs w0 tr w -> perform_events es tr w = Some (tr', w') -> runs w0 tr' w'.
Proof.
  revert tr w. induction es as [|e es IH]; intros tr w Hr; cbn [perform_events]; [by intros [= <- <-]|].
  destruct (perform_event e w) as [w1|] eqn:E; [|done]. apply IH.
  eapply runs_step; [exact Hr|]. by apply perform_event_step.
Qed.
End client_events.

(* ===================================================================== *)
(** * A client that connects *)

Definition ann_identity : ClientIdentity :=
  let '(pk, sk) := crypto_sign_keypair 5 in MkIdentity pk sk (bytes_to_hex pk).

Definition hello_frame : string := default "" (value (encode_server_frame (Server.Hello VERSION))).

(** With TLS, to a server seen for the first time; the posted Hello is sent and the
    server's is read. *)
Definition connect_events : list Event :=
  [CallSetIdentity ann_identity;
   Connect "chat.example" 7777; Resolved 0 "chat.example" 7777 None;
   TcpDone 0 "chat.example" 7777 None None; HandshakeDone 0 "chat.example" 7777 None alpha].

Definition empty_run := (@nil (ClientWorld * Event), new_client default_client_config initial_app_state ∅).
Definition connecting_run := default empty_run
  (perform_events (take 3 connect_events) [] empty_run.2).
Definition connected_run := default empty_run
  (perform_events (connect_events ++ [LineRead (line_of hello_frame)]) [] empty_run.2).

Lemma connecting_runs : runs empty_run.2 connecting_run.1 connecting_run.2.
Proof.
  apply (perform_events_runs (take 3 connect_events) empty_run.2 [] empty_run.2); [constructor|].
  unfold connecting_run. destruct (perform_events _ _ _) as [[tr w]|] eqn:E; [done|].
  revert E. vm_compute. done.
Qed.

Lemma connected_runs : runs empty_run.2 connected_run.1 connected_run.2.
Proof.
  apply (perform_events_runs (connect_events ++ [LineRead (line_of hello_frame)]) empty_run.2 []
    empty_run.2); [constructor|].
  unfold connected_run. destruct (perform_events _ _ _) as [[tr w]|] eqn:E; [done|].
  revert E. vm_compute. done.
Qed.


Lemma silent_until_accepted_witness :
  certificate_accepted default_client_config connected_run.1 \/
  (connected_ (client connected_run.2) = false /\ sent (client connected_run.2) = [] /\
   write_queue_ (client connected_run.2) = [] /\
   forall wire, TaskSend wire ∉ tasks connected_run.2).
Proof.
  apply (silent_until_accepted default_client_config initial_app_state ∅ connected_run.1
    connected_run.2); [reflexivity|]. apply connected_runs.
Defined.

(* ===================================================================== *)
(** * Joining a server with two users *)

(** A third session, which has said Hello. *)
Definition third_events : list Scenarios.Event :=
  [EventAccept 3%N; EventHandshake 3%N; EventSend 3%N (Client.Hello VERSION)].
Definition three_sessions : World unit := default two_clients (run_events third_events two_clients).

Lemma ann_signs challenge :
  verify_identity_signature (public_key_hex ann_identity) challenge
    (sign_identity_challenge ann_identity challenge) = true.
Proof.
  rewrite verify_signed.
  { change (public_key ann_identity) with (crypto_sign_keypair 5).1.
    change (secret_key ann_identity) with (crypto_sign_keypair 5).2. apply signature_verifies. }
  split; [|split]; vm_compute; reflexivity.
Qed.

Lemma login_completes_witness :
  exists f1 f3,
    let w1 := (ClientSession.on_line 3%N (line_of f1) three_sessions).2 in
    let w2 := (ClientSession.on_line 3%N (line_of f3) w1).2 in
    nickname w2 3%N = "carol" /\
    identities_ (server w2) !! "carol" = Some (public_key_hex ann_identity).
Proof.
  destruct (login_completes ann_identity "carol" 3%N connected_run.2 three_sessions)
    as (f1 & f2 & f3 & fa & fj & _ & _ & _ & _ & Hn & Hi & _).
  - split; vm_compute; reflexivity.
  - vm_compute; reflexivity.
  - exact ann_signs.
  - split; try (vm_compute; reflexivity). eexists. vm_compute. reflexivity.
  - exists f1, f3. split; [exact Hn|exact Hi].
Defined.

(* ===================================================================== *)
(** * A line typed by the guest *)

Definition guest_process : Process (S := unit) :=
  MkProcess None (Some connected_run.2) initial_app_state 0.

Lemma guest_line_arrives_witness :
  posts guest_process
    (handle_chat_input "/whisper  bob   see you at  8" (MkContext "carol" false) guest_process).2
    (Client.Whisper "bob" "see you at  8").
Proof.
  apply (guest_line_arrives "/whisper  bob   see you at  8" _ (MkContext "carol" false) guest_process
    connected_run.2).
  - apply (means_whisper 1 "bob" 2 "see you at  8"); [by split|done].
  - reflexivity.
  - split; vm_compute; reflexivity.
Defined.

(* ===================================================================== *)
(** * A line of chat *)

(** The client of somebody in the den. *)
Definition den_member : ClientWorld :=
  ChatClient.put_app (activate_room 2%N "den" "" initial_app_state) connected_run.2.

(** Ann speaks in the den; Bob, who is there, reads it. *)
Lemma chat_arrives_witness :
  clock_format /\ may_speak 1%N "ann" den two_clients /\
  exists frame wire,
    let w' := (ClientSession.on_line 1%N (line_of frame) two_clients).2 in
    World.tasks w' = (World.tasks two_clients ++ [TaskDeliver 1%N wire; TaskDeliver 2%N wire])%list /\
    message_snapshot (ChatClient.app (ChatClient.on_line (line_of wire) den_member).2) = ["[12:00:00] ann: hello"].
Proof.
  assert (clock_format) as HC by (intros t; vm_compute; split; reflexivity).
  assert (may_speak 1%N "ann" den two_clients) as Hm.
  { split; try (vm_compute; reflexivity). vm_compute. discriminate. }
  split; [exact HC|]. split; [exact Hm|].
  destruct (chat_arrives "hello" (MkContext "ann" false) guest_process connected_run.2 1%N "ann" den two_clients
    HC two_clients_inv) as (cw' & frame & wire & _ & _ & _ & (Ht & _) & Hshow).
  - split; vm_compute; reflexivity.
  - exact Hm.
  - reflexivity.
  - intros rest Hr. discriminate Hr.
  - exists frame, wire. cbv zeta. split.
    + rewrite Ht. apply f_equal. vm_compute. reflexivity.
    + rewrite (Hshow den_member) by (vm_compute; reflexivity). vm_compute. reflexivity.
Defined.

(* ===================================================================== *)
(** * A client that leaves *)

(** The connected client is closed, while two lines are on their way to it. *)
Lemma closed_client_ends_witness :
  connecting_ (client connected_run.2) = false /\
  sn runs_out ((ChatClient.close connected_run.2).2, [""; "x"]).
Proof.
  assert (connecting_ (client connected_run.2) = false) as Hn by (vm_compute; reflexivity).
  split; [exact Hn|]. exact (proj1 (closed_client_ends alpha connected_run.2 [""; "x"] Hn)).
Defined.
