(* ===== verification/Invite.v ===== *)
(** Invites: [network/invite.h] and [network/invite.cpp]. The text of an invite, the
    checks on both sides, and the theorem that printing and reading agree. A thrown
    [std::invalid_argument] is [inl] of its message. *)

From S2P Require Import Prelude Utils Tls.
Local Open Scope string_scope.

Record Invite := MkInvite {
  host : string;
  port : N;             (* [std::uint16_t] *)
  tls : bool;
  password_required : bool;
  fingerprint : string;
}.

Definition with_fingerprint (fp : string) (i : Invite) : Invite :=
  MkInvite (host i) (port i) (tls i) (password_required i) fp.

(** The characters [find_first_not_of] passes over. *)
Definition is_host_char (c : ascii) : bool :=
  isalnum c || Ascii.eqb c "." || Ascii.eqb c "-" || Ascii.eqb c ":" || Ascii.eqb c "_"
  || Ascii.eqb c "%".

(** [None], or the message of the exception. *)
Definition validate (invite : Invite) : option string :=
  if sempty (host invite) || (HOST_MAX_LEN <? size_of (host invite))%N || (port invite =? 0)%N
     || negb (sall is_host_char (host invite))
  then Some "Invite contains an invalid address or port."
  else if negb (sempty (fingerprint invite))
          && (negb (tls invite) || sempty (normalize_fingerprint (fingerprint invite)))
  then Some "Invite contains an invalid TLS fingerprint."
  else None.

Definition flag (b : bool) : string := if b then "1" else "0".

Definition make_invite (invite : Invite) : string + string :=
  match validate invite with
  | Some error => inl error
  | None =>
      inr ("chatbox:1|" +:+ host invite +:+ "|" +:+ to_string (port invite) +:+ "|"
        +:+ flag (tls invite) +:+ "|" +:+ flag (password_required invite) +:+ "|"
        +:+ normalize_fingerprint (fingerprint invite))
  end.

(** The loop of [parse_invite]: [field] is the text from [start] to [i]. *)
Fixpoint invite_fields (text field : string) : list string :=
  match text with
  | EmptyString => [field]
  | String c text' =>
      if Ascii.eqb c "|" then field :: invite_fields text' ""
      else invite_fields text' (field +:+ String c "")
  end.

Definition is_flag (s : string) : bool := String.eqb s "0" || String.eqb s "1".

Definition parse_invite (text : string) : string + Invite :=
  match invite_fields text "" with
  | [version; host_field; port_field; tls_field; password_field; fingerprint_field] =>
      if negb (String.eqb version "chatbox:1") then inl "Malformed or unsupported invite version."
      else
        let '(port, ec, rest) := from_chars 16 port_field 7777 in
        if match ec with errc_ok => false | _ => true end || negb (sempty rest)
           || negb (is_flag tls_field) || negb (is_flag password_field)
        then inl "Invalid invite settings."
        else
          let invite := MkInvite host_field port (String.eqb tls_field "1")
                          (String.eqb password_field "1") fingerprint_field in
          match validate invite with
          | Some error => inl error
          | None => inr (with_fingerprint (normalize_fingerprint fingerprint_field) invite)
          end
  | _ => inl "Malformed or unsupported invite version."
  end.

(* ===================================================================== *)
(** * Lemmas *)

Lemma invite_fields_split text field :
  free_of "|" field = true -> invite_fields text field = split_on "|" (field +:+ text).
Proof.
  revert field. induction text as [|c text IH]; intros field Hf; cbn [invite_fields].
  - rewrite sapp_nil_r. symmetry. by apply split_on_free.
  - destruct (Ascii.eqb_spec c "|") as [->|Hc].
    + rewrite split_on_app by done. f_equal. by apply IH.
    + rewrite IH; [by rewrite sapp_assoc|]. rewrite free_of_app, Hf. unfold free_of. cbn.
      by rewrite bool_decide_false.
Qed.

Lemma host_chars_free s : sall is_host_char s = true -> free_of "|" s = true.
Proof. by apply free_of_impl. Qed.

Lemma flag_free b : free_of "|" (flag b) = true.
Proof. by destruct b. Qed.
Lemma flag_is_flag b : is_flag (flag b) = true.
Proof. by destruct b. Qed.
Lemma flag_field b : String.eqb (flag b) "1" = b.
Proof. by destruct b. Qed.

Lemma normalize_twice fp : normalize_fingerprint (normalize_fingerprint fp) = normalize_fingerprint fp.
Proof.
  destruct (sempty (normalize_fingerprint fp)) eqn:E.
  - by apply sempty_spec in E as ->.
  - apply sempty_false in E. by apply normal_normalize, normalize_normal.
Qed.

Lemma normalize_free fp : free_of "|" (normalize_fingerprint fp) = true.
Proof.
  destruct (sempty (normalize_fingerprint fp)) eqn:E.
  - by apply sempty_spec in E as ->.
  - apply sempty_false in E. apply normal_free; [by apply normalize_normal|done].
Qed.

(** A valid invite stays valid when its fingerprint is normalised. *)
Lemma validate_normalized i :
  validate i = None -> validate (with_fingerprint (normalize_fingerprint (fingerprint i)) i) = None.
Proof.
  unfold validate, with_fingerprint. cbn [host port tls fingerprint]. destruct (_ || _)%bool; [done|].
  rewrite normalize_twice. destruct (tls i); cbn [negb orb].
  - by destruct (sempty (normalize_fingerprint (fingerprint i))).
  - destruct (sempty (fingerprint i)) eqn:E; [|done]. by apply sempty_spec in E as ->.
Qed.

Lemma validate_host i : validate i = None -> free_of "|" (host i) = true.
Proof.
  unfold validate. destruct (_ || _)%bool eqn:E; [done|]. intros _. apply host_chars_free.
  repeat (apply orb_false_iff in E as [E ?]). by destruct (sall _ _).
Qed.

Lemma sapp_bar r : "|" +:+ r = String "|" r.
Proof. done. Qed.

(** What [make_invite] prints is read back, with the fingerprint normalised. *)
Lemma parse_made i text :
  (port i < 2 ^ 16)%N -> make_invite i = inr text ->
  parse_invite text = inr (with_fingerprint (normalize_fingerprint (fingerprint i)) i).
Proof.
  unfold make_invite. intros Hp. destruct (validate i) as [e|] eqn:Ev; [done|]. intros [= <-].
  unfold parse_invite. rewrite invite_fields_split by done. rewrite sapp_nil_l.
  change ("chatbox:1|" +:+ ?r) with ("chatbox:1" +:+ String "|" r).
  rewrite split_on_app by done. 
  rewrite !sapp_bar.
  rewrite (split_on_app _ (host i)) by by apply validate_host.
  rewrite (split_on_app _ (to_string _)) by by apply to_string_free_of.
  rewrite !(split_on_app _ (flag _)) by apply flag_free.
  rewrite split_on_free by apply normalize_free.
  rewrite from_chars_to_string by done. rewrite !flag_is_flag. cbn [String.eqb negb orb sempty].
  rewrite !flag_field. apply validate_normalized in Ev. unfold with_fingerprint in Ev. cbn in Ev.
  change (String.eqb "chatbox:1" "chatbox:1") with true. cbn [negb]. rewrite Ev.
  unfold with_fingerprint. cbn. by rewrite normalize_twice.
Qed.

(* ===================================================================== *)
(** * Theorem *)

(** An invite survives being shared. What [make_invite] prints is read back as
    the same invite with its fingerprint in normal form; and every text that
    [parse_invite] accepts, however it is written, denotes a valid invite whose
    printed form is read back as exactly that invite. *)
Theorem invite_round_trip :
  (forall i text, (port i < 2 ^ 16)%N -> make_invite i = inr text ->
    parse_invite text = inr (with_fingerprint (normalize_fingerprint (fingerprint i)) i)) /\
  (forall text i, parse_invite text = inr i ->
    validate i = None /\ (0 < port i < 2 ^ 16)%N /\
    (fingerprint i = "" \/ (tls i = true /\ normal (fingerprint i))) /\
    exists text', make_invite i = inr text' /\ parse_invite text' = inr i).
Proof.
  split; [apply parse_made|]. intros text i. unfold parse_invite at 1.
  destruct (invite_fields text "") as [|v [|h [|p [|t [|w [|f [|]]]]]]]; try done.
  destruct (negb _); [done|]. destruct (from_chars 16 p 7777) as [[n ec] rest] eqn:Ep.
  destruct (_ || _)%bool eqn:Ec; [done|]. set (j := MkInvite h n _ _ f).
  destruct (validate j) as [e|] eqn:Ev; [done|]. intros [= <-].
  repeat (apply orb_false_iff in Ec as [Ec ?]). destruct ec; try done.
  apply from_chars_ok in Ep. pose proof (validate_normalized j Ev) as Hv. change (fingerprint j) with f in Hv.
  split; [done|].
  assert (n <> 0%N) as Hn.
  { unfold validate in Ev. destruct (_ || _)%bool eqn:E in Ev; [done|].
    repeat (apply orb_false_iff in E as [E ?]). by apply N.eqb_neq. }
  split; [cbn; lia|]. split.
  - cbn [fingerprint with_fingerprint tls]. destruct (sempty (normalize_fingerprint f)) eqn:E.
    + left. by apply sempty_spec.
    + right. apply sempty_false in E. split; [|by apply normalize_normal].
      unfold validate in Ev. destruct (_ || _)%bool in Ev; [done|].
      change (tls j) with (String.eqb t "1") in Ev. destruct (String.eqb t "1") eqn:Et; [done|].
      cbn [negb orb andb] in Ev. change (fingerprint j) with f in Ev.
      destruct (sempty f) eqn:Ef; [|done]. by apply sempty_spec in Ef as ->.
  - unfold make_invite at 1. rewrite Hv. eexists. split; [reflexivity|].
    erewrite (parse_made (with_fingerprint (normalize_fingerprint f) j)).
    + unfold with_fingerprint. cbn. by rewrite normalize_twice.
    + done.
    + unfold make_invite. by rewrite Hv.
Qed.

Definition sample_invite : Invite := MkInvite "chat.example" 7777 true false "".

Lemma invite_round_trip_witness :
  make_invite sample_invite = inr "chatbox:1|chat.example|7777|1|0|" /\
  parse_invite "chatbox:1|chat.example|7777|1|0|" = inr sample_invite.
Proof.
  assert (make_invite sample_invite = inr "chatbox:1|chat.example|7777|1|0|") as Hm by reflexivity.
  split; [exact Hm|]. exact (proj1 invite_round_trip sample_invite _ eq_refl Hm).
Defined.
