(* ===== verification/Browser.v ===== *)
(** The directory of servers: [network/server_browser.h] and
    [network/server_browser.cpp]. [ServerBrowser] keeps the published servers and
    answers requests, [ServerBrowserClient] sends them. The network between the two
    is what each phase of an exchange ends with; times are readings of the system
    clock in nanoseconds. *)

From S2P Require Import Prelude Frame Message Utils Tls.
Local Open Scope string_scope.
Local Open Scope chat_scope.

(* ===================================================================== *)
(** * Fields *)

Record BrowserEntry := MkEntry {
  entry_name : string;
  entry_host : string;
  entry_port : N;
  has_password : bool;
  uses_tls : bool;
  entry_users : Z;
  updated_at : Z;
}.

Definition flag (b : bool) : string := if b then "1" else "0".

(** The loop of [sanitize_browser_field]. *)
Fixpoint sanitize_loop (text out : string) (max_len : N) : string :=
  match text with
  | EmptyString => out
  | String ch text' =>
      if (max_len <=? size_of out)%N then out
      else if iscntrl ch || Ascii.eqb ch "|" then sanitize_loop text' out max_len
      else sanitize_loop text' (out +:+ String ch "") max_len
  end.
Definition sanitize_browser_field (text : string) (max_len : N) : string :=
  sanitize_loop text "" max_len.

Definition browser_entry_key (host : string) (port : N) (name : string) : string :=
  host +:+ "|" +:+ to_string port +:+ "|" +:+ name.

Definition parse_u16_field (text : string) : option N :=
  match stoi text with
  | Some (v, "") => if ((v <? 0) || (65535 <? v))%Z then None else Some (Z.to_N v)
  | _ => None
  end.

(** [std::max(0, std::stoi(text))], and 0 when it throws. *)
Definition parse_users (text : string) : Z :=
  match stoi text with Some (v, _) => Z.max 0 v | None => 0 end.

(* ===================================================================== *)
(** * ServerBrowser *)

Record ServerBrowser := MkBrowser {
  entries_ : gmap string BrowserEntry;
  acceptor_open : bool;
  clock_reads : nat;
}.
Definition with_entries (m : gmap string BrowserEntry) (b : ServerBrowser) : ServerBrowser :=
  MkBrowser m (acceptor_open b) (clock_reads b).

Definition TTL : Z := BROWSER_ENTRY_TTL_SECONDS * 1000000000.
Definition fresh (now : Z) (e : BrowserEntry) : bool := (now - updated_at e <=? TTL)%Z.

Section browser.
Context `{Platform}.

Definition now : M ServerBrowser Z :=
  fun b => (system_clock (clock_reads b),
            MkBrowser (entries_ b) (acceptor_open b) (Datatypes.S (clock_reads b))).
Definition on_entries (f : gmap string BrowserEntry -> gmap string BrowserEntry) : M ServerBrowser unit :=
  modify (fun b => with_entries (f (entries_ b)) b).

Definition remove_stale_locked : M ServerBrowser unit :=
  let* t := now in
  on_entries (fun m => base.filter (fun kv => fresh t kv.2 = true) m).

Definition entries : M ServerBrowser (list BrowserEntry) :=
  let* t := now in
  let* b := get in
  ret (base.filter (fun e => fresh t e = true) (snd <$> map_iter (entries_ b))).

Definition register (fields : list string) : M ServerBrowser (list string) :=
  match fields with
  | _ :: name :: host :: port :: password :: users :: tls :: _ =>
      let name := sanitize_browser_field name BROWSER_NAME_MAX_LEN in
      let host := sanitize_browser_field host HOST_MAX_LEN in
      let name := if sempty name then "chatbox room" else name in
      match (if sempty host then None else parse_u16_field port) with
      | None => ret ["ERROR|Invalid host or port"]
      | Some port =>
          let* t := now in
          let entry := MkEntry name host port (String.eqb password "1") (String.eqb tls "1")
                         (parse_users users) t in
          remove_stale_locked ;;;
          on_entries (fun m => <[browser_entry_key host port name := entry]> m) ;;;
          ret ["OK"]
      end
  | _ => ret ["ERROR|REGISTER requires name, host, port, password flag, users, and TLS flag"]
  end.

Definition unregister (fields : list string) : M ServerBrowser (list string) :=
  match fields with
  | _ :: host :: port :: name :: _ =>
      match parse_u16_field port with
      | None => ret ["ERROR|Invalid port"]
      | Some port =>
          let host := sanitize_browser_field host HOST_MAX_LEN in
          let name := sanitize_browser_field name BROWSER_NAME_MAX_LEN in
          on_entries (fun m => delete (browser_entry_key host port name) m) ;;;
          ret ["OK"]
      end
  | _ => ret ["ERROR|UNREGISTER requires host, port, name"]
  end.

(** [duration_cast] truncates towards zero. *)
Definition server_line (t : Z) (e : BrowserEntry) : string :=
  "SERVER|" +:+ entry_name e +:+ "|" +:+ entry_host e +:+ "|" +:+ to_string (entry_port e)
  +:+ "|" +:+ flag (has_password e) +:+ "|" +:+ to_string_signed (entry_users e)
  +:+ "|" +:+ flag (uses_tls e)
  +:+ "|" +:+ to_string_signed (Z.quot (t - updated_at e) 1000000000).

Definition list_entries : M ServerBrowser (list string) :=
  let* t := now in
  remove_stale_locked ;;;
  let* b := get in
  ret ((server_line t ∘ snd <$> map_iter (entries_ b)) ++ ["END"])%list.

Definition process_request (request : string) : M ServerBrowser (list string) :=
  match split request "|" with
  | [] => ret ["ERROR|Empty request"]
  | (command :: _) as parts =>
      if String.eqb command "REGISTER" then register parts
      else if String.eqb command "UNREGISTER" then unregister parts
      else if String.eqb command "LIST" then list_entries
      else ret ["ERROR|Unknown request"]
  end.

(** What a session writes in answer to the line it reads. *)
Definition frames_of (responses : list string) : list string :=
  omap (fun response => value (encode_frame response)) responses.
Definition respond (line : string) : M ServerBrowser string :=
  let* responses :=
    match value (decode_frame line) with
    | None => ret ["ERROR|Invalid framing"]
    | Some request => process_request request
    end in
  ret (join_with "" (frames_of responses)).

(* ===================================================================== *)
(** * Sessions and the acceptor *)

(** What a session waits for. *)
Inductive Waiting := ForHandshake | ForRequest | ForWrite | Finished.
Record Session := MkSession {
  waiting : Waiting;
  stream_open : bool;
  write_payload_ : string;
}.
Record Directory := MkDirectory {
  browser : ServerBrowser;
  sessions : gmap N Session;
  accepting : bool;
  stop_posted : bool;
}.
Definition put_session (s : N) (x : Session) (d : Directory) : Directory :=
  MkDirectory (browser d) (<[s := x]> (sessions d)) (accepting d) (stop_posted d).

(** [accept_loop]: a session per connection, and the next accept while open. *)
Definition on_accept (ec : bool) (s : N) (d : Directory) : Directory :=
  let d := if ec then d else put_session s (MkSession ForHandshake true "") d in
  MkDirectory (browser d) (sessions d) (acceptor_open (browser d)) (stop_posted d).
Definition on_handshake (ec : bool) (s : N) (d : Directory) : Directory :=
  if ec then put_session s (MkSession Finished false "") d
  else put_session s (MkSession ForRequest true "") d.
(** On a read error the session is released, which closes its socket. *)
Definition on_request (line : option string) (s : N) (d : Directory) : Directory :=
  match line with
  | None => put_session s (MkSession Finished false "") d
  | Some line =>
      let '(payload, b) := respond line (browser d) in
      put_session s (MkSession ForWrite true payload)
        (MkDirectory b (sessions d) (accepting d) (stop_posted d))
  end.
Definition on_written (s : N) (d : Directory) : Directory :=
  match sessions d !! s with
  | Some x => put_session s (MkSession Finished false (write_payload_ x)) d
  | None => d
  end.
Definition stop (d : Directory) : Directory :=
  MkDirectory (browser d) (sessions d) (accepting d) true.
Definition run_stop (d : Directory) : Directory :=
  let b := browser d in
  MkDirectory (MkBrowser (entries_ b) false (clock_reads b)) (sessions d) (accepting d) false.
End browser.

(* ===================================================================== *)
(** * ServerBrowserClient *)

(** How a phase of an exchange ends, and one read of a reply. *)
Inductive Phase := PhaseDone (ec : option string) | PhaseCancelled | PhaseTimedOut.
Inductive ReadPhase := LineRead (line : string) | ReadFailed | ReadCancelled | ReadTimedOut.

Section client.
Context `{OpenSSL} `{Platform} `{Sodium} `{Disk}.

(** What the environment does in one exchange: what [configure_client_context] and
    [verify_peer] throw, each phase, the peer met, and the lines it sends, up to the
    response deadline where the list ends. *)
Record Exchange := MkExchange {
  context_error : option string;
  resolve : Phase;
  tcp_connect : Phase;
  tls_handshake : Phase;
  peer : SSL;
  verify_error : string;
  write : Phase;
  reads : list ReadPhase;
}.

(** [run_phase] and the look at [ec] after it: [None] to go on, or the error. *)
Definition phase_error (prefix : string) (p : Phase) : option string :=
  match p with
  | PhaseDone None => None
  | PhaseDone (Some message) => Some (prefix +:+ message)
  | PhaseCancelled => Some "Directory request cancelled."
  | PhaseTimedOut => Some "Directory request timed out."
  end.

Definition browser_connection_error (browser_host : string) (browser_port : N) (detail : string) : string :=
  detail +:+ " (" +:+ browser_host +:+ ":" +:+ to_string browser_port
  +:+ "). Make sure a chatbox browser server is running there and that port "
  +:+ to_string browser_port +:+ " is open or forwarded.".

Definition is_last (response : string) : bool :=
  String.eqb response "END" || String.eqb response "OK" || String.prefix "ERROR|" response.

(** [while (response.size() < 1000 && ...)]. *)
Fixpoint read_responses (reads : list ReadPhase) (response : list string) : string + list string :=
  if (1000 <=? length response)%nat then inr response
  else match reads with
  | [] => inr response
  | ReadFailed :: _ => inr response
  | ReadCancelled :: _ => inl "Directory request cancelled."
  | ReadTimedOut :: _ => inl "Directory request timed out."
  | LineRead line :: reads' =>
      match value (decode_frame line) with
      | None => inl "Invalid directory response"
      | Some payload =>
          let response := (response ++ [payload])%list in
          if is_last payload then inr response else read_responses reads' response
      end
  end.

(** The handshake and the verification of the directory, and the files after it. *)
Definition secure (x : Exchange) (browser_host : string) (browser_port : N) (config : ClientConfig)
    (files : Files) : option string * Files :=
  if negb (enabled config) then (None, files)
  else match phase_error "Directory TLS handshake failed: " (tls_handshake x) with
  | Some e => (Some e, files)
  | None =>
      match verify_peer files (peer x) browser_host browser_port config with
      | (Thrown, files) => (Some (browser_connection_error browser_host browser_port (verify_error x)), files)
      | (Returned verdict, files) =>
          (if accepted verdict then None else Some (verdict_error verdict), files)
      end
  end.

(** The error, or the responses; and the request frames that were sent. *)
Definition send_request (x : Exchange) (browser_host : string) (browser_port : N) (request : string)
    (config : ClientConfig) (files : Files) : (string + list string) * list string * Files :=
  match context_error x with
  | Some what => (inl (browser_connection_error browser_host browser_port what), [], files)
  | None =>
  match phase_error "Could not resolve directory: " (resolve x) with
  | Some e => (inl e, [], files)
  | None =>
  match phase_error "Could not connect to directory: " (tcp_connect x) with
  | Some e => (inl e, [], files)
  | None =>
  match secure x browser_host browser_port config files with
  | (Some e, files) => (inl e, [], files)
  | (None, files) =>
  match value (encode_frame request) with
  | None => (inl "Invalid directory request", [], files)
  | Some payload =>
  match phase_error "Could not send directory request: " (write x) with
  | Some e => (inl e, [payload], files)
  | None =>
      (match read_responses (reads x) [] with
       | inr [] => inl "No response from browser server"
       | r => r
       end, [payload], files)
  end end end end end end.

Definition register_request (entry : BrowserEntry) : string :=
  "REGISTER|" +:+ sanitize_browser_field (entry_name entry) BROWSER_NAME_MAX_LEN
  +:+ "|" +:+ sanitize_browser_field (entry_host entry) HOST_MAX_LEN
  +:+ "|" +:+ to_string (entry_port entry)
  +:+ "|" +:+ flag (has_password entry)
  +:+ "|" +:+ to_string_signed (Z.max 0 (entry_users entry))
  +:+ "|" +:+ flag (uses_tls entry).

Definition unregister_request (entry : BrowserEntry) : string :=
  "UNREGISTER|" +:+ sanitize_browser_field (entry_host entry) HOST_MAX_LEN
  +:+ "|" +:+ to_string (entry_port entry)
  +:+ "|" +:+ sanitize_browser_field (entry_name entry) BROWSER_NAME_MAX_LEN.

(** [None] is success. *)
Definition register_answer (r : string + list string) : option string :=
  match r with
  | inl error => Some error
  | inr [] => Some "No browser response"
  | inr (first :: _) => if String.eqb first "OK" then None else Some first
  end.
Definition register_server (x : Exchange) (browser_host : string) (browser_port : N)
    (entry : BrowserEntry) (config : ClientConfig) (files : Files) : option string * list string * Files :=
  let '(r, sent, files) := send_request x browser_host browser_port (register_request entry) config files in
  (register_answer r, sent, files).

Definition unregister_server (x : Exchange) (browser_host : string) (browser_port : N)
    (entry : BrowserEntry) (config : ClientConfig) (files : Files) : bool * list string * Files :=
  let '(r, sent, files) := send_request x browser_host browser_port (unregister_request entry) config files in
  (match r with inl _ => false | inr _ => true end, sent, files).

(** One line of a listing, at the [n]-th reading of the clock; [None] is [continue]. *)
Definition parse_entry (line : string) (n : nat) : option BrowserEntry :=
  match split line "|" with
  | kind :: name :: host :: port :: password :: users :: tls :: age :: _ =>
      if negb (String.eqb kind "SERVER") then None
      else match parse_u16_field port with
      | None => None
      | Some port =>
          Some (MkEntry name host port (String.eqb password "1") (String.eqb tls "1") (parse_users users)
                  (match stoi age with
                   | Some (v, _) => system_clock n - Z.max 0 v * 1000000000
                   | None => system_clock n
                   end)%Z)
      end
  | _ => None
  end.

Fixpoint parse_entries (response : list string) (n : nat) (out : list BrowserEntry) :
    string + list BrowserEntry :=
  match response with
  | [] => inl "Browser response did not include END"
  | line :: response' =>
      if String.eqb line "END" then inr out
      else match parse_entry line n with
           | None => parse_entries response' n out
           | Some e => parse_entries response' (Datatypes.S n) (out ++ [e])%list
           end
  end.

Definition list_servers (x : Exchange) (browser_host : string) (browser_port : N)
    (config : ClientConfig) (files : Files) (n : nat) : (string + list BrowserEntry) * list string * Files :=
  let '(r, sent, files) := send_request x browser_host browser_port "LIST" config files in
  (match r with inl error => inl error | inr response => parse_entries response n [] end, sent, files).
End client.
