(* ===== verification/BrowserProperties.v ===== *)
(** Theorems about the directory of servers: which servers it lists, that a listing
    arrives whole at the client and what happens when it is too long, and that a
    server that was published is found. *)

From S2P Require Import Prelude Frame Message Utils Tls Browser.
Local Open Scope string_scope.
Local Open Scope chat_scope.

(* ===================================================================== *)
(** * Lemmas: fields *)

(** A field that [sanitize_browser_field] leaves as it is. *)
Definition plain_char (c : ascii) : bool := negb (iscntrl c || Ascii.eqb c "|").
Definition clean (max_len : N) (s : string) : Prop :=
  sall plain_char s = true /\ (size_of s <= max_len)%N.

Lemma sanitize_loop_clean text out n : clean n out -> clean n (sanitize_loop text out n).
Proof.
  revert out. induction text as [|c text IH]; intros out Ho; [done|]. cbn [sanitize_loop].
  destruct (N.leb_spec n (size_of out)); [done|]. destruct (_ || _)%bool eqn:Ec; [by apply IH|].
  apply IH. destruct Ho as [Hp Hs]. split.
  - rewrite sall_app, Hp. cbn [sall]. unfold plain_char. by rewrite Ec.
  - rewrite size_of_app. change (size_of (String c "")) with 1%N. lia.
Qed.
Lemma sanitize_clean text n : clean n (sanitize_browser_field text n).
Proof. apply sanitize_loop_clean. split; [done|]. rewrite size_of_nil. lia. Qed.

Lemma sanitize_loop_same text out n :
  sall plain_char text = true -> (size_of out + size_of text <= n)%N ->
  sanitize_loop text out n = out +:+ text.
Proof.
  revert out. induction text as [|c text IH]; intros out Hp Hs; [by rewrite sapp_nil_r|].
  cbn [sall] in Hp. apply andb_true_iff in Hp as [Hc Hp]. rewrite size_of_cons in Hs.
  cbn [sanitize_loop]. rewrite (proj2 (N.leb_gt _ _)) by lia.
  unfold plain_char in Hc. apply negb_true_iff in Hc as ->. rewrite IH; [by rewrite sapp_assoc|done|].
  rewrite size_of_app. change (size_of (String c "")) with 1%N. lia.
Qed.
Lemma sanitize_same text n : clean n text -> sanitize_browser_field text n = text.
Proof. intros [Hp Hs]. unfold sanitize_browser_field. rewrite sanitize_loop_same; [done|done|by rewrite size_of_nil]. Qed.

Lemma clean_free n s : clean n s -> free_of "|" s = true.
Proof.
  intros [Hp _]. eapply free_of_impl; [|exact Hp]. done.
Qed.

Lemma flag_fits b : free_of "|" (flag b) = true /\ flag b <> "".
Proof. by destruct b. Qed.
Lemma flag_one b : String.eqb (flag b) "1" = b.
Proof. by destruct b. Qed.

Lemma signed_free z : free_of "|" (to_string_signed z) = true.
Proof.
  unfold to_string_signed. case_match; [|by apply to_string_free_of].
  unfold free_of. cbn [sall]. by apply to_string_free_of.
Qed.
Lemma signed_nonempty z : to_string_signed z <> "".
Proof. unfold to_string_signed. case_match; [done|apply to_string_nonempty]. Qed.

Lemma parse_printed_port n : (n < 2 ^ 16)%N -> parse_u16_field (to_string n) = Some n.
Proof.
  intros Hn. unfold parse_u16_field. rewrite stoi_to_string by (unfold INT_MAX; lia).
  rewrite (proj2 (Z.ltb_ge _ _)), (proj2 (Z.ltb_ge 65535 _)), N2Z.id by lia. done.
Qed.
Lemma parse_port_bound s n : parse_u16_field s = Some n -> (n < 2 ^ 16)%N.
Proof.
  unfold parse_u16_field. destruct (stoi s) as [[v [|]]|]; try done.
  destruct (_ || _)%bool eqn:E; [done|]. apply orb_false_iff in E as [E1 E2].
  apply Z.ltb_ge in E1, E2. intros [= <-]. lia.
Qed.
Lemma parse_printed_users z : (0 <= z <= INT_MAX)%Z -> parse_users (to_string_signed z) = z.
Proof. intros Hz. unfold parse_users. rewrite stoi_to_string_signed by (unfold INT_MIN; lia). lia. Qed.
Lemma parse_users_bound s : (0 <= parse_users s <= INT_MAX)%Z.
Proof.
  unfold parse_users, stoi. destruct (scan_integer s) as [[[neg n] r]|]; [|unfold INT_MAX; lia].
  destruct (_ && _)%bool eqn:E; [|unfold INT_MAX; lia]. apply andb_true_iff in E as [E1 E2].
  apply Z.leb_le in E1, E2. unfold INT_MAX in *. lia.
Qed.

Lemma bar_app r : "|" +:+ r = String "|" r.
Proof. done. Qed.

(* ===================================================================== *)
(** * Lemmas: walking a map *)

Lemma filter_sorted {A} (R : relation A) (P : A -> Prop) `{!forall x, Decision (P x)} l :
  StronglySorted R l -> StronglySorted R (base.filter P l).
Proof.
  induction 1 as [|x l Hl IH Hx]; [constructor|]. rewrite filter_cons. case_decide; [|done].
  constructor; [done|]. apply list.Forall_forall. intros y [_ Hy]%list_elem_of_filter.
  by apply (proj1 (list.Forall_forall _ _) Hx).
Qed.

Lemma filter_map_iter {V} (m : gmap string V) (P : V -> Prop) `{!forall v, Decision (P v)} :
  base.filter P (snd <$> map_iter m) = snd <$> map_iter (base.filter (fun kv => P kv.2) m).
Proof.
  assert (base.filter (fun kv : string * V => P kv.2) (map_iter m)
    = map_iter (base.filter (fun kv => P kv.2) m)) as <-.
  { apply (StronglySorted_unique_strong entry_le).
    - intros [k1 v1] [k2 v2] [_ H1]%list_elem_of_filter H2 Hle1 Hle2.
      apply elem_of_map_iter in H1, H2. apply map_lookup_filter_Some in H2 as [H2 _].
      assert (k1 = k2) as -> by (by apply (anti_symm String.le)). by simplify_eq.
    - apply filter_sorted, map_iter_sorted.
    - apply map_iter_sorted.
    - apply NoDup_Permutation.
      + apply list.NoDup_filter, (NoDup_fmap_1 fst), map_iter_nodup_fst.
      + apply (NoDup_fmap_1 fst), map_iter_nodup_fst.
      + intros [k v]. rewrite list_elem_of_filter, !elem_of_map_iter, map_lookup_filter_Some. apply and_comm. }
  induction (map_iter m) as [|[k v] l IH]; [done|]. cbn [fmap list_fmap snd]. rewrite !filter_cons. cbn [snd].
  case_decide; cbn [fmap list_fmap snd]; by rewrite IH.
Qed.

(* ===================================================================== *)
(** * The reference directory *)

(** What a request asks for, when it is served at time [t]. *)
Inductive Change := Publish (e : BrowserEntry) | Withdraw (key : string) | Nothing.
Definition entry_key (e : BrowserEntry) : string :=
  browser_entry_key (entry_host e) (entry_port e) (entry_name e).

Definition meaning (request : string) (t : Z) : Change :=
  match split request "|" with
  | command :: fields =>
      if String.eqb command "REGISTER" then
        match fields with
        | name :: host :: port :: password :: users :: tls :: _ =>
            let name := sanitize_browser_field name BROWSER_NAME_MAX_LEN in
            let host := sanitize_browser_field host HOST_MAX_LEN in
            match parse_u16_field port with
            | Some port =>
                if sempty host then Nothing
                else Publish (MkEntry (if sempty name then "chatbox room" else name) host port
                       (String.eqb password "1") (String.eqb tls "1") (parse_users users) t)
            | None => Nothing
            end
        | _ => Nothing
        end
      else if String.eqb command "UNREGISTER" then
        match fields with
        | host :: port :: name :: _ =>
            match parse_u16_field port with
            | Some port => Withdraw (browser_entry_key (sanitize_browser_field host HOST_MAX_LEN) port
                             (sanitize_browser_field name BROWSER_NAME_MAX_LEN))
            | None => Nothing
            end
        | _ => Nothing
        end
      else Nothing
  | [] => Nothing
  end.

Definition apply_change (c : Change) (m : gmap string BrowserEntry) : gmap string BrowserEntry :=
  match c with
  | Publish e => <[entry_key e := e]> m
  | Withdraw key => delete key m
  | Nothing => m
  end.

Definition empty_browser : ServerBrowser := MkBrowser ∅ true 0.
Definition live (t : Z) (m : gmap string BrowserEntry) : gmap string BrowserEntry :=
  base.filter (fun kv => fresh t kv.2 = true) m.

Section directory.
Context `{Platform}.

(** The requests served, one after the other. *)
Definition serve (requests : list string) (b : ServerBrowser) : ServerBrowser :=
  foldl (fun b request => (process_request request b).2) b requests.

(** A directory that forgets nothing: each request's change, at the time at which
    the browser serves it. *)
Fixpoint reference (requests : list string) (b : ServerBrowser) (m : gmap string BrowserEntry) :
    gmap string BrowserEntry :=
  match requests with
  | [] => m
  | request :: rest =>
      reference rest (process_request request b).2
        (apply_change (meaning request (system_clock (clock_reads b))) m)
  end.

(** One request: the change it means, to the entries or to what is left of them. *)
Lemma process_entries request b :
  let b' := (process_request request b).2 in
  (clock_reads b <= clock_reads b')%nat /\
  exists m1, entries_ b' = apply_change (meaning request (system_clock (clock_reads b))) m1 /\
    (m1 = entries_ b \/ exists i, (clock_reads b <= i < clock_reads b')%nat /\
                           m1 = live (system_clock i) (entries_ b)) /\
    (meaning request (system_clock (clock_reads b)) <> Nothing ->
     (exists key, meaning request (system_clock (clock_reads b)) = Withdraw key) \/
     (clock_reads b < clock_reads b')%nat).
Proof.
  cbv zeta. unfold process_request, meaning. destruct (split request "|") as [|command fields].
  { split; [done|]. exists (entries_ b). split; [done|]. split; [by left|done]. }
  destruct (String.eqb command "REGISTER").
  { unfold register.
    destruct fields as [|name [|host [|port [|password [|users [|tls more]]]]]];
      try (split; [done|]; exists (entries_ b); split; [done|]; split; [by left|done]).
    destruct (parse_u16_field port) as [p|]; destruct (sempty (sanitize_browser_field host HOST_MAX_LEN));
      try (split; [done|]; exists (entries_ b); split; [done|]; split; [by left|done]).
    rewrite !bind_snd. cbn. split; [lia|]. eexists. split; [reflexivity|]. split; [|by right; lia].
    right. exists (Datatypes.S (clock_reads b)). split; [lia|done]. }
  destruct (String.eqb command "UNREGISTER").
  { unfold unregister.
    destruct fields as [|host [|port [|name more]]];
      try (split; [done|]; exists (entries_ b); split; [done|]; split; [by left|done]).
    destruct (parse_u16_field port) as [p|];
      (split; [done|]; exists (entries_ b); split; [done|]; split; [by left|by eauto]). }
  destruct (String.eqb command "LIST").
  { unfold list_entries. rewrite !bind_snd. cbn. split; [lia|]. eexists. split; [reflexivity|].
    split; [|done]. right. exists (Datatypes.S (clock_reads b)). split; [lia|done]. }
  split; [done|]. exists (entries_ b). split; [done|]. split; [by left|done].
Qed.
(** The browser's entries against the reference's: it has no others, and lacks only
    some that were over at an earlier reading of the clock. *)
Definition covers (b : ServerBrowser) (m : gmap string BrowserEntry) : Prop :=
  entries_ b ⊆ m /\
  forall key e, m !! key = Some e -> entries_ b !! key = Some e \/
    exists i, (i < clock_reads b)%nat /\ fresh (system_clock i) e = false.

Lemma lookup_live t m key e :
  live t m !! key = Some e <-> m !! key = Some e /\ fresh t e = true.
Proof. unfold live. by rewrite map_lookup_filter_Some. Qed.

Lemma change_mono c m1 m2 : m1 ⊆ m2 -> apply_change c m1 ⊆ apply_change c m2.
Proof. destruct c; cbn; [apply insert_mono|apply delete_mono|done]. Qed.

Lemma change_missing c (m1 m2 : gmap string BrowserEntry) (P : BrowserEntry -> Prop) :
  (forall key e, m2 !! key = Some e -> m1 !! key = Some e \/ P e) ->
  forall key e, apply_change c m2 !! key = Some e -> apply_change c m1 !! key = Some e \/ P e.
Proof.
  intros Hm key e. destruct c as [e'|k|]; cbn; [| |apply Hm].
  - destruct (decide (entry_key e' = key)) as [->|Hne].
    + rewrite !lookup_insert_eq. by left.
    + rewrite !lookup_insert_ne by done. apply Hm.
  - destruct (decide (k = key)) as [->|Hne]; [by rewrite lookup_delete_eq|].
    rewrite !lookup_delete_ne by done. apply Hm.
Qed.

Lemma covers_step request b m :
  covers b m ->
  covers (process_request request b).2
    (apply_change (meaning request (system_clock (clock_reads b))) m).
Proof.
  intros [Hsub Hmiss]. destruct (process_entries request b) as (Hn & m1 & He & Hm1 & _).
  set (b' := (process_request request b).2) in *.
  assert (m1 ⊆ entries_ b) as Hm1sub.
  { destruct Hm1 as [->|(i & _ & ->)]; [done|]. apply map_filter_subseteq. }
  split.
  - rewrite He. apply change_mono. by etrans.
  - rewrite He. apply change_missing. intros key e [Hk|(i & Hi & Hf)]%Hmiss; [|right; exists i; split; [lia|done]].
    destruct Hm1 as [->|(i & Hi & ->)]; [by left|]. rewrite lookup_live.
    destruct (fresh (system_clock i) e) eqn:Ef; [by left|]. right. exists i. split; [lia|done].
Qed.

Lemma covers_serve requests b m : covers b m -> covers (serve requests b) (reference requests b m).
Proof.
  revert b m. induction requests as [|request requests IH]; intros b m Hc; [done|].
  cbn [serve foldl reference]. apply IH. by apply covers_step.
Qed.

Lemma covers_empty : covers empty_browser ∅.
Proof. split; [done|]. intros key e. by rewrite lookup_empty. Qed.

(** The clock does not go back. *)
Definition clock_monotone : Prop := forall i j, (i <= j)%nat -> (system_clock i <= system_clock j)%Z.

Lemma covers_live b m i :
  clock_monotone -> covers b m -> (clock_reads b <= i)%nat ->
  live (system_clock i) (entries_ b) = live (system_clock i) m.
Proof.
  intros Hclock [Hsub Hmiss] Hi. apply map_eq. intros key. apply option_eq. intros e.
  rewrite !lookup_live. split.
  - intros [Hk Hf]. split; [|done]. by apply (lookup_weaken _ _ _ _ Hk).
  - intros [[Hk|(j & Hj & Hold)]%Hmiss Hf]; [done|]. exfalso.
    unfold fresh in Hold, Hf. apply Z.leb_gt in Hold. apply Z.leb_le in Hf.
    pose proof (Hclock j i ltac:(lia)). lia.
Qed.

Lemma entries_live b :
  (entries b).1 = snd <$> map_iter (live (system_clock (clock_reads b)) (entries_ b)).
Proof. unfold entries. cbn. exact (filter_map_iter (entries_ b) (fun e => fresh (system_clock (clock_reads b)) e = true)). Qed.

Lemma list_live b :
  (list_entries b).1 = ((server_line (system_clock (clock_reads b)) ∘ snd <$>
    map_iter (live (system_clock (Datatypes.S (clock_reads b))) (entries_ b))) ++ ["END"])%list.
Proof. done. Qed.

(** C29: what the directory lists. Whatever requests it has served, with a clock that
    does not go back, the entries it gives - to its console, and to a LIST request -
    are those of the reference directory, which never removes one, that are not
    older than the time to live: the last registration under each key that has not
    been withdrawn. Purging entries along the way is not observable. *)
Theorem directory_current requests :
  clock_monotone ->
  let b := serve requests empty_browser in
  let all := reference requests empty_browser ∅ in
  let t := system_clock (clock_reads b) in
  let t' := system_clock (Datatypes.S (clock_reads b)) in
  (entries b).1 = (snd <$> map_iter (live t all)) /\
  (process_request "LIST" b).1 = ((server_line t ∘ snd <$> map_iter (live t' all)) ++ ["END"])%list.
Proof.
  intros Hclock. cbv zeta. pose proof (covers_serve requests _ _ covers_empty) as Hc.
  change (process_request "LIST" ?b) with (list_entries b).
  rewrite entries_live, list_live, !(covers_live _ _ _ Hclock Hc) by lia. done.
Qed.

(* ===================================================================== *)
(** * What the entries are *)

(** What the browser stores, up to reading [n] of the clock. *)
Record listed (n : nat) (e : BrowserEntry) : Prop := {
  listed_name : clean BROWSER_NAME_MAX_LEN (entry_name e) /\ entry_name e <> "";
  listed_host : clean HOST_MAX_LEN (entry_host e) /\ entry_host e <> "";
  listed_port : (entry_port e < 2 ^ 16)%N;
  listed_users : (0 <= entry_users e <= INT_MAX)%Z;
  listed_time : exists i, (i < n)%nat /\ updated_at e = system_clock i;
}.

Lemma listed_later n n' e : (n <= n')%nat -> listed n e -> listed n' e.
Proof. intros Hn [? ? ? ? (i & Hi & Ht)]. split; try done. exists i. split; [lia|done]. Qed.

Lemma meaning_listed request n e :
  meaning request (system_clock n) = Publish e -> listed (Datatypes.S n) e.
Proof.
  unfold meaning. destruct (split request "|") as [|command fields]; [done|].
  destruct (String.eqb command "REGISTER").
  - destruct fields as [|name [|host [|port [|password [|users [|tls more]]]]]]; try done.
    destruct (parse_u16_field port) as [p|] eqn:Ep; [|done].
    destruct (sempty (sanitize_browser_field host HOST_MAX_LEN)) eqn:Eh; [done|].
    intros [= <-]. apply sempty_false in Eh. split; cbn.
    + destruct (sempty (sanitize_browser_field name BROWSER_NAME_MAX_LEN)) eqn:En.
      * split; [by split|done].
      * apply sempty_false in En. split; [apply sanitize_clean|done].
    + split; [apply sanitize_clean|done].
    + by eapply parse_port_bound.
    + apply parse_users_bound.
    + exists n. split; [lia|done].
  - destruct (String.eqb command "UNREGISTER"); [|done].
    destruct fields as [|host [|port [|name more]]]; try done. by destruct (parse_u16_field port).
Qed.

Definition all_listed (b : ServerBrowser) : Prop :=
  map_Forall (fun key e => listed (clock_reads b) e /\ key = entry_key e) (entries_ b).

Lemma all_listed_step request b : all_listed b -> all_listed (process_request request b).2.
Proof.
  intros Hb. destruct (process_entries request b) as (Hn & m1 & He & Hm1 & Hreads).
  set (b' := (process_request request b).2) in *.
  assert (map_Forall (fun key e => listed (clock_reads b') e /\ key = entry_key e) m1) as H1.
  { intros key e Hk. assert (entries_ b !! key = Some e) as Hb'.
    { destruct Hm1 as [->|(i & _ & ->)]; [done|]. by apply lookup_live in Hk as [Hk _]. }
    destruct (Hb _ _ Hb') as [Hl ->]. split; [|done]. by eapply listed_later. }
  unfold all_listed. rewrite He.
  destruct (meaning request (system_clock (clock_reads b))) as [e|key|] eqn:Em; cbn.
  - apply map_Forall_insert_2; [|done]. split; [|done].
    destruct (Hreads ltac:(done)) as [[key [=]]|Hlt].
    apply (listed_later (Datatypes.S (clock_reads b))); [lia|]. by eapply meaning_listed.
  - by apply map_Forall_delete.
  - done.
Qed.

Lemma all_listed_serve requests : all_listed (serve requests empty_browser).
Proof.
  assert (forall b, all_listed b -> all_listed (serve requests b)) as Hserve.
  { induction requests as [|request requests IH]; intros b Hb; [done|].
    cbn [serve foldl]. apply IH. by apply all_listed_step. }
  apply Hserve. apply map_Forall_empty.
Qed.

(* ===================================================================== *)
(** * A listing, sent and read *)

Lemma to_string_size n : (n < 2 ^ 32)%N -> (size_of (to_string n) <= 33)%N.
Proof. apply (to_string_width 32). Qed.

Lemma signed_size z : (- 2 ^ 32 < z < 2 ^ 32)%Z -> (size_of (to_string_signed z) <= 34)%N.
Proof.
  intros Hz. unfold to_string_signed. destruct (Z.ltb_spec z 0).
  - rewrite size_of_cons. pose proof (to_string_size (Z.to_N (- z)) ltac:(lia)). lia.
  - pose proof (to_string_size (Z.to_N z) ltac:(lia)). lia.
Qed.

Lemma flag_size b : size_of (flag b) = 1%N.
Proof. by destruct b. Qed.

(** The age of an entry, in seconds. *)
Definition age (t : Z) (e : BrowserEntry) : Z := Z.quot (t - updated_at e) 1000000000.

(** The entry as a client sees it that reads its line at reading [n] of the clock. *)
Definition seen (t : Z) (n : nat) (e : BrowserEntry) : BrowserEntry :=
  MkEntry (entry_name e) (entry_host e) (entry_port e) (has_password e) (uses_tls e) (entry_users e)
    (system_clock n - Z.max 0 (age t e) * 1000000000).

Lemma parse_server_line m t n e :
  listed m e -> (INT_MIN <= age t e <= INT_MAX)%Z -> parse_entry (server_line t e) n = Some (seen t n e).
Proof.
  intros [[Hn _] [Hh _] Hp Hu _] Ha. unfold parse_entry, split, server_line.
  change ("SERVER|" +:+ ?r) with ("SERVER" +:+ String "|" r). rewrite !bar_app.
  rewrite getlines_app by done.
  rewrite (getlines_app _ (entry_name e)) by by eapply clean_free.
  rewrite (getlines_app _ (entry_host e)) by by eapply clean_free.
  rewrite (getlines_app _ (to_string _)) by by apply to_string_free_of.
  rewrite !(getlines_app _ (flag _)) by apply flag_fits.
  rewrite (getlines_app _ (to_string_signed _)) by apply signed_free.
  rewrite (getlines_app _ (flag _)) by apply flag_fits.
  rewrite getlines_one by (apply signed_nonempty || apply signed_free).
  change (String.eqb "SERVER" "SERVER") with true. cbn [negb].
  rewrite parse_printed_port, parse_printed_users, !flag_one by done.
  fold (age t e). rewrite stoi_to_string_signed by done. done.
Qed.

Lemma server_line_size m t e :
  listed m e -> (INT_MIN <= age t e <= INT_MAX)%Z -> (size_of (server_line t e) <= 3069)%N.
Proof.
  intros [[[_ Hn] _] [[_ Hh] _] Hp Hu _] Ha. unfold server_line. fold (age t e).
  rewrite !size_of_app, !flag_size. change (size_of "SERVER|") with 7%N.
  change (size_of "|") with 1%N. unfold BROWSER_NAME_MAX_LEN, HOST_MAX_LEN, INT_MIN, INT_MAX in *.
  pose proof (to_string_size (entry_port e) ltac:(lia)).
  pose proof (signed_size (entry_users e) ltac:(lia)). pose proof (signed_size (age t e) ltac:(lia)).
  lia.
Qed.

(** Payloads that fit a frame. *)
Definition fits (payload : string) : Prop := payload <> "" /\ (size_of payload <= 3069)%N.

Lemma join_empty_cons x l : join_with "" (x :: l) = x +:+ join_with "" l.
Proof. destruct l; cbn [join_with]; [by rewrite sapp_nil_r|done]. Qed.

(** The lines of a reply, and what they decode to. *)
Lemma reply_lines responses :
  Forall fits responses ->
  Forall2 (fun response line => decode_frame line = success response) responses
    (getlines newline (join_with "" (frames_of responses))).
Proof.
  induction 1 as [|response responses [Hne Hs] Hrest IH]; [constructor|].
  destruct (encode_frame_small _ Hne Hs) as (frame & _ & Hf).
  unfold frames_of. cbn [omap list_omap]. rewrite Hf. fold (frames_of responses).
  rewrite join_empty_cons. pose proof (decode_line _ _ Hf) as Hd.
  apply encode_frame_success in Hf as (_ & _ & ->). unfold line_of in Hd.
  rewrite remove_suffix_snoc in Hd. rewrite sapp_assoc, sapp_cons, sapp_nil_l, getlines_app; [by constructor|].
  eapply free_of_impl; [|apply encode_groups_chars]. done.
Qed.

Lemma read_all responses lines acc rest :
  Forall2 (fun response line => decode_frame line = success response) responses lines ->
  Forall (fun response => is_last response = false) responses ->
  (length acc + length responses < 1000)%nat ->
  read_responses ((LineRead <$> lines) ++ rest) acc = read_responses rest (acc ++ responses)%list.
Proof.
  intros Hd Hl. revert acc. induction Hd as [|response line responses lines Hx Hd IH]; intros acc Hlen.
  { by rewrite app_nil_r. }
  apply list.Forall_cons in Hl as [Hr Hl]. cbn [fmap list_fmap app read_responses length] in *.
  rewrite (proj2 (Nat.leb_gt _ _)) by lia. rewrite Hx. cbn [value success]. rewrite Hr.
  rewrite IH by (try rewrite length_app; cbn [length]; try done; lia). by rewrite <- app_assoc.
Qed.

Lemma read_full responses lines acc rest :
  Forall2 (fun response line => decode_frame line = success response) responses lines ->
  Forall (fun response => is_last response = false) responses ->
  (length acc <= 1000 <= length acc + length responses)%nat ->
  read_responses ((LineRead <$> lines) ++ rest) acc = inr (acc ++ take (1000 - length acc) responses)%list.
Proof.
  intros Hd Hl. revert acc. induction Hd as [|response line responses lines Hx Hd IH]; intros acc Hlen.
  { rewrite take_nil, app_nil_r. cbn [length] in Hlen.
    destruct rest; cbn [fmap list_fmap app read_responses]; by rewrite (proj2 (Nat.leb_le _ _)) by lia. }
  apply list.Forall_cons in Hl as [Hr Hl]. cbn [fmap list_fmap app read_responses length] in *.
  destruct (Nat.leb_spec 1000 (length acc)) as [Hfull|Hfew].
  { replace (1000 - length acc)%nat with 0%nat by lia. by rewrite app_nil_r. }
  rewrite Hx. cbn [value success]. rewrite Hr, IH by (try rewrite length_app; cbn [length]; try done; lia).
  rewrite length_app, <- app_assoc. cbn [length].
  by replace (1000 - length acc)%nat with (Datatypes.S (1000 - (length acc + 1))) by lia.
Qed.

Fixpoint seen_all (t : Z) (n : nat) (es : list BrowserEntry) : list BrowserEntry :=
  match es with [] => [] | e :: es' => seen t n e :: seen_all t (Datatypes.S n) es' end.

Lemma parse_lines m t n es rest out :
  Forall (fun e => listed m e /\ (INT_MIN <= age t e <= INT_MAX)%Z) es ->
  parse_entries ((server_line t <$> es) ++ rest) n out
  = parse_entries rest (n + length es) (out ++ seen_all t n es)%list.
Proof.
  revert n out. induction es as [|e es IH]; intros n out Hes.
  { cbn. by rewrite app_nil_r, Nat.add_0_r. }
  apply list.Forall_cons in Hes as [[He Ha] Hes]. cbn [fmap list_fmap app parse_entries length seen_all].
  change (String.eqb (server_line t e) "END") with false.
  rewrite (parse_server_line m) by done. rewrite IH by done.
  rewrite <- app_assoc. by replace (Datatypes.S n + length es)%nat with (n + Datatypes.S (length es))%nat by lia.
Qed.

Lemma respond_line request frame b :
  value (encode_frame request) = Some frame ->
  respond (line_of frame) b =
    (join_with "" (frames_of (process_request request b).1), (process_request request b).2).
Proof.
  intros He. unfold respond. rewrite (decode_line _ _ He). cbn [value success].
  unfold bind. by destruct (process_request request b).
Qed.

(* ===================================================================== *)
(** * What a client's requests mean *)

(** The entry a browser stores for a server that is published. *)
Definition published (e : BrowserEntry) (t : Z) : BrowserEntry :=
  let name := sanitize_browser_field (entry_name e) BROWSER_NAME_MAX_LEN in
  MkEntry (if sempty name then "chatbox room" else name)
    (sanitize_browser_field (entry_host e) HOST_MAX_LEN) (entry_port e) (has_password e) (uses_tls e)
    (Z.max 0 (entry_users e)) t.

(** A server with an address that can be published. *)
Record publishable (e : BrowserEntry) : Prop := {
  publishable_host : sanitize_browser_field (entry_host e) HOST_MAX_LEN <> "";
  publishable_port : (entry_port e < 2 ^ 16)%N;
  publishable_users : (entry_users e <= INT_MAX)%Z;
}.

Lemma split_register e :
  split (register_request e) "|" =
    ["REGISTER"; sanitize_browser_field (entry_name e) BROWSER_NAME_MAX_LEN;
     sanitize_browser_field (entry_host e) HOST_MAX_LEN; to_string (entry_port e);
     flag (has_password e); to_string_signed (Z.max 0 (entry_users e)); flag (uses_tls e)].
Proof.
  unfold split, register_request.
  change ("REGISTER|" +:+ ?r) with ("REGISTER" +:+ String "|" r). rewrite !bar_app.
  rewrite getlines_app by done.
  rewrite (getlines_app _ (sanitize_browser_field (entry_name e) _)) by (eapply clean_free, sanitize_clean).
  rewrite (getlines_app _ (sanitize_browser_field (entry_host e) _)) by (eapply clean_free, sanitize_clean).
  rewrite (getlines_app _ (to_string _)) by by apply to_string_free_of.
  rewrite (getlines_app _ (flag _)) by apply flag_fits.
  rewrite (getlines_app _ (to_string_signed _)) by apply signed_free.
  by rewrite getlines_one by apply flag_fits.
Qed.

Lemma meaning_register e t :
  publishable e -> meaning (register_request e) t = Publish (published e t).
Proof.
  intros [Hh Hp Hu]. unfold meaning. rewrite split_register.
  change (String.eqb "REGISTER" "REGISTER") with true. cbn iota.
  rewrite parse_printed_port, parse_printed_users, !flag_one by (done || (unfold INT_MAX in *; lia)).
  rewrite !(sanitize_same (sanitize_browser_field _ _)) by apply sanitize_clean.
  apply sempty_false in Hh as ->. done.
Qed.

Lemma register_fits e : publishable e -> fits (register_request e).
Proof.
  intros [_ Hp Hu]. split; [done|]. unfold register_request. rewrite !size_of_app, !flag_size.
  change (size_of "REGISTER|") with 9%N. change (size_of "|") with 1%N.
  pose proof (to_string_size (entry_port e) ltac:(lia)).
  unfold INT_MAX in Hu.
  assert (- 2 ^ 32 < Z.max 0 (entry_users e) < 2 ^ 32)%Z as Hrange by lia.
  pose proof (signed_size _ Hrange).
  destruct (sanitize_clean (entry_name e) BROWSER_NAME_MAX_LEN) as [_ Hn].
  destruct (sanitize_clean (entry_host e) HOST_MAX_LEN) as [_ Hh].
  unfold BROWSER_NAME_MAX_LEN, HOST_MAX_LEN in *. lia.
Qed.

Lemma register_answered e b : publishable e -> (process_request (register_request e) b).1 = ["OK"].
Proof.
  intros [Hh Hp _]. unfold process_request. rewrite split_register.
  change (String.eqb "REGISTER" "REGISTER") with true. cbn iota. unfold register.
  rewrite (sanitize_same (sanitize_browser_field (entry_host e) _)) by apply sanitize_clean.
  apply sempty_false in Hh as ->. by rewrite parse_printed_port.
Qed.

(** A server published without a name cannot be withdrawn: its request to
    unregister ends with an empty field, which [split] drops, and it is refused. *)
Lemma nameless_not_withdrawn e b :
  sanitize_browser_field (entry_name e) BROWSER_NAME_MAX_LEN = "" ->
  process_request (unregister_request e) b = (["ERROR|UNREGISTER requires host, port, name"], b).
Proof.
  intros Hn. unfold process_request, split, unregister_request. rewrite Hn, sapp_nil_r.
  change ("UNREGISTER|" +:+ ?r) with ("UNREGISTER" +:+ String "|" r). rewrite bar_app.
  rewrite getlines_app by done.
  rewrite (getlines_app _ (sanitize_browser_field _ _)) by (eapply clean_free, sanitize_clean).
  change "|" with (String "|" ""). by rewrite getlines_app by by apply to_string_free_of.
Qed.

(** The change concerns the entry with this key. *)
Definition concerns (key : string) (c : Change) : Prop :=
  match c with Publish e => entry_key e = key | Withdraw key' => key' = key | Nothing => False end.

Lemma serve_app l1 l2 b : serve (l1 ++ l2) b = serve l2 (serve l1 b).
Proof. apply foldl_app. Qed.
Lemma reference_app l1 l2 b m : reference (l1 ++ l2) b m = reference l2 (serve l1 b) (reference l1 b m).
Proof. revert b m. induction l1 as [|r l1 IH]; intros b m; [done|]. apply IH. Qed.

Lemma reference_keeps requests b m key :
  (forall request t, request ∈ requests -> ~ concerns key (meaning request t)) ->
  reference requests b m !! key = m !! key.
Proof.
  revert b m. induction requests as [|request requests IH]; intros b m Hr; [done|].
  cbn [reference]. rewrite IH by (intros request' t Hin; apply Hr; by right).
  specialize (Hr request (system_clock (clock_reads b)) ltac:(by left)).
  destruct (meaning request _) as [e|key'|]; cbn in *; [by apply lookup_insert_ne|by apply lookup_delete_ne|done].
Qed.

Lemma elem_of_seen_all t n e es : e ∈ es -> exists k, seen t k e ∈ seen_all t n es.
Proof.
  revert n. induction es as [|e' es IH]; intros n Hin; [by apply not_elem_of_nil in Hin|].
  cbn [seen_all]. apply elem_of_cons in Hin as [->|Hin]; [exists n; by left|].
  destruct (IH (Datatypes.S n) Hin) as [k Hk]. exists k. by right.
Qed.
End directory.

(* ===================================================================== *)
(** * An exchange *)

Section exchange.
Context `{OpenSSL} `{Platform} `{Sodium} `{Disk}.

(** The exchange reaches a directory whose certificate is accepted. *)
Record reaches (x : Exchange) (host : string) (port : N) (config : ClientConfig) (files files' : Files) : Prop := {
  reaches_context : context_error x = None;
  reaches_resolve : resolve x = PhaseDone None;
  reaches_connect : tcp_connect x = PhaseDone None;
  reaches_secure : secure x host port config files = (None, files');
  reaches_write : write x = PhaseDone None;
}.

(** The browser answers the request: the lines of what its session writes are read. *)
Definition answers (x : Exchange) (request : string) (b : ServerBrowser) : Prop :=
  exists frame, value (encode_frame request) = Some frame /\
    reads x = LineRead <$> getlines newline (respond (line_of frame) b).1.

Lemma send_reaches x host port config files files' request frame :
  reaches x host port config files files' -> value (encode_frame request) = Some frame ->
  send_request x host port request config files =
    (match read_responses (reads x) [] with
     | inr [] => inl "No response from browser server"
     | r => r
     end, [frame], files').
Proof.
  intros [Hc Hr Ht Hs Hw] He. unfold send_request. rewrite Hc, Hr, Ht, Hs, He, Hw. done.
Qed.

Lemma live_listed requests :
  clock_monotone -> let b := serve requests empty_browser in
  Forall (fun e => listed (clock_reads b) e /\
      (INT_MIN <= age (system_clock (clock_reads b)) e <= INT_MAX)%Z)
    (snd <$> map_iter (live (system_clock (Datatypes.S (clock_reads b))) (entries_ b))).
Proof.
  intros Hclock b. apply Forall_fmap, list.Forall_forall. intros [key e] Hin.
  apply elem_of_map_iter, lookup_live in Hin as [Hk Hf]. destruct (all_listed_serve requests _ _ Hk) as [Hl _].
  split; [done|]. destruct (listed_time _ _ Hl) as (i & Hi & Ht).
  unfold fresh, TTL, BROWSER_ENTRY_TTL_SECONDS in Hf. apply Z.leb_le in Hf. unfold age. cbn [snd].
  pose proof (Hclock i (clock_reads b) ltac:(unfold b in *; lia)).
  pose proof (Hclock (clock_reads b) (Datatypes.S (clock_reads b)) ltac:(lia)).
  assert (0 <= system_clock (clock_reads b) - updated_at e <= 180000000000)%Z as Hd
    by (rewrite Ht; cbn [snd] in *; lia).
  unfold INT_MIN, INT_MAX. split.
  - etransitivity; [|by apply Z.quot_pos; lia]. lia.
  - apply Z.lt_le_incl, Z.quot_lt_upper_bound; lia.
Qed.

(** The listing the browser sends, read and parsed. *)
Lemma list_answer x host port config files files' b n es t :
  reaches x host port config files files' -> answers x "LIST" b ->
  (process_request "LIST" b).1 = ((server_line t <$> es) ++ ["END"])%list ->
  Forall (fun e => listed (clock_reads b) e /\ (INT_MIN <= age t e <= INT_MAX)%Z) es ->
  (list_servers x host port config files n).1.1 =
    if (length es <? 1000)%nat then inr (seen_all t n es)
    else inl "Browser response did not include END".
Proof.
  intros Hx (frame & He & Hreads) Hl Hes. unfold list_servers.
  rewrite (send_reaches _ _ _ _ _ _ _ _ Hx He), Hreads, (respond_line _ _ _ He), Hl. cbn [fst].
  assert (Forall fits ((server_line t <$> es) ++ ["END"])%list) as Hfits.
  { apply list.Forall_app. split; [|by repeat constructor].
    apply Forall_fmap. eapply list.Forall_impl; [exact Hes|]. intros e [Hle Ha]. split; [done|].
    by eapply server_line_size. }
  assert (Forall (fun response => is_last response = false) (server_line t <$> es)) as Hlast
    by (apply Forall_fmap, list.Forall_true; done).
  pose proof (reply_lines _ Hfits) as Hdec.
  apply Forall2_app_inv_l in Hdec as (lines & last & Hlines & Hend & ->).
  rewrite fmap_app. destruct (Nat.ltb_spec (length es) 1000) as [Hfew|Hmany].
  - rewrite (read_all _ _ [] _ Hlines Hlast) by (cbn [length]; by rewrite length_fmap).
    inversion Hend as [|? line ? ? Hd Hnil]; subst. inversion Hnil; subst.
    cbn [fmap list_fmap app read_responses]. rewrite (proj2 (Nat.leb_gt _ _)) by (by rewrite length_fmap).
    rewrite Hd. cbn [value success]. change (is_last "END") with true.
    destruct ((server_line t <$> es) ++ ["END"])%list eqn:Enil; [by destruct es|]. rewrite <- Enil.
    by rewrite (parse_lines (clock_reads b)).
  - rewrite (read_full _ _ [] _ Hlines Hlast) by (cbn [length]; rewrite length_fmap; lia).
    cbn [length]. rewrite app_nil_l, Nat.sub_0_r, <- fmap_take.
    set (l := server_line t <$> take 1000 es).
    assert (length l = 1000)%nat as Hl1000 by (unfold l; rewrite length_fmap, length_take; lia).
    transitivity (parse_entries l n []); [by destruct l|].
    rewrite <- (app_nil_r l). unfold l. by rewrite (parse_lines (clock_reads b)) by (by apply Forall_take).
Qed.


(** A listing arrives whole, or not at all. When a client's LIST request reaches
    a browser that has served any requests, [list_servers] returns every server that
    is live there, with its name, address, flags and users unchanged and its age, as
    long as there are fewer than 1000; from 1000 on the client stops reading before
    the end of the listing, and reports an error instead. *)
Theorem listing_arrives x host port config files files' requests n :
  clock_monotone -> let b := serve requests empty_browser in
  reaches x host port config files files' -> answers x "LIST" b ->
  let t := system_clock (clock_reads b) in
  let t' := system_clock (Datatypes.S (clock_reads b)) in
  let servers := snd <$> map_iter (live t' (reference requests empty_browser ∅)) in
  (list_servers x host port config files n).1.1 =
    if (length servers <? 1000)%nat then inr (seen_all t n servers)
    else inl "Browser response did not include END".
Proof.
  intros Hclock b Hx Ha. cbv zeta. pose proof (covers_serve requests _ _ covers_empty) as Hc. fold b in Hc.
  rewrite <- (covers_live _ _ _ Hclock Hc) by lia.
  apply (list_answer _ _ _ _ _ files' b); [done|done| |by apply live_listed].
  change (process_request "LIST" b) with (list_entries b). by rewrite list_live, list_fmap_compose.
Qed.

Lemma register_succeeds x host port config files files' e b :
  publishable e -> reaches x host port config files files' -> answers x (register_request e) b ->
  (register_server x host port e config files).1.1 = None.
Proof.
  intros He Hx (frame & Hf & Hreads). unfold register_server.
  rewrite (send_reaches _ _ _ _ _ _ _ _ Hx Hf), Hreads, (respond_line _ _ _ Hf), register_answered by done.
  cbn [fst]. assert (Forall fits ["OK"]) as Hfits by by repeat constructor.
  pose proof (reply_lines _ Hfits) as Hdec. revert Hdec.
  generalize (getlines newline (join_with "" (frames_of ["OK"]))). intros lines Hdec.
  inversion Hdec as [|? line ? ? Hd Hnil]; subst. inversion Hnil; subst.
  cbn [fmap list_fmap read_responses length Nat.leb]. by rewrite Hd.
Qed.

(** C28: publishing makes a server findable. When [register_server] reaches a browser,
    it succeeds; and a client whose LIST request reaches that browser within the
    time to live, after any requests that do not concern that server and while
    fewer than 1000 servers are live, finds it: [list_servers] returns an entry with
    its name and address as far as they can be published, its port, flags and users. *)
Theorem published_server_found x1 x2 host1 port1 host2 port2 config1 config2 f1 f1' f2 f2' e before after n :
  clock_monotone -> publishable e ->
  let b := serve before empty_browser in
  let b1 := (process_request (register_request e) b).2 in
  let b2 := serve after b1 in
  let entry := published e (system_clock (clock_reads b)) in
  let all := reference (before ++ register_request e :: after) empty_browser ∅ in
  reaches x1 host1 port1 config1 f1 f1' -> answers x1 (register_request e) b ->
  (forall request t, request ∈ after -> ~ concerns (entry_key entry) (meaning request t)) ->
  (system_clock (Datatypes.S (clock_reads b2)) - system_clock (clock_reads b) <= TTL)%Z ->
  (size (live (system_clock (Datatypes.S (clock_reads b2))) all) < 1000)%nat ->
  reaches x2 host2 port2 config2 f2 f2' -> answers x2 "LIST" b2 ->
  (register_server x1 host1 port1 e config1 f1).1.1 = None /\
  exists found out, (list_servers x2 host2 port2 config2 f2 n).1.1 = inr out /\
    seen (system_clock (clock_reads b2)) found entry ∈ out.
Proof.
  intros Hclock He b b1 b2 entry all Hx1 Ha1 Hafter Hage Hsize Hx2 Ha2.
  split; [by apply (register_succeeds x1 host1 port1 config1 f1 f1' e b)|].
  set (requests := (before ++ register_request e :: after)%list).
  assert (b2 = serve requests empty_browser) as Eb2 by (unfold requests; by rewrite serve_app).
  pose proof (covers_serve requests _ _ covers_empty) as Hc. rewrite <- Eb2 in Hc. fold all in Hc.
  pose proof (live_listed requests Hclock) as Hl. cbv zeta in Hl. rewrite <- Eb2 in Hl.
  set (es := snd <$> map_iter (live (system_clock (Datatypes.S (clock_reads b2))) (entries_ b2))) in *.
  assert (length es < 1000)%nat as Hlen.
  { unfold es. rewrite length_fmap, map_iter_length, (covers_live _ _ _ Hclock Hc) by lia. exact Hsize. }
  assert (entry ∈ es) as Hin.
  { unfold es. apply list_elem_of_fmap. exists (entry_key entry, entry). split; [done|].
    apply elem_of_map_iter. rewrite (covers_live _ _ _ Hclock Hc) by lia. apply lookup_live.
    split; [|by apply Z.leb_le]. unfold all, requests. rewrite reference_app. cbn [reference].
    rewrite reference_keeps by done. fold b. rewrite meaning_register by done. apply lookup_insert_eq. }
  destruct (elem_of_seen_all (system_clock (clock_reads b2)) n _ _ Hin) as [found Hfound].
  exists found. eexists. split; [|exact Hfound].
  rewrite (list_answer x2 host2 port2 config2 f2 f2' b2 n es (system_clock (clock_reads b2))); try done.
  - by rewrite (proj2 (Nat.ltb_lt _ _)).
  - change (process_request "LIST" b2) with (list_entries b2). by rewrite list_live, list_fmap_compose.
Qed.
End exchange.
