(* ===== verification/Publisher.v ===== *)
(** [ServerBrowserPublisher] of [network/server_browser.h]: a server is registered
    with a directory, and a background thread renews the registration until the
    publisher is stopped. The theorem: the thread never decides about trust. *)

From S2P Require Import Prelude Frame Message Utils Tls Browser.
Local Open Scope string_scope.

Section publisher.
Context `{OpenSSL} `{Platform} `{Sodium} `{Disk}.

(** [worker_] is the seconds slept since the last registration, while the thread
    runs. *)
Record ServerBrowserPublisher := MkPublisher {
  browser_host_ : string;
  browser_port_ : N;
  entry_ : BrowserEntry;
  tls_config_ : ClientConfig;
  stop_requested_ : bool;
  started_ : bool;
  worker_ : option nat;
}.

Definition with_users (users : Z) (e : BrowserEntry) : BrowserEntry :=
  MkEntry (entry_name e) (entry_host e) (entry_port e) (has_password e) (uses_tls e) users (updated_at e).

Definition publisher (host : string) (port : N) (entry : BrowserEntry) (config : ClientConfig) :
    ServerBrowserPublisher := MkPublisher host port entry config false false None.

(** The configuration of the background thread. *)
Definition background (config : ClientConfig) : ClientConfig :=
  MkClientConfig (enabled config) (ca_path config) (expected_fingerprint config)
    (trust_store_path config) false None.

(** A publisher and the files, and what it sent. *)
Record PublisherWorld := MkPublisherWorld {
  the_publisher : ServerBrowserPublisher;
  publisher_files : Files;
  published_frames : list string;
}.

(** [start]: the error, if any. [users] is what [users_provider_] returns, 0 when
    there is none. *)
Definition start (x : Exchange) (users : Z) (w : PublisherWorld) : option string * PublisherWorld :=
  let p := the_publisher w in
  if started_ p then (None, w)
  else
    let entry := with_users users (entry_ p) in
    let '(result, sent, files) :=
      register_server x (browser_host_ p) (browser_port_ p) entry (tls_config_ p) (publisher_files w) in
    let frames := (published_frames w ++ sent)%list in
    match result with
    | Some error =>
        (Some error, MkPublisherWorld (MkPublisher (browser_host_ p) (browser_port_ p) entry (tls_config_ p)
           (stop_requested_ p) (started_ p) (worker_ p)) files frames)
    | None =>
        (None, MkPublisherWorld (MkPublisher (browser_host_ p) (browser_port_ p) entry
           (background (tls_config_ p)) false true (Some 0)) files frames)
    end.

Definition with_worker (n : option nat) (p : ServerBrowserPublisher) : ServerBrowserPublisher :=
  MkPublisher (browser_host_ p) (browser_port_ p) (entry_ p) (tls_config_ p) (stop_requested_ p)
    (started_ p) n.

(** [publish_loop], up to the end of a second slept or of a registration. *)
Definition publish_step (x : Exchange) (users : Z) (w : PublisherWorld) : PublisherWorld :=
  let p := the_publisher w in
  match worker_ p with
  | None => w
  | Some slept =>
      if stop_requested_ p
      then MkPublisherWorld (with_worker None p) (publisher_files w) (published_frames w)
      else if (slept <? BROWSER_PUBLISH_INTERVAL_SECONDS)%nat
      then MkPublisherWorld (with_worker (Some (Datatypes.S slept)) p) (publisher_files w) (published_frames w)
      else
        let '(_, sent, files) :=
          register_server x (browser_host_ p) (browser_port_ p) (with_users users (entry_ p))
            (tls_config_ p) (publisher_files w) in
        MkPublisherWorld (with_worker (Some 0) p) files (published_frames w ++ sent)%list
  end.

(** [stop], up to the join, and after it. *)
Definition request_stop (w : PublisherWorld) : PublisherWorld :=
  let p := the_publisher w in
  if negb (started_ p) then w
  else MkPublisherWorld (MkPublisher (browser_host_ p) (browser_port_ p) (entry_ p) (tls_config_ p) true
         (started_ p) (worker_ p)) (publisher_files w) (published_frames w).
Definition joined_stop (x : Exchange) (w : PublisherWorld) : PublisherWorld :=
  let p := the_publisher w in
  let '(_, sent, files) :=
    unregister_server x (browser_host_ p) (browser_port_ p) (entry_ p) (tls_config_ p) (publisher_files w) in
  MkPublisherWorld (MkPublisher (browser_host_ p) (browser_port_ p) (entry_ p) (tls_config_ p)
    (stop_requested_ p) false (worker_ p)) files (published_frames w ++ sent)%list.

(** The publisher's steps; the caller is in [stop] while a stop is requested. *)
Inductive publishes (w : PublisherWorld) : PublisherWorld -> Prop :=
| PublishStart x users : stop_requested_ (the_publisher w) && started_ (the_publisher w) = false ->
    publishes w (start x users w).2
| PublishStep x users : publishes w (publish_step x users w)
| PublishStop : publishes w (request_stop w)
| PublishJoined x : stop_requested_ (the_publisher w) = true -> started_ (the_publisher w) = true ->
    worker_ (the_publisher w) = None -> publishes w (joined_stop x w).

Inductive runs (w0 : PublisherWorld) : PublisherWorld -> Prop :=
| runs_refl : runs w0 w0
| runs_step w w' : runs w0 w -> publishes w w' -> runs w0 w'.

(** While it is started the background configuration holds, and a thread runs only
    then. *)
Definition publisher_inv (w : PublisherWorld) : Prop :=
  let p := the_publisher w in
  (started_ p = true -> confirm_certificate (tls_config_ p) = None /\
     trust_on_first_use (tls_config_ p) = false) /\
  (started_ p = false -> worker_ p = None).

Lemma publisher_step w w' : publisher_inv w -> publishes w w' -> publisher_inv w'.
Proof.
  intros [Hs Hw] Hstep. destruct Hstep as [x users _|x users| |x _ Hst Hn].
  - unfold start. destruct (started_ (the_publisher w)) eqn:E; [by split; cbn; rewrite ?E|].
    destruct (register_server _ _ _ _ _ _) as [[[e|] sent] files]; [|by split].
    split; cbn; rewrite ?E; [done|]. intros _. by apply Hw.
  - unfold publish_step. destruct (worker_ (the_publisher w)) as [slept|] eqn:E; [|by split; rewrite ?E].
    destruct (stop_requested_ (the_publisher w)); [by split; cbn|].
    assert (started_ (the_publisher w) = true) as Hst
      by (destruct (started_ (the_publisher w)); [done|by specialize (Hw eq_refl)]).
    destruct (slept <? _)%nat; [split; cbn; [exact Hs|by rewrite Hst]|].
    destruct (register_server _ _ _ _ _ _) as [[r sent] files]. split; cbn; [exact Hs|by rewrite Hst].
  - unfold request_stop. by destruct (started_ (the_publisher w)) eqn:E; split; cbn; rewrite ?E.
  - unfold joined_stop. destruct (unregister_server _ _ _ _ _ _) as [[r sent] files]. by split; cbn.
Qed.

Lemma publisher_runs w0 w : publisher_inv w0 -> runs w0 w -> publisher_inv w.
Proof. intros H0'. induction 1 as [|w w' _ IH Hs]; [done|]. by eapply publisher_step. Qed.

Lemma secure_settled x host port config files files' :
  enabled config = true -> confirm_certificate config = None -> trust_on_first_use config = false ->
  secure x host port config files = (None, files') ->
  exists certificate, SSL_get1_peer_certificate (peer x) = Some certificate /\
    let previous := previous_trust files config host port in
    (previous = fingerprint_of certificate \/
     previous = "" /\ (expected_fingerprint config <> "" \/
        SSL_get_verify_result (peer x) = X509_V_OK /\ certificate_matches_host certificate host = true)) /\
    files' = (load_trust files (trust_store_path config)).1.2.
Proof.
  intros He Hc Ht. unfold secure. rewrite He. cbn [negb].
  destruct (phase_error _ _); [done|].
  destruct (verify_peer files (peer x) host port config) as [[v|] f] eqn:E; [|done].
  destruct (accepted v) eqn:Ea; [|done]. intros [= <-]. by eapply verify_peer_settled.
Qed.

(** A request is sent only over a connection that [secure] let pass. *)
Lemma sent_secure x host port request config files r sent files' :
  send_request x host port request config files = (r, sent, files') -> sent <> [] ->
  secure x host port config files = (None, files').
Proof.
  unfold send_request. destruct (context_error x); [by intros [= _ <- _]|].
  destruct (phase_error _ (resolve x)); [by intros [= _ <- _]|].
  destruct (phase_error _ (tcp_connect x)); [by intros [= _ <- _]|].
  destruct (secure x host port config files) as [[e|] f]; [by intros [= _ <- _]|].
  destruct (value (encode_frame request)) as [payload|]; [|by intros [= _ <- _]].
  by destruct (phase_error _ (write x)); intros [= _ <- <-].
Qed.

(** Renewals decide nothing. Whatever a started publisher went through, when its
    thread sends a registration over TLS, the directory's certificate is the one
    trusted before at that address, or nothing was trusted there and it is the
    configured one or has a valid chain for that host; the user is not asked, no
    certificate is trusted because it is the first, and the trust store is only
    merged with its older place. *)
Theorem renewals_settled host port entry config files frames w x users :
  runs (MkPublisherWorld (publisher host port entry config) files frames) w ->
  let p := the_publisher w in
  let w' := publish_step x users w in
  enabled (tls_config_ p) = true -> published_frames w' <> published_frames w ->
  exists certificate, SSL_get1_peer_certificate (peer x) = Some certificate /\
    let previous := previous_trust (publisher_files w) (tls_config_ p) (browser_host_ p) (browser_port_ p) in
    (previous = fingerprint_of certificate \/
     previous = "" /\ (expected_fingerprint (tls_config_ p) <> "" \/
        SSL_get_verify_result (peer x) = X509_V_OK /\
        certificate_matches_host certificate (browser_host_ p) = true)) /\
    publisher_files w' = (load_trust (publisher_files w) (trust_store_path (tls_config_ p))).1.2.
Proof.
  intros Hruns. cbv zeta. intros He. apply publisher_runs in Hruns as [Hs Hw]; [|by split].
  unfold publish_step. destruct (worker_ (the_publisher w)) as [slept|] eqn:E; [|done].
  destruct (stop_requested_ (the_publisher w)); [done|]. destruct (slept <? _)%nat; [done|].
  destruct (started_ (the_publisher w)); [|by specialize (Hw eq_refl)].
  destruct (Hs eq_refl) as [Hc Ht]. unfold register_server.
  destruct (send_request _ _ _ _ _ _) as [[r sent] files'] eqn:Esend. cbn. intros Hsent.
  eapply secure_settled; [done..|]. eapply sent_secure; [exact Esend|]. intros ->. by rewrite app_nil_r in Hsent.
Qed.
End publisher.
