(* ===== verification/BrowserScenarios.v ===== *)
(** Concrete exchanges with a directory of servers: the instances of the theorems of
    [BrowserProperties.v] and [Publisher.v]. *)

From S2P Require Import Prelude Frame Message Utils Tls Browser BrowserProperties Publisher.
Local Open Scope string_scope.

Definition sample_server : BrowserEntry := MkEntry "Ann's | room" "chat.example" 7777 false true 3 0.

(** Some requests, one of them withdrawn later and one malformed. *)
Definition sample_requests : list string :=
  ["REGISTER|night owls|owls.example|7777|1|12|1"; "LIST"; "HELLO";
   "REGISTER|brief|brief.example|1|0|x|0"; "UNREGISTER|brief.example|1|brief"].

Lemma toy_clock_monotone : clock_monotone.
Proof. intros i j Hij. cbn. lia. Qed.

Lemma directory_current_witness :
  let b := serve sample_requests empty_browser in
  let t' := system_clock (Datatypes.S (clock_reads b)) in
  (process_request "LIST" b).1 =
    ((server_line (system_clock (clock_reads b)) ∘ snd <$>
      map_iter (live t' (reference sample_requests empty_browser ∅))) ++ ["END"])%list /\
  length (process_request "LIST" b).1 = 2.
Proof.
  split; [|vm_compute; reflexivity].
  exact (proj2 (directory_current sample_requests toy_clock_monotone)).
Defined.

(** A client with an exchange that the browser in state [b] answers. *)
Definition frame_text (request : string) : string := default "" (value (encode_frame request)).
Definition exchange_with (b : ServerBrowser) (request : string) : Exchange :=
  MkExchange None (PhaseDone None) (PhaseDone None) (PhaseDone None) alpha "" (PhaseDone None)
    (LineRead <$> getlines newline (respond (line_of (frame_text request)) b).1).

Definition directory_files : Files := (secure (exchange_with empty_browser "LIST") "directory.example"
  BROWSER_PORT default_client_config ∅).2.

Lemma exchange_reaches b request :
  reaches (exchange_with b request) "directory.example" BROWSER_PORT default_client_config ∅ directory_files.
Proof. split; try reflexivity; vm_compute; reflexivity. Qed.

Lemma exchange_answers b request :
  value (encode_frame request) = Some (frame_text request) -> answers (exchange_with b request) request b.
Proof. intros Hf. exists (frame_text request). by split. Qed.

Lemma listing_arrives_witness :
  let b := serve sample_requests empty_browser in
  let t' := system_clock (Datatypes.S (clock_reads b)) in
  (list_servers (exchange_with b "LIST") "directory.example" BROWSER_PORT default_client_config ∅ 9).1.1
  = inr (seen_all (system_clock (clock_reads b)) 9
      (snd <$> map_iter (live t' (reference sample_requests empty_browser ∅)))).
Proof.
  pose proof (listing_arrives (exchange_with (serve sample_requests empty_browser) "LIST")
    "directory.example" BROWSER_PORT default_client_config ∅ directory_files sample_requests 9
    toy_clock_monotone (exchange_reaches _ _) (exchange_answers _ "LIST" eq_refl)) as Hl.
  cbv zeta in Hl |- *. revert Hl.
  replace (length _ <? 1000)%nat with true by (vm_compute; reflexivity). done.
Defined.

Lemma published_server_found_witness :
  let b := serve sample_requests empty_browser in
  let b1 := (process_request (register_request sample_server) b).2 in
  let entry := published sample_server (system_clock (clock_reads b)) in
  exists found out,
    (list_servers (exchange_with b1 "LIST") "directory.example" BROWSER_PORT default_client_config ∅ 20).1.1
      = inr out /\ seen (system_clock (clock_reads b1)) found entry ∈ out.
Proof.
  destruct (published_server_found
    (exchange_with (serve sample_requests empty_browser) (register_request sample_server))
    (exchange_with (process_request (register_request sample_server) (serve sample_requests empty_browser)).2 "LIST")
    "directory.example" BROWSER_PORT "directory.example" BROWSER_PORT
    default_client_config default_client_config ∅ directory_files ∅ directory_files
    sample_server sample_requests [] 20 toy_clock_monotone) as [_ Hfound].
  - split; vm_compute; congruence.
  - apply exchange_reaches.
  - apply exchange_answers. vm_compute. reflexivity.
  - intros request t Hin. by apply not_elem_of_nil in Hin.
  - vm_compute. discriminate.
  - vm_compute. lia.
  - apply exchange_reaches.
  - apply exchange_answers. vm_compute. reflexivity.
  - exact Hfound.
Defined.

(* ===================================================================== *)
(** * A publisher that renews its registration *)

Definition new_publisher : PublisherWorld :=
  MkPublisherWorld (publisher "directory.example" BROWSER_PORT sample_server default_client_config) ∅ [].
Definition register_exchange : Exchange := exchange_with empty_browser (register_request sample_server).
Definition started_publisher : PublisherWorld := (start register_exchange 3 new_publisher).2.

(** A minute later. *)
Fixpoint sleep (n : nat) (w : PublisherWorld) : PublisherWorld :=
  match n with 0 => w | Datatypes.S n' => sleep n' (publish_step register_exchange 3 w) end.
Definition rested_publisher : PublisherWorld := sleep 60 started_publisher.

Lemma sleep_runs n w0 w : Publisher.runs w0 w -> Publisher.runs w0 (sleep n w).
Proof.
  revert w. induction n as [|n IH]; intros w Hw; [done|]. cbn [sleep]. apply IH.
  eapply Publisher.runs_step; [exact Hw|]. constructor.
Qed.

Lemma renewals_settled_witness :
  exists certificate, SSL_get1_peer_certificate alpha = Some certificate /\
    previous_trust (publisher_files rested_publisher)
      (tls_config_ (the_publisher rested_publisher)) "directory.example" BROWSER_PORT
    = fingerprint_of certificate.
Proof.
  destruct (renewals_settled "directory.example" BROWSER_PORT sample_server default_client_config ∅ []
    rested_publisher register_exchange 5) as (certificate & Hc & Hg & _).
  - apply sleep_runs. eapply Publisher.runs_step; [constructor|]. by constructor.
  - vm_compute. reflexivity.
  - vm_compute. congruence.
  - exists certificate. split; [exact Hc|]. destruct Hg as [Hg|[Hg _]]; [exact Hg|].
    revert Hg. vm_compute. discriminate.
Defined.
