(* ===== verification/Terminal.v ===== *)
(** The terminal's model: [ui/terminal_model.h] and [ui/terminal_model.cpp]. Text is
    measured and cut by the C library's multibyte conversion and [wcwidth], which
    depend on the locale: they are the class [Locale], with what the code relies on in
    [LocaleLaws]. *)

From S2P Require Import Prelude Utils.
Local Open Scope string_scope.

(* ===================================================================== *)
(** * The locale *)

(** What [mbrtowc] returns at the front of a text, from the initial state: an error,
    an incomplete character, or a character and its number of bytes, 0 for the null
    character. After a character the state is initial again. *)
Inductive Multibyte := MbInvalid | MbIncomplete | MbChar (character : N) (count : nat).

Class Locale := {
  mbrtowc : string -> Multibyte;
  wcwidth : N -> Z;
}.

(** An encoding like UTF-8, and the widths of a terminal: a character is known by its
    own bytes, the printable ASCII characters are encoded as themselves and one cell
    wide, no other character has the byte of a space, only the null character is
    reported with 0 bytes, and nothing is wider than two cells. *)
Class LocaleLaws (l : Locale) := {
  mb_prefix : forall s c n, mbrtowc s = MbChar c n ->
    (n <= String.length s)%nat /\ forall r, n <> 0%nat -> mbrtowc (stake n s +:+ r) = MbChar c n;
  mb_ascii : forall a r, (32 <= code a < 127)%N -> mbrtowc (String a r) = MbChar (code a) 1;
  mb_space : forall s c n, mbrtowc s = MbChar c n -> stake n s = " " \/ free_of " " (stake n s) = true;
  mb_null : forall s c n, mbrtowc s = MbChar c n -> n = 0%nat -> c = 0%N;
  width_ascii : forall c, (32 <= c < 127)%N -> wcwidth c = 1%Z;
  width_bound : forall c, (wcwidth c <= 2)%Z;
}.

(* ===================================================================== *)
(** * Text *)

(** [previous_char] and [next_char], on bytes. *)
Definition is_continuation (c : ascii) : bool := (N.land (code c) 192 =? 128)%N.

Fixpoint back_over (text : string) (at_ : nat) : nat :=
  match at_ with
  | 0 => 0
  | Datatypes.S at' =>
      match String.get at_ text with
      | Some c => if is_continuation c then back_over text at' else at_
      | None => at_
      end
  end.
Definition previous_char (text : string) (at_ : nat) : nat := back_over text (at_ - 1).

(** The number of continuation bytes at the front. *)
Fixpoint continuations (s : string) : nat :=
  match s with
  | String c s' => if is_continuation c then Datatypes.S (continuations s') else 0
  | EmptyString => 0
  end.
Definition next_char (text : string) (at_ : nat) : nat :=
  if (String.length text <=? at_)%nat then String.length text
  else at_ + 1 + continuations (sdrop (at_ + 1) text).

(** Texts one after the other. *)
Definition glue (l : list string) : string := foldr String.append "" l.

Record Glyph := MkGlyph { glyph_text : string; glyph_width : Z }.

(** [s.rfind(' ')]. *)
Fixpoint srfind (c : ascii) (s : string) : option nat :=
  match s with
  | EmptyString => None
  | String c' s' =>
      match srfind c s' with
      | Some i => Some (Datatypes.S i)
      | None => if Ascii.eqb c' c then Some 0 else None
      end
  end.

Section text.
Context `{Locale}.

(** One turn of the loop of [glyphs]: the glyph and the bytes it takes. *)
Definition glyph_at (text : string) : Glyph * nat :=
  match mbrtowc text with
  | MbInvalid | MbIncomplete => (MkGlyph "?" 1, 1)
  | MbChar character count =>
      let count := if (count =? 0)%nat then 1 else count in
      ((if ((character <? 32) || ((127 <=? character) && (character <? 160)))%N then MkGlyph " " 1
        else let width := wcwidth character in
             if (width <? 0)%Z then MkGlyph "?" 1 else MkGlyph (stake count text) width),
       count)
  end.

(** Every turn takes a byte, which bounds the loop. *)
Fixpoint glyphs_loop (fuel : nat) (text : string) : list Glyph :=
  match fuel with
  | 0 => []
  | Datatypes.S fuel' =>
      if sempty text then []
      else let '(g, count) := glyph_at text in g :: glyphs_loop fuel' (sdrop count text)
  end.
Definition glyphs (text : string) : list Glyph := glyphs_loop (String.length text) text.

Definition texts (gs : list Glyph) : string := glue (glyph_text <$> gs).
Definition width_of (gs : list Glyph) : Z := foldr (fun g w => glyph_width g + w)%Z 0%Z gs.

Definition display_text (text : string) : string := texts (glyphs text).
Definition text_width (text : string) : Z := width_of (glyphs text).

Fixpoint fit_loop (gs : list Glyph) (available used : Z) (result : string) : string :=
  match gs with
  | [] => result
  | g :: gs' =>
      if (available <? used + glyph_width g)%Z then result
      else fit_loop gs' available (used + glyph_width g) (result +:+ glyph_text g)
  end.
Definition fit_text (text : string) (width : Z) (ellipsis : bool) : string :=
  if (width <=? 0)%Z then ""
  else
    let shortened := ellipsis && (width <? text_width text)%Z && (3 <=? width)%Z in
    let available := if shortened then (width - 3)%Z else width in
    let result := fit_loop (glyphs text) available 0 "" in
    if shortened then result +:+ "..." else result.

(** The line that is being filled, and its width. *)
Record Filling := MkFilling { lines : list string; line : string; used : Z }.

(** The break before a glyph that does not fit. *)
Definition break_line (width : Z) (st : Filling) : Filling :=
  match srfind " " (line st) with
  | Some space =>
      if (Z.quot width 2 <=? text_width (stake space (line st)))%Z
      then let rest := sdrop (space + 1) (line st) in
           MkFilling (lines st ++ [stake space (line st)])%list rest (text_width rest)
      else MkFilling (lines st ++ [line st])%list "" 0
  | None => MkFilling (lines st ++ [line st])%list "" 0
  end.

Definition fill (width : Z) (st : Filling) (g : Glyph) : Filling :=
  let st := if (width <? used st + glyph_width g)%Z && negb (sempty (line st))
            then break_line width st else st in
  if (width <? glyph_width g)%Z then MkFilling (lines st) (line st +:+ "?") (used st + 1)
  else MkFilling (lines st) (line st +:+ glyph_text g) (used st + glyph_width g).

Definition wrap_text (text : string) (width : Z) : list string :=
  if (width <? 1)%Z then []
  else
    let st := foldl (fill width) (MkFilling [] "" 0) (glyphs text) in
    match lines st with
    | [] => [line st]
    | _ => if sempty (line st) then lines st else (lines st ++ [line st])%list
    end.
End text.

(* ===================================================================== *)
(** * The line editor *)

Record LineEditor := MkEditor { text : string; cursor : nat }.

(** [text.erase(start, n)] and [text.insert(at, value)]. *)
Definition erase (s : string) (start n : nat) : string := stake start s +:+ sdrop (start + n) s.
Definition insert_at (s : string) (at_ : nat) (value : string) : string :=
  stake at_ s +:+ value +:+ sdrop at_ s.

Definition set_editor (value : string) : LineEditor := MkEditor value (String.length value).
Definition left (e : LineEditor) : LineEditor := MkEditor (text e) (previous_char (text e) (cursor e)).
Definition right (e : LineEditor) : LineEditor := MkEditor (text e) (next_char (text e) (cursor e)).
Definition backspace (e : LineEditor) : LineEditor :=
  let start := previous_char (text e) (cursor e) in
  MkEditor (erase (text e) start (cursor e - start)) start.
Definition erase_forward (e : LineEditor) : LineEditor :=
  MkEditor (erase (text e) (cursor e) (next_char (text e) (cursor e) - cursor e)) (cursor e).

(** [while (cursor && p(text[cursor - 1])) backspace();], which moves the cursor
    back each time. *)
Fixpoint erase_while (fuel : nat) (p : ascii -> bool) (e : LineEditor) : LineEditor :=
  match fuel with
  | 0 => e
  | Datatypes.S fuel' =>
      match cursor e with
      | 0 => e
      | Datatypes.S i =>
          match String.get i (text e) with
          | Some c => if p c then erase_while fuel' p (backspace e) else e
          | None => e
          end
      end
  end.
Definition erase_word (e : LineEditor) : LineEditor :=
  let e := erase_while (cursor e) (fun c => Ascii.eqb c " ") e in
  erase_while (cursor e) (fun c => negb (Ascii.eqb c " ")) e.

Definition insert (value : string) (limit : N) (e : LineEditor) : bool * LineEditor :=
  if (limit <? size_of (text e) + size_of value)%N then (false, e)
  else (true, MkEditor (insert_at (text e) (cursor e) value) (cursor e + String.length value)).

(* ===================================================================== *)
(** * The history of sent lines *)

Record InputHistory := MkHistory {
  entries_ : list string;
  position_ : nat;
  draft_ : string;
}.
Definition empty_history : InputHistory := MkHistory [] 0 "".

Definition reset (h : InputHistory) : InputHistory := MkHistory (entries_ h) (length (entries_ h)) "".
Definition remember (line : string) (h : InputHistory) : InputHistory :=
  let entries :=
    if negb (sempty line) && bool_decide (list.last (entries_ h) <> Some line)
    then (entries_ h ++ [line])%list else entries_ h in
  let entries := if (100 <? length entries)%nat then tl entries else entries in
  reset (MkHistory entries (position_ h) (draft_ h)).
Definition previous (h : InputHistory) (e : LineEditor) : InputHistory * LineEditor :=
  let draft := if (position_ h =? length (entries_ h))%nat then text e else draft_ h in
  match position_ h with
  | 0 => (MkHistory (entries_ h) 0 draft, e)
  | Datatypes.S position =>
      (MkHistory (entries_ h) position draft, set_editor (default "" (entries_ h !! position)))
  end.
Definition next (h : InputHistory) (e : LineEditor) : InputHistory * LineEditor :=
  if (position_ h <? length (entries_ h))%nat then
    let position := Datatypes.S (position_ h) in
    (MkHistory (entries_ h) position (draft_ h),
     set_editor (if (position =? length (entries_ h))%nat then draft_ h
                 else default "" (entries_ h !! position)))
  else (h, e).

(* ===================================================================== *)
(** * Scrolling *)

Record TranscriptLine := MkLine {
  message : N;
  part : N;
  line_text : string;
  continuation : bool;
}.

(** [follow_], and the anchor [message_], [part_]. *)
Record Scrollback := MkScrollback { follow_ : bool; message_ : N; part_ : N }.
Definition new_scrollback : Scrollback := MkScrollback true 0 0.

(** The order of [std::pair]. *)
Definition before (l : TranscriptLine) (anchor : N * N) : bool :=
  ((message l <? anchor.1) || ((message l =? anchor.1) && (part l <? anchor.2)))%N.

(** [std::lower_bound]: [len] elements from [first] are left; each turn halves them. *)
Fixpoint lower_bound_loop (fuel : nat) (ls : list TranscriptLine) (anchor : N * N) (first len : nat) : nat :=
  match fuel with
  | 0 => first
  | Datatypes.S fuel' =>
      if (len =? 0)%nat then first
      else
        let half := Nat.div2 len in
        let middle := first + half in
        match ls !! middle with
        | Some l =>
            if before l anchor then lower_bound_loop fuel' ls anchor (middle + 1) (len - half - 1)
            else lower_bound_loop fuel' ls anchor first half
        | None => first
        end
  end.
Definition lower_bound (ls : list TranscriptLine) (anchor : N * N) : nat :=
  lower_bound_loop (length ls) ls anchor 0 (length ls).

(** [static_cast<int>] of a size. *)
Definition int_of (n : nat) : Z := (Z.of_nat n + 2 ^ 31) mod 2 ^ 32 - 2 ^ 31.

Definition start (ls : list TranscriptLine) (height : Z) (s : Scrollback) : nat :=
  let page := Z.to_nat (Z.max 1 height) in
  let last := length ls - page in
  if follow_ s then last else Nat.min last (lower_bound ls (message_ s, part_ s)).

Definition move_by (ls : list TranscriptLine) (height delta : Z) (s : Scrollback) : Scrollback :=
  if bool_decide (ls = []) then s
  else
    let last := Z.max 0 (int_of (length ls) - Z.max 1 height) in
    let target := Z.min last (Z.max 0 (int_of (start ls height s) + delta)) in
    match ls !! Z.to_nat target with
    | Some l => MkScrollback (target =? last)%Z (message l) (part l)
    | None => s   (* not reached: the target is a line *)
    end.
Definition latest (s : Scrollback) : Scrollback := MkScrollback true (message_ s) (part_ s).
