(* ===== verification/TerminalProperties.v ===== *)
(** Theorems about the terminal's model: the line editor against a list of
    characters with a cursor, wrapping and fitting of text, the history of sent
    lines, and the anchor that keeps the text being read in place. *)

From S2P Require Import Prelude Utils AppState Terminal.
Local Open Scope string_scope.

#[local] Arguments is_continuation : simpl never.

(* ===================================================================== *)
(** * The line editor *)

(** A character: a byte that is no continuation, and continuation bytes. *)
Definition is_char (c : string) : Prop :=
  match c with
  | EmptyString => False
  | String b r => is_continuation b = false /\ sall is_continuation r = true
  end.

(** A line of characters with a cursor between two of them; [z_before] is in reverse
    order. *)
Record Zipper := MkZipper { z_before : list string; z_after : list string }.

Definition z_set (cs : list string) : Zipper := MkZipper (rev cs) [].
Definition z_left (z : Zipper) : Zipper :=
  match z_before z with c :: b => MkZipper b (c :: z_after z) | [] => z end.
Definition z_right (z : Zipper) : Zipper :=
  match z_after z with c :: a => MkZipper (c :: z_before z) a | [] => z end.
Definition z_backspace (z : Zipper) : Zipper :=
  match z_before z with c :: b => MkZipper b (z_after z) | [] => z end.
Definition z_erase_forward (z : Zipper) : Zipper :=
  match z_after z with c :: a => MkZipper (z_before z) a | [] => z end.
Fixpoint drop_chars (p : string -> bool) (cs : list string) : list string :=
  match cs with c :: cs' => if p c then drop_chars p cs' else cs | [] => [] end.
Definition z_erase_word (z : Zipper) : Zipper :=
  let b := drop_chars (fun c => String.eqb c " ") (z_before z) in
  MkZipper (drop_chars (fun c => negb (String.eqb c " ")) b) (z_after z).
Definition z_insert (cs : list string) (z : Zipper) : Zipper := MkZipper (rev cs ++ z_before z) (z_after z).

(** The editor shows this line, with the cursor at this place. *)
Record shows (e : LineEditor) (z : Zipper) : Prop := {
  shows_chars : Forall is_char (z_before z) /\ Forall is_char (z_after z);
  shows_text : text e = glue (rev (z_before z)) +:+ glue (z_after z);
  shows_cursor : cursor e = String.length (glue (rev (z_before z)));
}.

Lemma glue_app l1 l2 : glue (l1 ++ l2) = glue l1 +:+ glue l2.
Proof.
  induction l1 as [|x l1 IH]; [done|].
  change (x +:+ glue (l1 ++ l2) = (x +:+ glue l1) +:+ glue l2). by rewrite IH, sapp_assoc.
Qed.
Lemma sdrop_length n s : String.length (sdrop n s) = (String.length s - n)%nat.
Proof. revert n. induction s as [|c s IH]; intros n; destruct n; cbn; auto. Qed.
Lemma glue_one s : glue [s] = s.
Proof. cbn. apply sapp_nil_r. Qed.

Lemma get_app s1 s2 n : String.get (String.length s1 + n) (s1 +:+ s2) = String.get n s2.
Proof. induction s1 as [|c s1 IH]; [done|]. exact IH. Qed.

Lemma get_continuation r n c : sall is_continuation r = true -> String.get n r = Some c -> is_continuation c = true.
Proof.
  revert n. induction r as [|c' r IH]; intros n Hr; [by destruct n|].
  cbn [sall] in Hr. apply andb_true_iff in Hr as [Hc Hr]. destruct n as [|n]; cbn; [by intros [= <-]|by apply IH].
Qed.
Lemma get_inside s1 s2 n : (n < String.length s1)%nat -> String.get n (s1 +:+ s2) = String.get n s1.
Proof.
  revert n. induction s1 as [|c s1 IH]; intros n Hn; [cbn in Hn; lia|].
  destruct n as [|n]; [done|]. cbn in *. apply IH. lia.
Qed.
Lemma get_some s n : (n < String.length s)%nat -> exists c, String.get n s = Some c.
Proof.
  revert n. induction s as [|c s IH]; intros n Hn; [cbn in Hn; lia|].
  destruct n as [|n]; [by exists c|]. cbn in *. apply IH. lia.
Qed.

(** From anywhere in a character, back to its first byte. *)
Lemma back_over_char x b r y k :
  is_continuation b = false -> sall is_continuation r = true -> (k <= String.length r)%nat ->
  back_over (x +:+ String b r +:+ y) (String.length x + k) = String.length x.
Proof.
  intros Hb Hr. induction k as [|k IH]; intros Hk.
  - rewrite Nat.add_0_r. destruct (String.length x) as [|n] eqn:E; [done|]. cbn [back_over]. rewrite <- E.
    rewrite <- (Nat.add_0_r (String.length x)), get_app. rewrite sapp_cons. cbn. by rewrite Hb, Nat.add_0_r.
  - rewrite <- plus_n_Sm. cbn [back_over]. rewrite plus_n_Sm, get_app.
    rewrite sapp_cons. change (String.get (Datatypes.S k) (String b ?s)) with (String.get k s).
    rewrite get_inside by lia. destruct (get_some r k) as [c Hc]; [lia|]. rewrite Hc.
    rewrite (get_continuation r k c Hr Hc). apply IH. lia.
Qed.

Lemma slength_append s1 s2 : String.length (s1 +:+ s2) = (String.length s1 + String.length s2)%nat.
Proof. apply slength_app. Qed.

Lemma previous_is_char x c y :
  is_char c -> previous_char (x +:+ c +:+ y) (String.length x + String.length c) = String.length x.
Proof.
  destruct c as [|b r]; [done|]. intros [Hb Hr]. unfold previous_char.
  replace (String.length x + String.length (String b r) - 1)%nat with (String.length x + String.length r)%nat
    by (cbn; lia). by apply back_over_char.
Qed.

Lemma continuations_char r y :
  sall is_continuation r = true -> continuations y = 0%nat -> continuations (r +:+ y) = String.length r.
Proof.
  intros Hr Hy. induction r as [|c r IH]; [done|]. cbn [sall] in Hr. apply andb_true_iff in Hr as [Hc Hr].
  rewrite sapp_cons. cbn. rewrite Hc. f_equal. by apply IH.
Qed.

Lemma chars_start cs : Forall is_char cs -> continuations (glue cs) = 0%nat.
Proof.
  destruct 1 as [|c cs Hc _]; [done|]. destruct c as [|b r]; [done|]. destruct Hc as [Hb _].
  change (continuations (String b (r +:+ glue cs)) = 0%nat). cbn. by rewrite Hb.
Qed.

Lemma next_is_char x c y :
  is_char c -> continuations y = 0%nat ->
  next_char (x +:+ c +:+ y) (String.length x) = (String.length x + String.length c)%nat.
Proof.
  destruct c as [|b r]; [done|]. intros [Hb Hr] Hy. unfold next_char.
  rewrite !slength_append. rewrite (proj2 (Nat.leb_gt _ _)) by (cbn; lia).
  rewrite <- (sdrop_sdrop 1 (String.length x)), sdrop_app, sapp_cons. cbn [sdrop].
  replace (sdrop 0 (r +:+ y)) with (r +:+ y) by by destruct (r +:+ y).
  rewrite continuations_char by done. cbn. lia.
Qed.

(* ===================================================================== *)
(** * Each key *)

Lemma glue_rev_cons c b : glue (rev (c :: b)) = glue (rev b) +:+ c.
Proof. cbn [rev]. by rewrite glue_app, glue_one. Qed.

Lemma shows_left e z : shows e z -> shows (left e) (z_left z).
Proof.
  intros [[Hb Ha] Ht Hc]. destruct z as [[|c b] a]; cbn [z_before z_after] in *.
  - split; [done|done|]. cbn [left cursor]. by rewrite Hc.
  - apply list.Forall_cons in Hb as [Hchar Hb]. rewrite glue_rev_cons in Ht, Hc.
    split; cbn [z_left z_before z_after left text cursor]; [split; [done|by constructor]| |].
    + rewrite Ht, sapp_assoc. done.
    + rewrite Hc, Ht, slength_append, sapp_assoc. by apply previous_is_char.
Qed.

Lemma shows_right e z : shows e z -> shows (right e) (z_right z).
Proof.
  intros [[Hb Ha] Ht Hc]. destruct z as [b [|c a]]; cbn [z_before z_after] in *.
  - split; [done|done|]. cbn [right cursor z_right z_before]. rewrite Hc, Ht. unfold next_char.
    rewrite slength_append. cbn [String.length glue foldr]. by rewrite Nat.add_0_r, Nat.leb_refl.
  - apply list.Forall_cons in Ha as [Hchar Ha].
    split; cbn [z_right z_before z_after right text cursor]; rewrite ?glue_rev_cons; [split; [by constructor|done]| |].
    + rewrite Ht, sapp_assoc. done.
    + rewrite Hc, Ht, slength_append. apply next_is_char; [done|]. by apply chars_start.
Qed.

Lemma erase_middle x c y : erase (x +:+ c +:+ y) (String.length x) (String.length c) = x +:+ y.
Proof. unfold erase. by rewrite stake_app, <- sdrop_sdrop, !sdrop_app. Qed.

Lemma shows_backspace e z : shows e z -> shows (backspace e) (z_backspace z).
Proof.
  intros [[Hb Ha] Ht Hc]. destruct z as [[|c b] a]; cbn [z_before z_after] in *.
  - split; [done| |]; cbn [backspace z_backspace z_before z_after text cursor]; rewrite Hc, Ht; [|done].
    cbn. by destruct (glue a).
  - apply list.Forall_cons in Hb as [Hchar Hb]. rewrite glue_rev_cons in Ht, Hc.
    assert (previous_char (text e) (cursor e) = String.length (glue (rev b))) as Hp.
    { rewrite Hc, Ht, slength_append, sapp_assoc. by apply previous_is_char. }
    split; cbn [z_backspace z_before z_after backspace text cursor]; [done| |done].
    rewrite Hp, Hc, Ht, slength_append, sapp_assoc.
    replace (_ + _ - _)%nat with (String.length c) by lia. apply erase_middle.
Qed.

Lemma shows_erase_forward e z : shows e z -> shows (erase_forward e) (z_erase_forward z).
Proof.
  intros Hs. pose proof (shows_right _ _ Hs) as [_ _ Hr]. destruct Hs as [[Hb Ha] Ht Hc].
  cbn [right cursor] in Hr. destruct z as [b [|c a]]; cbn [z_before z_after z_right] in *.
  - split; [done| |done]; cbn [erase_forward z_erase_forward z_before z_after text]. rewrite Hr, Hc, Nat.sub_diag.
    unfold erase. by rewrite Nat.add_0_r, stake_sdrop.
  - apply list.Forall_cons in Ha as [Hchar Ha]. rewrite glue_rev_cons in Hr.
    split; cbn [z_erase_forward z_before z_after erase_forward text cursor]; [done| |done].
    rewrite Hr, Hc, Ht, slength_append.
    replace (_ + _ - _)%nat with (String.length c) by lia. apply erase_middle.
Qed.

(** The byte before the cursor is the last of the character there. *)
Lemma last_byte x c y :
  is_char c -> exists l, String.get (String.length x + String.length c - 1) (x +:+ c +:+ y) = Some l /\
    Ascii.eqb l " " = String.eqb c " ".
Proof.
  destruct c as [|b r]; [done|]. intros [Hb Hr].
  replace (String.length x + String.length (String b r) - 1)%nat with (String.length x + String.length r)%nat
    by (cbn; lia). rewrite get_app, sapp_cons. destruct r as [|b' r'].
  - exists b. split; [done|]. change (String.eqb (String b "") " ") with (if Ascii.eqb b " " then true else false).
    by destruct (Ascii.eqb b " ").
  - change (String.get (String.length (String b' r')) (String b ?s)) with (String.get (String.length r') s).
    rewrite get_inside by (cbn; lia). destruct (get_some (String b' r') (String.length r')) as [l Hl]; [cbn; lia|].
    exists l. split; [done|]. pose proof (get_continuation _ _ _ Hr Hl) as Hcont.
    destruct (Ascii.eqb_spec l " ") as [->|_]; [done|].
    change (false = (if Ascii.eqb b " " then String.eqb (String b' r') "" else false)). by destruct (Ascii.eqb b " ").
Qed.

Lemma shows_erase_while fuel p q e z :
  (forall c l, Ascii.eqb l " " = String.eqb c " " -> p l = q c) ->
  shows e z -> (cursor e <= fuel)%nat ->
  shows (erase_while fuel p e) (MkZipper (drop_chars q (z_before z)) (z_after z)).
Proof.
  intros Hpq. revert e z. induction fuel as [|fuel IH]; intros e z Hs Hf.
  - destruct z as [[|c b] a]; [done|]. destruct Hs as [[Hb _] _ Hc]. exfalso. cbn [z_before] in *.
    apply list.Forall_cons in Hb as [Hchar _]. rewrite glue_rev_cons, slength_append in Hc.
    destruct c; [done|]. cbn in Hc. lia.
  - cbn [erase_while]. destruct z as [[|c b] a].
    { pose proof Hs as [_ _ Hc]. cbn in Hc. rewrite Hc. done. }
    pose proof Hs as [[Hb _] Ht Hc]. cbn [z_before z_after] in *.
    apply list.Forall_cons in Hb as [Hchar _]. rewrite glue_rev_cons in Ht, Hc.
    rewrite slength_append in Hc. rewrite sapp_assoc in Ht.
    destruct (last_byte (glue (rev b)) c (glue a) Hchar) as (l & Hl & Heq).
    rewrite <- Hc, <- Ht in Hl. destruct (cursor e) as [|i] eqn:Ei; [destruct c; [done|cbn in Hc; lia]|].
    replace (Datatypes.S i - 1)%nat with i in Hl by lia. rewrite Hl, (Hpq c l Heq). cbn [drop_chars].
    destruct (q c); [|done]. apply (IH (backspace e) (MkZipper b a)); [by apply (shows_backspace _ _ Hs)|].
    pose proof (shows_backspace _ _ Hs) as [_ _ Hc']. cbn [z_backspace z_before] in Hc'.
    rewrite Hc'. destruct c; [done|]. cbn in Hc. lia.
Qed.

Lemma shows_erase_word e z : shows e z -> shows (erase_word e) (z_erase_word z).
Proof.
  intros Hs. unfold erase_word, z_erase_word.
  pose proof (shows_erase_while (cursor e) (fun c => Ascii.eqb c " ") (fun c => String.eqb c " ") e z) as H1.
  specialize (H1 ltac:(intros c l Hl; exact Hl) Hs ltac:(done)).
  set (e1 := erase_while _ _ e) in *.
  refine (shows_erase_while (cursor e1) (fun c => negb (Ascii.eqb c " ")) (fun c => negb (String.eqb c " "))
    e1 _ _ H1 _); [|done]. intros c l Hl. by rewrite Hl.
Qed.

Lemma shows_set cs : Forall is_char cs -> shows (set_editor (glue cs)) (z_set cs).
Proof.
  intros Hcs. split; cbn; rewrite ?rev_involutive; [|by rewrite sapp_nil_r|done].
  split; [by apply List.Forall_rev|done].
Qed.

Lemma shows_insert cs limit e z :
  Forall is_char cs -> shows e z -> (size_of (text e) + size_of (glue cs) <= limit)%N ->
  shows (insert (glue cs) limit e).2 (z_insert cs z).
Proof.
  intros Hcs [[Hb Ha] Ht Hc] Hl. unfold insert. rewrite (proj2 (N.ltb_ge _ _)) by done.
  assert (rev (rev cs ++ z_before z) = (rev (z_before z) ++ cs)%list) as Hrev
    by by rewrite rev_app_distr, rev_involutive.
  split; cbn [snd text cursor z_insert z_before z_after]; rewrite ?Hrev, ?glue_app.
  - split; [|done]. apply list.Forall_app. split; [by apply List.Forall_rev|done].
  - unfold insert_at. rewrite Hc, Ht, stake_app, sdrop_app. by rewrite sapp_assoc.
  - by rewrite Hc, slength_append.
Qed.

(** The operations of the editor, as they follow each other. *)
Inductive Key :=
| KeySet (cs : list string) | KeyLeft | KeyRight | KeyBackspace | KeyEraseForward | KeyEraseWord
| KeyInsert (cs : list string) (limit : N).
Definition press (e : LineEditor) (k : Key) : LineEditor :=
  match k with
  | KeySet cs => set_editor (glue cs)
  | KeyLeft => left e
  | KeyRight => right e
  | KeyBackspace => backspace e
  | KeyEraseForward => erase_forward e
  | KeyEraseWord => erase_word e
  | KeyInsert cs limit => (insert (glue cs) limit e).2
  end.
Definition z_size (z : Zipper) : N := size_of (glue (rev (z_before z)) +:+ glue (z_after z)).
Definition z_press (z : Zipper) (k : Key) : Zipper :=
  match k with
  | KeySet cs => z_set cs
  | KeyLeft => z_left z
  | KeyRight => z_right z
  | KeyBackspace => z_backspace z
  | KeyEraseForward => z_erase_forward z
  | KeyEraseWord => z_erase_word z
  | KeyInsert cs limit => if (limit <? z_size z + size_of (glue cs))%N then z else z_insert cs z
  end.
(** What is set or inserted is whole characters. *)
Definition whole (k : Key) : Prop :=
  match k with KeySet cs | KeyInsert cs _ => Forall is_char cs | _ => True end.

Lemma shows_press e z k : whole k -> shows e z -> shows (press e k) (z_press z k).
Proof.
  intros Hk Hs. destruct k as [cs| | | | | |cs limit]; cbn [press z_press].
  - by apply shows_set.
  - by apply shows_left.
  - by apply shows_right.
  - by apply shows_backspace.
  - by apply shows_erase_forward.
  - by apply shows_erase_word.
  - unfold z_size. rewrite <- (shows_text _ _ Hs). destruct (N.ltb_spec limit (size_of (text e) + size_of (glue cs))).
    + unfold insert. by rewrite (proj2 (N.ltb_lt _ _)).
    + by apply shows_insert.
Qed.


(* ===================================================================== *)
(** * The history *)

(** The lines without empty ones and repetitions, after [prev]. *)
Fixpoint distinct_lines (prev : option string) (ls : list string) : list string :=
  match ls with
  | [] => []
  | l :: ls' =>
      if sempty l || bool_decide (prev = Some l) then distinct_lines prev ls'
      else l :: distinct_lines (Some l) ls'
  end.

Definition remember_all (ls : list string) : InputHistory := foldl (fun h l => remember l h) empty_history ls.

Lemma distinct_snoc prev ls l :
  distinct_lines prev (ls ++ [l]) =
  (distinct_lines prev ls ++
   (if sempty l || bool_decide (match list.last (distinct_lines prev ls) with
                                | Some x => Some x | None => prev end = Some l) then [] else [l]))%list.
Proof.
  revert prev. induction ls as [|x ls IH]; intros prev; cbn [app distinct_lines].
  - by destruct (_ || _)%bool.
  - destruct (sempty x || _)%bool; [apply IH|]. rewrite IH. cbn [app]. f_equal. f_equal.
    rewrite list.last_cons. by destruct (list.last (distinct_lines (Some x) ls)).
Qed.

Lemma last_last_n {A} n (l : list A) : (0 < n)%nat -> list.last (last_n n l) = list.last l.
Proof.
  intros Hn. unfold last_n. destruct (decide (l = [])) as [->|Hne]; [by rewrite drop_nil|].
  rewrite !last_lookup, lookup_drop, length_drop.
  destruct l as [|x l]; [done|]. f_equal. cbn [length]. lia.
Qed.

Lemma remember_entries l h :
  entries_ (remember l h) =
  let entries := if sempty l || bool_decide (list.last (entries_ h) = Some l) then entries_ h
                 else (entries_ h ++ [l])%list in
  if (100 <? length entries)%nat then tl entries else entries.
Proof.
  unfold remember. cbn [entries_ reset]. destruct (sempty l); cbn [negb andb orb]; [done|].
  rewrite bool_decide_not. by destruct (bool_decide (list.last (entries_ h) = Some l)).
Qed.

Lemma remembered ls : entries_ (remember_all ls) = last_n 100 (distinct_lines None ls).
Proof.
  induction ls as [|l ls IH] using rev_ind; [done|].
  unfold remember_all. rewrite foldl_snoc. fold (remember_all ls). rewrite remember_entries, IH.
  cbv zeta. rewrite last_last_n by lia. rewrite distinct_snoc.
  set (d := distinct_lines None ls).
  replace (match list.last d with Some x => Some x | None => None end) with (list.last d) by by destruct (list.last d).
  assert (length (last_n 100 d) <= 100)%nat as Hlen by (unfold last_n; rewrite length_drop; lia).
  destruct (_ || _)%bool.
  - rewrite app_nil_r. by rewrite (proj2 (Nat.ltb_ge _ _)).
  - unfold last_n in *. rewrite !length_app, length_drop in *. cbn [length] in *.
    destruct (Nat.ltb_spec 100 (length d - (length d - 100) + 1)).
    + destruct (drop (length d - 100) d) as [|x r] eqn:Ed.
      { apply (f_equal length) in Ed. rewrite length_drop in Ed. cbn in Ed. lia. }
      cbn [app tl]. rewrite drop_app_le by lia.
      replace (length d + 1 - 100)%nat with (length d - 100 + 1)%nat by lia.
      by rewrite <- drop_drop, Ed.
    + replace (length d - 100)%nat with 0%nat by lia. replace (length d + 1 - 100)%nat with 0%nat by lia. done.
Qed.

Lemma remember_reset l h : position_ (remember l h) = length (entries_ (remember l h)).
Proof. done. Qed.
Lemma remembered_position ls : position_ (remember_all ls) = length (entries_ (remember_all ls)).
Proof. destruct ls as [|l ls _] using rev_ind; [done|]. unfold remember_all. by rewrite foldl_snoc. Qed.

(** Pressing up or down a number of times. *)
Definition up (st : InputHistory * LineEditor) : InputHistory * LineEditor := previous st.1 st.2.
Definition down (st : InputHistory * LineEditor) : InputHistory * LineEditor := next st.1 st.2.

Lemma up_many k h e :
  position_ h = length (entries_ h) -> (k <= length (entries_ h))%nat -> (0 < k)%nat ->
  Nat.iter k up (h, e) =
    (MkHistory (entries_ h) (length (entries_ h) - k) (text e),
     set_editor (default "" (entries_ h !! (length (entries_ h) - k)%nat))).
Proof.
  intros Hp. induction k as [|k IH]; intros Hk Hpos; [lia|].
  change (Nat.iter (Datatypes.S k) up (h, e)) with (up (Nat.iter k up (h, e))).
  destruct (decide (k = 0%nat)) as [->|Hk0].
  - change (Nat.iter 0 up (h, e)) with (h, e). unfold up, previous. cbn [fst snd]. rewrite Hp, Nat.eqb_refl.
    destruct (length (entries_ h)) as [|n] eqn:E; [lia|]. by replace (Datatypes.S n - 1)%nat with n by lia.
  - rewrite IH by lia. unfold up, previous. cbn [fst snd position_ entries_ draft_].
    rewrite (proj2 (Nat.eqb_neq _ _)) by lia.
    replace (length (entries_ h) - k)%nat with (Datatypes.S (length (entries_ h) - Datatypes.S k)) by lia. done.
Qed.

Lemma down_many k h e d :
  position_ h = (length (entries_ h) - k)%nat -> (0 < k <= length (entries_ h))%nat -> draft_ h = d ->
  Nat.iter k down (h, e) = (MkHistory (entries_ h) (length (entries_ h)) d, set_editor d).
Proof.
  revert h e. induction k as [|k IH]; intros h e Hp Hk Hd; [lia|].
  rewrite Nat.iter_succ_r. unfold down at 2, next. cbn [fst snd].
  rewrite Hp, (proj2 (Nat.ltb_lt _ _)) by lia.
  destruct (decide (k = 0%nat)) as [->|Hk0].
  - replace (Datatypes.S (length (entries_ h) - 1)) with (length (entries_ h)) by lia.
    rewrite Nat.eqb_refl. cbn. by rewrite Hd.
  - rewrite (proj2 (Nat.eqb_neq _ _)) by lia.
    rewrite (IH (MkHistory (entries_ h) (Datatypes.S (length (entries_ h) - Datatypes.S k)) (draft_ h)));
      cbn [entries_ position_ draft_]; try done; lia.
Qed.

(** What the history recalls. It holds the last 100 lines that were sent, without
    empty ones and immediate repetitions; pressing up [k] times shows the [k]-th most
    recent of them, and pressing down as often brings back the unsent draft. *)
Theorem history_recalls ls e k :
  let sent := last_n 100 (distinct_lines None ls) in
  (0 < k <= length sent)%nat ->
  let st := Nat.iter k up (remember_all ls, e) in
  sent !! (length sent - k)%nat = Some (text st.2) /\
  Nat.iter k down st = (MkHistory sent (length sent) (text e), set_editor (text e)).
Proof.
  cbv zeta. rewrite <- remembered. intros Hk.
  rewrite up_many by (done || lia || apply remembered_position). cbn [snd].
  split.
  - destruct (entries_ (remember_all ls) !! (length (entries_ (remember_all ls)) - k)%nat) as [x|] eqn:Ex; [done|].
    apply lookup_ge_None in Ex. lia.
  - by rewrite (down_many _ _ _ (text e)).
Qed.

(* ===================================================================== *)
(** * The binary search *)

(** The number of lines at the front that are before the anchor. *)
Fixpoint lines_before (ls : list TranscriptLine) (anchor : N * N) : nat :=
  match ls with
  | l :: ls' => if before l anchor then Datatypes.S (lines_before ls' anchor) else 0
  | [] => 0
  end.

Definition key (l : TranscriptLine) : N * N := (message l, part l).
(** The lines come in the order of their messages and parts. *)
Definition ordered (ls : list TranscriptLine) : Prop :=
  StronglySorted (fun l1 l2 => before l1 (key l2) = true) ls.

Lemma before_spec l a : before l a = true <-> (message l < a.1 \/ message l = a.1 /\ part l < a.2)%N.
Proof. unfold before. rewrite orb_true_iff, andb_true_iff, N.ltb_lt, N.eqb_eq, N.ltb_lt. done. Qed.
Lemma before_key l : before l (key l) = false.
Proof. destruct (before l (key l)) eqn:E; [|done]. apply before_spec in E. cbn in E. lia. Qed.

Lemma ordered_lookup ls i j l1 l2 :
  ordered ls -> (i < j)%nat -> ls !! i = Some l1 -> ls !! j = Some l2 -> before l1 (key l2) = true.
Proof.
  intros Hs. revert i j. induction Hs as [|l ls Hs IH Hl]; intros i j Hij; [done|].
  destruct j as [|j]; [lia|]. destruct i as [|i]; cbn [lookup list_lookup].
  - intros [= <-] Hj. by apply (Forall_lookup_1 _ _ _ _ Hl Hj).
  - apply IH. lia.
Qed.

(** Once a line is not before the anchor, no later one is. *)
Lemma ordered_before ls anchor i j l1 l2 :
  ordered ls -> (i <= j)%nat -> ls !! i = Some l1 -> ls !! j = Some l2 ->
  before l2 anchor = true -> before l1 anchor = true.
Proof.
  intros Hs Hij H1 H2 Hb. destruct (decide (i = j)) as [->|Hne]; [by simplify_eq|].
  pose proof (ordered_lookup ls i j l1 l2 Hs ltac:(lia) H1 H2) as H12.
  apply before_spec in H12, Hb. apply before_spec. cbn in H12. lia.
Qed.

Lemma lines_before_spec ls anchor n :
  (n <= length ls)%nat ->
  (forall i l, (i < n)%nat -> ls !! i = Some l -> before l anchor = true) ->
  (forall l, ls !! n = Some l -> before l anchor = false) ->
  lines_before ls anchor = n.
Proof.
  revert n. induction ls as [|l ls IH]; intros n Hn Hlo Hhi; cbn [lines_before length] in *; [lia|].
  destruct n as [|n]; [by rewrite (Hhi l eq_refl)|].
  rewrite (Hlo 0%nat l ltac:(lia) eq_refl). f_equal. apply IH; [lia| |].
  - intros i l' Hi Hl. apply (Hlo (Datatypes.S i) l'); [lia|done].
  - intros l' Hl. by apply Hhi.
Qed.

Lemma lower_bound_loop_spec fuel ls anchor first len :
  ordered ls -> (len <= fuel)%nat -> (first + len <= length ls)%nat ->
  (forall i l, (i < first)%nat -> ls !! i = Some l -> before l anchor = true) ->
  (forall i l, (first + len <= i)%nat -> ls !! i = Some l -> before l anchor = false) ->
  lower_bound_loop fuel ls anchor first len = lines_before ls anchor.
Proof.
  intros Hs. revert first len. induction fuel as [|fuel IH]; intros first len Hf Hlen Hlo Hhi; cbn [lower_bound_loop].
  - symmetry. apply lines_before_spec; [lia|done|]. intros l. apply Hhi. lia.
  - destruct (Nat.eqb_spec len 0) as [->|Hne].
    { symmetry. apply lines_before_spec; [lia|done|]. intros l. apply Hhi. lia. }
    assert (Nat.div2 len < len)%nat as Hhalf by (rewrite Nat.div2_div; apply Nat.div_lt; lia).
    revert Hhalf. generalize (Nat.div2 len) as half. intros half Hhalf.
    destruct (lookup_lt_is_Some_2 ls (first + half)) as [m Hm]; [lia|]. rewrite Hm.
    destruct (before m anchor) eqn:Eb.
    + apply IH; [lia|lia| |].
      * intros i l Hi Hl. apply (ordered_before ls anchor i (first + half) l m); [done|lia|done|done|done].
      * intros i l Hi. apply Hhi. lia.
    + apply IH; [lia|lia|done|]. intros i l Hi Hl. destruct (before l anchor) eqn:El; [|done].
      rewrite <- Eb. symmetry. by apply (ordered_before ls anchor (first + half) i m l).
Qed.

Lemma lower_bound_lines ls anchor : ordered ls -> lower_bound ls anchor = lines_before ls anchor.
Proof.
  intros Hs. apply lower_bound_loop_spec; try done; try lia.
  intros i l Hi Hl. apply lookup_lt_Some in Hl. lia.
Qed.

(** The line that has the anchor's key is where the search ends. *)
Lemma lower_bound_key ls i l : ordered ls -> ls !! i = Some l -> lower_bound ls (key l) = i.
Proof.
  intros Hs Hl. rewrite lower_bound_lines by done. apply lines_before_spec.
  - apply lookup_lt_Some in Hl. lia.
  - intros j l' Hj Hl'. by apply (ordered_lookup ls j i).
  - intros l' Hl'. simplify_eq. apply before_key.
Qed.

(* ===================================================================== *)
(** * The anchor *)

Definition last_start (ls : list TranscriptLine) (height : Z) : nat := length ls - Z.to_nat (Z.max 1 height).

Lemma int_of_small n : (Z.of_nat n < 2 ^ 31)%Z -> int_of n = Z.of_nat n.
Proof. intros Hn. unfold int_of. rewrite Z.mod_small by lia. lia. Qed.

Lemma start_bound ls height s : (start ls height s <= last_start ls height)%nat.
Proof. unfold start, last_start. destruct (follow_ s); lia. Qed.

(** Where [move_by] goes, and the anchor it leaves. *)
Lemma move_by_spec ls height delta s :
  ordered ls -> ls <> [] -> (Z.of_nat (length ls) < 2 ^ 31)%Z ->
  let target := Z.to_nat (Z.min (Z.of_nat (last_start ls height))
                           (Z.max 0 (Z.of_nat (start ls height s) + delta))) in
  exists l, ls !! target = Some l /\
    move_by ls height delta s = MkScrollback (target =? last_start ls height)%nat (message l) (part l).
Proof.
  intros Hs Hne Hlen. cbv zeta. unfold move_by. rewrite bool_decide_false by done.
  pose proof (start_bound ls height s) as Hb. assert (0 < length ls)%nat by (destruct ls; [done|cbn; lia]).
  assert (last_start ls height < length ls)%nat as Hlast by (unfold last_start; lia).
  rewrite !int_of_small by lia.
  replace (Z.max 0 (Z.of_nat (length ls) - Z.max 1 height)) with (Z.of_nat (last_start ls height))
    by (unfold last_start; lia).
  set (t := Z.min _ _). destruct (lookup_lt_is_Some_2 ls (Z.to_nat t)) as [l Hl]; [unfold t; lia|].
  exists l. rewrite Hl. split; [done|]. f_equal.
  destruct (Z.eqb_spec t (Z.of_nat (last_start ls height))), (Nat.eqb_spec (Z.to_nat t) (last_start ls height));
    try done; unfold t in *; lia.
Qed.

(** Scrolling moves, and what is being read stays. [move_by] moves the first line
    shown by the number of lines asked for, within the transcript. And when that is
    not the end of the transcript, the same line stays the first one shown after any
    messages have been added and any lines above it have been evicted. *)
Theorem scrollback_anchored ls height delta s evicted added :
  ordered ls -> ls <> [] -> (Z.of_nat (length ls) < 2 ^ 31)%Z ->
  let s' := move_by ls height delta s in
  let shown := start ls height s' in
  shown = Z.to_nat (Z.min (Z.of_nat (last_start ls height))
                     (Z.max 0 (Z.of_nat (start ls height s) + delta))) /\
  ((shown < last_start ls height)%nat -> (evicted <= shown)%nat ->
   let ls' := (drop evicted ls ++ added)%list in
   ordered ls' ->
   start ls' height s' = (shown - evicted)%nat /\ ls' !! (shown - evicted)%nat = ls !! shown).
Proof.
  intros Hs Hne Hlen. cbv zeta.
  destruct (move_by_spec ls height delta s Hs Hne Hlen) as (l & Hl & Hmove). cbv zeta in Hl, Hmove.
  set (target := Z.to_nat _) in *. rewrite Hmove.
  assert (target <= last_start ls height)%nat as Htl by (unfold target; lia).
  assert (start ls height (MkScrollback (target =? last_start ls height)%nat (message l) (part l)) = target) as Hstart.
  { unfold start. cbn [follow_ message_ part_]. fold (last_start ls height). fold (key l).
    destruct (Nat.eqb_spec target (last_start ls height)) as [->|Hlt]; [done|].
    rewrite (lower_bound_key _ _ _ Hs Hl). lia. }
  rewrite Hstart. split; [done|]. intros Hlt Hev Hs'.
  assert ((drop evicted ls ++ added)%list !! (target - evicted)%nat = Some l) as Hl'.
  { rewrite lookup_app_l.
    - rewrite lookup_drop. by replace (evicted + (target - evicted))%nat with target by lia.
    - rewrite length_drop. unfold last_start in *. lia. }
  rewrite Hl'. split; [|done]. unfold start. cbn [follow_ message_ part_].
  rewrite (proj2 (Nat.eqb_neq _ _)) by lia. fold (key l). rewrite (lower_bound_key _ _ _ Hs' Hl').
  rewrite length_app, length_drop. unfold last_start in *. lia.
Qed.
