(* ===== verification/TextProperties.v ===== *)
(** Theorems about the text the terminal shows: lines that are wrapped or fitted are
    never wider than asked for, and wrapping loses nothing but the spaces at which it
    breaks. *)

From S2P Require Import Prelude Utils Terminal.
Local Open Scope string_scope.

Section text_properties.
Context `{l : Locale} `{!LocaleLaws l}.

(* ===================================================================== *)
(** * Glyphs *)

(** A glyph that is read back as itself, whatever follows it. *)
Record stable (g : Glyph) : Prop := {
  stable_nonempty : glyph_text g <> "";
  stable_width : (0 <= glyph_width g <= 2)%Z;
  stable_again : forall r, glyph_at (glyph_text g +:+ r) = (g, String.length (glyph_text g));
  stable_space : glyph_text g = " " \/ free_of " " (glyph_text g) = true;
}.

Lemma ascii_glyph a r : (32 <= code a < 127)%N ->
  glyph_at (String a r) = (MkGlyph (String a "") 1, 1).
Proof.
  intros Ha. unfold glyph_at. rewrite mb_ascii by done. cbn [Nat.eqb].
  rewrite (proj2 (N.ltb_ge _ _)), (proj2 (N.leb_gt _ _)) by lia. cbn [orb andb].
  rewrite width_ascii by done. cbn. by destruct r.
Qed.

Lemma stable_ascii a : (32 <= code a < 127)%N -> stable (MkGlyph (String a "") 1).
Proof.
  intros Ha. split; cbn [glyph_text glyph_width]; [done|lia| |].
  - intros r. rewrite sapp_cons, sapp_nil_l, ascii_glyph by done. done.
  - destruct (decide (a = " "%char)) as [->|Hne]; [by left|right]. unfold free_of. cbn [sall].
    by rewrite bool_decide_false.
Qed.

Lemma stake_length n s : (n <= String.length s)%nat -> String.length (stake n s) = n.
Proof.
  revert s. induction n as [|n IH]; intros s Hn; [by destruct s|].
  destruct s as [|c s]; [cbn in Hn; lia|]. cbn in *. rewrite IH; [done|lia].
Qed.

Lemma glyph_at_stable s : s <> "" -> stable (glyph_at s).1 /\ (1 <= (glyph_at s).2)%nat.
Proof.
  intros Hne. unfold glyph_at. destruct (mbrtowc s) as [| |c n] eqn:E.
  - split; [by apply stable_ascii|done].
  - split; [by apply stable_ascii|done].
  - destruct (mb_prefix _ _ _ E) as [Hlen Hagain]. split; [|cbn [snd]; destruct n; cbn; lia].
    destruct (_ || _)%bool eqn:Ec; cbn [fst]; [by apply stable_ascii|].
    destruct (Z.ltb_spec (wcwidth c) 0); [by apply stable_ascii|].
    assert (n <> 0%nat) as Hn.
    { intros ->. rewrite (mb_null _ _ _ E eq_refl) in Ec. done. }
    rewrite (proj2 (Nat.eqb_neq _ _)) by done.
    split; cbn [glyph_text glyph_width].
    + intros Hs. apply (f_equal String.length) in Hs. rewrite stake_length in Hs by done. cbn in Hs. lia.
    + pose proof (width_bound c). lia.
    + intros r. unfold glyph_at. rewrite (Hagain r Hn), (proj2 (Nat.eqb_neq _ _)), Ec, (proj2 (Z.ltb_ge _ _)) by done.
      rewrite stake_length by done. f_equal. f_equal.
      rewrite <- (stake_length n s) at 1 by done. by rewrite stake_app.
    + by apply mb_space in E.
Qed.

Lemma glyphs_loop_stable fuel s : Forall stable (glyphs_loop fuel s).
Proof.
  revert s. induction fuel as [|fuel IH]; intros s; [constructor|]. cbn [glyphs_loop].
  destruct (sempty s) eqn:Es; [constructor|]. apply sempty_false, glyph_at_stable in Es as [Hg _].
  destruct (glyph_at s) as [g n]. by constructor.
Qed.
Lemma glyphs_stable s : Forall stable (glyphs s).
Proof. apply glyphs_loop_stable. Qed.

Lemma texts_cons g gs : texts (g :: gs) = glyph_text g +:+ texts gs.
Proof. done. Qed.
Lemma texts_app gs1 gs2 : texts (gs1 ++ gs2) = texts gs1 +:+ texts gs2.
Proof. induction gs1 as [|g gs1 IH]; [done|]. rewrite <- app_comm_cons, !texts_cons, IH. by rewrite sapp_assoc. Qed.
Lemma width_of_app gs1 gs2 : width_of (gs1 ++ gs2) = (width_of gs1 + width_of gs2)%Z.
Proof. unfold width_of. induction gs1 as [|g gs1 IH]; [done|]. cbn. rewrite IH. lia. Qed.

(** What is shown is measured again as it was. *)
Lemma glyphs_loop_texts gs fuel :
  Forall stable gs -> (String.length (texts gs) <= fuel)%nat -> glyphs_loop fuel (texts gs) = gs.
Proof.
  intros Hs. revert fuel. induction Hs as [|g gs Hg Hgs IH]; intros fuel Hf; [by destruct fuel|].
  rewrite texts_cons in Hf |- *. rewrite slength_app in Hf.
  assert (1 <= String.length (glyph_text g))%nat as Hlen
    by (pose proof (stable_nonempty _ Hg); destruct (glyph_text g); [done|cbn; lia]).
  destruct fuel as [|fuel]; [lia|]. cbn [glyphs_loop].
  replace (sempty (glyph_text g +:+ texts gs)) with false.
  2:{ symmetry. apply sempty_false. intros Hnil. apply (f_equal String.length) in Hnil.
      rewrite slength_app in Hnil. cbn in Hnil. lia. }
  rewrite (stable_again _ Hg), sdrop_app. f_equal. apply IH. lia.
Qed.
Lemma text_width_texts gs : Forall stable gs -> text_width (texts gs) = width_of gs.
Proof. intros Hs. unfold text_width, glyphs. by rewrite glyphs_loop_texts. Qed.

Lemma width_of_nonneg gs : Forall stable gs -> (0 <= width_of gs)%Z.
Proof. induction 1 as [|g gs Hg _ IH]; [done|]. cbn. pose proof (stable_width _ Hg). unfold width_of in IH. lia. Qed.

(* ===================================================================== *)
(** * Breaking a line *)

Lemma srfind_app c s1 s2 :
  srfind c (s1 +:+ s2) =
  match srfind c s2 with Some i => Some (String.length s1 + i)%nat | None => srfind c s1 end.
Proof.
  induction s1 as [|c1 s1 IH]; [rewrite sapp_nil_l; cbn; by destruct (srfind c s2)|]. rewrite sapp_cons. cbn [srfind]. rewrite IH.
  by destruct (srfind c s2).
Qed.
Lemma srfind_free c s : free_of c s = true -> srfind c s = None.
Proof.
  induction s as [|c' s IH]; [done|]. unfold free_of in *. cbn [sall srfind]. intros [Hc Hs]%andb_true_iff.
  rewrite IH by done. destruct (Ascii.eqb_spec c' c); [|done]. by case_bool_decide.
Qed.

(** The last space of a line of glyphs is a glyph of its own. *)
Lemma last_space gs i :
  Forall stable gs -> srfind " " (texts gs) = Some i ->
  exists before after, gs = (before ++ MkGlyph " " 1 :: after)%list /\
    stake i (texts gs) = texts before /\ sdrop (i + 1) (texts gs) = texts after.
Proof.
  intros Hs. revert i. induction Hs as [|g gs Hg Hgs IH]; intros i; [done|].
  rewrite texts_cons, srfind_app. destruct (srfind " " (texts gs)) as [j|] eqn:Ej.
  - intros [= <-]. destruct (IH j eq_refl) as (before & after & -> & Hb & Ha).
    exists (g :: before), after. split; [done|]. split.
    + rewrite texts_cons, <- Hb. generalize (texts (before ++ MkGlyph " " 1 :: after)) as t.
      generalize (glyph_text g) as s. induction s as [|c s IHs]; intros t; [done|].
      rewrite sapp_cons. cbn. by rewrite IHs.
    + by rewrite <- Nat.add_assoc, <- sdrop_sdrop, sdrop_app.
  - destruct (stable_space _ Hg) as [Hsp|Hf]; [|by rewrite srfind_free].
    rewrite Hsp. intros [= <-]. exists [], gs.
    assert (g = MkGlyph " " 1) as ->.
    { pose proof (stable_again _ Hg "") as Hag. rewrite Hsp, sapp_nil_r, ascii_glyph in Hag by done. by injection Hag. }
    split; [done|]. split; [done|]. change (" " +:+ texts gs) with (String " " (texts gs)).
    cbn [Nat.add sdrop]. by destruct (texts gs).
Qed.

(* ===================================================================== *)
(** * Wrapping *)

(** The lines, one after the other, are the text, but for a space at some breaks. *)
Inductive joins : list string -> string -> Prop :=
| joins_last s : joins [s] s
| joins_cut s ss t : joins ss t -> joins (s :: ss) (s +:+ t)
| joins_space s ss t : joins ss t -> joins (s :: ss) (s +:+ " " +:+ t).

Lemma joins_extend ss s t u : joins (ss ++ [s]) t -> joins (ss ++ [s +:+ u]) (t +:+ u).
Proof.
  revert t. induction ss as [|x ss IH]; intros t Hj; cbn [app] in *.
  - inversion Hj as [|? ? ? Hn|? ? ? Hn]; subst; [constructor|inversion Hn|inversion Hn].
  - inversion Hj as [? Heq|? ? t' Hn|? ? t' Hn]; subst; [by destruct ss| |].
    + rewrite sapp_assoc. apply joins_cut. by apply IH.
    + rewrite !sapp_assoc. apply joins_space. by apply IH.
Qed.

Lemma joins_split ss s1 s2 sep t :
  sep = "" \/ sep = " " -> joins (ss ++ [s1 +:+ sep +:+ s2]) t -> joins (ss ++ [s1; s2]) t.
Proof.
  intros Hsep. revert t. induction ss as [|x ss IH]; intros t Hj; cbn [app] in *.
  - inversion Hj as [|? ? ? Hn|? ? ? Hn]; subst; [|inversion Hn|inversion Hn].
    destruct Hsep as [->| ->]; [rewrite sapp_nil_l; apply joins_cut|apply joins_space]; constructor.
  - inversion Hj as [? Heq|? ? t' Hn|? ? t' Hn]; subst; [by destruct ss|apply joins_cut|apply joins_space]; by apply IH.
Qed.

(** A glyph wider than the line is shown as a question mark. *)
Definition narrow (width : Z) (g : Glyph) : string := if (width <? glyph_width g)%Z then "?" else glyph_text g.
Definition shown (width : Z) (text : string) : string := glue (narrow width <$> glyphs text).

(** The state of [wrap_text] after some glyphs: the line is made of glyphs and fits. *)
Record filling (width : Z) (st : Filling) (so_far : string) : Prop := {
  filling_line : exists gs, Forall stable gs /\ line st = texts gs /\ used st = width_of gs /\
    (width_of gs <= width)%Z;
  filling_lines : Forall (fun s => (text_width s <= width)%Z) (lines st);
  filling_joins : joins (lines st ++ [line st]) so_far;
}.

(** What a break leaves has room for any glyph of at most two cells, and at most
    the width. *)
Lemma break_filling width st so_far w :
  (1 <= width)%Z -> (0 <= w <= 2)%Z -> filling width st so_far ->
  filling width (break_line width st) so_far /\
  (used (break_line width st) + Z.min w width <= width)%Z /\ (used (break_line width st) + 1 <= width)%Z.
Proof.
  intros Hw Hg [(gs & Hs & Hl & Hu & Hfit) Hlines Hj].
  assert (filling width (MkFilling (lines st ++ [line st])%list "" 0) so_far) as Hcut.
  { split; cbn [line lines used].
    - exists []. split; [constructor|]. split; [done|]. split; [done|]. cbn. lia.
    - apply list.Forall_app. split; [done|]. constructor; [|constructor]. by rewrite Hl, text_width_texts.
    - rewrite <- app_assoc. apply (joins_split _ _ _ ""); [by left|]. by rewrite !sapp_nil_r. }
  unfold break_line. destruct (srfind " " (line st)) as [i|] eqn:Ei; [|split; [done|cbn; lia]].
  destruct (Z.leb_spec (Z.quot width 2) (text_width (stake i (line st)))) as [Hhalf|_]; [|split; [done|cbn; lia]].
  clear Hcut. rewrite Hl in Ei, Hhalf |- *. destruct (last_space gs i Hs Ei) as (before & after & Hgs & Hb & Ha).
  rewrite Hb in Hhalf |- *. rewrite Ha. subst gs.
  apply list.Forall_app in Hs as [Hsb Hsa]. apply list.Forall_cons in Hsa as [_ Hsa].
  rewrite text_width_texts in Hhalf by done.
  rewrite width_of_app in Hfit. change (width_of (MkGlyph " " 1 :: after)) with (1 + width_of after)%Z in Hfit.
  pose proof (width_of_nonneg _ Hsb). pose proof (width_of_nonneg _ Hsa).
  rewrite Z.quot_div_nonneg in Hhalf by lia.
  pose proof (Z.div_mod width 2 ltac:(lia)). pose proof (Z.mod_pos_bound width 2 ltac:(lia)).
  split; [|cbn [used]; rewrite text_width_texts by done; lia].
  split; cbn [line lines used].
  - exists after. rewrite text_width_texts by done. do 3 (split; [done|]). lia.
  - apply list.Forall_app. split; [done|]. constructor; [|constructor]. rewrite text_width_texts by done. lia.
  - rewrite <- app_assoc. apply (joins_split _ _ _ " "); [by right|].
    rewrite Hl, texts_app in Hj. exact Hj.
Qed.

Lemma fill_filling width st so_far g :
  (1 <= width)%Z -> stable g -> filling width st so_far ->
  filling width (fill width st g) (so_far +:+ narrow width g).
Proof.
  intros Hw Hg Hst. unfold fill, narrow. pose proof (stable_width _ Hg) as Hgw.
  set (st' := if (_ && _)%bool then _ else _).
  assert (filling width st' so_far /\ (used st' + Z.min (glyph_width g) width <= width)%Z /\
    ((width < glyph_width g)%Z -> (used st' + 1 <= width)%Z)) as ([(gs & Hs & Hl & Hu & Hfit) Hlines Hj] & Hroom & Hone).
  { unfold st'. destruct (_ && _)%bool eqn:Ec.
    - destruct (break_filling _ _ _ (glyph_width g) Hw Hgw Hst) as (H1 & H2 & H3). by split.
    - split; [done|]. destruct Hst as [(gs & Hs & Hl & Hu & Hfit) _ _].
      apply andb_false_iff in Ec as [Ec|Ec].
      + apply Z.ltb_ge in Ec. pose proof (width_of_nonneg _ Hs). lia.
      + apply negb_false_iff, sempty_spec in Ec. destruct Hs as [|g0 gs Hg0 _].
        * cbn in Hu. lia.
        * exfalso. rewrite Ec, texts_cons in Hl. pose proof (stable_nonempty _ Hg0).
          by destruct (glyph_text g0). }
  clearbody st'. destruct (Z.ltb_spec width (glyph_width g)) as [Hwide|Hnarrow]; split; cbn [line lines used].
  - exists (gs ++ [MkGlyph "?" 1])%list. rewrite texts_app, width_of_app.
    split; [apply list.Forall_app; split; [done|]; constructor; [by apply stable_ascii|constructor]|].
    split; [by rewrite Hl|]. cbn. specialize (Hone Hwide). lia.
  - done.
  - by apply joins_extend.
  - exists (gs ++ [g])%list. rewrite texts_app, width_of_app.
    split; [apply list.Forall_app; split; [done|]; by constructor|].
    split; [rewrite Hl, texts_cons; cbn; by rewrite sapp_nil_r|]. cbn. lia.
  - done.
  - by apply joins_extend.
Qed.

Lemma fill_all width gs st so_far :
  (1 <= width)%Z -> Forall stable gs -> filling width st so_far ->
  filling width (foldl (fill width) st gs) (so_far +:+ glue (narrow width <$> gs)).
Proof.
  intros Hw Hs. revert st so_far. induction Hs as [|g gs Hg _ IH]; intros st so_far Hst.
  { by rewrite sapp_nil_r. }
  cbn [foldl fmap list_fmap glue foldr]. fold (glue (narrow width <$> gs)). rewrite <- sapp_assoc.
  apply IH. by apply fill_filling.
Qed.

Lemma fill_line width gs st :
  Forall stable gs -> gs <> [] -> line (foldl (fill width) st gs) <> "".
Proof.
  intros Hs Hne. destruct gs as [|g gs _] using rev_ind; [done|].
  apply list.Forall_app in Hs as [_ Hg]. apply list.Forall_cons in Hg as [Hg _].
  rewrite foldl_snoc. unfold fill. pose proof (stable_nonempty _ Hg).
  set (st' := if (_ && _)%bool then _ else _). clearbody st'.
  intros Hl. apply (f_equal String.length) in Hl.
  destruct (width <? glyph_width g)%Z; cbn [line] in Hl; rewrite slength_app in Hl; [cbn in Hl; lia|].
  destruct (glyph_text g); [done|cbn in Hl; lia].
Qed.

(** C31: wrapping fits and loses nothing. In a locale with the usual widths, every
    line of [wrap_text] is at most as wide as asked for, and the lines after each
    other are the text as it is displayed, with only spaces at line breaks left out;
    from a width of two cells on, no character is replaced. *)
Theorem wrap_text_spec text width :
  (1 <= width)%Z ->
  Forall (fun s => (text_width s <= width)%Z) (wrap_text text width) /\
  joins (wrap_text text width) (shown width text) /\
  ((2 <= width)%Z -> shown width text = display_text text).
Proof.
  intros Hw. assert (filling width (MkFilling [] "" 0) "") as H0.
  { split; cbn [line lines used]; [|constructor|constructor].
    exists []. split; [constructor|]. split; [done|]. split; [done|]. cbn. lia. }
  pose proof (fill_all width (glyphs text) _ _ Hw (glyphs_stable text) H0) as [(gs & Hs & Hl & Hu & Hfit) Hlines Hj].
  rewrite sapp_nil_l in Hj. unfold wrap_text. rewrite (proj2 (Z.ltb_ge _ _)) by done.
  fold (shown width text) in Hj. pose proof (fill_line width (glyphs text) (MkFilling [] "" 0) (glyphs_stable text)) as Hne.
  set (st := foldl _ _ _) in *.
  assert (match lines st with
          | [] => [line st]
          | _ => if sempty (line st) then lines st else (lines st ++ [line st])%list
          end = (lines st ++ [line st])%list) as ->.
  { destruct (lines st) as [|s ss] eqn:El; [done|]. replace (sempty (line st)) with false; [done|].
    symmetry. apply sempty_false, Hne. intros Hnil. unfold st in El. by rewrite Hnil in El. }
  split; [|split; [done|]].
  - apply list.Forall_app. split; [done|]. constructor; [|constructor]. by rewrite Hl, text_width_texts.
  - intros Hw2. unfold shown, display_text, texts. f_equal. apply list_fmap_ext. intros i g Hg.
    apply (Forall_lookup_1 _ _ _ _ (glyphs_stable text)) in Hg. unfold narrow.
    pose proof (stable_width _ Hg). by rewrite (proj2 (Z.ltb_ge _ _)) by lia.
Qed.
End text_properties.
