(* ===== verification/TerminalScenarios.v ===== *)
(** A locale with characters of one and two bytes and one and two cells, and the
    instances of the terminal's theorems. *)

From S2P Require Import Prelude Utils AppState Terminal TerminalProperties TextProperties.
Local Open Scope string_scope.

#[export] Instance toy_locale : Locale := {
  mbrtowc s :=
    match s with
    | EmptyString => MbIncomplete
    | String a s' =>
        if (code a =? 0)%N then MbChar 0 0
        else if (code a <? 128)%N then MbChar (code a) 1
        else if (code a <? 194)%N then MbInvalid
        else match s' with
             | EmptyString => MbIncomplete
             | String b _ =>
                 if is_continuation b then MbChar (64 * (code a - 192) + (code b - 128)) 2 else MbInvalid
             end
    end;
  wcwidth c :=
    if (c <? 32)%N then (-1)%Z else if (c <? 127)%N then 1%Z else if (c <? 160)%N then (-1)%Z
    else if (c <? 2048)%N then 1%Z else 2%Z;
}.

Lemma toy_mb_cases s c n : mbrtowc s = MbChar c n ->
  (exists a r, s = String a r /\ code a = 0%N /\ c = 0%N /\ n = 0%nat) \/
  (exists a r, s = String a r /\ (0 < code a < 128)%N /\ c = code a /\ n = 1%nat) \/
  (exists a b r, s = String a (String b r) /\ (194 <= code a)%N /\ is_continuation b = true /\ n = 2%nat).
Proof.
  destruct s as [|a s]; [done|]. cbn [mbrtowc toy_locale].
  destruct (N.eqb_spec (code a) 0); [intros [= <- <-]; left; by exists a, s|].
  destruct (N.ltb_spec (code a) 128).
  { intros [= <- <-]. right. left. exists a, s. split; [done|]. split; [lia|done]. }
  destruct (N.ltb_spec (code a) 194); [done|]. destruct s as [|b s]; [done|].
  destruct (is_continuation b) eqn:Eb; [|done]. intros [= _ <-]. right. right. by exists a, b, s.
Qed.

Lemma not_space b : is_continuation b = true \/ (194 <= code b)%N -> b <> " "%char.
Proof. intros [Hb|Hb] ->; [done|]. vm_compute in Hb. by apply Hb. Qed.

#[export] Instance toy_locale_laws : LocaleLaws toy_locale.
Proof.
  split.
  - intros s c n Hm. pose proof (toy_mb_cases _ _ _ Hm) as [(a & r & -> & _ & _ & ->)|[(a & r & -> & Ha & -> & ->)|(a & b & r & -> & Ha & Hb & ->)]].
    + split; [cbn; lia|]. intros r' Hn. done.
    + split; [cbn; lia|]. intros r' _. cbn [stake]. destruct r; rewrite sapp_cons; cbn [mbrtowc toy_locale] in *;
        by rewrite (proj2 (N.eqb_neq _ _)), (proj2 (N.ltb_lt _ _)) by lia.
    + split; [cbn; lia|]. intros r' _. cbn [stake]. destruct r; rewrite !sapp_cons; cbn [mbrtowc toy_locale] in *;
        rewrite (proj2 (N.eqb_neq _ _)), !(proj2 (N.ltb_ge _ _)), Hb in Hm |- * by lia; done.
  - intros a r Ha. cbn. by rewrite (proj2 (N.eqb_neq _ _)), (proj2 (N.ltb_lt _ _)) by lia.
  - intros s c n Hm. pose proof (toy_mb_cases _ _ _ Hm) as [(a & r & -> & _ & _ & ->)|[(a & r & -> & Ha & -> & ->)|(a & b & r & -> & Ha & Hb & ->)]].
    + by right.
    + destruct (decide (a = " "%char)) as [->|Hne]; [left; by destruct r|right].
      destruct r; unfold free_of; cbn [stake sall]; by rewrite bool_decide_false.
    + right. destruct r; unfold free_of; cbn [stake sall]; rewrite !bool_decide_false;
        try done; apply not_space; first [by left|by right].
  - intros s c n Hm Hn. pose proof (toy_mb_cases _ _ _ Hm) as [(a & r & -> & _ & -> & _)|[(a & r & _ & _ & _ & ->)|(a & b & r & _ & _ & _ & ->)]]; done.
  - intros c Hc. cbn. by rewrite (proj2 (N.ltb_ge _ _)), (proj2 (N.ltb_lt _ _)) by lia.
  - intros c. cbn. repeat case_match; lia.
Qed.

Definition e_acute : string := String (ascii_of_nat 195) (String (ascii_of_nat 169) "").

(** A line with an accented letter: back over the word, then one character more. *)
Definition sample_keys : list Key :=
  [KeySet ["h"; e_acute; " "; "y"; "o"; "u"]; KeyEraseWord; KeyLeft; KeyBackspace; KeyInsert ["a"] 4; KeyInsert ["b"] 3].


Lemma wrap_text_spec_witness :
  wrap_text "a few words to wrap" 8 = ["a few"; "words"; "to wrap"] /\
  Forall (fun s => (text_width s <= 8)%Z) (wrap_text "a few words to wrap" 8).
Proof.
  split; [vm_compute; reflexivity|].
  exact (proj1 (wrap_text_spec "a few words to wrap" 8 ltac:(lia))).
Defined.

Lemma history_recalls_witness :
  let st := Nat.iter 2 up (remember_all ["hi"; "hi"; ""; "there"; "you"], set_editor "draft") in
  text st.2 = "there" /\ text (Nat.iter 2 down st).2 = "draft".
Proof.
  destruct (history_recalls ["hi"; "hi"; ""; "there"; "you"] (set_editor "draft") 2) as [_ Hd];
    [vm_compute; split; repeat constructor|].
  cbv zeta. split; [vm_compute; reflexivity|]. by rewrite Hd.
Defined.

(** Five lines of three messages, of which two are shown. *)
Definition sample_transcript : list TranscriptLine :=
  [MkLine 1 0 "one" false; MkLine 2 0 "two" false; MkLine 2 1 "and more" true; MkLine 3 0 "three" false;
   MkLine 3 1 "and more" true].

Lemma scrollback_anchored_witness :
  start sample_transcript 2 (move_by sample_transcript 2 (-1) new_scrollback) = 2%nat /\
  start (drop 1 sample_transcript ++ [MkLine 4 0 "four" false])%list 2
    (move_by sample_transcript 2 (-1) new_scrollback) = 1%nat.
Proof.
  assert (ordered sample_transcript) as Hs by (repeat constructor).
  destruct (scrollback_anchored sample_transcript 2 (-1) new_scrollback 1 [MkLine 4 0 "four" false] Hs
    ltac:(discriminate) ltac:(cbn; lia)) as [_ Hkeep].
  split; [vm_compute; reflexivity|]. apply Hkeep; [vm_compute; lia|vm_compute; lia|]. repeat constructor.
Defined.
