(* ===== verification/Preferences.v ===== *)
(** Remembered settings: [storage/preferences.h] and [storage/preferences.cpp]. The
    database of preferences is its three tables; a statement of SQLite succeeds or
    fails, and what a transaction did is kept when its COMMIT succeeds. The theorems:
    saving and loading agree, a save that fails changes nothing, and the list of
    recent servers. *)

From S2P Require Import Prelude Utils Tls.
Local Open Scope string_scope.

Record RecentServer := MkRecent {
  recent_name : string;
  recent_host : string;
  recent_port : N;          (* [std::uint16_t] *)
  recent_tls : bool;
  recent_ca : string;
  recent_pin : string;
}.

Record Preferences := MkPreferences {
  remember : bool;
  nickname : string;
  options : gmap string string;
  recent_servers : list RecentServer;
}.
Definition no_preferences : Preferences := MkPreferences false "" ∅ [].

Definition same_address (s1 s2 : RecentServer) : bool :=
  String.eqb (recent_host s1) (recent_host s2) && (recent_port s1 =? recent_port s2)%N
  && Bool.eqb (recent_tls s1) (recent_tls s2).
Definition with_name (name : string) (s : RecentServer) : RecentServer :=
  MkRecent name (recent_host s) (recent_port s) (recent_tls s) (recent_ca s) (recent_pin s).

(** The loop of [remember_server]: the first entry with the address is taken out, and
    its name is kept. *)
Fixpoint take_known (server : RecentServer) (l : list RecentServer) : RecentServer * list RecentServer :=
  match l with
  | [] => (server, [])
  | s :: l' =>
      if same_address s server then (with_name (recent_name s) server, l')
      else let '(server', rest) := take_known server l' in (server', s :: rest)
  end.
Definition remember_server (server : RecentServer) (p : Preferences) : Preferences :=
  let '(server, rest) := take_known server (recent_servers p) in
  MkPreferences (remember p) (nickname p) (options p) (take 10 (server :: rest)).

(* ===================================================================== *)
(** * The database *)

(** A row of [recent]: position, name, host, port, tls. *)
Record RecentRow := MkRow {
  row_position : Z; row_name : string; row_host : string; row_port : Z; row_tls : Z;
}.
(** A table is missing before the first save; [options] also in older files. *)
Record Database := MkDatabase {
  settings_table : option (list (Z * string));
  recent_table : option (list RecentRow);
  options_table : option (list (string * string));
}.
Definition empty_database : Database := MkDatabase None None None.

(** A C string ends at the first null byte. *)
Fixpoint c_text (s : string) : string :=
  match s with
  | String c s' => if (code c =? 0)%N then "" else String c (c_text s')
  | EmptyString => ""
  end.

(** [sqlite3_column_int]. *)
Definition column_int (z : Z) : Z := (z + 2 ^ 31) mod 2 ^ 32 - 2 ^ 31.

Definition row_le (r1 r2 : RecentRow) : Prop := (row_position r1 <= row_position r2)%Z.
#[export] Instance row_le_dec : RelDecision row_le.
Proof. intros r1 r2. unfold row_le. apply _. Defined.

(** A row of [SELECT name,host,port,tls]; [None] is [continue]. *)
Definition load_recent (r : RecentRow) : option RecentServer :=
  let port := column_int (row_port r) in
  let host := c_text (row_host r) in
  if ((port <? 1) || (65535 <? port))%Z || sempty host || (HOST_MAX_LEN <? size_of host)%N then None
  else Some (MkRecent (c_text (row_name r)) host (Z.to_N port) (column_int (row_tls r) =? 1)%Z "" "").

Definition ca_key (i : nat) : string := "recent.ca." +:+ to_string (N.of_nat i).
Definition pin_key (i : nat) : string := "recent.pin." +:+ to_string (N.of_nat i).

(** [options[key]], which adds a missing key. *)
Definition at_key (key : string) (m : gmap string string) : string * gmap string string :=
  match m !! key with Some v => (v, m) | None => ("", <[key := ""]> m) end.

(** The loop over the recent servers, from index [i]. *)
Fixpoint load_pins (i : nat) (l : list RecentServer) (m : gmap string string) :
    list RecentServer * gmap string string :=
  match l with
  | [] => ([], m)
  | s :: l' =>
      let '(ca, m) := at_key (ca_key i) m in
      let '(pin, m) := at_key (pin_key i) m in
      let '(rest, m) := load_pins (Datatypes.S i) l' m in
      (MkRecent (recent_name s) (recent_host s) (recent_port s) (recent_tls s) ca pin :: rest, m)
  end.

(** [load_preferences]. [opens] is whether the file opens; a missing table is the
    error of [prepare]. *)
Definition load_preferences (file : option Database) (opens : bool) : Outcome Preferences :=
  match file with
  | None => Returned no_preferences
  | Some db =>
      if negb opens then Thrown
      else match settings_table db with
      | None => Thrown
      | Some settings =>
          let '(remembered, nick) :=
            match settings with
            | [] => (false, "")
            | (r, n) :: _ =>
                let nick := c_text n in
                ((column_int r =? 1)%Z, if is_valid_nickname nick then nick else "")
            end in
          if negb remembered then Returned no_preferences
          else match recent_table db with
          | None => Thrown
          | Some rows =>
              let servers := omap load_recent (take 10 (merge_sort row_le rows)) in
              match options_table db with
              | None => Returned (MkPreferences true nick ∅ servers)
              | Some rows =>
                  let m := foldl (fun m row => <[c_text row.1 := c_text row.2]> m) ∅ rows in
                  let '(servers, m) := load_pins 0 servers m in
                  Returned (MkPreferences true nick m servers)
              end
          end
      end
  end.

(** The rows of [save_preferences], from index [i]. *)
Fixpoint recent_rows (i : nat) (l : list RecentServer) : list RecentRow :=
  match l with
  | [] => []
  | s :: l' =>
      MkRow (Z.of_nat i) (c_text (recent_name s)) (c_text (recent_host s)) (Z.of_N (recent_port s))
        (if recent_tls s then 1 else 0)%Z :: recent_rows (Datatypes.S i) l'
  end.
Fixpoint pin_options (i : nat) (l : list RecentServer) (m : gmap string string) : gmap string string :=
  match l with
  | [] => m
  | s :: l' =>
      pin_options (Datatypes.S i) l' (<[pin_key i := recent_pin s]> (<[ca_key i := recent_ca s]> m))
  end.
Definition saved_options (p : Preferences) : gmap string string :=
  pin_options 0 (recent_servers p)
    (base.filter (fun kv => String.prefix "recent." kv.1 = false) (options p)).

(** What the transaction writes. *)
Definition saved_database (p : Preferences) : Database :=
  MkDatabase
    (Some [((if remember p then 1 else 0)%Z, if remember p then c_text (nickname p) else "")])
    (Some (if remember p then recent_rows 0 (take 10 (recent_servers p)) else []))
    (Some (if remember p
           then (fun kv => (c_text kv.1, c_text kv.2)) <$> map_iter (saved_options p) else [])).

(** The number of statements stepped or executed: BEGIN to DELETE, the settings, each
    server, each option, COMMIT. *)
Definition statements (p : Preferences) : nat :=
  3 + if remember p then length (take 10 (recent_servers p)) + size (saved_options p) else 0.

(** [save_preferences]: [succeeds n] is whether the [n]-th statement does; the primary
    key of [options] refuses two names that are the same C string. A connection that
    is closed within a transaction rolls it back. *)
Definition save_preferences (opens : bool) (succeeds : nat -> bool) (p : Preferences)
    (file : option Database) : Outcome unit * option Database :=
  if negb opens then (Thrown, file)
  else
    let old := default empty_database file in
    let names := c_text ∘ fst <$> map_iter (saved_options p) in
    if forallb succeeds (seq 0 (statements p)) && (negb (remember p) || bool_decide (NoDup names))
    then (Returned tt, Some (saved_database p))
    else (Thrown, Some old).

(* ===================================================================== *)
(** * Lemmas: the recent servers *)

Definition address (s : RecentServer) : string * N * bool := (recent_host s, recent_port s, recent_tls s).

Lemma same_address_spec s1 s2 : same_address s1 s2 = true <-> address s1 = address s2.
Proof.
  unfold same_address, address. rewrite !andb_true_iff, String.eqb_eq, N.eqb_eq, Bool.eqb_true_iff.
  split; [by intros [[-> ->] ->]|by intros [= -> -> ->]].
Qed.

(** The name under which an address is known. *)
Fixpoint known_name (s : RecentServer) (l : list RecentServer) : string :=
  match l with
  | [] => recent_name s
  | x :: l' => if same_address x s then recent_name x else known_name s l'
  end.

Lemma filter_all {A} (P : A -> Prop) `{!forall x, Decision (P x)} l : Forall P l -> base.filter P l = l.
Proof. induction 1 as [|x l Hx _ IH]; [done|]. by rewrite filter_cons, decide_True, IH. Qed.

Lemma nodup_filter_map {A B} (f : A -> B) (P : A -> Prop) `{!forall x, Decision (P x)} l :
  NoDup (f <$> l) -> NoDup (f <$> base.filter P l).
Proof.
  induction l as [|x l IH]; [done|]. cbn [fmap list_fmap]. intros [Hx Hl]%list.NoDup_cons.
  rewrite filter_cons. case_decide; [|by apply IH]. cbn [fmap list_fmap]. apply list.NoDup_cons.
  split; [|by apply IH]. intros (y & Hy & Hin)%list_elem_of_fmap. apply list_elem_of_filter in Hin as [_ Hin].
  apply Hx. rewrite Hy. by apply list_elem_of_fmap_2.
Qed.

Lemma take_known_spec s l :
  NoDup (address <$> l) ->
  take_known s l = (with_name (known_name s l) s, base.filter (fun x => same_address x s = false) l).
Proof.
  induction l as [|x l IH]; cbn [take_known known_name fmap list_fmap]; [by destruct s|].
  intros [Hx Hl]%list.NoDup_cons. rewrite filter_cons. destruct (same_address x s) eqn:E; cbn [decide].
  - rewrite decide_False by done. f_equal. symmetry. apply filter_all.
    apply list.Forall_forall. intros y Hy. destruct (same_address y s) eqn:Ey; [|done].
    apply same_address_spec in E, Ey. exfalso. apply Hx. rewrite E, <- Ey. by apply list_elem_of_fmap_2.
  - by rewrite IH, decide_True.
Qed.

(* ===================================================================== *)
(** * Lemmas: the options *)

Lemma ca_pin_ne i j : ca_key i <> pin_key j.
Proof. done. Qed.
Lemma ca_key_inj i j : ca_key i = ca_key j -> i = j.
Proof. unfold ca_key. intros [= H%to_string_inj]. lia. Qed.
Lemma pin_key_inj i j : pin_key i = pin_key j -> i = j.
Proof. unfold pin_key. intros [= H%to_string_inj]. lia. Qed.

(** The options written for the servers from index [i] on. *)
Lemma pin_options_other i l m key :
  (forall j, (i <= j)%nat -> key <> ca_key j /\ key <> pin_key j) -> pin_options i l m !! key = m !! key.
Proof.
  revert i m. induction l as [|s l IH]; intros i m Hk; [done|]. cbn [pin_options].
  rewrite IH by (intros j Hj; apply Hk; lia). destruct (Hk i ltac:(lia)) as [H1 H2].
  by rewrite !lookup_insert_ne.
Qed.

Lemma pin_options_at i l m j s :
  l !! j = Some s ->
  pin_options i l m !! ca_key (i + j) = Some (recent_ca s) /\
  pin_options i l m !! pin_key (i + j) = Some (recent_pin s).
Proof.
  revert i m j. induction l as [|x l IH]; intros i m j Hj; [done|]. cbn [pin_options].
  destruct j as [|j]; cbn [lookup list_lookup] in Hj.
  - injection Hj as ->. rewrite Nat.add_0_r, !pin_options_other.
    + rewrite lookup_insert_eq, lookup_insert_ne, lookup_insert_eq by (intros E; by apply (ca_pin_ne i i)).
      done.
    + intros j Hj. split; [by intros E; apply (ca_pin_ne j i)|]. intros E%pin_key_inj. lia.
    + intros j Hj. split; [|apply ca_pin_ne]. intros E%ca_key_inj. lia.
  - rewrite <- plus_n_Sm. apply (IH (Datatypes.S i)). done.
Qed.

(** Loading finds what was written and adds no key. *)
Definition without_pins (s : RecentServer) : RecentServer :=
  MkRecent (recent_name s) (recent_host s) (recent_port s) (recent_tls s) "" "".

Lemma load_pins_saved i l m :
  (forall j s, l !! j = Some s -> m !! ca_key (i + j) = Some (recent_ca s) /\
                                  m !! pin_key (i + j) = Some (recent_pin s)) ->
  load_pins i (without_pins <$> l) m = (l, m).
Proof.
  revert i. induction l as [|s l IH]; intros i Hm; [done|]. cbn [load_pins fmap list_fmap].
  destruct (Hm 0%nat s eq_refl) as [Hca Hpin]. rewrite Nat.add_0_r in Hca, Hpin.
  unfold at_key. rewrite Hca, Hpin. rewrite IH; [by destruct s|].
  intros j s' Hj. rewrite plus_Sn_m, plus_n_Sm. by apply Hm.
Qed.

(** Reading the rows of [options] back. *)
Lemma insert_rows (l : list (string * string)) (m : gmap string string) :
  NoDup l.*1 ->
  forall key, foldl (fun m row => <[row.1 := row.2]> m) m l !! key =
    match (list_to_map l : gmap string string) !! key with Some v => Some v | None => m !! key end.
Proof.
  revert m. induction l as [|[k v] l IH]; intros m Hl key; [by rewrite list_to_map_nil, lookup_empty|].
  cbn [fmap list_fmap fst] in Hl. apply list.NoDup_cons in Hl as [Hk Hl].
  cbn [foldl fst snd]. rewrite list_to_map_cons, IH by done. destruct (decide (k = key)) as [->|Hne].
  - rewrite !lookup_insert_eq. by rewrite (not_elem_of_list_to_map_1 _ _ Hk).
  - by rewrite !lookup_insert_ne.
Qed.

Lemma insert_map_iter (m : gmap string string) :
  foldl (fun m row => <[row.1 := row.2]> m) ∅ (map_iter m) = m.
Proof.
  apply map_eq. intros key. rewrite insert_rows by apply map_iter_nodup_fst. rewrite lookup_empty.
  destruct (m !! key) as [v|] eqn:E.
  - apply elem_of_map_iter in E. rewrite (elem_of_list_to_map_1 _ _ _ (map_iter_nodup_fst m) E). done.
  - destruct ((list_to_map (map_iter m) : gmap string string) !! key) as [v|] eqn:E'; [|done].
    apply elem_of_list_to_map_2, elem_of_map_iter in E'. congruence.
Qed.

(* ===================================================================== *)
(** * Lemmas: the rows of the recent servers *)

Definition no_nul (s : string) : Prop := c_text s = s.

(** A server that a row can hold. *)
Record storable_server (s : RecentServer) : Prop := {
  storable_name : no_nul (recent_name s);
  storable_host : no_nul (recent_host s) /\ recent_host s <> "" /\ (size_of (recent_host s) <= HOST_MAX_LEN)%N;
  storable_port : (1 <= recent_port s <= 65535)%N;
}.

Lemma load_saved_row n s : storable_server s ->
  load_recent (MkRow n (c_text (recent_name s)) (c_text (recent_host s)) (Z.of_N (recent_port s))
    (if recent_tls s then 1 else 0)%Z) = Some (without_pins s).
Proof.
  intros [Hn (Hh & Hne & Hlen) Hp]. unfold load_recent. cbn [row_port row_host row_name row_tls].
  rewrite Hn, Hh, Hn, Hh. unfold column_int.
  rewrite (Z.mod_small (Z.of_N (recent_port s) + 2 ^ 31)) by lia.
  rewrite (proj2 (Z.ltb_ge _ _)), (proj2 (Z.ltb_ge _ _)) by lia.
  apply sempty_false in Hne as ->. rewrite (proj2 (N.ltb_ge _ _)) by done. cbn [orb].
  unfold without_pins. f_equal. f_equal; [lia|]. by destruct (recent_tls s).
Qed.

Lemma load_saved_rows i l : Forall storable_server l -> omap load_recent (recent_rows i l) = without_pins <$> l.
Proof.
  intros Hl. revert i. induction Hl as [|s l Hs _ IH]; intros i; [done|].
  cbn [recent_rows omap list_omap fmap list_fmap]. rewrite load_saved_row by done. by rewrite IH.
Qed.

Lemma recent_rows_spec i l r : r ∈ recent_rows i l -> (Z.of_nat i <= row_position r)%Z.
Proof.
  revert i. induction l as [|s l IH]; intros i; cbn [recent_rows]; [by intros ?%not_elem_of_nil|].
  intros [->|H%IH]%elem_of_cons; cbn in *; lia.
Qed.
Lemma recent_rows_sorted i l : StronglySorted row_le (recent_rows i l).
Proof.
  revert i. induction l as [|s l IH]; intros i; cbn [recent_rows]; constructor; [done|].
  apply list.Forall_forall. intros r Hr%recent_rows_spec. unfold row_le. cbn. lia.
Qed.
Lemma recent_rows_unique i l r1 r2 :
  r1 ∈ recent_rows i l -> r2 ∈ recent_rows i l -> row_position r1 = row_position r2 -> r1 = r2.
Proof.
  revert i. induction l as [|s l IH]; intros i; cbn [recent_rows]; [by intros ?%not_elem_of_nil|].
  intros [->|H1]%elem_of_cons [->|H2]%elem_of_cons Heq; [done| | |by eapply IH].
  - apply recent_rows_spec in H2. cbn in *. lia.
  - apply recent_rows_spec in H1. cbn in *. lia.
Qed.
Lemma recent_rows_length i l : length (recent_rows i l) = length l.
Proof. revert i. induction l as [|s l IH]; intros i; [done|]. cbn. by rewrite IH. Qed.

#[local] Instance row_le_total : Total row_le.
Proof. intros r1 r2. unfold row_le. lia. Qed.
#[local] Instance row_le_trans : Transitive row_le.
Proof. intros r1 r2 r3. unfold row_le. lia. Qed.

Lemma merge_sort_recent l : merge_sort row_le (recent_rows 0 l) = recent_rows 0 l.
Proof.
  apply (StronglySorted_unique_strong row_le).
  - intros r1 r2 H1 H2 Hle1 Hle2. rewrite merge_sort_Permutation in H1.
    apply (recent_rows_unique 0 l); [done|done|]. unfold row_le in *. lia.
  - apply (StronglySorted_merge_sort _).
  - apply recent_rows_sorted.
  - apply merge_sort_Permutation.
Qed.

(* ===================================================================== *)
(** * Theorems *)

(** Preferences that the tables can hold. *)
Record storable (p : Preferences) : Prop := {
  storable_nick : is_valid_nickname (nickname p) = true /\ no_nul (nickname p);
  storable_options : forall key v, saved_options p !! key = Some v -> no_nul key /\ no_nul v;
  storable_servers : Forall storable_server (take 10 (recent_servers p));
}.

Lemma saved_options_text p : storable p ->
  (fun kv => (c_text kv.1, c_text kv.2)) <$> map_iter (saved_options p) = map_iter (saved_options p).
Proof.
  intros Hp. rewrite <- (list_fmap_id (map_iter (saved_options p))) at 2. apply list_fmap_ext.
  intros i [k v] Hkv. apply list_elem_of_lookup_2, elem_of_map_iter in Hkv.
  destruct (storable_options _ Hp _ _ Hkv) as [Hk Hv]. cbn. by rewrite Hk, Hv.
Qed.

Lemma load_saved p : storable p -> remember p = true ->
  load_preferences (Some (saved_database p)) true
  = Returned (MkPreferences true (nickname p) (saved_options p) (take 10 (recent_servers p))).
Proof.
  intros Hp Hr. destruct (storable_nick _ Hp) as [Hv Hn].
  unfold load_preferences, saved_database. rewrite Hr. cbn [negb settings_table recent_table options_table].
  rewrite Hn, Hn, Hv. change (column_int 1 =? 1)%Z with true. cbn [negb].
  rewrite merge_sort_recent, firstn_all2 by (rewrite recent_rows_length, length_take; lia).
  rewrite load_saved_rows by apply Hp. rewrite saved_options_text by done.
  replace (foldl _ ∅ (map_iter (saved_options p))) with (saved_options p).
  - rewrite load_pins_saved; [done|]. intros j s Hj. apply lookup_take_Some in Hj as [Hj _].
    unfold saved_options. by apply (pin_options_at 0).
  - symmetry. etransitivity; [|apply insert_map_iter]. rewrite <- (saved_options_text p Hp) at 2.
    generalize (map_iter (saved_options p)) (∅ : gmap string string). clear.
    intros l. induction l as [|[k v] l IH]; intros m; [done|]. apply IH.
Qed.

(** Preferences survive or stay as they were. Whatever statement of the save
    fails, the next load finds what it would have found before; and a save that
    succeeds, of preferences that ask to be remembered, is loaded as the same nickname,
    the ten first recent servers with their pins, and the same options apart from those
    the recent servers use; preferences that do not ask are not kept. *)
Theorem preferences_survive opens succeeds p file r file' :
  storable p -> file <> None ->
  save_preferences opens succeeds p file = (r, file') ->
  (r = Thrown /\ forall opens', load_preferences file' opens' = load_preferences file opens') \/
  (r = Returned tt /\
   load_preferences file' true =
     Returned (if remember p
               then MkPreferences true (nickname p) (saved_options p) (take 10 (recent_servers p))
               else no_preferences)).
Proof.
  intros Hp Hfile. unfold save_preferences. destruct opens; cbn [negb]; [|intros [= <- <-]; by left].
  destruct (_ && _)%bool.
  - intros [= <- <-]. right. split; [done|]. destruct (remember p) eqn:Hr; [by apply load_saved|].
    unfold load_preferences, saved_database. by rewrite Hr.
  - intros [= <- <-]. left. split; [done|]. by destruct file.
Qed.

(** The list of recent servers. If its addresses are distinct and at most ten,
    they stay so; the server just used comes first, under the name it was known by;
    the others keep their order, and at most the last of them is dropped. *)
Theorem remember_server_spec s p :
  NoDup (address <$> recent_servers p) -> (length (recent_servers p) <= 10)%nat ->
  let l := recent_servers (remember_server s p) in
  NoDup (address <$> l) /\ (length l <= 10)%nat /\
  l = take 10 (with_name (known_name s (recent_servers p)) s
               :: base.filter (fun x => same_address x s = false) (recent_servers p)).
Proof.
  intros Hn Hl. cbv zeta. unfold remember_server. rewrite take_known_spec by done. cbn [recent_servers].
  split; [|split; [rewrite length_take; lia|done]].
  rewrite fmap_take. eapply sublist_NoDup; [|apply sublist_take]. cbn [fmap list_fmap].
  apply list.NoDup_cons. split.
  - intros (x & Hx & Hin)%list_elem_of_fmap. apply list_elem_of_filter in Hin as [Hf _].
    assert (same_address x s = true) by (apply same_address_spec; by rewrite <- Hx). congruence.
  - by apply nodup_filter_map.
Qed.

(* ===================================================================== *)
(** * Examples *)

Definition sample_preferences : Preferences :=
  MkPreferences true "ann" {["theme" := "dark"; "recent.ca.0" := "old"]}
    [MkRecent "home" "chat.example" 7777 true "ca.pem" ""; MkRecent "" "10.0.0.2" 1 false "" ""].

Lemma sample_storable : storable sample_preferences.
Proof.
  split; [by split| |].
  - intros key v Hk. apply elem_of_map_iter in Hk. revert Hk.
    replace (map_iter (saved_options sample_preferences)) with
      [("recent.ca.0", "ca.pem"); ("recent.ca.1", ""); ("recent.pin.0", ""); ("recent.pin.1", ""); ("theme", "dark")]
      by (vm_compute; reflexivity).
    intros Hk. repeat (apply elem_of_cons in Hk as [[= -> ->]|Hk]; [by split|]).
    by apply not_elem_of_nil in Hk.
  - repeat constructor; try done; cbn; lia.
Qed.

(** The last statement fails, and none does. *)
Lemma preferences_survive_witness :
  load_preferences (save_preferences true (fun n => n <? 8)%nat sample_preferences (Some empty_database)).2 true
    = Thrown /\
  load_preferences (save_preferences true (fun _ => true) sample_preferences (Some empty_database)).2 true
    = Returned (MkPreferences true "ann" (saved_options sample_preferences) (recent_servers sample_preferences)).
Proof.
  split.
  - destruct (preferences_survive true (fun n => n <? 8)%nat sample_preferences (Some empty_database)
      Thrown (Some empty_database) sample_storable ltac:(discriminate)) as [[_ Hsame]|[[=] _]];
      [vm_compute; reflexivity|].
    replace (save_preferences _ _ _ _).2 with (Some empty_database) by (vm_compute; reflexivity).
    exact (Hsame true).
  - destruct (preferences_survive true (fun _ => true) sample_preferences (Some empty_database)
      (Returned tt) (Some (saved_database sample_preferences)) sample_storable ltac:(discriminate))
      as [[[=] _]|[_ Hload]]; [vm_compute; reflexivity|].
    replace (save_preferences _ _ _ _).2 with (Some (saved_database sample_preferences))
      by (vm_compute; reflexivity). exact Hload.
Defined.

Lemma remember_server_spec_witness :
  recent_servers (remember_server (MkRecent "new" "10.0.0.2" 1 false "" "pin") sample_preferences)
    = [MkRecent "" "10.0.0.2" 1 false "" "pin"; MkRecent "home" "chat.example" 7777 true "ca.pem" ""].
Proof.
  destruct (remember_server_spec (MkRecent "new" "10.0.0.2" 1 false "" "pin") sample_preferences)
    as (_ & _ & Hl); [apply (bool_decide_eq_true_1 _); vm_compute; reflexivity|cbn; lia|].
  rewrite Hl. vm_compute. reflexivity.
Defined.
