(* ===== verification/Options.v ===== *)
(** The command line: [main] of [app/chatbox.cpp], and the options of
    [run_dedicated_server] in [app/dedicated_server.cpp] with the configuration of
    [app/dedicated_server.h]. What the program goes on to do is an [Action]. The
    theorem: nothing listens without TLS unless it was asked to. *)

From S2P Require Import Prelude Utils Tls Sqlite Browser.
Local Open Scope string_scope.

(* ===================================================================== *)
(** * Configuration *)

Record DedicatedServerConfig := MkConfig {
  port : N;
  password : string;
  logfile : string;
  database : string;
  bans_file : string;
  identities_file : string;
  browser_host : string;
  browser_name : string;
  browser_public_host : string;
  history_limit : N;
  enable_logging : bool;
  log_to_stdout_only : bool;
  enable_upnp : bool;
  publish_to_browser : bool;
  tls : ServerConfig;
  browser_tls : ClientConfig;
}.

(** [chatbox::tls::ClientConfig] as it is constructed. *)
Definition initial_client_config `{Platform} : ClientConfig :=
  MkClientConfig true "" "" default_trust_store_path true None.
Definition initial_config `{Platform} (port : N) : DedicatedServerConfig :=
  MkConfig port "" "chatlog.txt" "" "bans.txt" "identities.txt" "" "chatbox dedicated server" ""
    SERVER_HISTORY_LIMIT true false true false (MkServerConfig true "" "") initial_client_config.

Definition with_password v c := MkConfig (port c) v (logfile c) (database c) (bans_file c) (identities_file c) (browser_host c) (browser_name c) (browser_public_host c) (history_limit c) (enable_logging c) (log_to_stdout_only c) (enable_upnp c) (publish_to_browser c) (tls c) (browser_tls c).
Definition with_logfile v c := MkConfig (port c) (password c) v (database c) (bans_file c) (identities_file c) (browser_host c) (browser_name c) (browser_public_host c) (history_limit c) (enable_logging c) (log_to_stdout_only c) (enable_upnp c) (publish_to_browser c) (tls c) (browser_tls c).
Definition with_database v c := MkConfig (port c) (password c) (logfile c) v (bans_file c) (identities_file c) (browser_host c) (browser_name c) (browser_public_host c) (history_limit c) (enable_logging c) (log_to_stdout_only c) (enable_upnp c) (publish_to_browser c) (tls c) (browser_tls c).
Definition with_bans_file v c := MkConfig (port c) (password c) (logfile c) (database c) v (identities_file c) (browser_host c) (browser_name c) (browser_public_host c) (history_limit c) (enable_logging c) (log_to_stdout_only c) (enable_upnp c) (publish_to_browser c) (tls c) (browser_tls c).
Definition with_identities_file v c := MkConfig (port c) (password c) (logfile c) (database c) (bans_file c) v (browser_host c) (browser_name c) (browser_public_host c) (history_limit c) (enable_logging c) (log_to_stdout_only c) (enable_upnp c) (publish_to_browser c) (tls c) (browser_tls c).
Definition with_browser_host v c := MkConfig (port c) (password c) (logfile c) (database c) (bans_file c) (identities_file c) v (browser_name c) (browser_public_host c) (history_limit c) (enable_logging c) (log_to_stdout_only c) (enable_upnp c) (publish_to_browser c) (tls c) (browser_tls c).
Definition with_browser_name v c := MkConfig (port c) (password c) (logfile c) (database c) (bans_file c) (identities_file c) (browser_host c) v (browser_public_host c) (history_limit c) (enable_logging c) (log_to_stdout_only c) (enable_upnp c) (publish_to_browser c) (tls c) (browser_tls c).
Definition with_public_host v c := MkConfig (port c) (password c) (logfile c) (database c) (bans_file c) (identities_file c) (browser_host c) (browser_name c) v (history_limit c) (enable_logging c) (log_to_stdout_only c) (enable_upnp c) (publish_to_browser c) (tls c) (browser_tls c).
Definition with_history_limit v c := MkConfig (port c) (password c) (logfile c) (database c) (bans_file c) (identities_file c) (browser_host c) (browser_name c) (browser_public_host c) v (enable_logging c) (log_to_stdout_only c) (enable_upnp c) (publish_to_browser c) (tls c) (browser_tls c).
Definition with_logging v only c := MkConfig (port c) (password c) (logfile c) (database c) (bans_file c) (identities_file c) (browser_host c) (browser_name c) (browser_public_host c) (history_limit c) v only (enable_upnp c) (publish_to_browser c) (tls c) (browser_tls c).
Definition with_upnp v c := MkConfig (port c) (password c) (logfile c) (database c) (bans_file c) (identities_file c) (browser_host c) (browser_name c) (browser_public_host c) (history_limit c) (enable_logging c) (log_to_stdout_only c) v (publish_to_browser c) (tls c) (browser_tls c).
Definition with_publish v c := MkConfig (port c) (password c) (logfile c) (database c) (bans_file c) (identities_file c) (browser_host c) (browser_name c) (browser_public_host c) (history_limit c) (enable_logging c) (log_to_stdout_only c) (enable_upnp c) v (tls c) (browser_tls c).
Definition with_tls v c := MkConfig (port c) (password c) (logfile c) (database c) (bans_file c) (identities_file c) (browser_host c) (browser_name c) (browser_public_host c) (history_limit c) (enable_logging c) (log_to_stdout_only c) (enable_upnp c) (publish_to_browser c) v (browser_tls c).
Definition with_browser_tls v c := MkConfig (port c) (password c) (logfile c) (database c) (bans_file c) (identities_file c) (browser_host c) (browser_name c) (browser_public_host c) (history_limit c) (enable_logging c) (log_to_stdout_only c) (enable_upnp c) (publish_to_browser c) (tls c) v.

Definition tls_enabled (v : bool) (t : ServerConfig) : ServerConfig :=
  MkServerConfig v (certificate_path t) (private_key_path t).
Definition tls_certificate (v : string) (t : ServerConfig) : ServerConfig :=
  MkServerConfig (server_enabled t) v (private_key_path t).
Definition tls_key (v : string) (t : ServerConfig) : ServerConfig :=
  MkServerConfig (server_enabled t) (certificate_path t) v.
Definition client_enabled (v : bool) (t : ClientConfig) : ClientConfig :=
  MkClientConfig v (ca_path t) (expected_fingerprint t) (trust_store_path t) (trust_on_first_use t) (confirm_certificate t).
Definition client_ca (v : string) (t : ClientConfig) : ClientConfig :=
  MkClientConfig (enabled t) v (expected_fingerprint t) (trust_store_path t) (trust_on_first_use t) (confirm_certificate t).
Definition client_fingerprint (v : string) (t : ClientConfig) : ClientConfig :=
  MkClientConfig (enabled t) (ca_path t) v (trust_store_path t) (trust_on_first_use t) (confirm_certificate t).
Definition client_store (v : string) (t : ClientConfig) : ClientConfig :=
  MkClientConfig (enabled t) (ca_path t) (expected_fingerprint t) v (trust_on_first_use t) (confirm_certificate t).

(* ===================================================================== *)
(** * What the program does *)

(** [run_curses_app], [run_dedicated_server_config], [run_browser_server],
    [run_browser_list], or the end with an exit code, the lines printed and the error. *)
Inductive Action :=
| RunApp
| RunServer (c : DedicatedServerConfig)
| RunDirectory (port : N) (tls : ServerConfig)
| ListServers (host : string) (port : N) (tls : ClientConfig)
| Exits (code : N) (printed : list string) (error : string).

Definition show_dedicated_usage : list string := [
    "Usage:";
    "  chatbox --server <port> [password] [logfile] [options]";
    "  chatbox --dedicated <port> [password] [logfile] [options]";
    "  chatbox --browser";
    "  chatbox --browse <browser-host>";
    "";
    "Options:";
    "  --password <password>  - set the server password";
    "  --log <file>           - write logs to a file";
    "  --database <path>      - SQLite database (default: per-user Chatbox data folder)";
    "  --history-limit <n>    - in-memory/join history size (1-500)";
    "  --import-bans <file>   - one-time import from a legacy bans file";
    "  --import-identities <file> - one-time import from a legacy identity file";
    "  --tls-cert <path>      - PEM certificate chain";
    "  --tls-key <path>       - PEM certificate private key";
    "  --require-tls          - require TLS (the default)";
    "  --allow-plaintext      - explicitly run without TLS";
    "  --publish <host>       - publish to a browser server on port 2727";
    "  --browser-plaintext    - explicitly publish to a plaintext browser";
    "  --browser-tls-ca <path> - CA file for browser TLS";
    "  --browser-trust-fingerprint <sha256> - pin browser certificate";
    "  --browser-trust-store <path> - browser TOFU fingerprint file";
    "  --name <name>          - room name shown in the server browser";
    "  --public-host <host>   - host/address clients should connect to from browser results";
    "  --log-stdout           - print logs only to stdout";
    "  --no-log               - disable chat logging";
    "  --no-upnp              - skip UPnP port forwarding";
    "";
    "Dedicated server admin commands:";
    "  /rooms                 - list rooms and room-local user counts";
    "  /create <room>         - create a room";
    "  /users <room>          - list users in one room";
    "  /topic <room> <text>   - set a room topic";
    "  /kick <room> <nick> [reason] - kick a user from one room";
    "  /ban  <nick> [reason]  - ban a user server-wide and persist it";
    "  /unban <nick>          - remove a persisted ban";
    "  /bans                  - list banned nicknames";
    "  /broadcast <msg>       - announce to every room";
    "  /quit                  - shut down the server";
    "  /help                  - show this help"]%list.

Definition show_browser_usage : list string := [
    "Server browser commands:";
    "  /servers               - list published servers";
    "  /quit                  - shut down the browser server";
    "  /help                  - show this help"]%list.

Definition show_app_usage : list string :=
  (["Usage:";
    "  chatbox                  - start the curses terminal UI";
    "  chatbox --curses|--tui   - start the curses terminal UI";
    ""] ++ show_dedicated_usage)%list.

(* ===================================================================== *)
(** * Options of the dedicated server *)

Definition parse_port (text : string) : option N :=
  match stoi text with
  | Some (v, "") => if ((v <? 0) || (65535 <? v))%Z then None else Some (Z.to_N v)
  | _ => None
  end.

Definition parse_browser_address (text : string) : option string :=
  let host := sanitize_browser_field text HOST_MAX_LEN in
  if sempty host || sany (fun c => Ascii.eqb c ":") host then None else Some host.

(** The options without a value. *)
Definition flag_option (arg : string) (c : DedicatedServerConfig) : option DedicatedServerConfig :=
  if String.eqb arg "--no-upnp" then Some (with_upnp false c)
  else if String.eqb arg "--no-log" then Some (with_logging false (log_to_stdout_only c) c)
  else if String.eqb arg "--log-stdout" then Some (with_logging true true c)
  else if String.eqb arg "--allow-plaintext" then Some (with_tls (tls_enabled false (tls c)) c)
  else if String.eqb arg "--require-tls" then Some (with_tls (tls_enabled true (tls c)) c)
  else if String.eqb arg "--browser-plaintext"
  then Some (with_browser_tls (client_enabled false (browser_tls c)) c)
  else None.

(** What an option with a value does: an exit, or the configuration and whether it
    takes the place of a positional password and log file. [None]: no such option. *)
Inductive Valued := Sets (c : DedicatedServerConfig) (is_password is_log : bool) | Fails (error : string) (usage : bool).

Definition valued_option (arg v : string) (c : DedicatedServerConfig) : option Valued :=
  let sets c := Some (Sets c false false) in
  if String.eqb arg "--password" then Some (Sets (with_password v c) true false)
  else if String.eqb arg "--log" then Some (Sets (with_logging true false (with_logfile v c)) false true)
  else if String.eqb arg "--database" then sets (with_database v c)
  else if String.eqb arg "--history-limit" then
    match stoul v with
    | Some value =>
        if (value <? 1)%N || (MAX_HISTORY_PAGE <? value)%N
        then Some (Fails "--history-limit must be between 1 and 500" false)
        else sets (with_history_limit value c)
    | None => Some (Fails "--history-limit must be between 1 and 500" false)
    end
  else if String.eqb arg "--tls-cert" then sets (with_tls (tls_enabled true (tls_certificate v (tls c))) c)
  else if String.eqb arg "--tls-key" then sets (with_tls (tls_enabled true (tls_key v (tls c))) c)
  else if String.eqb arg "--import-bans" then sets (with_bans_file v c)
  else if String.eqb arg "--import-identities" then sets (with_identities_file v c)
  else if String.eqb arg "--identities" then sets (with_identities_file v c)
  else if String.eqb arg "--browser-tls-ca" || String.eqb arg "--tls-ca"
  then sets (with_browser_tls (client_ca v (browser_tls c)) c)
  else if String.eqb arg "--browser-trust-fingerprint"
  then sets (with_browser_tls (client_fingerprint v (browser_tls c)) c)
  else if String.eqb arg "--browser-trust-store"
  then sets (with_browser_tls (client_store v (browser_tls c)) c)
  else if String.eqb arg "--publish" then
    match parse_browser_address v with
    | None => Some (Fails "Invalid browser address" true)
    | Some host => sets (with_publish true (with_browser_host host c))
    end
  else if String.eqb arg "--name" then
    let name := sanitize_browser_field v BROWSER_NAME_MAX_LEN in
    sets (with_browser_name (if sempty name then "chatbox dedicated server" else name) c)
  else if String.eqb arg "--public-host" then sets (with_public_host (sanitize_browser_field v HOST_MAX_LEN) c)
  else None.

(** The options that want a value. *)
Definition wants_value (arg : string) : bool :=
  existsb (String.eqb arg)
    ["--password"; "--log"; "--identities"; "--database"; "--tls-cert"; "--tls-key"; "--history-limit";
     "--import-bans"; "--import-identities"; "--browser-tls-ca"; "--tls-ca"; "--browser-trust-fingerprint";
     "--browser-trust-store"; "--publish"; "--name"; "--public-host"].

(** The end of the chain: help, a missing value, an unknown option, or a positional
    argument, which are the password and then the log file. *)
Inductive Positional := Ends (a : Action) | Takes (c : DedicatedServerConfig) (password_set log_set : bool).
Definition other_argument (arg : string) (c : DedicatedServerConfig) (password_set log_set : bool) : Positional :=
  if String.eqb arg "--help" || String.eqb arg "-h" then Ends (Exits 0 show_dedicated_usage "")
  else if wants_value arg then Ends (Exits 1 show_dedicated_usage (arg +:+ " requires a value"))
  else if String.prefix "--" arg then Ends (Exits 1 show_dedicated_usage ("Unknown option: " +:+ arg))
  else if negb password_set then Takes (with_password arg c) true log_set
  else if negb log_set then Takes (with_logfile arg c) password_set true
  else Ends (Exits 1 show_dedicated_usage ("Unknown option: " +:+ arg)).

(** The loop over [argv] from index 3. *)
Fixpoint parse_options (args : list string) (c : DedicatedServerConfig) (password_set log_set : bool) :
    Action + DedicatedServerConfig :=
  match args with
  | [] => inr c
  | arg :: rest =>
      let others :=
        match other_argument arg c password_set log_set with
        | Ends a => inl a
        | Takes c password_set log_set => parse_options rest c password_set log_set
        end in
      match flag_option arg c with
      | Some c => parse_options rest c password_set log_set
      | None =>
          match rest with
          | [] => others
          | v :: rest' =>
              match valued_option arg v c with
              | Some (Sets c is_password is_log) =>
                  parse_options rest' c (password_set || is_password) (log_set || is_log)
              | Some (Fails error usage) => inl (Exits 1 (if usage then show_dedicated_usage else []) error)
              | None => others
              end
          end
      end
  end.

Definition files_missing (t : ServerConfig) : bool :=
  server_enabled t && (sempty (certificate_path t) || sempty (private_key_path t)).

(** The first check of [run_dedicated_server_config]; what follows it is in
    [DedicatedServer.v]. *)
Definition tls_required : string :=
  "TLS is required by default. Supply --tls-cert and --tls-key, or explicitly use --allow-plaintext.".
Definition start_dedicated (c : DedicatedServerConfig) : Action :=
  if files_missing (tls c) then Exits 1 [] tls_required else RunServer c.

Section command_line.
Context `{Platform}.

(** [run_dedicated_server]: [args] are the arguments after the mode. *)
Definition run_dedicated_server (args : list string) : Action :=
  match args with
  | [] => Exits 1 show_dedicated_usage ""
  | port_text :: rest =>
      match parse_port port_text with
      | None => Exits 1 [] ("Invalid port number: " +:+ port_text)
      | Some port =>
          match parse_options rest (initial_config port) false false with
          | inl a => a
          | inr c => start_dedicated c
          end
      end
  end.

(* ===================================================================== *)
(** * main *)

(** The options of [--browser]. *)
Fixpoint browser_options (args : list string) (t : ServerConfig) : string + ServerConfig :=
  match args with
  | [] => inr t
  | arg :: rest =>
      if String.eqb arg "--allow-plaintext" then browser_options rest (tls_enabled false t)
      else if String.eqb arg "--require-tls" then browser_options rest (tls_enabled true t)
      else match rest with
      | v :: rest' =>
          if String.eqb arg "--tls-cert" then browser_options rest' (tls_certificate v t)
          else if String.eqb arg "--tls-key" then browser_options rest' (tls_key v t)
          else inl ("Unknown or incomplete browser option: " +:+ arg)
      | [] => inl ("Unknown or incomplete browser option: " +:+ arg)
      end
  end.
Definition run_browser (args : list string) : Action :=
  match browser_options args (MkServerConfig true "" "") with
  | inl error => Exits 1 [] error
  | inr t =>
      if files_missing t
      then Exits 1 [] ("Browser TLS requires --tls-cert and --tls-key. "
                       +:+ "Use --allow-plaintext only for an explicitly insecure browser.")
      else RunDirectory BROWSER_PORT t
  end.

(** The options of [--browse]. *)
Fixpoint browse_options (args : list string) (t : ClientConfig) : string + ClientConfig :=
  match args with
  | [] => inr t
  | arg :: rest =>
      if String.eqb arg "--plaintext" then browse_options rest (client_enabled false t)
      else match rest with
      | v :: rest' =>
          if String.eqb arg "--tls-ca" then browse_options rest' (client_ca v t)
          else if String.eqb arg "--trust-fingerprint" then browse_options rest' (client_fingerprint v t)
          else if String.eqb arg "--trust-store" then browse_options rest' (client_store v t)
          else inl ("Unknown or incomplete browse option: " +:+ arg)
      | [] => inl ("Unknown or incomplete browse option: " +:+ arg)
      end
  end.
Definition run_browse (args : list string) : Action :=
  match args with
  | [] => Exits 1 show_dedicated_usage ""
  | address :: rest =>
      match parse_browser_address address with
      | None => Exits 1 [] ("Invalid browser address. Use only the browser host/IP; port "
                            +:+ to_string BROWSER_PORT +:+ " is fixed.")
      | Some host =>
          match browse_options rest initial_client_config with
          | inl error => Exits 1 [] error
          | inr t => ListServers host BROWSER_PORT t
          end
      end
  end.

(** [main], after [sodium_init]; [args] are the arguments after the program's name. *)
Definition main (args : list string) : Action :=
  match args with
  | [] => RunApp
  | mode :: rest =>
      if String.eqb mode "--curses" || String.eqb mode "--tui" then RunApp
      else if String.eqb mode "--server" || String.eqb mode "--dedicated" || String.eqb mode "-s"
      then run_dedicated_server rest
      else if String.eqb mode "--browser" then run_browser rest
      else if String.eqb mode "--browse" then run_browse rest
      else if String.eqb mode "--help" || String.eqb mode "-h" then Exits 0 show_app_usage ""
      else Exits 1 show_app_usage ("Unknown option: " +:+ mode)
  end.
End command_line.


(* ===================================================================== *)
(** * Properties *)

(** What an accepted configuration satisfies; [asked] is that plaintext was asked for. *)
Definition acceptable (asked : Prop) (c : DedicatedServerConfig) : Prop :=
  (port c <= 65535)%N /\ (1 <= history_limit c <= MAX_HISTORY_PAGE)%N /\
  (server_enabled (tls c) = false -> asked).

Lemma parse_port_range text p : parse_port text = Some p -> (p <= 65535)%N.
Proof.
  unfold parse_port. destruct (stoi text) as [[v [|]]|]; try discriminate.
  destruct ((v <? 0)%Z || (65535 <? v)%Z) eqn:E; [discriminate|]. intros [= <-].
  apply orb_false_iff in E as [E1 E2]. lia.
Qed.

Lemma flag_option_acceptable asked arg c c' :
  (arg = "--allow-plaintext" -> asked) ->
  flag_option arg c = Some c' -> acceptable asked c -> acceptable asked c'.
Proof.
  intros Ha. unfold flag_option, acceptable.
  repeat case_match; intros [= <-]; try discriminate; cbn;
    repeat match goal with H : (_ =? _)%string = true |- _ => apply String.eqb_eq in H end;
    intros (Hp & Hl & Ha'); split_and!; try apply Hl; auto; intros; auto; discriminate.
Qed.

Lemma valued_option_acceptable asked arg v c c' p l :
  valued_option arg v c = Some (Sets c' p l) -> acceptable asked c -> acceptable asked c'.
Proof.
  unfold valued_option, acceptable.
  repeat case_match; intros [= <- <- <-]; try discriminate; cbn;
    try (intros (Hp & Hl & Ha'); split_and!; [exact Hp|apply Hl|apply Hl|]; first [exact Ha'|intros; discriminate]).
  intros (? & ? & ?).
  repeat match goal with H : (_ || _)%bool = false |- _ => apply orb_false_iff in H as [] end.
  repeat split; auto; by apply N.ltb_ge.
Qed.

Lemma other_argument_acceptable asked arg c c' p l p' l' :
  other_argument arg c p l = Takes c' p' l' -> acceptable asked c -> acceptable asked c'.
Proof.
  unfold other_argument, acceptable.
  repeat case_match; intros H'; try discriminate; injection H' as <- <- <-; auto.
Qed.

Lemma parse_options_acceptable asked args : forall c p l c',
  (In "--allow-plaintext" args -> asked) ->
  parse_options args c p l = inr c' -> acceptable asked c -> acceptable asked c'.
Proof.
  induction args as [args IH] using (induction_ltof1 _ (@List.length string)); unfold ltof in IH.
  intros c p l c' Ha. destruct args as [|arg rest]; cbn [parse_options]; [congruence|].
  assert (Hothers : match other_argument arg c p l with
    | Ends a => inl a | Takes c p l => parse_options rest c p l end = inr c' ->
    acceptable asked c -> acceptable asked c').
  { destruct (other_argument arg c p l) eqn:E; [discriminate|]. intros H Hc.
    eapply (IH rest); [cbn; lia| |exact H|eauto using other_argument_acceptable].
    intros; apply Ha; right; assumption. }
  destruct (flag_option arg c) as [cf|] eqn:Ef.
  { intros H Hc. eapply (IH rest); [cbn; lia| |exact H|].
    - intros; apply Ha; right; assumption.
    - eapply flag_option_acceptable; eauto. intros ->. apply Ha. left. reflexivity. }
  destruct rest as [|v rest']; [exact Hothers|].
  destruct (valued_option arg v c) as [[cv ip il|]|] eqn:Ev; [|discriminate|exact Hothers].
  intros H Hc. eapply (IH rest'); [cbn; lia| |exact H|eauto using valued_option_acceptable].
  intros; apply Ha; right; right; assumption.
Qed.

(** The options end the program only by exiting. *)
Lemma parse_options_exits args : forall c p l a,
  parse_options args c p l = inl a -> exists code printed error, a = Exits code printed error.
Proof.
  induction args as [args IH] using (induction_ltof1 _ (@List.length string)); unfold ltof in IH.
  intros c p l a. destruct args as [|arg rest]; cbn [parse_options]; [discriminate|].
  assert (Hothers : match other_argument arg c p l with
    | Ends a => inl a | Takes c p l => parse_options rest c p l end = inl a ->
    exists code printed error, a = Exits code printed error).
  { destruct (other_argument arg c p l) as [a'|] eqn:E; [|apply (IH rest); cbn; lia].
    intros [= <-]. revert E. unfold other_argument. repeat case_match; intros [= <-]; eauto. }
  destruct (flag_option arg c); [apply (IH rest); cbn; lia|].
  destruct rest as [|v rest']; [exact Hothers|].
  destruct (valued_option arg v c) as [[|]|]; [apply (IH rest'); cbn; lia|intros [= <-]; eauto|exact Hothers].
Qed.

Lemma browser_options_plaintext args : forall t t',
  browser_options args t = inr t' -> server_enabled t' = false ->
  server_enabled t = false \/ In "--allow-plaintext" args.
Proof.
  induction args as [args IH] using (induction_ltof1 _ (@List.length string)); unfold ltof in IH.
  intros t t'. destruct args as [|arg rest]; cbn [browser_options]; [intros [= <-]; auto|].
  destruct (String.eqb_spec arg "--allow-plaintext") as [->|]; [intros; right; left; reflexivity|].
  case_match; [intros Hr Hf; destruct (IH rest ltac:(cbn; lia) _ _ Hr Hf); [discriminate|right; right; assumption]|].
  destruct rest as [|v rest']; [discriminate|].
  repeat case_match; intros Hr Hf; try discriminate;
    (destruct (IH rest' ltac:(cbn; lia) _ _ Hr Hf); [left; assumption|right; right; right; assumption]).
Qed.

Lemma both_files (b : bool) (x y : string) : b && (sempty x || sempty y) = false ->
  b = true -> x <> "" /\ y <> "".
Proof. destruct b, x, y; cbn; intros; split; congruence. Qed.

(** Nothing listens in the clear unless it was asked to. Whatever the command
    line, when the program goes on to run a chat server its port is a port and its
    history limit is between one and five hundred; and the chat server and the
    directory server run either with TLS and both a certificate and a key, or
    because [--allow-plaintext] is one of the arguments. *)
Theorem plaintext_only_when_asked `{Platform} (args : list string) :
  match main args with
  | RunServer c =>
      (port c <= 65535)%N /\ (1 <= history_limit c <= MAX_HISTORY_PAGE)%N /\
      (if server_enabled (tls c) then certificate_path (tls c) <> "" /\ private_key_path (tls c) <> ""
       else In "--allow-plaintext" args)
  | RunDirectory p t =>
      p = BROWSER_PORT /\
      (if server_enabled t then certificate_path t <> "" /\ private_key_path t <> ""
       else In "--allow-plaintext" args)
  | _ => True
  end.
Proof.
  unfold main. destruct args as [|mode rest]; [exact I|].
  destruct (_ || _); [exact I|]. destruct (_ || _ || _).
  - unfold run_dedicated_server. destruct rest as [|pt rest]; [exact I|].
    destruct (parse_port pt) as [p|] eqn:Hp; [|exact I].
    destruct (parse_options rest (initial_config p) false false) as [a|c] eqn:E.
    { destruct (parse_options_exits _ _ _ _ _ E) as (? & ? & ? & ->). exact I. }
    apply (parse_options_acceptable (In "--allow-plaintext" (mode :: pt :: rest))) in E as (Hport & Hlimit & Hasked).
    + unfold start_dedicated, files_missing. destruct (_ && _) eqn:Eb; [exact I|].
      split; [exact Hport|]. split; [exact Hlimit|].
      destruct (server_enabled (tls c)); [apply (both_files true); auto|auto].
    + intros; right; right; assumption.
    + split; [apply (parse_port_range _ _ Hp)|]. split; [cbn; unfold MAX_HISTORY_PAGE; vm_compute; split; discriminate|].
      discriminate.
  - destruct (String.eqb mode "--browser").
    { unfold run_browser. destruct (browser_options rest _) as [|t] eqn:E; [exact I|].
      unfold files_missing. destruct (_ && _) eqn:Eb; [exact I|]. split; [reflexivity|].
      destruct (server_enabled t) eqn:Et; [apply (both_files true); auto|].
      destruct (browser_options_plaintext _ _ _ E Et); [discriminate|right; assumption]. }
    destruct (String.eqb mode "--browse"); [|destruct (_ || _); exact I].
    unfold run_browse. destruct rest as [|address rest]; [exact I|].
    destruct (parse_browser_address address); [|exact I]. destruct (browse_options rest _); exact I.
Qed.
