(* ===== verification/DedicatedServer.v ===== *)
(** The dedicated server and the directory server as programs, and their consoles:
    [app/dedicated_server.cpp]. What the machine answers (the database that opens, the
    port that can be listened on, UPnP, the addresses of the host) is a [Machine]. The
    theorems: a console does nothing to a server but what an operation of the server
    does, what a line of it means, and what is published. *)

From S2P Require Import Prelude Frame Message Utils AppState StorageApi World ChatServer.
From S2P Require Import ServerInvariant ServerBoot ServerSteps Tls Browser Publisher Options.
Local Open Scope string_scope.
Local Open Scope chat_scope.

Definition join_args (args : list string) (start : nat) : string := join_fields args start " ".

Inductive ConsoleExitReason := QuitRequested | InputClosed.

(* ===================================================================== *)
(** * The console of the directory *)

Section directory.
Context `{OpenSSL} `{Platform} `{Sodium} `{Disk}.

(** [std::max(0, age)] of seconds truncated towards zero. *)
Definition browser_entry_summary (t : Z) (e : BrowserEntry) : string :=
  entry_name e +:+ " | " +:+ entry_host e +:+ ":" +:+ to_string (entry_port e)
  +:+ " | users " +:+ to_string_signed (entry_users e)
  +:+ (if has_password e then " | password" else " | open")
  +:+ (if uses_tls e then " | TLS" else " | plaintext")
  +:+ " | seen " +:+ to_string_signed (Z.max 0 (Z.quot (t - updated_at e) 1000000000)) +:+ "s ago".

(** The directory and what was printed. *)
Record DirectoryConsole := MkDirectoryConsole { directory : ServerBrowser; shown : list string }.

Definition show (line : string) : M DirectoryConsole unit :=
  modify (fun c => MkDirectoryConsole (directory c) (shown c ++ [line])%list).
Definition ask {A} (m : M ServerBrowser A) : M DirectoryConsole A :=
  fun c => let '(a, b) := m (directory c) in (a, MkDirectoryConsole b (shown c)).

Definition unknown_line : string := "Unknown command. Type /help for a list.".

(** One line of [browser_console]: whether it ends. *)
Definition browser_line (line : string) : M DirectoryConsole bool :=
  if String.eqb line "/quit" || String.eqb line "/exit" then ret true
  else if String.eqb line "/help" then for_each show_browser_usage show ;;; ret false
  else if String.eqb line "/servers" then
    let* entries := ask entries in
    match entries with
    | [] => show "(no servers published)" ;;; ret false
    | _ =>
        for_each entries (fun e =>
          let* t := ask now in show ("  - " +:+ browser_entry_summary t e)) ;;;
        ret false
    end
  else if negb (sempty line) then show unknown_line ;;; ret false
  else ret false.

(** The loop, over the lines of the standard input. *)
Fixpoint browser_lines (lines : list string) : M DirectoryConsole ConsoleExitReason :=
  match lines with
  | [] => ret InputClosed
  | line :: rest =>
      let* quit := browser_line line in
      if quit then ret QuitRequested else browser_lines rest
  end.
Definition browser_console (lines : list string) : M DirectoryConsole ConsoleExitReason :=
  for_each show_browser_usage show ;;; browser_lines lines.

(** [run_browser_list]: the exit code, and the lines printed or the error. [reads] are
    the readings of the clock, one per entry. *)
Fixpoint numbered (i : nat) (entries : list BrowserEntry) (reads : nat) : list string :=
  match entries with
  | [] => []
  | e :: rest =>
      (to_string (N.of_nat i) +:+ ". " +:+ browser_entry_summary (system_clock reads) e)
        :: numbered (i + 1) rest (reads + 1)
  end.
Definition run_browser_list (x : Exchange) (host : string) (port : N) (config : ClientConfig)
    (files : Files) (reads : nat) : N * list string * string :=
  match (list_servers x host port config files reads).1.1 with
  | inl error => (1%N, [], "Could not query browser server: " +:+ error)
  | inr [] => (0%N, ["(no servers published)"], "")
  | inr entries => (0%N, numbered 1 entries (reads + length entries), "")
  end.
End directory.

(* ===================================================================== *)
(** * The console of the chat server *)

Section admin.
Context {S : Type} `{ServerStorage S} `{Sodium} `{Platform}.
Abbreviation W := (World S).

(** The server and what was printed. *)
Record Console := MkConsole { chat : W; printed : list string }.

Definition print (line : string) : M Console unit :=
  modify (fun c => MkConsole (chat c) (printed c ++ [line])%list).
Definition call {A} (m : M W A) : M Console A :=
  fun c => let '(a, w) := m (chat c) in (a, MkConsole w (printed c)).

(** An operation that answers with an error or not. *)
Definition report (op : M W (option string)) (done : string) : M Console unit :=
  let* error := call op in print (default done error).

Definition print_rooms : M Console unit :=
  let* c := get in
  for_each (room_list (server (chat c))) (fun room =>
    print ("  - " +:+ summary_name room +:+ " (" +:+ to_string (summary_user_count room) +:+ ")")).
Definition print_users (name : string) : M Console unit :=
  let* c := get in
  match users_in_room (chat c) name with
  | inr error => print error
  | inl [] => print ("(no users in #" +:+ name +:+ ")")
  | inl users => for_each users (fun user => print ("  - " +:+ user))
  end.
Definition print_bans : M Console unit :=
  let* c := get in
  match ban_list (server (chat c)) with
  | [] => print "(ban list is empty)"
  | bans => for_each bans (fun nick => print ("  - " +:+ nick))
  end.

(** The chain of comparisons of [admin_console] after [/quit] and [/exit]; [arg] is
    [parts[i]] where the code has checked the size. *)
Definition run_admin_line (cmd : string) (parts : list string) : M Console unit :=
  let size := length parts in
  let arg i := nth i parts "" in
  if String.eqb cmd "/help" then for_each show_dedicated_usage print
  else if String.eqb cmd "/rooms" then print_rooms
  else if String.eqb cmd "/create" && (size =? 2)%nat then
    report (create_admin_room (arg 1)) ("Created room: " +:+ arg 1)
  else if String.eqb cmd "/users" && (size =? 2)%nat then print_users (arg 1)
  else if String.eqb cmd "/topic" && (3 <=? size)%nat then
    report (set_admin_topic (arg 1) (join_args parts 2)) ("Updated topic for #" +:+ arg 1)
  else if String.eqb cmd "/kick" && (3 <=? size)%nat then
    report (kick_user_in_named_room (arg 1) (arg 2) (join_args parts 3))
      ("Kicked " +:+ arg 2 +:+ " from #" +:+ arg 1)
  else if String.eqb cmd "/ban" && (2 <=? size)%nat then
    call (ban_user (arg 1) (join_args parts 2)) ;;; print ("Banned: " +:+ arg 1)
  else if String.eqb cmd "/unban" && (2 <=? size)%nat then
    let* removed := call (unban_user (arg 1)) in
    print (if removed then "Unbanned: " +:+ arg 1 else "Not in ban list: " +:+ arg 1)
  else if String.eqb cmd "/bans" then print_bans
  else if String.eqb cmd "/broadcast" && (2 <=? size)%nat then
    call (broadcast_server (join_args parts 1))
  else print unknown_line.

(** One line: whether the console ends. *)
Definition admin_line (line : string) : M Console bool :=
  if sempty line then ret false
  else match split line " " with
  | [] => ret false
  | (cmd :: _) as parts =>
      if String.eqb cmd "/quit" || String.eqb cmd "/exit" then ret true
      else run_admin_line cmd parts ;;; ret false
  end.

Fixpoint admin_lines (lines : list string) : M Console ConsoleExitReason :=
  match lines with
  | [] => ret InputClosed
  | line :: rest =>
      let* quit := admin_line line in
      if quit then ret QuitRequested else admin_lines rest
  end.
Definition admin_console (lines : list string) : M Console ConsoleExitReason :=
  for_each show_dedicated_usage print ;;; admin_lines lines.
End admin.
Arguments Console S : clear implicits.

(* ===================================================================== *)
(** * Starting *)

Section startup.
Context {S : Type} `{ServerStorage S} `{OpenSSL} `{Platform} `{Sodium} `{Disk}.

(** What the machine answers: [chatbox_database_path], the [SQLiteStorage] that opens or
    the exception, the exception of the acceptor or of the TLS context, UPnP, and the
    addresses of the host with whether each is the loopback ([None] when resolving
    throws). *)
Record UPnPMapper := MkMapper {
  discovers : bool;
  opens_port : bool;
  external_ip : string;
  last_error : string;
}.
Record Machine := MkMachine {
  chatbox_database_path : string;
  open_database : string -> string + S;
  listen_error : option string;
  upnp : UPnPMapper;
  lan_addresses : option (list (string * bool));
  clock : Z;
}.

(** A program that did not start: the code it exits with and the error; or a server
    that runs, with its console and publisher. *)
Inductive Started :=
| Fails (code : N) (error : string)
| Runs (console : Console S) (publisher : option PublisherWorld).

(** [ChatLog] as it is opened, and what [log_admin] writes before the server exists:
    to the log, or to the standard output when there is none. *)
Definition open_log (c : DedicatedServerConfig) : option (list string) :=
  if enable_logging c then Some ["=== Server started ==="] else None.
Definition early_lines (c : DedicatedServerConfig) (fs : Files) (imported : ImportResult) : list string :=
  ["[admin] Starting dedicated server on port " +:+ to_string (port c)]
  ++ (if sempty (password c) then [] else ["[admin] Password protection enabled"])
  ++ (if server_enabled (tls c) then
        let fingerprint := certificate_sha256_fingerprint fs (certificate_path (tls c)) in
        if sempty fingerprint then [] else ["[security] TLS certificate SHA-256: " +:+ fingerprint]
      else [])
  ++ (if (0 <? imported_bans imported)%N || (0 <? imported_identities imported)%N then
        ["[storage] Imported " +:+ to_string (imported_bans imported) +:+ " legacy ban(s) and "
         +:+ to_string (imported_identities imported) +:+ " identity binding(s)"]
      else []).

(** [log_admin] while the server runs. *)
Definition log_admin (line : string) : M (Console S) unit :=
  let* c := get in
  match log_ (chat c) with
  | Some _ => call (log_write line)
  | None => print line
  end.

(** The port mapping: the host to publish so far. *)
Definition forward_line (c : DedicatedServerConfig) : string :=
  "[admin] Forward port " +:+ to_string (port c) +:+ " manually for internet access".
Definition map_port (m : UPnPMapper) (c : DedicatedServerConfig) : M (Console S) string :=
  if enable_upnp c && discovers m then
    if opens_port m then
      log_admin "[admin] UPnP port mapping succeeded" ;;;
      if sempty (external_ip m) then ret (browser_public_host c)
      else
        log_admin ("[admin] External address: " +:+ external_ip m +:+ ":" +:+ to_string (port c)) ;;;
        ret (if sempty (browser_public_host c) then external_ip m else browser_public_host c)
    else
      log_admin ("[admin] UPnP mapping failed: " +:+ last_error m) ;;;
      log_admin (forward_line c) ;;;
      ret (browser_public_host c)
  else if negb (enable_upnp c) then
    log_admin ("[admin] UPnP disabled; forward port " +:+ to_string (port c)
               +:+ " manually for internet access") ;;;
    ret (browser_public_host c)
  else
    log_admin ("[admin] UPnP unavailable: " +:+ last_error m) ;;;
    log_admin (forward_line c) ;;;
    ret (browser_public_host c).

(** The addresses of the host that are not the loopback. *)
Fixpoint list_lan (c : DedicatedServerConfig) (addresses : list (string * bool)) (publish_host : string) :
    M (Console S) string :=
  match addresses with
  | [] => ret publish_host
  | (address, is_loopback) :: rest =>
      if is_loopback : bool then list_lan c rest publish_host
      else
        log_admin ("[admin]   " +:+ address +:+ ":" +:+ to_string (port c)) ;;;
        list_lan c rest (if sempty publish_host then address else publish_host)
  end.
Definition lan_hosts (m : Machine) (c : DedicatedServerConfig) (publish_host : string) : M (Console S) string :=
  match lan_addresses m with
  | None => ret publish_host
  | Some addresses => log_admin "[admin] LAN addresses:" ;;; list_lan c addresses publish_host
  end.

(** The entry, and its registration. *)
Definition published_entry (c : DedicatedServerConfig) (publish_host : string) : BrowserEntry :=
  MkEntry (browser_name c) (if sempty publish_host then "127.0.0.1" else publish_host) (port c)
    (negb (sempty (password c))) (server_enabled (tls c)) 0 0.
Definition publish (x : Exchange) (c : DedicatedServerConfig) (publish_host : string) (fs : Files) :
    M (Console S) (option PublisherWorld) :=
  if negb (publish_to_browser c) then ret None
  else
    let entry := published_entry c publish_host in
    let* console := get in
    let users := Z.of_nat (length (connected_users (chat console))) in
    let '(error, w) :=
      start x users (MkPublisherWorld (publisher (browser_host c) BROWSER_PORT entry (browser_tls c)) fs []) in
    match error with
    | None =>
        log_admin ("[admin] Published to server browser " +:+ browser_host c +:+ ":"
          +:+ to_string BROWSER_PORT +:+ " as " +:+ entry_host entry +:+ ":" +:+ to_string (entry_port entry)) ;;;
        ret (Some w)
    | Some error => log_admin ("[admin] Browser publish failed: " +:+ error) ;;; ret None
    end.

Definition banner (c : DedicatedServerConfig) (database_path : string) : list string :=
  ["chatbox dedicated server running on port " +:+ to_string (port c);
   "Log: " +:+ (if negb (enable_logging c) then "disabled"
                else if log_to_stdout_only c then "stdout only" else logfile c)
   +:+ " | Database: " +:+ database_path;
   "Transport: " +:+ (if server_enabled (tls c) then "TLS" else "PLAINTEXT (explicit)")].

(** [run_dedicated_server_config] up to the console. *)
Definition server_of (c : DedicatedServerConfig) (storage : S) (log : option (list string)) (fs : Files) : World S :=
  chat_server (password c) "" (history_limit c) (Some storage) log fs.
Definition run_dedicated_server_config (m : Machine) (x : Exchange) (c : DedicatedServerConfig) (fs : Files) :
    Started :=
  let database_path := if sempty (database c) then chatbox_database_path m else database c in
  if files_missing (tls c) then Fails 1 tls_required
  else match open_database m database_path with
  | inl what => Fails 1 ("Could not initialize server database: " +:+ what)
  | inr storage =>
      let '(imported, storage) :=
        StorageApi.import_legacy_files fs (clock m) (bans_file c) (identities_file c) storage in
      let early := early_lines c fs imported in
      let log := (fun lines => lines ++ early)%list <$> open_log c in
      let output := if enable_logging c then [] else early in
      match listen_error m with
      | Some what => Fails 1 ("Could not start server: " +:+ what)
      | None =>
          let program :=
            let* publish_host := map_port (upnp m) c in
            let* publish_host := lan_hosts m c publish_host in
            let* publisher := publish x c publish_host fs in
            for_each (banner c database_path) print ;;;
            ret publisher in
          let '(publisher, console) := program (MkConsole (server_of c storage log fs) output) in
          Runs console publisher
      end
  end.

(** The end: [InputClosed] leaves the server running; after [/quit] the publisher is
    destroyed, which asks its thread to stop ([Publisher.v] has the rest), and the
    server is stopped. *)
Definition shut_down (reason : ConsoleExitReason) (publisher : option PublisherWorld) :
    M (Console S) (option PublisherWorld) :=
  match reason with
  | InputClosed =>
      log_admin ("[admin] Console input closed; dedicated server is still running. "
                 +:+ "Stop the process to exit.") ;;;
      ret publisher
  | QuitRequested =>
      log_admin "[admin] Shutting down" ;;;
      call ChatServer.stop ;;;
      ret (request_stop <$> publisher)
  end.

(** [run_browser_server] up to its console: the error, or the directory and what was
    printed. *)
Definition browser_port_lines (m : UPnPMapper) (port : N) : list string :=
  let forward := "[browser] Forward port " +:+ to_string port +:+ " manually for internet access" in
  if discovers m then
    if opens_port m then
      "[browser] UPnP port mapping succeeded"
        :: (if sempty (external_ip m) then []
            else ["[browser] External address: " +:+ external_ip m +:+ ":" +:+ to_string port])
    else ["[browser] UPnP mapping failed: " +:+ last_error m; forward]
  else ["[browser] UPnP unavailable: " +:+ last_error m; forward].
Definition browser_lan_lines (m : Machine) (port : N) : list string :=
  match lan_addresses m with
  | None => []
  | Some addresses =>
      "[browser] LAN addresses:"
        :: ((fun a : string * bool => "[browser]   " +:+ a.1 +:+ ":" +:+ to_string port)
              <$> base.filter (fun a : string * bool => a.2 = false) addresses)
  end.
Definition run_browser_server (m : Machine) (port : N) (tls : ServerConfig) (fs : Files) :
    string + DirectoryConsole :=
  let fingerprint :=
    if server_enabled tls then certificate_sha256_fingerprint fs (certificate_path tls) else "" in
  match listen_error m with
  | Some what => inl ("Could not start browser server: " +:+ what)
  | None =>
      inr (MkDirectoryConsole (MkBrowser ∅ true 0)
        (["chatbox server browser running on port " +:+ to_string port]
         ++ (if sempty fingerprint then [] else ["[browser] TLS certificate SHA-256: " +:+ fingerprint])
         ++ browser_port_lines (upnp m) port ++ browser_lan_lines m port))
  end.
End startup.
