(* ===== verification/ConsoleProperties.v ===== *)
(** Properties of [DedicatedServer.v]. *)

From S2P Require Import Prelude Utils AppState StorageApi World ChatServer ServerInvariant.
From S2P Require Import ServerBoot ServerSteps Tls Browser Publisher Options Commands DedicatedServer.
Local Open Scope string_scope.
Local Open Scope chat_scope.

(* ===================================================================== *)
(** * What a line of the console means *)

(** A text that comes back from [split] and [join_args]: [split] drops an empty last
    field, so it does not end with a space. *)
Definition tidy (s : string) : Prop := s <> "" /\ sback s <> Some " "%char.

Lemma sback_cons c s : s <> "" -> sback (String c s) = sback s.
Proof. by destruct s. Qed.

Lemma join_getlines d s : sback s <> Some d -> join_with (String d "") (getlines d s) = s.
Proof.
  induction s as [|c s IH]; [done|]. intros Hb. cbn [getlines].
  destruct (decide (s = "")) as [->|Hs]; [by case_decide; subst|].
  rewrite sback_cons in Hb by done. specialize (IH Hb).
  destruct (getlines d s) as [|item items] eqn:E; [by destruct Hs|].
  case_decide as Hc; [subst c|]; [by rewrite join_with_cons, IH by done|].
  destruct items as [|next items]; [cbn in *; by rewrite IH|].
  rewrite join_with_cons in IH |- * by done. by rewrite sapp_cons, IH.
Qed.

Lemma join_args_all s : tidy s -> join_with " " (split s " ") = s.
Proof. intros [_ Hb]. by apply join_getlines. Qed.

Lemma split_word w r : word w -> split (w +:+ " " +:+ r) " " = w :: split r " ".
Proof. intros [_ Hf]. unfold split. by apply getlines_app. Qed.
Lemma split_one w : word w -> split w " " = [w].
Proof. apply getlines_word. Qed.

Lemma split_tidy s : tidy s -> exists f fs, split s " " = f :: fs.
Proof.
  intros Hs. pose proof (join_args_all s Hs) as J. destruct (split s " "); [|eauto].
  by destruct Hs.
Qed.

(** The lines of the administrator, as [show_dedicated_usage] lists them. *)
Inductive orders : string -> Admin -> Prop :=
| orders_create name : word name -> orders ("/create " +:+ name) (AdminCreateRoom name)
| orders_topic room text : word room -> tidy text ->
    orders ("/topic " +:+ room +:+ " " +:+ text) (AdminTopic room text)
| orders_kick room nick : word room -> word nick ->
    orders ("/kick " +:+ room +:+ " " +:+ nick) (AdminKickIn room nick "")
| orders_kick_reason room nick reason : word room -> word nick -> tidy reason ->
    orders ("/kick " +:+ room +:+ " " +:+ nick +:+ " " +:+ reason) (AdminKickIn room nick reason)
| orders_ban nick : word nick -> orders ("/ban " +:+ nick) (AdminBan nick "")
| orders_ban_reason nick reason : word nick -> tidy reason ->
    orders ("/ban " +:+ nick +:+ " " +:+ reason) (AdminBan nick reason)
| orders_unban nick : word nick -> orders ("/unban " +:+ nick) (AdminUnban nick)
| orders_broadcast text : tidy text -> orders ("/broadcast " +:+ text) (AdminBroadcastServer text).

Section console.
Context {S : Type} `{ServerStorage S} `{Sodium} `{Platform}.
Implicit Types c : Console S.

Lemma chat_print line c : chat (print line c).2 = chat c.
Proof. done. Qed.
Lemma frames_print line : frames (@chat S) (print line).
Proof. done. Qed.
Lemma frames_print_each {A} (l : list A) (f : A -> string) :
  frames (@chat S) (for_each l (fun x => print (f x))).
Proof. apply frames_for_each. done. Qed.
Lemma frames_print_lines lines : frames (@chat S) (for_each lines print).
Proof. apply (frames_print_each lines id). Qed.
Lemma frames_print_rooms : frames (@chat S) print_rooms.
Proof. intros c. unfold print_rooms. rewrite bind_snd. apply frames_print_each. Qed.
Lemma frames_print_users name : frames (@chat S) (print_users name).
Proof.
  intros c. unfold print_users. rewrite bind_snd. cbn [get fst snd].
  destruct (users_in_room _ _) as [[|]|]; [done|apply frames_print_each|done].
Qed.
Lemma frames_print_bans : frames (@chat S) print_bans.
Proof.
  intros c. unfold print_bans. rewrite bind_snd. cbn [get fst snd].
  destruct (ban_list _) as [|]; [done|apply frames_print_each].
Qed.

Lemma chat_call {A} (m : M (World S) A) c : chat (call m c).2 = (m (chat c)).2.
Proof. unfold call. by destruct (m (chat c)). Qed.
Lemma chat_call_then {A B} (m : M (World S) A) (k : A -> M (Console S) B) c :
  (forall a, frames (@chat S) (k a)) -> chat (bind (call m) k c).2 = (m (chat c)).2.
Proof. intros Hk. rewrite bind_snd, (Hk _ _). apply chat_call. Qed.
Lemma chat_report op done c : chat (report op done c).2 = (op (chat c)).2.
Proof. by apply chat_call_then. Qed.
Lemma ignore_snd {A} (m : M (World S) A) w : (ignore m w).2 = (m w).2.
Proof. unfold ignore. by rewrite bind_snd. Qed.

Lemma admin_line_parts cmd parts line c :
  split line " " = cmd :: parts -> line <> "" ->
  String.eqb cmd "/quit" || String.eqb cmd "/exit" = false ->
  admin_line line c = (false, (run_admin_line cmd (cmd :: parts) c).2).
Proof.
  intros Hs Hne Hq. unfold admin_line. rewrite (proj2 (sempty_false line)) by done.
  rewrite Hs, Hq. unfold bind, ret. by destruct (run_admin_line _ _ c).
Qed.

(** A line that starts with a command. *)
Lemma order_runs cmd rest line c w :
  line = cmd +:+ " " +:+ rest -> word cmd -> String.eqb cmd "/quit" || String.eqb cmd "/exit" = false ->
  chat (run_admin_line cmd (cmd :: split rest " ") c).2 = w ->
  (admin_line line c).1 = false /\ chat (admin_line line c).2 = w.
Proof.
  intros -> Hw Hq Hr.
  rewrite (admin_line_parts cmd (split rest " ")); [done|by apply split_word| |done].
  destruct Hw as [Hne _]. by destruct cmd.
Qed.

Ltac order cmd rest := apply (order_runs cmd rest); [reflexivity|by split|reflexivity|].

(** An administrator's line does what it says. Every line of the documented form,
    of words separated by single spaces and a text that does not end with one, runs
    exactly the operation of the server it stands for, with the text unchanged. *)
Theorem admin_line_meaning line a c :
  orders line a ->
  (admin_line line c).1 = false /\ chat (admin_line line c).2 = (run_admin a (chat c)).2.
Proof.
  intros Ho. destruct Ho as [name Hn|room text Hr Ht|room nick Hr Hn|room nick reason Hr Hn Ht
    |nick Hn|nick reason Hn Ht|nick Hn|text Ht]; cbn [run_admin]; rewrite ?ignore_snd.
  - order "/create" name. rewrite split_one by done. apply chat_report.
  - order "/topic" (room +:+ " " +:+ text). rewrite split_word by done.
    destruct (split_tidy text Ht) as (f & fs & E). pose proof (join_args_all text Ht) as J.
    rewrite E in J |- *.
    etransitivity; [apply chat_report|]. unfold join_args, join_fields. cbn [skipn nth].
    by rewrite ?drop_0, J.
  - order "/kick" (room +:+ " " +:+ nick). rewrite split_word, split_one by done. apply chat_report.
  - order "/kick" (room +:+ " " +:+ nick +:+ " " +:+ reason). rewrite !split_word by done.
    etransitivity; [apply chat_report|]. unfold join_args, join_fields. cbn [skipn nth].
    by rewrite drop_0, join_args_all.
  - order "/ban" nick. rewrite split_one by done. by apply chat_call_then.
  - order "/ban" (nick +:+ " " +:+ reason). rewrite split_word by done.
    etransitivity; [by apply chat_call_then|]. unfold join_args, join_fields. cbn [skipn nth].
    by rewrite drop_0, join_args_all.
  - order "/unban" nick. rewrite split_one by done. by apply chat_call_then.
  - order "/broadcast" text. destruct (split_tidy text Ht) as (f & fs & E). pose proof (join_args_all text Ht) as J.
    rewrite E in J |- *.
    etransitivity; [apply chat_call|]. unfold join_args, join_fields. cbn [skipn nth].
    by rewrite ?drop_0, J.
Qed.

(* ===================================================================== *)
(** * A console is one of the server's callers *)

(** What a line does to the server is nothing, or one operation of it. *)
Lemma admin_line_step line c :
  chat (admin_line line c).2 = chat c \/
  exists a, chat (admin_line line c).2 = (run_admin a (chat c)).2.
Proof.
  unfold admin_line. destruct (sempty line); [by left|].
  destruct (split line " ") as [|cmd parts] eqn:E; [by left|].
  destruct (_ || _); [by left|]. rewrite bind_snd. cbn [ret snd]. clear E.
  generalize (cmd :: parts). clear parts. intros parts. unfold run_admin_line.
  repeat match goal with |- context [if ?b then _ else _] => destruct b end;
    try (left; first [done | apply frames_print_each | apply frames_print_rooms
                     | apply frames_print_users | apply frames_print_bans
                     | apply frames_print_lines]); right.
  - exists (AdminCreateRoom (nth 1 parts "")). cbn [run_admin]. rewrite ignore_snd. apply chat_report.
  - eexists (AdminTopic _ _). cbn [run_admin]. rewrite ignore_snd. apply chat_report.
  - eexists (AdminKickIn _ _ _). cbn [run_admin]. rewrite ignore_snd. apply chat_report.
  - eexists (AdminBan _ _). cbn [run_admin]. rewrite ignore_snd. by apply chat_call_then.
  - eexists (AdminUnban _). cbn [run_admin]. rewrite ignore_snd. by apply chat_call_then.
  - eexists (AdminBroadcastServer _). apply chat_call.
Qed.

(** The second space of the form [/ban  <nick>] that the help prints: [split] keeps the
    empty field between the two, and the empty nickname is banned. *)
Lemma ban_after_two_spaces rest c :
  bans (chat (admin_line ("/ban  " +:+ rest) c).2) = {[""]} ∪ bans (chat c).
Proof.
  destruct (order_runs "/ban" (" " +:+ rest) ("/ban  " +:+ rest) c
    (ban_user "" (join_args ("/ban" :: split (" " +:+ rest) " ") 2) (chat c)).2) as [_ ->];
    [reflexivity|by split|reflexivity| |apply bans_ban_user].
  change (split (" " +:+ rest) " ") with ("" :: split rest " "). by apply chat_call_then.
Qed.
End console.

(* ===================================================================== *)
(** * The dedicated server runs the server *)

Section dedicated.
Context {S : Type} `{ServerStorage S} {ready : S -> Prop} `{!StorageContract S ready}.
Context `{OpenSSL} `{Platform} `{Sodium} `{Disk}.
Implicit Types c : Console S.

(** The console and the network thread, in any order, and the end. *)
Inductive serves (c0 : Console S) : Console S -> Prop :=
| serves_start : serves c0 c0
| serves_network c w : serves c0 c -> step (chat c) w -> serves c0 (MkConsole w (printed c))
| serves_line c line : serves c0 c -> serves c0 (admin_line line c).2
| serves_end c reason publisher : serves c0 c -> serves c0 (shut_down reason publisher c).2.

Definition at_server (w0 : World S) (c : Console S) : Prop := reachable w0 (chat c).

Lemma at_server_same {A} w0 (m : M (Console S) A) : frames (@chat S) m -> keeps (at_server w0) m.
Proof. intros Hm c. unfold at_server. by rewrite Hm. Qed.
Lemma at_server_log w0 line : keeps (at_server w0) (log_admin line).
Proof.
  intros c Hc. unfold log_admin. rewrite bind_snd. cbn [get fst snd].
  destruct (log_ (chat c)); [|done]. unfold at_server. rewrite chat_call.
  eapply reachable_step; [exact Hc|apply (step_admin _ (AdminLog line))].
Qed.
Lemma at_server_line w0 line : keeps (at_server w0) (admin_line line).
Proof.
  intros c Hc. unfold at_server in *. destruct (admin_line_step line c) as [->|[a ->]]; [done|].
  eapply reachable_step; [exact Hc|apply step_admin].
Qed.
Lemma at_server_lan w0 cfg addresses : forall host, keeps (at_server w0) (list_lan cfg addresses host).
Proof.
  induction addresses as [|[address is_loopback] rest IH]; intros host; cbn [list_lan]; [apply keeps_ret|].
  destruct is_loopback; [apply IH|]. apply keeps_bind; [apply at_server_log|intros; apply IH].
Qed.
Create HintDb dedicated.
#[local] Hint Resolve at_server_log at_server_line at_server_lan keeps_ret : dedicated.

Ltac at_server_tac :=
  repeat match goal with
  | |- keeps _ (bind _ _) => apply keeps_bind; [|intros]
  | |- keeps _ (if ?b then _ else _) => destruct b
  | |- keeps _ (match ?x with _ => _ end) => destruct x
  end; auto with dedicated nocore.

Lemma at_server_map w0 m cfg : keeps (at_server w0) (map_port (S:=S) m cfg).
Proof. unfold map_port. at_server_tac. Qed.
Lemma at_server_hosts w0 (m : Machine (S:=S)) cfg host : keeps (at_server w0) (lan_hosts m cfg host).
Proof. unfold lan_hosts. at_server_tac. Qed.
Lemma at_server_publish w0 x cfg host fs : keeps (at_server w0) (publish (S:=S) x cfg host fs).
Proof.
  unfold publish. destruct (negb _); [apply keeps_ret|]. apply keeps_bind; [apply keeps_get|intros console].
  destruct (start _ _ _) as [[error|] w]; at_server_tac.
Qed.
Lemma at_server_end w0 reason publisher : keeps (at_server w0) (shut_down (S:=S) reason publisher).
Proof.
  unfold shut_down. destruct reason; at_server_tac. intros c Hc. unfold at_server. rewrite chat_call.
  eapply reachable_step; [exact Hc|apply (step_admin _ AdminStop)].
Qed.


(* ===================================================================== *)
(** * What is published *)

(** The password the server was constructed with. *)
Definition secret (w : World S) : string := password_ (server w).

Lemma frames_secret_server f :
  (forall sv, password_ (f sv) = password_ sv) -> frames secret (on_server f).
Proof. intros Hf w. unfold secret. cbn. apply Hf. Qed.
Lemma frames_secret_call {A} (op : S -> A * S) : frames secret (call_storage op).
Proof. intros w. unfold secret. by rewrite (proj1 (with_storage_state op w)). Qed.
Lemma frames_secret_storage {A} (op : S -> A * S) : frames secret (with_storage op).
Proof. intros w. unfold with_storage, secret. cbn. by destruct (storage_ w). Qed.

Lemma secret_chat_server password local limit storage log fs :
  secret (chat_server password local limit storage log fs) = password.
Proof.
  unfold chat_server. assert (frames secret (load_persistent_state (S:=S))) as Hf.
  { unfold load_persistent_state, load_room, load_stored_identities, load_stored_bans, persist_room,
      current_unix_seconds, read_system_clock, log_write, print_error.
    frames_tac; try apply frames_secret_call; try apply frames_secret_storage;
      try (apply frames_secret_server; intros; repeat case_match; done); done. }
  by rewrite Hf.
Qed.

Lemma frames_log_admin line : frames (fun c => secret (chat c)) (log_admin (S:=S) line).
Proof.
  intros c. unfold log_admin. rewrite bind_snd. cbn [get fst snd].
  destruct (log_ (chat c)) eqn:E; [|done]. rewrite chat_call. unfold log_write, secret. cbn. by rewrite E.
Qed.
#[local] Hint Resolve frames_log_admin : chat_frames.
Abbreviation console_secret := (fun c : Console S => secret (chat c)).

Lemma frames_secret_map m cfg : frames console_secret (map_port (S:=S) m cfg).
Proof. unfold map_port. frames_tac. Qed.
Lemma frames_secret_lan cfg l : forall host, frames console_secret (list_lan cfg l host).
Proof. induction l as [|[address []] rest IH]; intros host; cbn [list_lan]; auto with chat_frames; frames_tac; apply IH. Qed.
Lemma frames_secret_hosts (m : Machine (S:=S)) cfg host : frames console_secret (lan_hosts m cfg host).
Proof. unfold lan_hosts. frames_tac. apply frames_secret_lan. Qed.
Lemma frames_secret_publish x cfg host fs : frames console_secret (publish (S:=S) x cfg host fs).
Proof. unfold publish. frames_tac. Qed.

(** The configured host is the one that is published, when there is one. *)
Lemma map_port_host m cfg c :
  browser_public_host cfg <> "" -> (map_port (S:=S) m cfg c).1 = browser_public_host cfg.
Proof.
  intros Hh%sempty_false. unfold map_port, bind, ret.
  repeat match goal with |- context [if ?b then _ else _] => destruct b eqn:? end; cbn;
    repeat match goal with |- context [let '(_, _) := ?p in _] => destruct p end; cbn; congruence.
Qed.
Lemma list_lan_host cfg l : forall host c, host <> "" -> (list_lan (S:=S) cfg l host c).1 = host.
Proof.
  induction l as [|[address []] rest IH]; intros host c Hh; cbn [list_lan]; auto.
  rewrite (proj2 (sempty_false host)) by done. unfold bind. destruct (log_admin _ c). by apply IH.
Qed.
Lemma lan_hosts_host (m : Machine (S:=S)) cfg host c : host <> "" -> (lan_hosts m cfg host c).1 = host.
Proof.
  intros Hh. unfold lan_hosts. destruct (lan_addresses m); [|done].
  unfold bind. destruct (log_admin _ c). by apply list_lan_host.
Qed.

Lemma publish_entry x cfg host fs c w :
  (publish (S:=S) x cfg host fs c).1 = Some w ->
  publish_to_browser cfg = true /\ exists users, entry_ (the_publisher w) = with_users users (published_entry cfg host).
Proof.
  unfold publish. destruct (publish_to_browser cfg); [|discriminate]. cbn [negb].
  unfold bind at 1. cbn [get].
  unfold start at 1. cbn [the_publisher publisher started_ browser_host_ browser_port_ entry_ tls_config_].
  destruct (register_server _ _ _ _ _ _) as [[[error|] sent] files]; cbn; unfold bind, ret;
    destruct (log_admin _ c); [discriminate|]. cbn. intros [= <-]. eauto.
Qed.

(** What is published is the server that runs. Whenever the dedicated server runs with
    a publisher, the entry it publishes has the port the server listens on, says a
    password is needed exactly when one is, says TLS exactly when the server speaks it,
    and its host is not empty: the configured one, when there is one. *)
Theorem published_entry_true (m : Machine (S:=S)) x cfg fs console w :
  run_dedicated_server_config m x cfg fs = Runs console (Some w) ->
  let entry := entry_ (the_publisher w) in
  publish_to_browser cfg = true /\
  entry_port entry = port cfg /\
  Browser.has_password entry = ChatServer.has_password (server (chat console)) /\
  uses_tls entry = server_enabled (tls cfg) /\
  entry_host entry <> "" /\
  (browser_public_host cfg <> "" -> entry_host entry = browser_public_host cfg).
Proof.
  unfold run_dedicated_server_config. destruct (files_missing (tls cfg)); [discriminate|].
  destruct (open_database m _) as [|s]; [discriminate|].
  destruct (StorageApi.import_legacy_files _ _ _ _ _) as [imported storage].
  destruct (listen_error m); [discriminate|]. set (log := _ <$> open_log cfg).
  match goal with |- context [bind _ _ (MkConsole ?w ?out)] => set (c0 := MkConsole w out) end.
  unfold bind. destruct (map_port (upnp m) cfg c0) as [h1 c1] eqn:E1.
  destruct (lan_hosts m cfg h1 c1) as [h2 c2] eqn:E2.
  destruct (publish x cfg h2 fs c2) as [p c3] eqn:E3.
  destruct (for_each _ print c3) as [[] c4] eqn:E4. intros [= -> ->].
  apply (f_equal fst) in E3 as E3'. apply publish_entry in E3' as [Hp [users ->]].
  assert (secret (chat console) = password cfg) as Hs.
  { apply (f_equal snd) in E1, E2, E3, E4. cbn [snd] in E1, E2, E3, E4. subst console c3 c2 c1.
    rewrite (frames_print_lines _ _), (frames_secret_publish _ _ _ _ _).
    rewrite (frames_secret_hosts _ _ _ _), (frames_secret_map _ _ _). apply secret_chat_server. }
  apply (f_equal fst) in E1, E2. cbn in E1, E2.
  split; [done|]. cbn. unfold ChatServer.has_password. change (password_ _) with (secret (chat console)).
  rewrite Hs. do 3 (split; [done|]). split.
  - destruct (sempty h2) eqn:Eh; [done|by apply sempty_false].
  - intros Hh. rewrite map_port_host in E1 by done. subst h1. rewrite lan_hosts_host in E2 by done.
    subst h2. by rewrite (proj2 (sempty_false _)).
Qed.
End dedicated.
