(* ===== verification/DedicatedScenarios.v ===== *)
(** A dedicated server started from a command line: the instances of the theorems of
    [Options.v] and [ConsoleProperties.v]. *)

From S2P Require Import Prelude Frame Message Utils AppState StorageApi World ChatServer ServerInvariant.
From S2P Require Import ServerSteps Tls Browser BrowserProperties BrowserScenarios Publisher Options DedicatedServer ConsoleProperties.
Local Open Scope string_scope.

Definition sample_arguments : list string :=
  ["--server"; "7777"; "hush"; "--allow-plaintext"; "--publish"; "directory.example"; "--name"; "Ann | home";
   "--history-limit"; "40"; "--log-stdout"].
Definition sample_config : DedicatedServerConfig :=
  match main sample_arguments with RunServer c => c | _ => initial_config 0 end.

(** The machine: a database that opens, a port that is mapped, two addresses. *)
Definition sample_machine : Machine (S:=unit) :=
  MkMachine "chatbox.db" (fun _ => inr tt) None (MkMapper true true "203.0.113.9" "")
    (Some [("127.0.0.1", true); ("192.168.1.4", false)]) 0.
Definition sample_exchange : Exchange :=
  exchange_with empty_browser (register_request (published_entry sample_config "203.0.113.9")).

Definition sample_start := run_dedicated_server_config sample_machine sample_exchange sample_config ∅.
Definition sample_console : Console unit :=
  match sample_start with Runs console _ => console
  | Fails _ _ => MkConsole (server_of sample_config tt None ∅) [] end.
Definition sample_publisher : option PublisherWorld :=
  match sample_start with Runs _ publisher => publisher | Fails _ _ => None end.

(** The command line is understood, and the same without [--allow-plaintext] is refused. *)
Example sample_accepted :
  main sample_arguments = RunServer sample_config /\ password sample_config = "hush" /\
  browser_name sample_config = "Ann  home" /\ history_limit sample_config = 40%N.
Proof. vm_compute. repeat split. Qed.
Example sample_refused :
  main ["-s"; "7777"; "hush"] = Exits 1 [] tls_required /\
  main ["-s"; "70000"] = Exits 1 [] "Invalid port number: 70000".
Proof. vm_compute. repeat split. Qed.

Example sample_published : bool_decide (is_Some sample_publisher) = true.
Proof. vm_compute. reflexivity. Qed.

(** A console: what it prints, and what it leaves of the ban list. *)
Definition sample_lines : list string :=
  ["/create music"; "/topic music all day"; "/ban bob spam in here"; "/bans"; "/unban ann"; "/users attic";
   ""; "/rooms"; "/quit"; "/bans"].
Example sample_transcript :
  let '(reason, console) := admin_lines sample_lines sample_console in
  reason = QuitRequested /\
  drop (length (printed sample_console)) (printed console) =
    ["Created room: music"; "Updated topic for #music"; "Banned: bob"; "  - bob"; "Not in ban list: ann";
     "Room 'attic' does not exist"; "  - lobby (0)"; "  - music (0)"]%list.
Proof. vm_compute. split; reflexivity. Qed.

Lemma admin_line_meaning_witness :
  (admin_line "/ban bob spam in here" sample_console).1 = false /\
  chat (admin_line "/ban bob spam in here" sample_console).2 =
    (run_admin (AdminBan "bob" "spam in here") (chat sample_console)).2.
Proof.
  apply admin_line_meaning. apply (orders_ban_reason "bob" "spam in here").
  - split; [discriminate|reflexivity].
  - split; [discriminate|vm_compute; discriminate].
Defined.

Lemma sample_started :
  run_dedicated_server_config sample_machine sample_exchange sample_config ∅
  = Runs sample_console sample_publisher.
Proof. vm_compute. reflexivity. Qed.

(** A session is accepted, then the administrator creates a room, and the input ends. *)
Definition accepted_console : Console unit :=
  MkConsole (ClientSession.accept 5%N (chat sample_console)).2 (printed sample_console).
Definition ended_console : Console unit :=
  (shut_down InputClosed sample_publisher (admin_line "/create music" accepted_console).2).2.


Lemma published_entry_true_witness :
  match sample_publisher with
  | Some w =>
      let entry := entry_ (the_publisher w) in
      publish_to_browser sample_config = true /\
      entry_port entry = port sample_config /\
      Browser.has_password entry = ChatServer.has_password (server (chat sample_console)) /\
      uses_tls entry = server_enabled (tls sample_config) /\
      entry_host entry <> "" /\
      (browser_public_host sample_config <> "" -> entry_host entry = browser_public_host sample_config)
  | None => False
  end.
Proof.
  pose proof sample_started as Hs. destruct sample_publisher as [w|] eqn:E.
  - exact (published_entry_true _ _ _ _ _ _ Hs).
  - pose proof sample_published as Hp. rewrite E in Hp. discriminate.
Defined.
