(* ===== verification/Screen.v ===== *)
(** What the interface draws: the drawing functions of [ui/curses_ui.cpp], as lists of
    what is put where on a screen of [LINES] by [COLS] cells. A style is its palette
    entry and whether it is bold. *)

From S2P Require Import Prelude DisplayText Message Utils AppState Terminal.
Local Open Scope string_scope.

(** The screen: its cells, and [has_colors()]. Without colours every style but the
    selected one is [A_NORMAL], which [draw_line] of [ChatScreen.v] looks at. *)
Record Size := MkSize { LINES : Z; COLS : Z; colors : bool }.

Inductive Palette := Accent | Muted | Good | Warning | Selected | Bar.
Record Style := MkStyle { palette : option Palette; bold : bool }.
Definition normal : Style := MkStyle None false.
Definition style (p : Palette) : Style := MkStyle (Some p) false.
Definition with_bold (s : Style) : Style := MkStyle (palette s) true.

(** Texts ([mvaddnstr]), lines ([mvhline], [mvvline]) and the place of the cursor. *)
Inductive Draw :=
| Put (y x : Z) (text : string) (attributes : Style)
| HLine (y x width : Z)
| VLine (y x height : Z)
| Move (y x : Z).

Section drawing.
Context `{Locale}.
Local Open Scope Z_scope.

Definition put (sz : Size) (y x : Z) (text : string) (width : Z) (attributes : Style) : list Draw :=
  if (y <? 0) || (LINES sz <=? y) || (x <? 0) || (COLS sz <=? x) then []
  else [Put y x (fit_text text (Z.min width (COLS sz - x - 1)) false) attributes].

Definition rule (sz : Size) (y x width : Z) : list Draw :=
  if (y <? 0) || (LINES sz <=? y) || (x <? 0) || (COLS sz <=? x) || (width <? 1) then []
  else [HLine y x (Z.min width (COLS sz - x - 1))].

Definition small (sz : Size) : bool := negb ((12 <=? LINES sz) && (40 <=? COLS sz)).
(** What [too_small] draws when it is. *)
Definition too_small (sz : Size) : list Draw :=
  (put sz 0 1 ui_text.app_name (COLS sz - 2) (with_bold (style Accent))
   ++ put sz 2 1 ui_text.resize_terminal (COLS sz - 2) normal
   ++ put sz 3 1 ui_text.draft_preserved (COLS sz - 2) (style Muted)
   ++ put sz (LINES sz - 1) 1 ui_text.back (COLS sz - 2) (style Muted))%list.

Definition page (sz : Size) (title subtitle footer : string) : list Draw :=
  (put sz 1 3 ui_text.app_name (COLS sz - 6) (with_bold (style Accent))
   ++ rule sz 3 3 (COLS sz - 6)
   ++ put sz 5 3 title (COLS sz - 6) (with_bold normal)
   ++ put sz 6 3 subtitle (COLS sz - 6) (style Muted)
   ++ put sz (LINES sz - 2) 3 footer (COLS sz - 6) (style Muted))%list.

(** [std::string(n, c)]. *)
Fixpoint repeated (n : nat) (c : ascii) : string :=
  match n with 0%nat => "" | Datatypes.S n' => String c (repeated n' c) end.
Definition spaces (n : Z) : string := repeated (Z.to_nat (Z.max 0 n)) " ".

(** The loop of [draw_editor]: whole characters leave on the left until the cursor
    fits; [start] advances in each turn, which bounds the loop. *)
Fixpoint editor_start (fuel : nat) (text : string) (cursor : nat) (width : Z) (start : nat) : nat :=
  match fuel with
  | 0%nat => start
  | Datatypes.S fuel' =>
      if (start <? cursor)%nat && (width - 1 <=? text_width (substr_n text start (cursor - start)))
      then
        let start := Datatypes.S start in
        editor_start fuel' text cursor width (start + continuations (sdrop start text))
      else start
  end.
Definition draw_editor (sz : Size) (e : LineEditor) (y x width : Z) (secret : bool) : list Draw :=
  let text := if secret then repeated (String.length (text e)) "*" else text e in
  let start := editor_start (String.length text) text (cursor e) width 0 in
  let cursor_x := x + text_width (substr_n text start (cursor e - start)) in
  (put sz y x (sdrop start text) width normal ++ [Move y (Z.min (COLS sz - 2) cursor_x)])%list.

(* ===================================================================== *)
(** ** Menus, forms and notices *)

Record CursesMenuItem := MkItem { shortcut : option ascii; item_title : string; description : string }.

Definition toupper (c : ascii) : ascii := if islower c then ascii_of_N (code c - 32) else c.

Definition menu_label (sz : Size) (selected : bool) (item : CursesMenuItem) : string :=
  let label := if selected then " > " else "   " in
  let label := match shortcut item with
               | Some c => label +:+ String (toupper c) "" +:+ "  "
               | None => label end in
  let label := fit_text (label +:+ item_title item) (COLS sz - 8) false in
  label +:+ spaces (Z.min 64 (COLS sz - 8) - text_width label).

Definition menu_slots (sz : Size) : Z :=
  let roomy := 20 <=? LINES sz in
  Z.max 1 (Z.quot (LINES sz - (if roomy then 8 else 7) - 3) (if roomy then 3 else 1)).
Definition menu_first (sz : Size) (selected : Z) : Z := Z.quot selected (menu_slots sz) * menu_slots sz.

(** The items of the page the selected one is on. *)
Definition draw_menu (sz : Size) (title subtitle : string) (items : list CursesMenuItem) (selected : Z) :
    list Draw :=
  if small sz then too_small sz
  else
    let roomy := 20 <=? LINES sz in
    let stride := if roomy then 3 else 1 in
    let top := if roomy then 8 else 7 in
    let first := menu_first sz selected in
    let shown := take (Z.to_nat (menu_slots sz)) (drop (Z.to_nat first) items) in
    (page sz title subtitle ui_text.menu_navigation
     ++ concat (imap (fun n item =>
          let i := first + Z.of_nat n in
          let y := top + Z.of_nat n * stride in
          put sz y 3 (menu_label sz (i =? selected) item) (COLS sz - 6)
            (if i =? selected then with_bold (style Selected) else normal)
          ++ (if roomy : bool then put sz (y + 1) 8 (description item) (COLS sz - 12) (style Muted) else [])) shown))%list.

Record CursesField := MkField {
  label : string;
  value : string;
  limit : N;
  secret : bool;
  toggle : bool;
  validate : option (string -> string);
}.
Definition with_value (v : string) (f : CursesField) : CursesField :=
  MkField (label f) v (limit f) (secret f) (toggle f) (validate f).

Definition form_slots (sz : Size) : nat := Z.to_nat (Z.max 1 (Z.quot (LINES sz - 11) 3)).
Definition form_first (sz : Size) (selected : nat) : nat := (selected / form_slots sz * form_slots sz)%nat.
Definition field_row (sz : Size) (n : nat) : Z := if LINES sz <? 15 then 7 else 8 + Z.of_nat n * 3.

Definition draw_form (sz : Size) (title subtitle : string) (fields : list CursesField) (selected : nat)
    (e : LineEditor) (error : string) : list Draw :=
  if small sz then too_small sz
  else
    let first := form_first sz selected in
    let shown := take (form_slots sz) (drop first fields) in
    let editor_y := field_row sz (selected - first) + 1 in
    let is_toggle := match fields !! selected with Some f => toggle f | None => false end in
    let is_secret := match fields !! selected with Some f => secret f | None => false end in
    (page sz title subtitle ui_text.form_navigation
     ++ concat (imap (fun n f =>
          let i := (first + n)%nat in
          let y := field_row sz n in
          put sz y 3 (label f +:+ (if toggle f then ui_text.toggle_help else "")) (COLS sz - 6)
            (if (i =? selected)%nat then with_bold (style Accent) else style Muted)
          ++ (if (i =? selected)%nat then []
              else put sz (y + 1) 5 (if secret f then repeated (String.length (value f)) "*" else value f)
                     (COLS sz - 8) normal)) shown)
     ++ put sz (LINES sz - 3) 3
          (if sempty error then "Field " +:+ to_string (N.of_nat (selected + 1)) +:+ " of "
                                +:+ to_string (N.of_nat (length fields)) else error)
          (COLS sz - 6) (if sempty error then style Muted else style Warning)
     ++ put sz editor_y 3 ">" 2 (style Accent)
     ++ (if is_toggle : bool
         then put sz editor_y 5 (if String.eqb (text e) "yes" then ui_text.yes else ui_text.no) (COLS sz - 8) (with_bold normal)
         else draw_editor sz e editor_y 5 (COLS sz - 8) is_secret))%list.

(** The lines of a notice, the last offset, and what is drawn from an offset. *)
Definition notice_lines (sz : Size) (detail : string) : list string := wrap_text detail (COLS sz - 6).
Definition notice_rows (sz : Size) : Z := Z.max 1 (LINES sz - 6 - 3).
Definition max_offset (sz : Size) (detail : string) : Z :=
  if small sz then 0 else Z.max 0 (int_of (length (notice_lines sz detail)) - notice_rows sz).
Definition clamp (v lo hi : Z) : Z := if v <? lo then lo else if hi <? v then hi else v.
Definition draw_notice (sz : Size) (title detail : string) (wait : bool) (offset : Z) : list Draw :=
  if small sz then too_small sz
  else
    (page sz title ""
       (if wait then if 0 <? max_offset sz detail then "Up/Down: scroll | Enter/Esc: back"
                     else ui_text.continue_back
        else ui_text.please_wait)
     ++ concat (imap (fun n l => put sz (6 + Z.of_nat n) 3 l (COLS sz - 6) normal)
          (take (Z.to_nat (notice_rows sz)) (drop (Z.to_nat offset) (notice_lines sz detail)))))%list.
End drawing.
