(* ===== verification/ChatScreen.v ===== *)
(** The chat window of [ui/curses_ui.cpp]: its state [ChatView], what [render_chat]
    draws of it and of the chat state, and completion. *)

From S2P Require Import Prelude DisplayText Message Utils AppState Terminal Screen.
Local Open Scope string_scope.

Record ChatView := MkView {
  editor : LineEditor;
  history : InputHistory;
  scroll : Scrollback;
  lines : list TranscriptLine;
  height : Z;
  nickname : string;
  hint : string;
  host : bool;
  help : bool;
  leaving : bool;
  room : RoomId;
}.
Definition new_view (nickname : string) (host : bool) (draft : string) : ChatView :=
  MkView (set_editor draft) empty_history new_scrollback [] 1 nickname "" host false false 0.

Definition with_editor (v : LineEditor) (x : ChatView) : ChatView :=
  MkView v (history x) (scroll x) (lines x) (height x) (nickname x) (hint x) (host x) (help x) (leaving x) (room x).
Definition with_history (v : InputHistory) (x : ChatView) : ChatView :=
  MkView (editor x) v (scroll x) (lines x) (height x) (nickname x) (hint x) (host x) (help x) (leaving x) (room x).
Definition with_scroll (v : Scrollback) (x : ChatView) : ChatView :=
  MkView (editor x) (history x) v (lines x) (height x) (nickname x) (hint x) (host x) (help x) (leaving x) (room x).
Definition with_hint (v : string) (x : ChatView) : ChatView :=
  MkView (editor x) (history x) (scroll x) (lines x) (height x) (nickname x) v (host x) (help x) (leaving x) (room x).
Definition with_help (v : bool) (x : ChatView) : ChatView :=
  MkView (editor x) (history x) (scroll x) (lines x) (height x) (nickname x) (hint x) (host x) v (leaving x) (room x).
Definition with_leaving (v : bool) (x : ChatView) : ChatView :=
  MkView (editor x) (history x) (scroll x) (lines x) (height x) (nickname x) (hint x) (host x) (help x) v (room x).

(* ===================================================================== *)
(** * Drawing *)

(** [a - b] of [std::uint64_t]. *)
Definition u64_sub (a b : N) : N := (u64 a + 2 ^ 64 - u64 b) mod 2 ^ 64.

Section chat_screen.
Context `{Locale}.
Local Open Scope Z_scope.

Definition sidebar (sz : Size) : bool := 88 <=? COLS sz.
Definition side_width (sz : Size) : Z := if sidebar sz then 25 else 0.
Definition left_edge (sz : Size) : Z := side_width sz + 3.
Definition text_columns (sz : Size) : Z := COLS sz - left_edge sz - 3.
Definition chat_top : Z := 6.
Definition chat_height (sz : Size) : Z := Z.max 1 (LINES sz - chat_top - 5).

(** The wrapped messages. *)
Definition first_message (s : ChatStateSnapshot) : N :=
  u64_sub (snap_message_sequence s) (N.of_nat (length (snap_messages s))).
Definition message_lines (sz : Size) (s : ChatStateSnapshot) (i : nat) (message : string) : list TranscriptLine :=
  imap (fun part l => MkLine (u64 (first_message s + N.of_nat i)) (N.of_nat part) l (negb (part =? 0)%nat))
    (wrap_text message (text_columns sz - 2)).
Definition transcript (sz : Size) (s : ChatStateSnapshot) : list TranscriptLine :=
  concat (imap (message_lines sz s) (snap_messages s)).

(** What [render_chat] changes of the view. *)
Definition refresh_view (sz : Size) (s : ChatStateSnapshot) (v : ChatView) : ChatView :=
  if small sz then v
  else
    MkView (editor v) (history v)
      (if negb (room v =? snap_active_room_id s)%N || bool_decide (snap_messages s = [])
       then latest (scroll v) else scroll v)
      (transcript sz s) (chat_height sz) (nickname v) (hint v) (host v) (help v) (leaving v) (snap_active_room_id s).

(** The last room that is the active one, and the first room of the sidebar. *)
Definition active_index (s : ChatStateSnapshot) : nat :=
  foldl (fun active ir => if (summary_id ir.2 =? snap_active_room_id s)%N then ir.1 else active) 0%nat
    (imap pair (snap_rooms s)).
Definition room_slots (sz : Size) : nat := Z.to_nat (Z.max 1 (Z.quot (LINES sz - 12) 2)).
Definition first_room (sz : Size) (s : ChatStateSnapshot) : nat :=
  if (room_slots sz <=? active_index s)%nat then (active_index s - room_slots sz + 1)%nat else 0%nat.

Definition room_label (selected : bool) (r : RoomSummary) : string :=
  let label := fit_text ((if selected then "> " else "  ") +:+ summary_name r) 16 true in
  label +:+ spaces (17 - text_width label) +:+ to_string (summary_user_count r).

(** The users from row [y]; the last row says how many are left. *)
Fixpoint draw_users (sz : Size) (nick : string) (users : list string) (y : Z) : list Draw :=
  match users with
  | [] => []
  | user :: rest =>
      if LINES sz - 6 <=? y then []
      else if (y =? LINES sz - 7) && negb (bool_decide (rest = [])) then
        put sz y 3 ("+ " +:+ to_string (N.of_nat (length users)) +:+ ui_text.more_users) 20 (style Muted)
      else
        (put sz y 3 ("  " +:+ user +:+ (if String.eqb user nick then ui_text.you else "")) 20
           (if String.eqb user nick then style Good else normal)
         ++ draw_users sz nick rest (y + 1))%list
  end.

Definition draw_sidebar (sz : Size) (s : ChatStateSnapshot) (v : ChatView) : list Draw :=
  let shown := take (room_slots sz) (drop (first_room sz s) (snap_rooms s)) in
  let y := 5 + Z.of_nat (length shown) in
  let none := bool_decide (snap_rooms s = []) in
  let y1 := if none then y + 1 else y in
  (VLine 3 (side_width sz) (LINES sz - 8)
   :: put sz 3 3 (ui_text.rooms +:+ to_string (N.of_nat (length (snap_rooms s)))) 20 (with_bold (style Muted))
   ++ concat (imap (fun n r =>
        let selected := (summary_id r =? snap_active_room_id s)%N in
        put sz (5 + Z.of_nat n) 3 (room_label selected r) 20
          (if selected then with_bold (style Selected) else normal)) shown)
   ++ (if none then put sz y 3 "  # lobby" 20 (style Selected) else [])
   ++ put sz y1 3 ui_text.switch_room 20 (style Muted)
   ++ put sz (y1 + 2) 3 (ui_text.people +:+ to_string (N.of_nat (length (snap_users s)))) 20 (with_bold (style Muted))
   ++ draw_users sz (nickname v) (snap_users s) (y1 + 4))%list.

(** One line of the transcript, and over it the time and the author. *)
Definition draw_line (sz : Size) (s : ChatStateSnapshot) (row : Z) (l : TranscriptLine) : list Draw :=
  let x := left_edge sz in
  let width := text_columns sz in
  let original := default "" (snap_messages s !! N.to_nat (u64_sub (message l) (first_message s))) in
  let attributes :=
    if String.prefix "[system]" original then style Muted
    else if String.prefix "[security]" original then style Warning
    else if match String.index 0 "[whisper" original with Some _ => true | None => false end then style Accent
    else normal in
  let plain := negb (colors sz) || match palette attributes with None => true | Some _ => false end in
  let indent := if continuation l then 2 else 0 in
  let text := line_text l in
  (put sz (chat_top + row) (x + indent) text (width - indent) attributes
   ++ (if negb (continuation l) && plain && String.prefix "[" text then
         match String.index 0 "] " text with
         | None => []
         | Some stamp =>
             match String.index (stamp + 2) ": " text with
             | None => []
             | Some name =>
                 put sz (chat_top + row) x (substr_n text 0 (stamp + 1)) width (style Muted)
                 ++ put sz (chat_top + row) (x + text_width (substr_n text 0 (stamp + 2)))
                      (substr_n text (stamp + 2) (name - stamp)) (width - Z.of_nat stamp - 2)
                      (with_bold (style Accent))
             end
         end
       else []))%list.

Definition status_text (sz : Size) (s : ChatStateSnapshot) (v : ChatView) (start : nat) : string :=
  let status :=
    if follow_ (scroll v) then hint v
    else if COLS sz <? 88 then ui_text.compact_history
    else ui_text.reading_history
         +:+ to_string (N.of_nat (length (lines v) - Nat.min (length (lines v)) (start + Z.to_nat (height v))))
         +:+ ui_text.lines_below_latest in
  if sempty status then ui_text.message_label +:+ snap_active_room_name s else status.

(** The panel of the shortcuts or of the question whether to leave. *)
Definition help_lines : list string :=
  [ui_text.keyboard_shortcuts; ""; ui_text.send_message; ui_text.move_cursor;
   ui_text.input_edges; ui_text.sent_history;
   ui_text.complete_input; ui_text.scroll_messages;
   ui_text.latest_messages; ui_text.delete_word;
   ui_text.delete_to_cursor; ui_text.switch_rooms_help;
   ui_text.chat_commands_help; ""; ui_text.close_panel].
Definition leave_lines : list string := [ui_text.leave_question; ""; ui_text.leave_chat; ui_text.keep_chatting].
Definition draw_panel (sz : Size) (content : list string) : list Draw :=
  let panel_width := Z.min 66 (COLS sz - 6) in
  let left := Z.quot (COLS sz - panel_width) 2 in
  let count := Z.min (Z.of_nat (length content)) (LINES sz - 4) in
  let top := Z.quot (LINES sz - count - 2) 2 in
  (concat ((fun n : nat => put sz (top + Z.of_nat n) left (spaces panel_width) panel_width (style Bar))
             <$> seq 0 (Z.to_nat (count + 2)))
   ++ concat (imap (fun n l => put sz (top + 1 + Z.of_nat n) (left + 2) l (panel_width - 4)
                      (if (n =? 0)%nat then with_bold (style Bar) else style Bar))
                (take (Z.to_nat count) content))
   ++ (if count <? Z.of_nat (length content)
       then put sz (top + count) (left + 2) ui_text.close_help (panel_width - 4) (style Bar) else []))%list.

(** [render_chat], for a view that [refresh_view] brought up to date. *)
Definition draw_chat (sz : Size) (s : ChatStateSnapshot) (v : ChatView) : list Draw :=
  if small sz then too_small sz
  else
    let x := left_edge sz in
    let width := text_columns sz in
    let identity := nickname v +:+ (if host v then ui_text.host_badge else "") in
    let start := Terminal.start (lines v) (height v) (scroll v) in
    (put sz 1 3 ui_text.app_name 20 (with_bold (style Accent))
     ++ put sz 1 (Z.max 16 (COLS sz - text_width identity - 3)) identity (COLS sz - 19) (style Muted)
     ++ rule sz 2 3 (COLS sz - 6)
     ++ put sz 3 x ("# " +:+ (if sempty (snap_active_room_name s) then ui_text.lobby else snap_active_room_name s))
          width (with_bold (style Accent))
     ++ put sz 4 x (if sempty (snap_active_room_topic s) then ui_text.default_topic
                    else snap_active_room_topic s) width (style Muted)
     ++ (if sidebar sz then draw_sidebar sz s v else [])
     ++ (if bool_decide (lines v = []) then
           put sz (chat_top + 1) x ui_text.fresh_conversation width (with_bold normal)
           ++ put sz (chat_top + 3) x ui_text.empty_chat_hint width (style Muted)
         else [])
     ++ concat (imap (fun row l => draw_line sz s (Z.of_nat row) l)
          (take (Z.to_nat (height v)) (drop start (lines v))))
     ++ rule sz (LINES sz - 5) 3 (COLS sz - 6)
     ++ put sz (LINES sz - 4) 3 (status_text sz s v start) (COLS sz - 18) (style Muted)
     ++ put sz (LINES sz - 4) (COLS sz - 13)
          (to_string (N.of_nat (String.length (text (editor v)))) +:+ "/" +:+ to_string MAX_CHAT_MESSAGE_LEN)
          10 (style Muted)
     ++ put sz (LINES sz - 3) 3 ">" 2 (with_bold (style Accent))
     ++ (if sempty (text (editor v)) then put sz (LINES sz - 3) 5 ui_text.message_placeholder (COLS sz - 8) (style Muted)
         else [])
     ++ put sz (LINES sz - 1) 3
          (if 88 <=? COLS sz
           then ui_text.chat_keys_wide
           else ui_text.chat_keys_narrow) (COLS sz - 6) (style Muted)
     ++ draw_editor sz (editor v) (LINES sz - 3) 5 (COLS sz - 8) false
     ++ (if leaving v then draw_panel sz leave_lines
         else if help v then draw_panel sz help_lines else []))%list.
End chat_screen.

(* ===================================================================== *)
(** * Completion *)

(** [text.replace(start, n, value)]. *)
Definition replace (s : string) (start n : nat) (value : string) : string :=
  stake start s +:+ value +:+ sdrop (start + n) s.

(** [while (!candidate.starts_with(common)) common.pop_back();] *)
Fixpoint shorten (fuel : nat) (candidate common : string) : string :=
  if String.prefix common candidate then common
  else match fuel with
       | 0 => common
       | Datatypes.S fuel' => shorten fuel' candidate (stake (String.length common - 1) common)
       end.
Definition common_prefix (front : string) (candidates : list string) : string :=
  foldl (fun common candidate => shorten (String.length common) candidate common) front candidates.

(** [while (... candidates.front()[common.size()] is a continuation byte) common.pop_back();] *)
Fixpoint whole_chars (fuel : nat) (front common : string) : string :=
  match fuel with
  | 0 => common
  | Datatypes.S fuel' =>
      if negb (sempty common)
         && match String.get (String.length common) front with Some c => is_continuation c | None => false end
      then whole_chars fuel' front (stake (String.length common - 1) common)
      else common
  end.

Definition commands : list string :=
  ["/help"; "/rooms"; "/create"; "/join"; "/leave"; "/topic"; "/users"; "/whisper"; "/kick"; "/clear"; "/time"; "/exit"].
Definition host_commands : list string := ["/ban"; "/unban"; "/bans"].

(** The start of the word before the cursor. *)
Definition word_start (e : LineEditor) : nat :=
  match srfind " " (stake (cursor e) (text e)) with Some space => space + 1 | None => 0 end.

Definition candidates_of (s : ChatStateSnapshot) (v : ChatView) : list string :=
  let e := editor v in
  let start := word_start e in
  let prefix := substr_n (text e) start (cursor e - start) in
  let all :=
    if (start =? 0)%nat && String.prefix "/" prefix
    then (commands ++ (if host v then host_commands else []))%list
    else if String.prefix "/join " (text e) then summary_name <$> snap_rooms s
    else snap_users s in
  sort_strings (base.filter (fun c => String.prefix prefix c = true) all).

Definition complete (s : ChatStateSnapshot) (v : ChatView) : ChatView :=
  let e := editor v in
  let start := word_start e in
  let prefix := substr_n (text e) start (cursor e - start) in
  match candidates_of s v with
  | [] => with_hint ui_text.no_completions v
  | (front :: rest) as candidates =>
      let common := common_prefix front candidates in
      let common := whole_chars (String.length common) front common in
      let replacement := common +:+ (if bool_decide (rest = []) then " " else "") in
      let e' :=
        if (size_of (text e) - size_of prefix + size_of replacement <=? MAX_CHAT_MESSAGE_LEN)%N
        then MkEditor (replace (text e) start (String.length prefix) replacement)
               (start + String.length replacement)
        else e in
      with_hint (if bool_decide (rest = []) then "" else glue ((fun c => c +:+ "  ") <$> candidates))
        (with_editor e' v)
  end.
