(* ===== verification/ScreenProperties.v ===== *)
(** What is drawn stays on the screen: a theorem about every page of [Screen.v] and
    [ChatScreen.v]. *)

From S2P Require Import Prelude Message Utils AppState Terminal TextProperties Screen ChatScreen.
Local Open Scope string_scope.
Local Open Scope Z_scope.

Section screen_properties.
Context `{l : Locale} `{!LocaleLaws l}.

(* ===================================================================== *)
(** * Fitted text *)

Lemma fit_loop_spec available gs shown :
  Forall stable gs -> Forall stable shown -> width_of shown <= available ->
  exists shown', fit_loop gs available (width_of shown) (texts shown) = texts shown' /\
    Forall stable shown' /\ width_of shown' <= available.
Proof.
  intros Hs. revert shown. induction Hs as [|g gs Hg Hgs IH]; intros shown Hshown Hw; cbn [fit_loop].
  - by exists shown.
  - destruct (Z.ltb_spec available (width_of shown + glyph_width g)); [by exists shown|].
    assert (width_of (shown ++ [g]) = width_of shown + glyph_width g) as Ew
      by (rewrite width_of_app; cbn; lia).
    rewrite <- Ew. replace (texts shown +:+ glyph_text g) with (texts (shown ++ [g])).
    + apply IH; [|lia]. apply list.Forall_app. split; [done|]. constructor; [done|constructor].
    + rewrite texts_app. cbn. by rewrite sapp_nil_r.
Qed.

(** Fitted text is no wider than asked for. *)
Lemma fit_text_width text width ellipsis : text_width (fit_text text width ellipsis) <= Z.max 0 width.
Proof.
  unfold fit_text. destruct (Z.leb_spec width 0); [cbn; lia|].
  set (shortened := ellipsis && _ && _). set (available := if shortened then width - 3 else width).
  assert (0 <= available) as Ha.
  { subst available. destruct shortened eqn:E; [|lia]. subst shortened.
    apply andb_true_iff in E as [_ E]. apply Z.leb_le in E. lia. }
  destruct (fit_loop_spec available (glyphs text) [] (glyphs_stable text) ltac:(constructor) Ha) as (gs & E & Hs & Hw).
  change (width_of []) with 0 in E. change (texts []) with "" in E. rewrite E.
  subst available. destruct shortened.
  - replace (texts gs +:+ "...") with (texts (gs ++ [MkGlyph "." 1; MkGlyph "." 1; MkGlyph "." 1]))
      by (rewrite texts_app; done).
    rewrite text_width_texts.
    + rewrite width_of_app. change (width_of [_; _; _]) with 3. lia.
    + apply list.Forall_app. split; [done|]. repeat constructor; by apply stable_ascii.
  - rewrite text_width_texts by done. lia.
Qed.

Lemma text_width_nonneg text : 0 <= text_width text.
Proof. apply width_of_nonneg, glyphs_stable. Qed.

(* ===================================================================== *)
(** * On the screen *)

(** A row of the screen, and cells of it before the last column. *)
Definition inside (sz : Size) (d : Draw) : Prop :=
  match d with
  | Put y x text _ => 0 <= y < LINES sz /\ 0 <= x /\ x + text_width text < COLS sz
  | HLine y x width => 0 <= y < LINES sz /\ 0 <= x /\ x + width < COLS sz
  | VLine y x height => 0 <= x < COLS sz /\ 0 <= y /\ y + height <= LINES sz
  | Move y x => 0 <= y < LINES sz /\ 0 <= x < COLS sz
  end.
Abbreviation fits sz := (Forall (inside sz)).

Lemma fits_put sz y x text width a : fits sz (put sz y x text width a).
Proof.
  unfold put. destruct (_ || _) eqn:E; [constructor|]. constructor; [|constructor].
  repeat match goal with H : (_ || _)%bool = false |- _ => apply orb_false_iff in H as [] end.
  pose proof (fit_text_width text (Z.min width (COLS sz - x - 1)) false). cbn. lia.
Qed.
Lemma fits_rule sz y x width : fits sz (rule sz y x width).
Proof.
  unfold rule. destruct (_ || _) eqn:E; [constructor|]. constructor; [|constructor].
  repeat match goal with H : (_ || _)%bool = false |- _ => apply orb_false_iff in H as [] end. cbn. lia.
Qed.
Lemma fits_app sz l1 l2 : fits sz l1 -> fits sz l2 -> fits sz (l1 ++ l2)%list.
Proof. intros. by apply list.Forall_app. Qed.
Lemma fits_if sz (b : bool) l1 l2 : fits sz l1 -> fits sz l2 -> fits sz (if b then l1 else l2).
Proof. by destruct b. Qed.
Lemma fits_concat {A} sz (f : A -> list Draw) (ls : list A) :
  (forall a, fits sz (f a)) -> fits sz (concat (f <$> ls)).
Proof. intros Hf. induction ls as [|a ls IH]; [constructor|]. cbn. by apply fits_app. Qed.
Lemma fits_imap {A} sz (f : nat -> A -> list Draw) (ls : list A) :
  (forall n a, fits sz (f n a)) -> fits sz (concat (imap f ls)).
Proof.
  revert f. induction ls as [|a ls IH]; intros f Hf; [constructor|]. cbn. apply fits_app; [apply Hf|].
  apply IH. intros n b. apply Hf.
Qed.
Lemma fits_nil sz : fits sz [].
Proof. constructor. Qed.

Create HintDb screen.
#[local] Hint Resolve fits_put fits_rule fits_nil : screen.
Ltac fits_tac :=
  repeat match goal with
  | |- _ => solve [auto with screen nocore]
  | |- Forall _ (_ ++ _)%list => apply fits_app
  | |- Forall _ (if _ then _ else _) => apply fits_if
  | |- Forall _ (concat (imap _ _)) => apply fits_imap; intros
  | |- Forall _ (concat (_ <$> _)) => apply fits_concat; intros
  end.

Lemma fits_too_small sz : fits sz (too_small sz).
Proof. unfold too_small. fits_tac. Qed.
Lemma fits_page sz title subtitle footer : fits sz (page sz title subtitle footer).
Proof. unfold page. fits_tac. Qed.
#[local] Hint Resolve fits_too_small fits_page : screen.

Lemma large sz : small sz = false -> 12 <= LINES sz /\ 40 <= COLS sz.
Proof. unfold small. intros [E1 E2]%negb_false_iff%andb_true_iff. lia. Qed.

Lemma fits_editor sz e y x width secret :
  small sz = false -> 0 <= y < LINES sz -> 0 <= x -> fits sz (draw_editor sz e y x width secret).
Proof.
  intros Hl%large Hy Hx. unfold draw_editor. apply fits_app; [auto with screen nocore|].
  constructor; [|constructor]. cbn.
  match goal with |- context [text_width ?t] => pose proof (text_width_nonneg t) end. lia.
Qed.

Lemma fits_menu sz title subtitle items selected : fits sz (draw_menu sz title subtitle items selected).
Proof. unfold draw_menu. fits_tac. Qed.
Lemma fits_notice sz title detail wait offset : fits sz (draw_notice sz title detail wait offset).
Proof. unfold draw_notice. fits_tac. Qed.

Lemma field_row_inside sz n :
  small sz = false -> (n < form_slots sz)%nat -> 0 <= field_row sz n + 1 < LINES sz - 3.
Proof.
  intros Hl%large Hn. unfold field_row, form_slots in *. destruct (Z.ltb_spec (LINES sz) 15); [lia|].
  assert (Z.quot (LINES sz - 11) 3 * 3 <= LINES sz - 11) by (rewrite Z.mul_comm; apply Z.mul_quot_le; lia).
  assert (1 <= Z.quot (LINES sz - 11) 3) by (apply Z.quot_le_lower_bound; lia). lia.
Qed.
Lemma form_page sz selected : (selected - form_first sz selected < form_slots sz)%nat.
Proof.
  unfold form_first. assert (form_slots sz <> 0)%nat as Hs by (unfold form_slots; lia).
  pose proof (Nat.div_mod selected (form_slots sz) Hs). pose proof (Nat.mod_upper_bound selected _ Hs). lia.
Qed.
Lemma fits_form sz title subtitle fields selected e error :
  fits sz (draw_form sz title subtitle fields selected e error).
Proof.
  unfold draw_form. destruct (small sz) eqn:Hs; [auto with screen nocore|].
  pose proof (field_row_inside sz _ Hs (form_page sz selected)).
  fits_tac. apply fits_editor; [done|lia|lia].
Qed.

Lemma fits_users sz nick users y : fits sz (draw_users sz nick users y).
Proof.
  revert y. induction users as [|user users IH]; intros y; cbn [draw_users]; fits_tac; apply IH.
Qed.
Lemma fits_sidebar sz s v : small sz = false -> sidebar sz = true -> fits sz (draw_sidebar sz s v).
Proof.
  intros Hl%large Hb. pose proof Hb as Hc. unfold sidebar in Hc. unfold draw_sidebar.
  constructor; [cbn; unfold side_width; rewrite Hb; lia|]. fits_tac. apply fits_users.
Qed.
Lemma fits_line sz s row ln : fits sz (draw_line sz s row ln).
Proof. unfold draw_line. fits_tac. destruct (String.index 0 _ _); [|constructor]. destruct (String.index _ _ _); fits_tac. Qed.
Lemma fits_panel sz content : fits sz (draw_panel sz content).
Proof. unfold draw_panel. fits_tac. Qed.
#[local] Hint Resolve fits_users fits_line fits_panel : screen.
Lemma fits_chat sz s v : fits sz (draw_chat sz s v).
Proof.
  unfold draw_chat. destruct (small sz) eqn:Hs; [auto with screen nocore|]. pose proof (large sz Hs).
  assert (fits sz (if sidebar sz then draw_sidebar sz s v else []))
    by (destruct (sidebar sz) eqn:Hb; [by apply fits_sidebar|constructor]).
  assert (fits sz (draw_editor sz (editor v) (LINES sz - 3) 5 (COLS sz - 8) false)) by (apply fits_editor; [done|lia|lia]).
  fits_tac.
Qed.

(* ===================================================================== *)
(** * What is selected is drawn *)

Lemma elem_of_imap {A} (f : nat -> A -> list Draw) (ls : list A) n a d :
  ls !! n = Some a -> d ∈ f n a -> d ∈ concat (imap f ls).
Proof.
  revert f n. induction ls as [|b ls IH]; intros f n Hn Hd; [done|]. cbn. apply elem_of_app.
  destruct n as [|n]; cbn in Hn; [injection Hn as ->; by left|right]. by apply (IH (f ∘ Datatypes.S) n).
Qed.
Lemma shown_page {A} (items : list A) first slots i a :
  (first <= i < first + slots)%nat -> items !! i = Some a -> take slots (drop first items) !! (i - first)%nat = Some a.
Proof. intros Hi Ha. rewrite lookup_take_lt, lookup_drop by lia. rewrite <- Ha. f_equal. lia. Qed.
Lemma put_drawn sz y x text width a :
  0 <= y < LINES sz -> 0 <= x -> x + width < COLS sz ->
  0 <= width -> Put y x (fit_text text width false) a ∈ put sz y x text width a.
Proof.
  intros Hy Hx Hw H0. unfold put. replace (_ || _)%bool with false.
  - rewrite Z.min_l by lia. by left.
  - symmetry. rewrite !orb_false_iff. lia.
Qed.

Lemma page_spec i slots : 0 < slots -> 0 <= i -> Z.quot i slots * slots <= i < Z.quot i slots * slots + slots.
Proof.
  intros Hs Hi. pose proof (Z.quot_rem' i slots). pose proof (Z.rem_bound_pos i slots Hi Hs). lia.
Qed.
Lemma menu_slots_rows sz n :
  small sz = false -> 0 <= n < menu_slots sz ->
  (if 20 <=? LINES sz then 8 else 7) + n * (if 20 <=? LINES sz then 3 else 1) < LINES sz.
Proof.
  intros Hl%large. unfold menu_slots. destruct (Z.leb_spec 20 (LINES sz)).
  - assert (3 * Z.quot (LINES sz - 8 - 3) 3 <= LINES sz - 8 - 3) by (apply Z.mul_quot_le; lia). lia.
  - rewrite Z.quot_1_r. lia.
Qed.

(** The item a menu has selected is on the page that is drawn. *)
Lemma selected_item_drawn sz title subtitle items i item :
  small sz = false -> items !! i = Some item ->
  exists y, Put y 3 (fit_text (menu_label sz true item) (COLS sz - 6) false) (with_bold (style Selected))
            ∈ draw_menu sz title subtitle items (Z.of_nat i).
Proof.
  intros Hs Hi. pose proof (large sz Hs). unfold draw_menu. rewrite Hs.
  assert (0 < menu_slots sz) as Hslots by (unfold menu_slots; lia).
  pose proof (page_spec (Z.of_nat i) (menu_slots sz) Hslots ltac:(lia)) as Hp.
  fold (menu_first sz (Z.of_nat i)) in Hp.
  assert (0 <= menu_first sz (Z.of_nat i)) by (unfold menu_first; apply Z.mul_nonneg_nonneg; [apply Z.quot_pos|]; lia).
  set (first := menu_first sz (Z.of_nat i)) in *. set (n := (i - Z.to_nat first)%nat).
  exists ((if 20 <=? LINES sz then 8 else 7) + Z.of_nat n * (if 20 <=? LINES sz then 3 else 1)).
  apply elem_of_app. right. eapply (elem_of_imap _ _ n).
  - apply shown_page; [lia|exact Hi].
  - apply elem_of_app. left. replace (first + Z.of_nat n) with (Z.of_nat i) by lia. rewrite Z.eqb_refl.
    pose proof (menu_slots_rows sz (Z.of_nat n) Hs ltac:(lia)).
    apply put_drawn; [destruct (20 <=? LINES sz); lia|lia|lia|lia].
Qed.

(** The active room, when the server has listed it, is one of those the sidebar shows. *)
Lemma active_index_spec s i r :
  snap_rooms s !! i = Some r -> summary_id r = snap_active_room_id s ->
  exists r', snap_rooms s !! active_index s = Some r' /\ summary_id r' = snap_active_room_id s.
Proof.
  unfold active_index. set (rooms := snap_rooms s). generalize 0%nat as d. revert i r.
  induction rooms as [|r0 rooms IH] using rev_ind; intros i r d Hi Hr; [done|].
  rewrite imap_app, foldl_app. cbn. rewrite Nat.add_0_r. destruct (N.eqb_spec (summary_id r0) (snap_active_room_id s)).
  - exists r0. split; [|done]. rewrite lookup_app_r, Nat.sub_diag by lia. done.
  - assert (rooms !! i = Some r) as Hi'.
    { apply lookup_app_Some in Hi as [|[_ Hi]]; [done|]. apply list_lookup_singleton_Some in Hi as [_ <-]. done. }
    destruct (IH i r d Hi' Hr) as (r' & Hl & Hid). exists r'. split; [|done].
    rewrite lookup_app_l; [exact Hl|]. by eapply lookup_lt_Some.
Qed.

Lemma active_room_drawn sz s v i r :
  small sz = false -> sidebar sz = true ->
  snap_rooms s !! i = Some r -> summary_id r = snap_active_room_id s ->
  exists y r', r' ∈ snap_rooms s /\ summary_id r' = snap_active_room_id s /\
    Put y 3 (fit_text (room_label true r') 20 false) (with_bold (style Selected)) ∈ draw_chat sz s v.
Proof.
  intros Hs Hb Hi Hr. pose proof (large sz Hs). pose proof Hb as Hc. unfold sidebar in Hc.
  destruct (active_index_spec s i r Hi Hr) as (r' & Hl & Hid).
  set (n := (active_index s - first_room sz s)%nat).
  exists (5 + Z.of_nat n), r'. split; [by eapply list_elem_of_lookup_2|]. split; [done|].
  unfold draw_chat. rewrite Hs, Hb. do 5 (apply elem_of_app; right). apply elem_of_app. left.
  unfold draw_sidebar. right. apply elem_of_app. right. apply elem_of_app. left.
  assert (0 < room_slots sz)%nat by (unfold room_slots; lia).
  assert (first_room sz s <= active_index s < first_room sz s + room_slots sz)%nat as Hp.
  { unfold first_room. destruct (Nat.leb_spec (room_slots sz) (active_index s)); lia. }
  eapply (elem_of_imap _ _ n); [by apply shown_page|]. rewrite Hid, N.eqb_refl.
  apply put_drawn; [|lia|lia|lia].
  assert (2 * Z.quot (LINES sz - 12) 2 <= LINES sz - 12) by (apply Z.mul_quot_le; lia).
  unfold room_slots in Hp. lia.
Qed.

(** The interface draws on the screen, and draws what matters. On a terminal of any
    size, everything the menus, forms, notices and the chat window put, rule or move to
    lies on a row of the screen and before its last column; and on a screen that is
    large enough for a menu its selected item is drawn as selected, as is, on one that
    has room for the sidebar, the active room. *)
Theorem drawn_inside sz :
  (forall title subtitle items i, Forall (inside sz) (draw_menu sz title subtitle items i)) /\
  (forall title subtitle fields i e error, Forall (inside sz) (draw_form sz title subtitle fields i e error)) /\
  (forall title detail wait offset, Forall (inside sz) (draw_notice sz title detail wait offset)) /\
  (forall s v, Forall (inside sz) (draw_chat sz s v)) /\
  (small sz = false ->
     (forall title subtitle items i item, items !! i = Some item ->
        exists y, Put y 3 (fit_text (menu_label sz true item) (COLS sz - 6) false) (with_bold (style Selected))
                  ∈ draw_menu sz title subtitle items (Z.of_nat i)) /\
     (forall s v i r, sidebar sz = true -> snap_rooms s !! i = Some r -> summary_id r = snap_active_room_id s ->
        exists y r', r' ∈ snap_rooms s /\ summary_id r' = snap_active_room_id s /\
          Put y 3 (fit_text (room_label true r') 20 false) (with_bold (style Selected)) ∈ draw_chat sz s v)).
Proof.
  split; [intros; apply fits_menu|]. split; [intros; apply fits_form|]. split; [intros; apply fits_notice|].
  split; [intros; apply fits_chat|]. intros Hs. split; intros.
  - by eapply selected_item_drawn.
  - by eapply active_room_drawn.
Qed.
End screen_properties.
