(* ===== verification/CompletionProperties.v ===== *)
(** What Tab does to the line: the theorem about [complete] of [ChatScreen.v]. *)

From S2P Require Import Prelude Message Utils AppState Terminal TerminalProperties TextProperties ChatScreen.
Local Open Scope string_scope.

(* ===================================================================== *)
(** * Prefixes *)

Abbreviation starts c p := (String.prefix p c = true).

Lemma prefix_spec p s : starts s p <-> exists r, s = p +:+ r.
Proof.
  revert s. induction p as [|a p IH]; intros s.
  - split; [intros _; by exists s|by destruct s].
  - destruct s as [|b s]; [split; [done|intros [r Hr]; done]|]. cbn [String.prefix].
    destruct (ascii_dec a b) as [->|Hne].
    + rewrite IH. split; intros [r Hr]; exists r; [by rewrite Hr|]. rewrite sapp_cons in Hr. by injection Hr.
    + split; [done|]. intros [r Hr]. rewrite sapp_cons in Hr. injection Hr as Hab _. by destruct Hne.
Qed.
Lemma prefix_refl s : starts s s.
Proof. apply prefix_spec. exists "". by rewrite sapp_nil_r. Qed.
Lemma prefix_nil s : starts s "".
Proof. by destruct s. Qed.
Lemma prefix_trans p q s : starts q p -> starts s q -> starts s p.
Proof. rewrite !prefix_spec. intros [r ->] [t ->]. exists (r +:+ t). by rewrite sapp_assoc. Qed.
Lemma prefix_length p s : starts s p -> (String.length p <= String.length s)%nat.
Proof. rewrite prefix_spec. intros [r ->]. rewrite slength_app. lia. Qed.
Lemma prefix_stake p s : starts s p -> p = stake (String.length p) s.
Proof. rewrite prefix_spec. intros [r ->]. by rewrite stake_app. Qed.
Lemma stake_prefix n s : starts s (stake n s).
Proof. apply prefix_spec. exists (sdrop n s). by rewrite stake_sdrop. Qed.
Lemma stake_stake n m s : (n <= m)%nat -> stake n (stake m s) = stake n s.
Proof.
  revert m s. induction n as [|n IH]; intros m s Hnm; [by destruct (stake m s)|].
  destruct m as [|m]; [lia|]. destruct s as [|a s]; [done|]. cbn. by rewrite IH by lia.
Qed.
(** Of two prefixes of a string the shorter is a prefix of the longer. *)
Lemma prefix_le p q s : starts s p -> starts s q -> (String.length p <= String.length q)%nat -> starts q p.
Proof.
  intros Hp%prefix_stake Hq%prefix_stake Hl. rewrite Hp, Hq.
  rewrite <- (stake_stake _ (String.length q) s) by done. apply stake_prefix.
Qed.
(** A proper prefix is one of the string without its last byte. *)
Lemma prefix_proper p s : starts s p -> p <> s -> starts (stake (String.length s - 1) s) p.
Proof.
  intros Hp Hne. apply (prefix_le _ _ s); [done|apply stake_prefix|].
  rewrite stake_length by lia. pose proof (prefix_length p s Hp).
  destruct (decide (String.length p = String.length s)) as [Hl|Hl]; [|lia].
  destruct Hne. rewrite (prefix_stake _ _ Hp), Hl. rewrite <- (sapp_nil_r s) at 2. by rewrite stake_app.
Qed.

(* ===================================================================== *)
(** * The common prefix *)

Lemma shorten_spec fuel candidate common :
  (String.length common <= fuel)%nat ->
  let r := shorten fuel candidate common in
  starts candidate r /\ starts common r /\ (forall p, starts common p -> starts candidate p -> starts r p).
Proof.
  revert common. induction fuel as [|fuel IH]; intros common Hf; cbn [shorten].
  - destruct common; [|cbn in Hf; lia]. rewrite prefix_nil. auto using prefix_nil.
  - destruct (String.prefix common candidate) eqn:E; [by auto using prefix_refl|].
    destruct (IH (stake (String.length common - 1) common)) as (H1 & H2 & H3).
    { rewrite stake_length by lia. lia. }
    split; [done|]. split; [by eapply prefix_trans, stake_prefix|].
    intros p Hp Hc. apply H3; [|done]. apply prefix_proper; [done|]. intros ->. congruence.
Qed.

Lemma common_prefix_spec cs : forall front,
  let r := common_prefix front cs in
  starts front r /\ Forall (fun c => starts c r) cs /\
  (forall p, starts front p -> Forall (fun c => starts c p) cs -> starts r p).
Proof.
  unfold common_prefix. induction cs as [|c cs IH]; intros front; cbn [foldl].
  - split; [apply prefix_refl|]. split; [constructor|done].
  - destruct (shorten_spec (String.length front) c front (Nat.le_refl _)) as (H1 & H2 & H3).
    destruct (IH (shorten (String.length front) c front)) as (H4 & H5 & H6).
    split; [by eapply prefix_trans|]. split; [constructor; [by eapply prefix_trans|done]|].
    intros p Hp Hcs. apply list.Forall_cons in Hcs as [Hc Hcs]. apply H6; [by apply H3|done].
Qed.

(** A character of [s] begins at byte [n], or [s] ends before it. *)
Definition boundary (s : string) (n : nat) : Prop :=
  match String.get n s with Some c => is_continuation c = false | None => True end.

Lemma whole_chars_spec fuel front common :
  (String.length common <= fuel)%nat ->
  let r := whole_chars fuel front common in
  starts common r /\ (r = "" \/ boundary front (String.length r)) /\
  (forall p, starts common p -> boundary front (String.length p) -> starts r p).
Proof.
  revert common. induction fuel as [|fuel IH]; intros common Hf; cbn [whole_chars].
  - destruct common; [|cbn in Hf; lia]. auto using prefix_refl.
  - destruct (sempty common) eqn:Ee; cbn [negb andb].
    { apply sempty_spec in Ee as ->. auto using prefix_refl. }
    unfold boundary in *. destruct (String.get (String.length common) front) as [a|] eqn:Eg.
    2:{ split; [apply prefix_refl|]. rewrite Eg. auto. }
    destruct (is_continuation a) eqn:Ea.
    2:{ split; [apply prefix_refl|]. rewrite Eg. auto. }
    destruct (IH (stake (String.length common - 1) common)) as (H1 & H2 & H3).
    { rewrite stake_length by lia. lia. }
    split; [by eapply prefix_trans, stake_prefix|]. split; [done|].
    intros p Hp Hb. apply H3; [|done]. apply prefix_proper; [done|]. intros ->. rewrite Eg in Hb. congruence.
Qed.

(* ===================================================================== *)
(** * Completion *)

(** The word before the cursor. *)
Definition typed_word (e : LineEditor) : string := substr_n (text e) (word_start e) (cursor e - word_start e).

Lemma candidates_start s v : Forall (fun c => starts c (typed_word (editor v))) (candidates_of s v).
Proof.
  apply list.Forall_forall. intros c Hc. unfold candidates_of in Hc. cbv zeta in Hc.
  rewrite sort_strings_perm in Hc. by apply list_elem_of_filter in Hc as [Hc _].
Qed.

Lemma word_start_cursor e : (cursor e <= String.length (text e))%nat -> (word_start e <= cursor e)%nat.
Proof.
  intros Hc. unfold word_start. destruct (srfind " " (stake (cursor e) (text e))) as [i|] eqn:E; [|lia].
  assert (i < String.length (stake (cursor e) (text e)))%nat as Hi.
  { revert i E. generalize (stake (cursor e) (text e)). intros t. induction t as [|a t IH]; intros i; [done|].
    cbn [srfind String.length]. destruct (srfind " " t) as [j|]; [intros [= <-]; specialize (IH j eq_refl); lia|].
    destruct (Ascii.eqb a " "); [|done]. intros [= <-]. lia. }
  rewrite stake_length in Hi by done. lia.
Qed.

Lemma replace_word e value :
  (cursor e <= String.length (text e))%nat ->
  replace (text e) (word_start e) (String.length (typed_word e)) value =
  stake (word_start e) (text e) +:+ value +:+ sdrop (cursor e) (text e).
Proof.
  intros Hc. pose proof (word_start_cursor e Hc). unfold replace, typed_word, substr_n.
  rewrite stake_length by (rewrite sdrop_length; lia). by replace (_ + (_ - _))%nat with (cursor e) by lia.
Qed.

(** Tab completes. The candidates all begin with the word before the cursor. When
    there are any, the word becomes the longest text of whole characters that all of
    them begin with, followed by a space when there is one only, and the cursor stands
    after it; what stands before the word and behind the cursor stays. The line is left
    as it is when there is no candidate, or when it would become longer than a message
    may be; so it never grows beyond that. *)
Theorem completion_spec s v :
  let e := editor v in
  let e' := editor (complete s v) in
  let cs := candidates_of s v in
  (cursor e <= String.length (text e))%nat ->
  Forall (fun c => starts c (typed_word e)) cs /\
  match cs with
  | [] => e' = e
  | front :: rest =>
      exists common,
        Forall (fun c => starts c common) cs /\
        (common = "" \/ boundary front (String.length common)) /\
        (forall p, Forall (fun c => starts c p) cs -> boundary front (String.length p) -> starts common p) /\
        let replacement := common +:+ (if bool_decide (rest = []) then " " else "") in
        let line := stake (word_start e) (text e) +:+ replacement +:+ sdrop (cursor e) (text e) in
        e' = (if (size_of line <=? MAX_CHAT_MESSAGE_LEN)%N
              then MkEditor line (word_start e + String.length replacement) else e)
  end /\
  (size_of (text e') <= N.max (size_of (text e)) MAX_CHAT_MESSAGE_LEN)%N.
Proof.
  cbv zeta. intros Hc. split; [apply candidates_start|]. unfold complete. cbv zeta.
  destruct (candidates_of s v) as [|front rest] eqn:E; [split; [done|cbn; lia]|].
  fold (typed_word (editor v)).
  destruct (common_prefix_spec (front :: rest) front) as (H1 & H2 & H3).
  set (common0 := common_prefix front (front :: rest)) in *.
  destruct (whole_chars_spec (String.length common0) front common0 (Nat.le_refl _)) as (H4 & H5 & H6).
  set (common := whole_chars (String.length common0) front common0) in *.
  rewrite replace_word by done.
  set (replacement := common +:+ _). set (e := editor v) in *.
  assert (size_of (text e) - size_of (typed_word e) + size_of replacement =
    size_of (stake (word_start e) (text e) +:+ replacement +:+ sdrop (cursor e) (text e)))%N as Hsize.
  { pose proof (word_start_cursor e Hc). unfold size_of, typed_word, substr_n.
    rewrite !slength_app, !stake_length, !sdrop_length by (rewrite ?sdrop_length; lia). lia. }
  rewrite Hsize. cbn [with_hint with_editor editor]. set (line := _ +:+ replacement +:+ _) in *.
  split; [|destruct (N.leb_spec (size_of line) MAX_CHAT_MESSAGE_LEN); cbn [text]; lia].
  exists common. split; [|split; [exact H5|split; [|done]]].
  - eapply list.Forall_impl; [exact H2|]. intros c Hcc. by eapply prefix_trans.
  - intros p Hp Hb. apply H6; [|done]. apply H3; [by apply list.Forall_cons in Hp as [? _]|done].
Qed.
