(* ===== verification/Interface.v ===== *)
(** The keyboard of [ui/curses_ui.cpp]: notices, menus, forms and the loop of the chat
    window, as what each key does to their state. A key comes with the size of the
    screen once it was read; what is drawn of a state is in [Screen.v] and
    [ChatScreen.v]. *)

From S2P Require Import Prelude DisplayText Message Utils AppState Terminal ChatClient StorageApi World ChatServer.
From S2P Require Import Login Commands Screen ChatScreen.
Local Open Scope string_scope.

(** What [getch] returns: a byte, a function key, or [ERR] when the time is over. *)
Inductive Key :=
| Byte (c : ascii)
| KEY_LEFT | KEY_RIGHT | KEY_UP | KEY_DOWN | KEY_HOME | KEY_END | KEY_NPAGE | KEY_PPAGE
| KEY_BACKSPACE | KEY_DC | KEY_BTAB | KEY_ENTER | KEY_F (n : nat) | KEY_RESIZE | ERR | OtherKey.
#[export] Instance Key_eq_dec : EqDecision Key.
Proof. solve_decision. Defined.

Definition is_byte (n : N) (k : Key) : bool := match k with Byte c => (code c =? n)%N | _ => false end.
Definition is_escape (k : Key) : bool := is_byte 27 k.
Definition is_enter (k : Key) : bool := is_byte 10 k || is_byte 13 k || bool_decide (k = KEY_ENTER).

Record Input := MkInput { key : Key; after : Size }.

(** Bytes of the text come one by one. *)
Definition edit_key (e : LineEditor) (k : Key) (limit : N) : LineEditor :=
  match k with
  | KEY_LEFT => left e
  | KEY_RIGHT => right e
  | KEY_HOME => MkEditor (text e) 0
  | KEY_END => MkEditor (text e) (String.length (text e))
  | KEY_BACKSPACE => backspace e
  | KEY_DC => erase_forward e
  | Byte c =>
      if (code c =? 1)%N then MkEditor (text e) 0
      else if (code c =? 5)%N then MkEditor (text e) (String.length (text e))
      else if (code c =? 127)%N || (code c =? 8)%N then backspace e
      else if (code c =? 4)%N then erase_forward e
      else if (code c =? 23)%N then erase_word e
      else if (code c =? 21)%N then MkEditor (sdrop (cursor e) (text e)) 0
      else if (code c =? 11)%N then MkEditor (stake (cursor e) (text e)) (cursor e)
      else if (32 <=? code c)%N then (insert (String c "") limit e).2
      else e
  | _ => e
  end.

Section keyboard.
Context `{Locale}.

(* ===================================================================== *)
(** * Notices *)

(** One key of [show_curses_notice]: the new offset, or [None] when it returns. *)
Definition notice_key (sz : Size) (detail : string) (offset : Z) (k : Key) : option Z :=
  let last := max_offset sz detail in
  let offset := if small sz then offset else clamp offset 0 last in
  let offset := if bool_decide (k = KEY_DOWN) || bool_decide (k = KEY_NPAGE)
                then Z.min last (offset + 1) else offset in
  let offset := if bool_decide (k = KEY_UP) || bool_decide (k = KEY_PPAGE)
                then Z.max 0 (offset - 1) else offset in
  if is_enter k || is_escape k then None else Some offset.

(* ===================================================================== *)
(** * Menus *)

(** [reading] is the offset of the notice that F4 shows over the menu. *)
Record Menu := MkMenu { selected : nat; reading : option Z; menu_size : Size }.

Fixpoint find_shortcut (c : ascii) (items : list CursesMenuItem) (i : nat) : option nat :=
  match items with
  | [] => None
  | item :: rest =>
      if bool_decide (shortcut item = Some (tolower c)) then Some i else find_shortcut c rest (Datatypes.S i)
  end.

Definition menu_detail (subtitle : string) (items : list CursesMenuItem) (i : nat) : string :=
  let newline := String newline "" in
  subtitle +:+ newline +:+ newline +:+
  match items !! i with
  | Some item => item_title item +:+ newline +:+ description item
  | None => ""
  end.

(** One key of [choose_curses_menu]: the menu goes on, or returns. *)
Definition menu_key (subtitle : string) (items : list CursesMenuItem) (m : Menu) (inp : Input) : Menu + Z :=
  let n := length items in
  let k := key inp in
  let goes_on i := inl (MkMenu i None (after inp)) in
  match reading m with
  | Some offset =>
      inl (MkMenu (selected m)
             (notice_key (menu_size m) (menu_detail subtitle items (selected m)) offset k) (after inp))
  | None =>
      if bool_decide (k = KEY_F 4) then inl (MkMenu (selected m) (Some 0%Z) (after inp))
      else if is_escape k then inr (-1)%Z
      else if small (after inp) then goes_on (selected m)
      else if bool_decide (k = KEY_UP) then goes_on ((selected m + n - 1) mod n)%nat
      else if bool_decide (k = KEY_DOWN) || is_byte 9 k then goes_on ((selected m + 1) mod n)%nat
      else if bool_decide (k = KEY_HOME) then goes_on 0
      else if bool_decide (k = KEY_END) then goes_on (n - 1)
      else if is_enter k then inr (Z.of_nat (selected m))
      else match k with
      | Byte c =>
          match find_shortcut c items 0 with
          | Some i => inr (Z.of_nat i)
          | None => goes_on (selected m)
          end
      | _ => goes_on (selected m)
      end
  end.

(** The loop: what it returns and the keys that are left, or [None] while it waits. *)
Fixpoint menu_loop (subtitle : string) (items : list CursesMenuItem) (m : Menu) (inputs : list Input) :
    option (Z * list Input) :=
  match inputs with
  | [] => None
  | inp :: rest =>
      match menu_key subtitle items m inp with
      | inl m => menu_loop subtitle items m rest
      | inr choice => Some (choice, rest)
      end
  end.
Definition choose_curses_menu (sz : Size) (subtitle : string) (items : list CursesMenuItem)
    (inputs : list Input) : option (Z * list Input) :=
  match items with
  | [] => Some ((-1)%Z, inputs)
  | _ => menu_loop subtitle items (MkMenu 0 None sz) inputs
  end.

(* ===================================================================== *)
(** * Forms *)

Record Form := MkForm {
  fields : list CursesField;
  field : nat;
  form_editor : LineEditor;
  error : string;
  form_reading : option Z;
  form_size : Size;
}.

(** [validate], when there is one. *)
Definition complaint (f : CursesField) (v : string) : string :=
  match validate f with Some check => check v | None => "" end.

(** The loop over all fields: the first that is not valid. *)
Fixpoint first_complaint (fs : list CursesField) (i : nat) : option (nat * string) :=
  match fs with
  | [] => None
  | f :: rest =>
      let e := complaint f (value f) in
      if sempty e then first_complaint rest (Datatypes.S i) else Some (i, e)
  end.

Definition value_at (fs : list CursesField) (i : nat) : string :=
  match fs !! i with Some f => value f | None => "" end.

(** [fields[selected].value = editor.text], at the head of the loop. *)
Definition store (f : Form) : Form :=
  MkForm (alter (with_value (text (form_editor f))) (field f) (fields f)) (field f) (form_editor f) (error f)
    (form_reading f) (form_size f).

Inductive FormStep := Goes (f : Form) | Submitted (fs : list CursesField) | CursesFormCancelled.

Definition toggle_key (e : LineEditor) (k : Key) : LineEditor :=
  if bool_decide (k = KEY_LEFT) || bool_decide (k = KEY_RIGHT) || is_byte 32 k
  then set_editor (if String.eqb (text e) "yes" then "no" else "yes")
  else if is_byte 121 k || is_byte 89 k then set_editor "yes"
  else if is_byte 110 k || is_byte 78 k then set_editor "no"
  else e.

(** One key of [edit_curses_form]. *)
Definition form_key (subtitle : string) (f : Form) (inp : Input) : FormStep :=
  let f := store f in
  let k := key inp in
  let n := length (fields f) in
  let sz := after inp in
  match fields f !! field f with
  | None => Goes f   (* not reached: a field is selected *)
  | Some current =>
      let newline := String newline "" in
      match form_reading f with
      | Some offset =>
          Goes (MkForm (fields f) (field f) (form_editor f) (error f)
                  (notice_key (form_size f) (subtitle +:+ newline +:+ newline +:+ label current) offset k) sz)
      | None =>
          if bool_decide (k = KEY_F 4) then
            Goes (MkForm (fields f) (field f) (form_editor f) (error f) (Some 0%Z) sz)
          else if is_escape k then CursesFormCancelled
          else if small sz then Goes (MkForm (fields f) (field f) (form_editor f) (error f) None sz)
          else
            let submit := is_enter k in
            let back := bool_decide (k = KEY_BTAB) || bool_decide (k = KEY_UP) in
            let next := is_byte 9 k || bool_decide (k = KEY_DOWN) || submit in
            let move i e := Goes (MkForm (fields f) i (set_editor (value_at (fields f) i)) e None sz) in
            if back || next then
              let e := if submit then complaint current (text (form_editor f)) else "" in
              if negb (sempty e) then Goes (MkForm (fields f) (field f) (form_editor f) e None sz)
              else if submit && (field f =? n - 1)%nat then
                match first_complaint (fields f) 0 with
                | Some (i, e) => move i e
                | None => Submitted (fields f)
                end
              else move (if back then (field f + n - 1) mod n else (field f + 1) mod n)%nat ""
            else if toggle current then
              Goes (MkForm (fields f) (field f) (toggle_key (form_editor f) k) (error f) None sz)
            else
              Goes (MkForm (fields f) (field f) (edit_key (form_editor f) k (limit current))
                      (if bool_decide (k = ERR) || bool_decide (k = KEY_RESIZE) then error f else "") None sz)
      end
  end.

(** The loop: [Some None] when the form is cancelled. *)
Fixpoint form_loop (subtitle : string) (f : Form) (inputs : list Input) :
    option (option (list CursesField) * list Input) :=
  match inputs with
  | [] => None
  | inp :: rest =>
      match form_key subtitle f inp with
      | Goes f => form_loop subtitle f rest
      | Submitted fs => Some (Some fs, rest)
      | CursesFormCancelled => Some (None, rest)
      end
  end.
Definition edit_curses_form (sz : Size) (subtitle : string) (fs : list CursesField) (inputs : list Input) :
    option (option (list CursesField) * list Input) :=
  match fs with
  | [] => Some (Some [], inputs)
  | f :: _ => form_loop subtitle (MkForm fs 0 (set_editor (value f)) "" None sz) inputs
  end.

Definition prompt_curses_password (sz : Size) (prompt : string) (inputs : list Input) :
    option (option string * list Input) :=
  match edit_curses_form sz ui_text.password_required
          [MkField prompt "" PASS_MAX_LEN true false None] inputs with
  | Some (Some fs, rest) => Some (Some (value_at fs 0), rest)
  | Some (None, rest) => Some (None, rest)
  | None => None
  end.
Definition prompt_curses_yes_no (sz : Size) (prompt : string) (default_yes : bool) (inputs : list Input) :
    option (option bool * list Input) :=
  match edit_curses_form sz ""
          [MkField prompt (if default_yes then "yes" else "no") 3 false true None] inputs with
  | Some (Some fs, rest) => Some (Some (String.eqb (value_at fs 0) "yes"), rest)
  | Some (None, rest) => Some (None, rest)
  | None => None
  end.
End keyboard.

(* ===================================================================== *)
(** * The chat window *)

Section chat_loop.
Context {S : Type} `{ServerStorage S} `{Sodium} `{Platform} `{Locale}.
Abbreviation P := (Process (S:=S)).

(** What covers the window: nothing, the details of the connection, the menu of the
    rooms, or the notice that the session is over. *)
Inductive Cover :=
| Window
| Details (offset : Z)
| RoomMenu (rooms : list RoomSummary) (m : Menu)
| Ended (reason : string) (offset : Z).

(** The loop of [run_curses_chat_loop]: the view, the process whose server or client
    it talks to, and the size the window was drawn with. *)
Record Chat := MkChat {
  view : ChatView;
  process : P;
  cover : Cover;
  chat_size : Size;
}.
Inductive ChatExit := Left | Disconnected.

Definition snapshot (p : P) : ChatStateSnapshot := chat_state_snapshot (screen p).
(** The head of the loop, after which a key is read: the window is drawn, and a guest
    whose session is over learns why. *)
Definition head (c : Chat) : Chat + ChatExit * Chat :=
  let drawn := refresh_view (chat_size c) (snapshot (process c)) (view c) in
  match guest (process c) with
  | Some cw =>
      if negb (connected_ (client cw)) || was_kicked (screen (process c)) then
        if was_kicked (screen (process c))
        then inl (MkChat drawn (process c) (Ended (kick_reason_ (client cw)) 0) (chat_size c))
        else inr (Disconnected,
                  MkChat drawn (say ("[system] Connection ended: " +:+ disconnect_reason_ (client cw)) (process c)).2
                    Window (chat_size c))
      else inl (MkChat drawn (process c) Window (chat_size c))
  | None => inl (MkChat drawn (process c) Window (chat_size c))
  end.

Definition room_items (rooms : list RoomSummary) : list CursesMenuItem :=
  (fun r => MkItem None ("# " +:+ summary_name r) (to_string (summary_user_count r) +:+ " people")) <$> rooms.

(** A key of the window, when nothing covers it. *)
Definition window_key (context : ChatInputContext) (k : Key) (sz : Size) (c : Chat) : Chat + ChatExit * Chat :=
  let v := view c in
  let next v := inl (MkChat v (process c) Window sz) in
  let scrolled delta := with_scroll (move_by (lines v) (height v) delta (scroll v)) v in
  let page := Z.max 1 (height v - 1) in
  match k with
  | KEY_F 3 => inl (MkChat v (process c) (Details 0) sz)
  | KEY_F 2 =>
      let rooms := snap_rooms (snapshot (process c)) in
      inl (MkChat v (process c) (match rooms with [] => Window | _ => RoomMenu rooms (MkMenu 0 None sz) end) sz)
  | KEY_UP => let '(h, e) := previous (history v) (editor v) in next (with_history h (with_editor e v))
  | KEY_DOWN => let '(h, e) := Terminal.next (history v) (editor v) in next (with_history h (with_editor e v))
  | KEY_PPAGE => next (scrolled (- page)%Z)
  | KEY_NPAGE => next (scrolled page)
  | _ =>
      if is_enter k then
        if sempty (text (editor v)) then next v
        else
          let '(result, p) := handle_chat_input (text (editor v)) context (process c) in
          match result with
          | Exit => inr (Left, MkChat (with_editor (set_editor "") v) p Window sz)
          | Continue =>
              inl (MkChat (with_scroll (latest (scroll v))
                             (with_editor (set_editor "")
                                (with_history (remember (text (editor v)) (history v)) v))) p Window sz)
          end
      else if is_byte 7 k then next (with_scroll (latest (scroll v)) v)
      else if is_byte 9 k then next (complete (snapshot (process c)) v)
      else if is_byte 12 k then next v
      else next (with_editor (edit_key (editor v) k MAX_CHAT_MESSAGE_LEN) v)
  end.

(** One key: the loop goes on, or returns. The head of the loop was run before it. *)
Definition chat_key (context : ChatInputContext) (details : string) (c : Chat) (inp : Input) :
    Chat + ChatExit * Chat :=
  let k := key inp in
  let sz := after inp in
  let v := view c in
  let stays cover := inl (MkChat v (process c) cover sz) in
  match cover c with
  | Ended reason offset =>
      match notice_key (chat_size c) reason offset k with
      | Some offset => stays (Ended reason offset)
      | None => inr (Disconnected, MkChat v (process c) Window sz)
      end
  | Details offset =>
      stays (match notice_key (chat_size c) details offset k with Some offset => Details offset | None => Window end)
  | RoomMenu rooms m =>
      match menu_key ui_text.draft_stays (room_items rooms) m inp with
      | inl m => stays (RoomMenu rooms m)
      | inr choice =>
          match (if (choice <? 0)%Z then None else rooms !! Z.to_nat choice) with
          | None => stays Window
          | Some r =>
              inl (MkChat v (handle_chat_input ("/join " +:+ summary_name r) context (process c)).2 Window sz)
          end
      end
  | Window =>
      if bool_decide (k = ERR) || bool_decide (k = KEY_RESIZE) then stays Window
      else if leaving v then
        if is_enter k then inr (Left, MkChat v (process c) Window sz)
        else inl (MkChat (if is_escape k then with_leaving false v else v) (process c) Window sz)
      else if help v then
        inl (MkChat (if is_escape k || bool_decide (k = KEY_F 1) then with_help false v else v) (process c) Window sz)
      else if is_escape k then inl (MkChat (with_leaving true v) (process c) Window sz)
      else if small sz then stays Window
      else window_key context k sz (MkChat (with_hint "" v) (process c) Window (chat_size c))
  end.

(** One turn: the head, unless something covers the window, and a key. *)
Definition turn (context : ChatInputContext) (details : string) (c : Chat) (inp : Input) : Chat + ChatExit * Chat :=
  match cover c with
  | Window => match head c with inl c => chat_key context details c inp | inr r => inr r end
  | _ => chat_key context details c inp
  end.

(** The loop, when nothing but the keys changes the process. *)
Fixpoint run_curses_chat_loop (context : ChatInputContext) (details : string) (c : Chat) (inputs : list Input) :
    Chat + ChatExit * Chat :=
  match inputs with
  | [] => inl c
  | inp :: rest =>
      match turn context details c inp with
      | inl c => run_curses_chat_loop context details c rest
      | inr r => inr r
      end
  end.
Definition start_chat (context : ChatInputContext) (draft : string) (p : P) (sz : Size) : Chat :=
  MkChat (new_view (context_nickname context) (host_commands_enabled context) draft) p Window sz.

(** [SaveDraft], when the loop returns. *)
Definition saved_draft (c : Chat) : string := text (editor (view c)).
End chat_loop.
