(* ===== verification/InterfaceProperties.v ===== *)
(** Theorems about the keyboard of [Interface.v]: what a form gives back, what a menu
    returns, and that a line that is typed is the line that runs. *)

From S2P Require Import Prelude Message Utils AppState Terminal TerminalProperties ChatClient StorageApi World.
From S2P Require Import ChatServer Login Commands Screen ChatScreen Interface.
Local Open Scope string_scope.

(* ===================================================================== *)
(** * Lemmas: the length of what is edited *)

Lemma stake_short n s : (String.length (stake n s) <= n)%nat.
Proof. revert s. induction n as [|n IH]; intros s; destruct s as [|c s]; cbn; [lia..|]. specialize (IH s). lia. Qed.
Lemma stake_shorter n s : (String.length (stake n s) <= String.length s)%nat.
Proof. revert s. induction n as [|n IH]; intros s; destruct s as [|c s]; cbn; [lia..|]. specialize (IH s). lia. Qed.
Lemma erase_shorter s start n : (String.length (erase s start n) <= String.length s)%nat.
Proof.
  unfold erase. rewrite slength_app, sdrop_length. pose proof (stake_short start s). pose proof (stake_shorter start s). lia.
Qed.

Lemma erase_while_shorter fuel p e : (String.length (text (erase_while fuel p e)) <= String.length (text e))%nat.
Proof.
  revert e. induction fuel as [|fuel IH]; intros e; cbn [erase_while]; [lia|].
  destruct (cursor e) as [|i]; [lia|]. destruct (String.get i (text e)) as [c|]; [|lia]. destruct (p c); [|lia].
  etransitivity; [apply IH|apply erase_shorter].
Qed.

(** An editing key makes the text at most as long as the limit, or no longer. *)
Lemma edit_key_size e k limit : (size_of (text (edit_key e k limit)) <= N.max (size_of (text e)) limit)%N.
Proof.
  assert (forall e', (String.length (text e') <= String.length (text e))%nat ->
    (size_of (text e') <= N.max (size_of (text e)) limit)%N) as Hshort by (intros e'; unfold size_of; lia).
  destruct k as [c| | | | | | | | | | | | |n| | |]; cbn [edit_key];
    try (apply Hshort; first [apply erase_shorter | cbn; lia]).
  repeat match goal with |- context [if ?b then _ else _] => destruct b end;
    try (apply Hshort; first [apply erase_shorter | done
         | etransitivity; [apply erase_while_shorter|apply erase_while_shorter]
         | cbn; rewrite ?sdrop_length; pose proof (stake_shorter (cursor e) (text e)); lia]).
  unfold insert. destruct (N.ltb_spec limit (size_of (text e) + size_of (String c ""))); cbn [snd text]; [lia|].
  unfold insert_at. pose proof (f_equal String.length (stake_sdrop (cursor e) (text e))) as Hl.
  rewrite slength_app in Hl. unfold size_of in *. rewrite !slength_app. cbn [String.length] in *. lia.
Qed.

(* ===================================================================== *)
(** * Forms *)

Section forms.
Context `{Locale}.

(** What a form makes of a field: the same label, limits and checks; a toggle says yes
    or no; other text is no longer than its limit, or than what it was. *)
Definition yes_no (v : string) : Prop := v = "yes" \/ v = "no".
Definition answer_ok (f : CursesField) (v : string) : Prop :=
  if toggle f then yes_no (value f) -> yes_no v
  else (size_of v <= N.max (size_of (value f)) (limit f))%N.
Definition answers (f f' : CursesField) : Prop := exists v, f' = with_value v f /\ answer_ok f v.

Lemma answer_same f : answer_ok f (value f).
Proof. unfold answer_ok. destruct (toggle f); [done|lia]. Qed.
Lemma answers_refl f : answers f f.
Proof. exists (value f). split; [by destruct f|apply answer_same]. Qed.
Lemma all_answers fs : Forall2 answers fs fs.
Proof. induction fs; constructor; [apply answers_refl|done]. Qed.

Lemma toggle_key_yes_no e k : yes_no (text e) -> yes_no (text (toggle_key e k)).
Proof.
  unfold toggle_key, yes_no. intros He.
  destruct (_ || _ || _); [destruct (String.eqb (text e) "yes"); cbn; auto|].
  destruct (_ || _); [by left|]. destruct (_ || _); [by right|done].
Qed.

(** The editor of a form holds an answer to the selected field. *)
Record form_ok (fs : list CursesField) (f : Form) : Prop := {
  form_answers : Forall2 answers fs (fields f);
  form_field : exists g, fs !! field f = Some g /\ answer_ok g (text (form_editor f));
}.

Lemma form_ok_store fs f : form_ok fs f -> form_ok fs (store f).
Proof.
  intros [Ha (g & Hg & Hok)]. split; [|by exists g]. cbn [store fields].
  apply Forall2_alter_r; [done|]. intros x y Hx Hy (v & -> & _). exists (text (form_editor f)).
  split; [done|]. by simplify_eq.
Qed.
Lemma store_value f g : fields f !! field f = Some g ->
  fields (store f) !! field f = Some (with_value (text (form_editor f)) g).
Proof. intros Hg. cbn [store fields]. by rewrite list_lookup_alter_eq, Hg. Qed.

Lemma form_ok_move fs f i e r sz :
  Forall2 answers fs (fields f) -> (i < length fs)%nat ->
  form_ok fs (MkForm (fields f) i (set_editor (value_at (fields f) i)) e r sz).
Proof.
  intros Ha Hi. split; [done|]. cbn [field form_editor]. apply lookup_lt_is_Some_2 in Hi as [g Hg].
  exists g. split; [done|]. destruct (Forall2_lookup_l _ _ _ _ _ Ha Hg) as (g' & Hg' & v & -> & Hok).
  unfold value_at. rewrite Hg'. exact Hok.
Qed.

Lemma first_complaint_none fs i : first_complaint fs i = None -> Forall (fun f => complaint f (value f) = "") fs.
Proof.
  revert i. induction fs as [|f fs IH]; intros i; [constructor|]. cbn [first_complaint].
  destruct (sempty (complaint f (value f))) eqn:E; [|done]. intros Hn.
  constructor; [by apply sempty_spec|by eapply IH].
Qed.
Lemma first_complaint_some fs i j e : first_complaint fs i = Some (j, e) -> (i <= j < i + length fs)%nat.
Proof.
  revert i. induction fs as [|f fs IH]; intros i; [done|]. cbn [first_complaint length].
  destruct (sempty _); [intros Hs%IH; lia|intros [= <- _]; lia].
Qed.

(** What is given back when a key ends the form, and what is kept when it does not. *)
Definition form_result (fs : list CursesField) (r : FormStep) : Prop :=
  match r with
  | Goes f => form_ok fs f
  | Submitted fs' => Forall2 answers fs fs' /\ Forall (fun f => complaint f (value f) = "") fs'
  | CursesFormCancelled => True
  end.

Lemma form_key_ok subtitle fs f inp : form_ok fs f -> form_result fs (form_key subtitle f inp).
Proof.
  intros Hf%form_ok_store. unfold form_key. set (f1 := store f) in *. clearbody f1.
  pose proof Hf as [Ha (g & Hg & Hok)]. pose proof Ha as Hlen%Forall2_length.
  assert (field f1 < length (fields f1))%nat as Hin by (rewrite <- Hlen; by eapply lookup_lt_Some).
  destruct (fields f1 !! field f1) as [current|] eqn:Ec; [|exact Hf].
  assert (label current = label g /\ limit current = limit g /\ toggle current = toggle g) as (El & Em & Et).
  { destruct (Forall2_lookup_lr _ _ _ _ _ _ Ha Hg Ec) as (v & -> & _). done. }
  assert (forall e r sz, form_ok fs (MkForm (fields f1) (field f1) (form_editor f1) e r sz)) as Hsame
    by (intros; split; [done|by exists g]).
  destruct (form_reading f1); [apply Hsame|].
  destruct (bool_decide _); [apply Hsame|]. destruct (is_escape _); [done|]. destruct (small _); [apply Hsame|].
  destruct (_ || _ || (_ || _ || _)).
  - destruct (negb _); [apply Hsame|]. destruct (_ && _).
    + destruct (first_complaint _ _) as [[i e]|] eqn:E.
      * apply form_ok_move; [done|]. apply first_complaint_some in E. lia.
      * split; [done|]. by eapply first_complaint_none.
    + apply form_ok_move; [done|]. rewrite Hlen. destruct (_ || _); apply Nat.mod_upper_bound; lia.
  - destruct (toggle current) eqn:Etog.
    + split; [done|]. exists g. split; [done|]. cbn [form_editor]. unfold answer_ok in *. rewrite <- Et in *.
      intros Hy. by apply toggle_key_yes_no, Hok.
    + split; [done|]. exists g. split; [done|]. cbn [form_editor]. unfold answer_ok in *. rewrite <- Et in *.
      pose proof (edit_key_size (form_editor f1) (key inp) (limit current)). rewrite Em in *. lia.
Qed.

Lemma form_loop_ok subtitle fs inputs : forall f fs' rest,
  form_ok fs f -> form_loop subtitle f inputs = Some (Some fs', rest) ->
  Forall2 answers fs fs' /\ Forall (fun f => complaint f (value f) = "") fs'.
Proof.
  induction inputs as [|inp inputs IH]; intros f fs' rest Hf; [done|]. cbn [form_loop].
  pose proof (form_key_ok subtitle fs f inp Hf) as Hk. destruct (form_key subtitle f inp); [by apply IH| |done].
  by intros [= <- _].
Qed.

(** Pressing Enter once per field goes through a form whose fields are all valid. *)
Definition enters (sz : Size) (n : nat) : list Input := replicate n (MkInput KEY_ENTER sz).
Lemma first_complaint_valid fs i : Forall (fun f => complaint f (value f) = "") fs -> first_complaint fs i = None.
Proof.
  intros Hv. revert i. induction Hv as [|f fs Hf _ IH]; intros i; [done|]. cbn [first_complaint].
  rewrite Hf. apply IH.
Qed.
Lemma alter_same (fs : list CursesField) i f : fs !! i = Some f -> alter (with_value (value f)) i fs = fs.
Proof.
  intros Hi. apply list_eq. intros j. rewrite list_lookup_alter. case_decide as Hj; [|done].
  subst j. rewrite Hi. cbn. f_equal. by destruct f.
Qed.

Lemma form_key_enter subtitle sz fs i f e sz0 :
  small sz = false -> fs !! i = Some f -> Forall (fun f => complaint f (value f) = "") fs ->
  form_key subtitle (MkForm fs i (set_editor (value f)) e None sz0) (MkInput KEY_ENTER sz) =
  if (i =? length fs - 1)%nat then Submitted fs
  else Goes (MkForm fs ((i + 1) mod length fs) (set_editor (value_at fs ((i + 1) mod length fs))) "" None sz).
Proof.
  intros Hs Hi Hv. unfold form_key, store. cbn [fields field form_editor set_editor text form_reading form_size key after].
  rewrite alter_same, Hi, Hs by done.
  assert (complaint f (value f) = "") as Hf by (eapply Forall_lookup_1 in Hi; [|exact Hv]; exact Hi).
  rewrite first_complaint_valid by done.
  change (is_enter KEY_ENTER) with true. change (is_escape KEY_ENTER) with false.
  rewrite !bool_decide_false by done. cbn [orb andb]. rewrite orb_true_r, Hf. cbn [sempty negb].
  by destruct (i =? length fs - 1)%nat.
Qed.

Lemma form_loop_enters subtitle sz fs n : forall i f e sz0,
  small sz = false -> Forall (fun f => complaint f (value f) = "") fs ->
  fs !! i = Some f -> (i + Datatypes.S n = length fs)%nat ->
  form_loop subtitle (MkForm fs i (set_editor (value f)) e None sz0) (enters sz (Datatypes.S n)) = Some (Some fs, []).
Proof.
  induction n as [|n IH]; intros i f e sz0 Hs Hv Hi Hn; cbn [enters replicate form_loop];
    rewrite form_key_enter by done.
  - by rewrite (proj2 (Nat.eqb_eq _ _)) by lia.
  - rewrite (proj2 (Nat.eqb_neq _ _)), Nat.mod_small by lia.
    destruct (lookup_lt_is_Some_2 fs (i + 1)) as [g Hg]; [lia|].
    unfold value_at. rewrite Hg. apply IH; [done|done|exact Hg|lia].
Qed.

(** A form gives back valid answers, and only when they are submitted. Whatever keys
    are pressed, when [edit_curses_form] returns fields they are the fields it was given
    with new values: every one of them passes its check, a toggle still says yes or no,
    and a text is no longer than its limit, unless it was before. And a form whose
    values are valid is submitted as it is by pressing Enter once per field. *)
Theorem form_gives_answers sz subtitle fs :
  (forall inputs fs' rest, edit_curses_form sz subtitle fs inputs = Some (Some fs', rest) ->
     Forall2 answers fs fs' /\ Forall (fun f => complaint f (value f) = "") fs') /\
  (small sz = false -> Forall (fun f => complaint f (value f) = "") fs ->
     edit_curses_form sz subtitle fs (enters sz (length fs)) = Some (Some fs, [])).
Proof.
  unfold edit_curses_form. destruct fs as [|f fs].
  - split; [intros inputs fs' rest [= <- _]; by split|done].
  - split.
    + intros inputs fs' rest. apply form_loop_ok. split; [apply all_answers|]. cbn [field form_editor].
      exists f. split; [done|apply answer_same].
    + intros Hs Hv. by apply (form_loop_enters subtitle sz (f :: fs) (length fs) 0).
Qed.

(* ===================================================================== *)
(** * Menus *)

Lemma find_shortcut_bound c items : forall i j, find_shortcut c items i = Some j ->
  (i <= j < i + length items)%nat /\
  exists item, items !! (j - i)%nat = Some item /\ shortcut item = Some (tolower c).
Proof.
  induction items as [|item items IH]; intros i j; [done|]. cbn [find_shortcut length].
  case_bool_decide as Hc.
  - intros [= <-]. split; [lia|]. exists item. by rewrite Nat.sub_diag.
  - intros (Hj & x & Hx & Hs)%IH. split; [lia|]. exists x. split; [|done].
    by replace (j - i)%nat with (Datatypes.S (j - Datatypes.S i)) by lia.
Qed.

(** Every key leaves the selection on an item; what is returned is -1, for Escape, or
    an item: the selected one, for Enter, or one whose shortcut was typed. *)
Definition menu_result (items : list CursesMenuItem) (m : Menu) (k : Key) (r : Menu + Z) : Prop :=
  match r with
  | inl m' => (selected m' < length items)%nat
  | inr choice =>
      choice = (-1)%Z /\ is_escape k = true \/
      choice = Z.of_nat (selected m) /\ is_enter k = true \/
      exists c i item, k = Byte c /\ choice = Z.of_nat i /\ items !! i = Some item /\ shortcut item = Some (tolower c)
  end.
Lemma menu_key_ok subtitle items m inp :
  (selected m < length items)%nat -> menu_result items m (key inp) (menu_key subtitle items m inp).
Proof.
  intros Hm. unfold menu_key. destruct (reading m); [exact Hm|].
  destruct (bool_decide _); [exact Hm|]. destruct (is_escape (key inp)) eqn:Ee; [by left|].
  destruct (small _); [exact Hm|].
  destruct (bool_decide _); [apply Nat.mod_upper_bound; lia|].
  destruct (_ || _); [apply Nat.mod_upper_bound; lia|].
  destruct (bool_decide _); [cbn; lia|]. destruct (bool_decide _); [cbn; lia|].
  destruct (is_enter (key inp)) eqn:En; [right; by left|].
  destruct (key inp) as [c| | | | | | | | | | | | |n| | |]; try exact Hm.
  destruct (find_shortcut c items 0) as [i|] eqn:Ef; [|exact Hm].
  apply find_shortcut_bound in Ef as (Hi & item & Hl & Hs). rewrite Nat.sub_0_r in Hl.
  do 2 right. by exists c, i, item.
Qed.

Lemma menu_loop_bound subtitle items inputs : forall m choice rest,
  (selected m < length items)%nat -> menu_loop subtitle items m inputs = Some (choice, rest) ->
  (-1 <= choice < Z.of_nat (length items))%Z.
Proof.
  induction inputs as [|inp inputs IH]; intros m choice rest Hm; [done|]. cbn [menu_loop].
  pose proof (menu_key_ok subtitle items m inp Hm) as Hk.
  destruct (menu_key subtitle items m inp) as [m'|c]; [by apply IH|]. intros [= <- _].
  destruct Hk as [[-> _]|[[-> _]|(c' & i & item & _ & -> & Hi & _)]]; [lia|lia|].
  apply lookup_lt_Some in Hi. lia.
Qed.
End forms.

(* ===================================================================== *)
(** * The chat window *)

Section chat_window.
Context {S : Type} `{ServerStorage S} `{Sodium} `{Platform} `{Locale}.
Implicit Types c : Chat (S:=S).

(** The session of a guest goes on, so the head of the loop only draws. *)
Definition alive (p : Process (S:=S)) : Prop :=
  match guest p with
  | Some cw => connected_ (client cw) = true /\ was_kicked (screen p) = false
  | None => True
  end.
Lemma head_alive c : alive (process c) ->
  head c = inl (MkChat (refresh_view (chat_size c) (snapshot (process c)) (view c)) (process c) Window (chat_size c)).
Proof. unfold alive, head. destruct (guest (process c)) as [cw|]; [|done]. by intros [-> ->]. Qed.

(** The window is open, at the prompt, and the cursor after what was typed. *)
Record prompt (c : Chat (S:=S)) (p : Process (S:=S)) (typed : string) (h : InputHistory) : Prop := {
  prompt_window : cover c = Window;
  prompt_view : leaving (view c) = false /\ help (view c) = false;
  prompt_editor : editor (view c) = MkEditor typed (String.length typed);
  prompt_history : history (view c) = h;
  prompt_process : process c = p;
}.

Definition typable (a : ascii) : bool := (32 <=? code a)%N && negb (code a =? 127)%N.

Lemma refresh_editor sz s v :
  editor (refresh_view sz s v) = editor v /\ history (refresh_view sz s v) = history v /\
  leaving (refresh_view sz s v) = leaving v /\ help (refresh_view sz s v) = help v.
Proof. unfold refresh_view. by destruct (small sz). Qed.

Lemma insert_end a t limit : (size_of t < limit)%N ->
  (insert (String a "") limit (MkEditor t (String.length t))).2 =
  MkEditor (t +:+ String a "") (String.length (t +:+ String a "")).
Proof.
  intros Hl. unfold insert. cbn [text cursor]. rewrite (proj2 (N.ltb_ge _ _)).
  - cbn [snd]. unfold insert_at. rewrite slength_app. f_equal.
    rewrite <- (sapp_nil_r t) at 2 4. by rewrite stake_app, sdrop_app, sapp_nil_r.
  - change (size_of (String a "")) with 1%N. lia.
Qed.

Lemma edit_typable a e limit : typable a = true -> edit_key e (Byte a) limit = (insert (String a "") limit e).2.
Proof.
  unfold typable, edit_key. intros [Hlow Hdel]%andb_true_iff. apply negb_true_iff in Hdel.
  apply N.eqb_neq in Hdel. apply N.leb_le in Hlow as Hle.
  repeat match goal with |- context [(code a =? ?n)%N] =>
    replace (code a =? n)%N with false by (symmetry; apply N.eqb_neq; lia) end.
  rewrite Hlow. done.
Qed.

Lemma type_byte context details c p typed h a sz :
  alive p -> small sz = false -> typable a = true -> (size_of typed < MAX_CHAT_MESSAGE_LEN)%N ->
  prompt c p typed h ->
  exists c', turn context details c (MkInput (Byte a) sz) = inl c' /\ prompt c' p (typed +:+ String a "") h.
Proof.
  intros Hp Hs Ha Hl [Hw [Hv1 Hv2] He Hh <-]. unfold turn. rewrite Hw, head_alive by done.
  unfold chat_key. cbn [cover key after view process chat_size].
  destruct (refresh_editor (chat_size c) (snapshot (process c)) (view c)) as (E1 & E2 & E3 & E4).
  set (v := refresh_view _ _ _) in *. rewrite E3, E4, Hv1, Hv2, Hs.
  rewrite !bool_decide_false by done. cbn [orb].
  assert (forall n, (n < 32)%N -> is_byte n (Byte a) = false) as Hb.
  { intros n Hn. unfold is_byte. unfold typable in Ha. apply andb_true_iff in Ha as [Ha%N.leb_le _].
    apply N.eqb_neq. lia. }
  unfold is_escape. rewrite Hb by done. unfold window_key, is_enter. rewrite !Hb, bool_decide_false by done.
  cbn [orb view process chat_size]. eexists. split; [reflexivity|].
  split; cbn [cover view process with_editor with_hint leaving help editor history]; try done.
  - by rewrite E3, E4.
  - rewrite E1, He, edit_typable by done. by apply insert_end.
  - by rewrite E2.
Qed.

(** The keys of a line. *)
Fixpoint keys_of (line : string) (sz : Size) : list Input :=
  match line with
  | EmptyString => []
  | String a rest => MkInput (Byte a) sz :: keys_of rest sz
  end.

Lemma type_line context details sz p h line : forall c typed,
  alive p -> small sz = false -> sall typable line = true ->
  (size_of typed + size_of line <= MAX_CHAT_MESSAGE_LEN)%N -> prompt c p typed h ->
  exists c', run_curses_chat_loop context details c (keys_of line sz) = inl c' /\ prompt c' p (typed +:+ line) h.
Proof.
  induction line as [|a line IH]; intros c typed Hp Hs Hl Hsize Hc; cbn [keys_of run_curses_chat_loop].
  - exists c. by rewrite sapp_nil_r.
  - cbn [sall] in Hl. apply andb_true_iff in Hl as [Ha Hl]. rewrite size_of_cons in Hsize.
    destruct (type_byte context details c p typed h a sz Hp Hs Ha ltac:(lia) Hc) as (c1 & -> & Hc1).
    replace (typed +:+ String a line) with ((typed +:+ String a "") +:+ line) by (by rewrite sapp_assoc).
    apply IH; try done. rewrite size_of_app. change (size_of (String a "")) with 1%N. lia.
Qed.

Lemma press_enter context details c p line h sz result p' :
  alive p -> small sz = false -> line <> "" -> prompt c p line h ->
  handle_chat_input line context p = (result, p') ->
  match result with
  | Continue => exists c', turn context details c (MkInput KEY_ENTER sz) = inl c' /\ prompt c' p' "" (remember line h)
  | Exit => exists c', turn context details c (MkInput KEY_ENTER sz) = inr (Left, c') /\
      process c' = p' /\ saved_draft c' = ""
  end.
Proof.
  intros Hp Hs Hne [Hw [Hv1 Hv2] He Hh <-] Hr. unfold turn. rewrite Hw, head_alive by done.
  unfold chat_key. cbn [cover key after view process chat_size].
  destruct (refresh_editor (chat_size c) (snapshot (process c)) (view c)) as (E1 & E2 & E3 & E4).
  set (v := refresh_view _ _ _) in *. rewrite E3, E4, Hv1, Hv2, Hs.
  rewrite !bool_decide_false by done. cbn [orb is_escape is_byte].
  unfold window_key. change (is_enter KEY_ENTER) with true. cbn [view process chat_size with_hint editor].
  rewrite E1, He. cbn [text]. rewrite (proj2 (sempty_false line)), Hr by done.
  destruct result; eexists; (split; [reflexivity|]).
  - split; cbn [cover view process with_scroll with_editor with_history leaving help editor history with_hint]; try done.
    + by rewrite E3, E4.
    + by rewrite E2, Hh.
  - done.
Qed.


(** [view.help] is never set: the panel of the shortcuts cannot be opened. *)
Definition helped (r : Chat (S:=S) + ChatExit * Chat (S:=S)) : bool :=
  match r with inl c => help (view c) | inr (_, c) => help (view c) end.

Lemma complete_help s v : help (complete s v) = help v.
Proof. unfold complete. by destruct (candidates_of s v). Qed.
Lemma window_key_help context k sz c : help (view c) = false -> helped (window_key context k sz c) = false.
Proof.
  intros Hh. unfold window_key.
  assert (helped (if is_enter k then
        if sempty (text (editor (view c))) then inl (MkChat (view c) (process c) Window sz)
        else let '(result, p) := handle_chat_input (text (editor (view c))) context (process c) in
          match result with
          | Exit => inr (Left, MkChat (with_editor (set_editor "") (view c)) p Window sz)
          | Continue =>
              inl (MkChat (with_scroll (latest (scroll (view c))) (with_editor (set_editor "")
                (with_history (remember (text (editor (view c))) (history (view c))) (view c)))) p Window sz)
          end
      else if is_byte 7 k then inl (MkChat (with_scroll (latest (scroll (view c))) (view c)) (process c) Window sz)
      else if is_byte 9 k then inl (MkChat (complete (snapshot (process c)) (view c)) (process c) Window sz)
      else if is_byte 12 k then inl (MkChat (view c) (process c) Window sz)
      else inl (MkChat (with_editor (edit_key (editor (view c)) k MAX_CHAT_MESSAGE_LEN) (view c)) (process c) Window sz))
      = false) as Hrest.
  { destruct (is_enter k); [destruct (sempty _); [done|]|].
    - destruct (handle_chat_input _ _ _) as [[|] p]; done.
    - destruct (is_byte 7 k); [done|]. destruct (is_byte 9 k); [cbn; by rewrite complete_help|].
      by destruct (is_byte 12 k). }
  destruct k as [a| | | | | | | | | | | | |n| | |]; try exact Hrest; try done.
  - by destruct (previous _ _).
  - by destruct (Terminal.next _ _).
  - do 4 (destruct n as [|n]; try exact Hrest; try done).
Qed.
Lemma help_never_opens context details c inp : help (view c) = false -> helped (turn context details c inp) = false.
Proof.
  intros Hh. assert (forall c, help (view c) = false -> helped (chat_key context details c inp) = false) as Hkey.
  { clear c Hh. intros c Hh. unfold chat_key. destruct (cover c) as [|offset|rooms m|reason offset].
    - destruct (_ || _); [done|]. destruct (leaving (view c)); [destruct (is_enter _); [done|]; cbn; by destruct (is_escape _)|].
      rewrite Hh. destruct (is_escape _); [done|]. destruct (small _); [done|]. by apply window_key_help.
    - done.
    - destruct (menu_key _ _ _ _) as [m'|choice]; [done|]. by destruct (if (choice <? 0)%Z then _ else _).
    - by destruct (notice_key _ _ _ _). }
  unfold turn. destruct (cover c); try by apply Hkey.
  destruct (refresh_editor (chat_size c) (snapshot (process c)) (view c)) as (_ & _ & _ & E4).
  unfold head. set (v := refresh_view _ _ _) in *.
  repeat match goal with
  | |- context [match guest ?p with _ => _ end] => destruct (guest p)
  | |- context [if ?b then _ else _] => destruct b
  end; first [apply Hkey; cbn; congruence | cbn; congruence].
Qed.
End chat_window.
