(* ===== verification/InterfaceScenarios.v ===== *)
(** Concrete keys and screens: the instances of the theorems of [ScreenProperties.v],
    [CompletionProperties.v] and [InterfaceProperties.v]. *)

From S2P Require Import Prelude Message Utils AppState Terminal TextProperties TerminalScenarios StorageApi World.
From S2P Require Import ChatClient Login Commands ClientScenarios Screen ChatScreen ScreenProperties.
From S2P Require Import CompletionProperties Interface InterfaceProperties.
Local Open Scope string_scope.

Definition screen80 : Size := MkSize 24 80 true.
Definition screen100 : Size := MkSize 30 100 true.
Definition narrow : Size := MkSize 10 30 true.

(* ===================================================================== *)
(** * The screen *)

Definition sample_rooms : list RoomSummary := [MkRoomSummary 1 "lobby" 2; MkRoomSummary 2 "music" 1].
Definition sample_snapshot : ChatStateSnapshot :=
  MkSnapshot ["[system] Connected"; "[12:00:01] ann: hello"] ["ann"; "anton"; "bob"] sample_rooms 2 "music" "all day" 2.
Definition sample_view : ChatView :=
  refresh_view screen100 sample_snapshot (new_view "ann" false "/j").

Example menu_screen :
  draw_menu screen80 "Title" "Choose." [MkItem (Some "a"%char) "First" "The one."; MkItem None "Second" ""] 1 !! 7%nat
  = Some (Put 11 3 " > Second                                                       " (with_bold (style Selected))).
Proof. vm_compute. reflexivity. Qed.
Example small_screen :
  draw_chat narrow sample_snapshot sample_view =
  [Put 0 1 "chatbox" (with_bold (style Accent)); Put 2 1 "Resize to at least 40 x 12" normal;
   Put 3 1 "Your draft is preserved." (style Muted); Put 9 1 "Esc  Back" (style Muted)]%list.
Proof. vm_compute. reflexivity. Qed.

Lemma drawn_inside_witness :
  Forall (inside screen100) (draw_chat screen100 sample_snapshot sample_view) /\
  exists y r', r' ∈ snap_rooms sample_snapshot /\ summary_id r' = snap_active_room_id sample_snapshot /\
    Put y 3 (fit_text (room_label true r') 20 false) (with_bold (style Selected))
      ∈ draw_chat screen100 sample_snapshot sample_view.
Proof.
  destruct (drawn_inside screen100) as (_ & _ & _ & Hchat & Hshown). split; [apply Hchat|].
  destruct (Hshown eq_refl) as [_ Hroom]. by apply (Hroom sample_snapshot sample_view 1%nat (MkRoomSummary 2 "music" 1)).
Defined.

(* ===================================================================== *)
(** * Completion *)

Definition completing (draft : string) : ChatView := with_editor (set_editor draft) sample_view.
Example completes :
  text (editor (complete sample_snapshot (completing "/wh"))) = "/whisper " /\
  text (editor (complete sample_snapshot (completing "/whisper a"))) = "/whisper an" /\
  hint (complete sample_snapshot (completing "/whisper a")) = "ann  anton  " /\
  text (editor (complete sample_snapshot (completing "/join m"))) = "/join music " /\
  hint (complete sample_snapshot (completing "hello zoe")) = "No completions".
Proof. vm_compute. repeat split. Qed.

Lemma completion_spec_witness :
  exists common,
    Forall (fun c => String.prefix common c = true) (candidates_of sample_snapshot (completing "hi a")) /\
    editor (complete sample_snapshot (completing "hi a")) = MkEditor ("hi " +:+ common) (3 + String.length common).
Proof.
  destruct (completion_spec sample_snapshot (completing "hi a")) as (_ & Hc & _).
  - vm_compute. lia.
  - assert (candidates_of sample_snapshot (completing "hi a") = ["ann"; "anton"]) as E by (vm_compute; reflexivity).
    rewrite E in Hc |- *. destruct Hc as (common & Hall & _ & _ & Hed). exists common. split; [exact Hall|].
    destruct common as [|a [|b [|d r]]]; try (rewrite Hed; vm_compute; reflexivity).
    apply list.Forall_cons in Hall as [H1 Hall]. apply list.Forall_cons in Hall as [H2 _].
    apply prefix_spec in H1 as [r1 E1]. apply prefix_spec in H2 as [r2 E2].
    rewrite !sapp_cons in E1, E2. congruence.
Defined.

(* ===================================================================== *)
(** * Forms *)

Definition port_check (v : string) : string := if String.eqb v "7777" then "" else "Enter a port from 0 to 65535.".
Definition sample_fields : list CursesField :=
  [MkField "Port" "7777" 5 false false (Some port_check); MkField "Use TLS" "yes" 3 false true None].

(** Backspace and Enter: the complaint; then the port again, and a toggle. *)
Definition press (k : Key) : Input := MkInput k screen80.
Example form_keys :
  edit_curses_form screen80 "" sample_fields
    (press <$> [KEY_BACKSPACE; KEY_ENTER; Byte "7"%char; KEY_ENTER; KEY_RIGHT; KEY_ENTER; Byte "x"%char])
  = Some (Some [MkField "Port" "7777" 5 false false (Some port_check); MkField "Use TLS" "no" 3 false true None],
          [press (Byte "x"%char)]).
Proof. vm_compute. reflexivity. Qed.

Lemma form_gives_answers_witness :
  Forall2 answers sample_fields sample_fields /\
  edit_curses_form screen80 "" sample_fields (enters screen80 2) = Some (Some sample_fields, []).
Proof.
  destruct (form_gives_answers screen80 "" sample_fields) as [Hany Henter].
  assert (Forall (fun f => complaint f (value f) = "") sample_fields) as Hv by (repeat constructor).
  pose proof (Henter eq_refl Hv) as He. split; [|exact He]. by eapply (Hany (enters screen80 2)).
Defined.

(* ===================================================================== *)
(** * The chat window *)

Definition guest_context : ChatInputContext := MkContext "ann" false.
