(* ===== verification/Setup.v ===== *)
(** Setting up at the terminal: the forms of [ui/setup_forms.h] and the menu of
    [ui/startup_menu.cpp]. A program at the terminal reads keys and may wait for more
    of them, go on, be cancelled or throw: the monad [UI]. *)

From S2P Require Import Prelude DisplayText Utils Terminal Tls Browser Options Screen Interface.
Local Open Scope string_scope.

(* ===================================================================== *)
(** * Programs at the terminal *)

(** The keys that are to be pressed, the size of the screen, the files, and how often
    a certificate was generated. *)
Record Seat := MkSeat { seat_size : Size; inputs : list Input; seat_files : Files; draws : nat }.

Inductive Result (A : Type) := Got (a : A) | FormCancelled | Threw.
Arguments Got {A} _.
Arguments FormCancelled {A}.
Arguments Threw {A}.

(** [None]: it waits for a key. *)
Definition UI (A : Type) : Type := Seat -> option (Result A * Seat).
Definition got {A} (a : A) : UI A := fun s => Some (Got a, s).
Definition threw {A} : UI A := fun s => Some (Threw, s).
Definition cancelled {A} : UI A := fun s => Some (FormCancelled, s).
Definition and_then {A B} (m : UI A) (k : A -> UI B) : UI B := fun s =>
  match m s with
  | None => None
  | Some (Got a, s) => k a s
  | Some (FormCancelled, s) => Some (FormCancelled, s)
  | Some (Threw, s) => Some (Threw, s)
  end.

Declare Scope ui_scope.
Delimit Scope ui_scope with ui.
Notation "'do' x <- m ; k" := (and_then m (fun x => k))
  (at level 100, x name, m at next level, right associativity) : ui_scope.
Notation "m ;; k" := (and_then m (fun _ => k)) (at level 100, right associativity) : ui_scope.
Local Open Scope ui_scope.

(** After keys were read: what is left, and the size that came with the last one. *)
Definition advance (s : Seat) (rest : list Input) : Seat :=
  let read := take (length (inputs s) - length rest) (inputs s) in
  MkSeat (match list.last read with Some i => after i | None => seat_size s end) rest (seat_files s) (draws s).

Section setup.
Context `{Locale} `{OpenSSL} `{Platform} `{Sodium} `{Disk}.

Fixpoint notice_loop (detail : string) (sz : Size) (offset : Z) (keys : list Input) : option (list Input) :=
  match keys with
  | [] => None
  | i :: rest =>
      match notice_key sz detail offset (key i) with
      | Some offset => notice_loop detail (after i) offset rest
      | None => Some rest
      end
  end.
Definition show_curses_notice (detail : string) : UI unit := fun s =>
  match notice_loop detail (seat_size s) 0 (inputs s) with
  | None => None
  | Some rest => Some (Got tt, advance s rest)
  end.

Definition choose (subtitle : string) (items : list CursesMenuItem) : UI Z := fun s =>
  match choose_curses_menu (seat_size s) subtitle items (inputs s) with
  | None => None
  | Some (choice, rest) => Some (Got choice, advance s rest)
  end.
Definition form (subtitle : string) (fields : list CursesField) : UI (list CursesField) := fun s =>
  match edit_curses_form (seat_size s) subtitle fields (inputs s) with
  | None => None
  | Some (Some fields, rest) => Some (Got fields, advance s rest)
  | Some (None, rest) => Some (FormCancelled, advance s rest)
  end.

(* ===================================================================== *)
(** * Fields *)

Definition port_check (v : string) : string :=
  match parse_port v with Some _ => "" | None => ui_text.invalid_port end.
Definition port_field : CursesField := MkField ui_text.port "7777" 5 false false (Some port_check).

Definition required_check (v : string) : string :=
  if sall (fun c => Ascii.eqb c " ") v then ui_text.required_field else "".
Definition required_field (label value : string) (limit : N) : CursesField :=
  MkField label value limit false false (Some required_check).

Definition plain_field (label value : string) (limit : N) : CursesField := MkField label value limit false false None.
Definition toggle_field (label : string) (v : bool) : CursesField :=
  MkField label (if v then "yes" else "no") 3 false true None.

Definition browser_host_check (v : string) : string :=
  match parse_browser_address v with Some _ => "" | None => ui_text.browser_host_error end.

Definition is_yes (fields : list CursesField) (i : nat) : bool := String.eqb (value_at fields i) "yes".

(* ===================================================================== *)
(** * Certificates of servers *)

Definition certificate_items (previous : string) : list CursesMenuItem :=
  [MkItem (Some "r"%char) "Reject" "Return without trusting this certificate.";
   MkItem (Some "a"%char) (if sempty previous then "Accept certificate" else "Review replacement")
     "Save this fingerprint for this address."].
Definition certificate_detail (address fingerprint previous : string) : string :=
  "Server: " +:+ address +:+ String newline "SHA-256: " +:+ fingerprint
  +:+ (if sempty previous then "" else String newline "Previously trusted: " +:+ previous)
  +:+ String newline "Compare the full fingerprint with the host through a trusted channel. TLS protects transport, not end-to-end chat.".

(** A form whose cancellation is an answer. *)
Definition form_or {A} (subtitle : string) (fields : list CursesField) (otherwise : A)
    (k : list CursesField -> A) : UI A := fun s =>
  match form subtitle fields s with
  | None => None
  | Some (Got fields, s) => Some (Got (k fields), s)
  | Some (FormCancelled, s) => Some (Got otherwise, s)
  | Some (Threw, s) => Some (Threw, s)
  end.

(** [confirm_certificate] of [interactive_tls]. *)
Definition confirm_certificate (address fingerprint previous : string) : UI bool :=
  show_curses_notice (certificate_detail address fingerprint previous);;
  do choice <- choose "Accept only after verifying with the host." (certificate_items previous);
  if negb (choice =? 1)%Z then got false
  else if sempty previous then got true
  else form_or "Only after verifying the new fingerprint with the host."
         [plain_field "Type REPLACE to reset trust" "" 7] false
         (fun fields => String.eqb (value_at fields 0) "REPLACE").

(* ===================================================================== *)
(** * TLS of a server *)

Definition tls_directory : string := path_join chatbox_data_directory "tls".

Definition tls_items : list CursesMenuItem :=
  [MkItem (Some "g"%char) "Generate or reuse a certificate"
     "Store a private key and certificate in your Chatbox data folder.";
   MkItem (Some "e"%char) "Use existing certificate files" "Choose a PEM certificate and matching private key."].

Definition ensure_certificate : UI ServerConfig := fun s =>
  let '(r, files) := ensure_host_certificate (seat_files s) tls_directory (draws s) in
  let s := MkSeat (seat_size s) (inputs s) files (Datatypes.S (draws s)) in
  match r with Returned config => Some (Got config, s) | Thrown => Some (Threw, s) end.
Definition check_context (config : ServerConfig) : UI unit := fun s =>
  match configure_server_context (seat_files s) config with
  | Returned _ => Some (Got tt, s)
  | Thrown => Some (Threw, s)
  end.

Definition fingerprint_notice (config : ServerConfig) : UI unit := fun s =>
  show_curses_notice ("Guests can compare this SHA-256 fingerprint through a trusted channel: "
    +:+ certificate_sha256_fingerprint (seat_files s) (certificate_path config)) s.

(** What [configure_tls] makes of the configuration, and whether it is checked then. *)
Definition choose_tls (config : ServerConfig) : UI (ServerConfig * bool) :=
  if negb (server_enabled config) then got (config, false)
  else
    do choice <- choose "TLS protects transport, not end-to-end chat. A password separately controls access." tls_items;
    if (choice <? 0)%Z then cancelled
    else if (choice =? 0)%Z then
      do config <- ensure_certificate;
      show_curses_notice ("Certificate: " +:+ certificate_path config
        +:+ String newline "Private key (keep secret): " +:+ private_key_path config);;
      fingerprint_notice config;;
      got (config, false)
    else
      do fields <- form ui_text.tls_description
        [required_field ui_text.certificate_path (certificate_path config) LOGFILE_MAX_LEN;
         required_field ui_text.private_key_path (private_key_path config) LOGFILE_MAX_LEN];
      got (MkServerConfig (server_enabled config) (value_at fields 0) (value_at fields 1), true).
Definition configure_tls (config : ServerConfig) : UI ServerConfig :=
  do r <- choose_tls config;
  if snd r then check_context (fst r);; got (fst r) else got (fst r).

(* ===================================================================== *)
(** * Publication *)

Record PublicationSettings := MkPublication {
  publication_host : string;
  publication_name : string;
  public_host : string;
  publication_tls : bool;
  publication_ca : string;
  publication_pin : string;
}.
Definition no_publication : PublicationSettings := MkPublication "" "" "" true "" "".

Definition configure_publication (previous : PublicationSettings) : UI PublicationSettings :=
  do fields <- form ui_text.publish_description
    [MkField ui_text.browser_host (publication_host previous) HOST_MAX_LEN false false (Some browser_host_check);
     plain_field ui_text.listing_name (publication_name previous) HOST_MAX_LEN;
     plain_field ui_text.public_address (public_host previous) HOST_MAX_LEN;
     toggle_field "Directory TLS (no = insecure)" (publication_tls previous);
     plain_field "Directory CA file (optional)" (publication_ca previous) LOGFILE_MAX_LEN;
     plain_field "Directory SHA-256 (optional)" (publication_pin previous) 95];
  got (MkPublication (default "" (parse_browser_address (value_at fields 0))) (value_at fields 1) (value_at fields 2)
         (is_yes fields 3) (value_at fields 4) (value_at fields 5)).

(* ===================================================================== *)
(** * The startup menu *)

(** The text of an exception is not modelled: keys only scroll the notice that shows it.

    What [run_startup_menu] returns or goes on with. *)
Inductive Startup :=
| Quits
| Chats
| RunsServer (c : DedicatedServerConfig)
| RunsDirectory (port : N) (tls : ServerConfig).

Definition startup_items : list CursesMenuItem :=
  [MkItem (Some "c"%char) ui_text.start_chatting ui_text.start_chatting_detail;
   MkItem (Some "d"%char) ui_text.run_server ui_text.run_server_detail;
   MkItem (Some "b"%char) ui_text.run_directory ui_text.run_directory_detail;
   MkItem (Some "q"%char) ui_text.quit ui_text.see_you].

Definition dedicated_fields : list CursesField :=
  [port_field; MkField "Password (optional)" "" PASS_MAX_LEN true false None;
   toggle_field "Automatic port forwarding (UPnP)" true; toggle_field "Use TLS" true;
   plain_field "Log file (none / stdout / path)" "chatlog.txt" LOGFILE_MAX_LEN;
   toggle_field "Publish to a server directory" false].

(** The configuration that is read off the form, but for TLS and publication. *)
Definition form_config (fields : list CursesField) : DedicatedServerConfig :=
  let log := value_at fields 4 in
  let c := initial_config (default 0%N (parse_port (value_at fields 0))) in
  let c := with_upnp (is_yes fields 2) (with_password (value_at fields 1) c) in
  let c := with_tls (tls_enabled (is_yes fields 3) (tls c)) c in
  let c := with_logging (negb (String.eqb log "none")) (String.eqb log "stdout") c in
  let c := if negb (sempty log) && enable_logging c && negb (log_to_stdout_only c) then with_logfile log c else c in
  with_publish (is_yes fields 5) c.

Definition publish_config (p : PublicationSettings) (c : DedicatedServerConfig) : DedicatedServerConfig :=
  with_public_host (sanitize_browser_field (public_host p) HOST_MAX_LEN)
    (with_browser_name (if sempty (publication_name p) then "chatbox dedicated server"
                        else sanitize_browser_field (publication_name p) BROWSER_NAME_MAX_LEN)
      (with_browser_host (publication_host p) c)).

Definition dedicated_setup : UI Startup :=
  do fields <- form ui_text.dedicated_description dedicated_fields;
  let c := form_config fields in
  do t <- configure_tls (tls c);
  let c := with_tls t c in
  if publish_to_browser c then
    do p <- configure_publication no_publication;
    got (RunsServer (publish_config p c))
  else got (RunsServer c).

Definition directory_setup : UI Startup :=
  do fields <- form ui_text.directory_description [toggle_field "Use TLS" true];
  do t <- configure_tls (MkServerConfig (is_yes fields 0) "" "");
  got (RunsDirectory BROWSER_PORT t).

(** One turn of the menu: [None] to show it again. *)
Definition startup_turn : UI (option Startup) :=
  do mode <- choose ui_text.startup_subtitle startup_items;
  if (mode <? 0)%Z || (mode =? 3)%Z then got (Some Quits)
  else if (mode =? 0)%Z then got (Some Chats)
  else fun s =>
    match (if (mode =? 1)%Z then dedicated_setup else directory_setup) s with
    | None => None
    | Some (Got startup, s) => Some (Got (Some startup), s)
    | Some (FormCancelled, s) => Some (Got None, s)
    | Some (Threw, s) => (show_curses_notice "";; got None) s
    end.

(** Every turn reads a key, which bounds the loop. *)
Fixpoint startup_loop (fuel : nat) : UI Startup := fun s =>
  match fuel with
  | 0 => None
  | Datatypes.S fuel' =>
      match startup_turn s with
      | Some (Got None, s) => startup_loop fuel' s
      | Some (Got (Some startup), s) => Some (Got startup, s)
      | Some (FormCancelled, s) => Some (FormCancelled, s)
      | Some (Threw, s) => Some (Threw, s)
      | None => None
      end
  end.
Definition run_startup_menu : UI Startup := fun s => startup_loop (Datatypes.S (length (inputs s))) s.
End setup.
