(* ===== verification/SetupProperties.v ===== *)
(** Theorems about [Setup.v]: what the startup menu goes on with. *)

From S2P Require Import Prelude Utils Terminal Tls Browser Options Screen Interface InterfaceProperties Setup.
Local Open Scope string_scope.
Local Open Scope ui_scope.

Section setup_properties.
Context `{Locale} `{OpenSSL} `{Platform} `{Sodium} `{Disk}.

(* ===================================================================== *)
(** * Programs at the terminal *)

(** What a program gives, and that it does not give keys back. *)
Definition gives {A} (m : UI A) (Q : A -> Prop) : Prop :=
  forall s r s', m s = Some (r, s') ->
    (length (inputs s') <= length (inputs s))%nat /\ match r with Got a => Q a | _ => True end.

Lemma gives_got {A} (a : A) (Q : A -> Prop) : Q a -> gives (got a) Q.
Proof. intros Ha s r s' [= <- <-]. auto. Qed.
Lemma gives_cancelled {A} (Q : A -> Prop) : gives cancelled Q.
Proof. intros s r s' [= <- <-]. auto. Qed.
Lemma gives_then {A B} (m : UI A) (k : A -> UI B) P Q :
  gives m P -> (forall a, P a -> gives (k a) Q) -> gives (and_then m k) Q.
Proof.
  intros Hm Hk s r s'. unfold and_then. destruct (m s) as [[[a| |] s1]|] eqn:E; [| | |done].
  - apply Hm in E as [Hl Ha]. intros Hr. apply (Hk a Ha) in Hr as [Hl' Hr]. split; [lia|done].
  - apply Hm in E as [Hl _]. by intros [= <- <-].
  - apply Hm in E as [Hl _]. by intros [= <- <-].
Qed.
Lemma gives_weaken {A} (m : UI A) (P Q : A -> Prop) : gives m P -> (forall a, P a -> Q a) -> gives m Q.
Proof. intros Hm Hpq s r s' E. apply Hm in E as [Hl Hr]. split; [done|]. destruct r; auto. Qed.

Lemma notice_loop_shorter detail keys : forall sz offset rest,
  notice_loop detail sz offset keys = Some rest -> (length rest < length keys)%nat.
Proof.
  induction keys as [|i keys IH]; intros sz offset rest; [done|]. cbn [notice_loop length].
  destruct (notice_key sz detail offset (key i)); [intros Hr%IH; lia|intros [= <-]; lia].
Qed.
Lemma menu_loop_shorter subtitle items keys : forall m choice rest,
  menu_loop subtitle items m keys = Some (choice, rest) -> (length rest < length keys)%nat.
Proof.
  induction keys as [|i keys IH]; intros m choice rest; [done|]. cbn [menu_loop length].
  destruct (menu_key subtitle items m i); [intros Hr%IH; lia|intros [= _ <-]; lia].
Qed.
Lemma form_loop_shorter subtitle keys : forall f r rest,
  form_loop subtitle f keys = Some (r, rest) -> (length rest < length keys)%nat.
Proof.
  induction keys as [|i keys IH]; intros f r rest; [done|]. cbn [form_loop length].
  destruct (form_key subtitle f i); [intros Hr%IH; lia|intros [= _ <-]; lia|intros [= _ <-]; lia].
Qed.

(** The text of a notice does not matter to the keys it reads. *)
Lemma notice_loop_text d d' keys : forall sz o o', notice_loop d sz o keys = notice_loop d' sz o' keys.
Proof.
  induction keys as [|i keys IH]; intros sz o o'; [done|]. cbn [notice_loop]. unfold notice_key.
  destruct (is_enter (key i) || is_escape (key i)); [done|apply IH].
Qed.
Lemma notice_text_irrelevant d d' s : show_curses_notice d s = show_curses_notice d' s.
Proof. unfold show_curses_notice. by rewrite (notice_loop_text d d' _ _ 0 0). Qed.

Lemma gives_notice detail : gives (show_curses_notice detail) (fun _ => True).
Proof.
  intros s r s'. unfold show_curses_notice. destruct (notice_loop _ _ _ _) as [rest|] eqn:E; [|done].
  intros [= <- <-]. apply notice_loop_shorter in E. cbn. split; [lia|done].
Qed.

(** The choice of a menu is an item, or -1; and a menu of some items reads a key. *)
Lemma gives_choose subtitle items :
  gives (choose subtitle items) (fun choice => (-1 <= choice < Z.of_nat (length items))%Z).
Proof.
  intros s r s'. unfold choose, choose_curses_menu. destruct items as [|item items].
  - intros [= <- <-]. cbn. split; lia.
  - destruct (menu_loop _ _ _ _) as [[choice rest]|] eqn:E; [|done]. intros [= <- <-].
    pose proof (menu_loop_shorter _ _ _ _ _ _ E). apply menu_loop_bound in E; [|cbn; lia]. cbn in *. split; lia.
Qed.
Lemma choose_reads subtitle item items s r s' :
  choose subtitle (item :: items) s = Some (r, s') -> (length (inputs s') < length (inputs s))%nat.
Proof.
  unfold choose, choose_curses_menu. destruct (menu_loop _ _ _ _) as [[choice rest]|] eqn:E; [|done].
  intros [= <- <-]. by apply menu_loop_shorter in E.
Qed.

(** What a form gives. *)
Definition submitted (fs fs' : list CursesField) : Prop :=
  Forall2 answers fs fs' /\ Forall (fun f => complaint f (value f) = "") fs'.
Lemma gives_form subtitle fs : gives (form subtitle fs) (submitted fs).
Proof.
  intros s r s'. unfold form. destruct (edit_curses_form _ _ _ _) as [[[fs'|] rest]|] eqn:E; [| |done].
  - pose proof E as E'. apply (proj1 (form_gives_answers _ _ _)) in E. intros [= <- <-]. split; [|exact E].
    unfold edit_curses_form in E'. destruct fs as [|f fs]; [by injection E' as <- <-|].
    apply form_loop_shorter in E'. cbn. lia.
  - intros [= <- <-]. split; [|done]. unfold edit_curses_form in E. destruct fs as [|f fs]; [done|].
    apply form_loop_shorter in E. cbn. lia.
Qed.

(* ===================================================================== *)
(** * Fields *)

(** The value of a checked field of a form that was submitted passes its check. *)
Lemma submitted_check fs fs' i f check :
  submitted fs fs' -> fs !! i = Some f -> validate f = Some check -> check (value_at fs' i) = "".
Proof.
  intros [Ha Hv] Hi Hc. destruct (Forall2_lookup_l _ _ _ _ _ Ha Hi) as (f' & Hf' & v & -> & _).
  unfold value_at. rewrite Hf'. apply (Forall_lookup_1 _ _ _ _ Hv) in Hf'. unfold complaint in Hf'.
  cbn [validate with_value value] in *. by rewrite Hc in Hf'.
Qed.

Lemma port_check_spec v : port_check v = "" -> exists p, parse_port v = Some p /\ (p <= 65535)%N.
Proof.
  unfold port_check. destruct (parse_port v) as [p|] eqn:E; [|done]. intros _. exists p. split; [done|].
  by eapply parse_port_range.
Qed.
Lemma required_check_spec v : required_check v = "" -> v <> "".
Proof. unfold required_check. intros Hc ->. done. Qed.
Lemma browser_host_check_spec v : browser_host_check v = "" ->
  exists host, parse_browser_address v = Some host /\ host <> "".
Proof.
  unfold browser_host_check. destruct (parse_browser_address v) as [host|] eqn:E; [|done]. intros _.
  exists host. split; [done|]. revert E. unfold parse_browser_address.
  destruct (sempty (sanitize_browser_field v HOST_MAX_LEN)) eqn:Ee; [done|]. cbn [orb].
  destruct (sany _ _); [done|]. intros [= <-]. by apply sempty_false.
Qed.

(* ===================================================================== *)
(** * TLS *)

Lemma ensured_files files directory draw config files' :
  ensure_host_certificate files directory draw = (Returned config, files') -> files_missing config = false.
Proof.
  unfold ensure_host_certificate. set (config0 := MkServerConfig true _ _).
  assert (files_missing config0 = false) as Hpaths.
  { unfold files_missing, config0, path_join. cbn. by repeat case_match; destruct directory. }
  assert (forall fs c, checked fs config0 = Returned c -> files_missing c = false) as Hc.
  { intros fs c. unfold checked. destruct (configure_server_context fs config0); [|done]. by intros [= <-]. }
  repeat match goal with
  | |- context [if ?b then _ else _] => destruct b
  | |- context [match generate_certificate ?d with _ => _ end] => destruct (generate_certificate d) as [[]|]
  | |- context [create_file ?a ?b ?c] => destruct (create_file a b c) as [[?|] ?]
  end; try done; intros [= Hr _]; by eapply Hc.
Qed.

(** TLS that is configured has its two files. *)
Lemma gives_choose_tls config : gives (choose_tls config) (fun r => files_missing r.1 = false).
Proof.
  unfold choose_tls. destruct (server_enabled config) eqn:Ee; cbn [negb].
  2:{ apply gives_got. unfold files_missing. cbn [fst]. by rewrite Ee. }
  eapply gives_then; [apply gives_choose|]. intros choice _.
  destruct (choice <? 0)%Z; [apply gives_cancelled|]. destruct (choice =? 0)%Z.
  - eapply (gives_then _ _ (fun t => files_missing t = false)).
    + intros s r s'. unfold ensure_certificate.
      destruct (ensure_host_certificate _ _ _) as [[t|] files] eqn:E; intros [= <- <-]; (split; [done|]); [|done].
      by eapply ensured_files.
    + intros t Ht. eapply gives_then; [apply gives_notice|]. intros _ _.
      eapply gives_then; [intros s r s'; apply gives_notice|]. intros _ _. by apply gives_got.
  - eapply gives_then; [apply gives_form|]. intros fields Hf. apply gives_got.
    pose proof (submitted_check _ _ 0 _ _ Hf eq_refl eq_refl) as Hcert.
    pose proof (submitted_check _ _ 1 _ _ Hf eq_refl eq_refl) as Hkey.
    apply required_check_spec, sempty_false in Hcert, Hkey.
    unfold files_missing. cbn [fst certificate_path private_key_path]. rewrite Hcert, Hkey. apply andb_false_r.
Qed.
Lemma gives_check config : gives (check_context config) (fun _ => True).
Proof. intros s r s'. unfold check_context. destruct (configure_server_context _ _); by intros [= <- <-]. Qed.
Lemma gives_configure_tls config : gives (configure_tls config) (fun t => files_missing t = false).
Proof.
  unfold configure_tls. eapply gives_then; [apply gives_choose_tls|]. intros [t check] Ht. cbn [fst snd] in *.
  destruct check; [|by apply gives_got]. eapply gives_then; [apply gives_check|]. intros _ _. by apply gives_got.
Qed.

(* ===================================================================== *)
(** * The startup menu *)

(** What a setup goes on with can run. *)
Definition runnable (startup : Startup) : Prop :=
  match startup with
  | RunsServer c =>
      start_dedicated c = RunServer c /\ (port c <= 65535)%N /\ history_limit c = SERVER_HISTORY_LIMIT /\
      (publish_to_browser c = true -> browser_host c <> "")
  | RunsDirectory p t => p = BROWSER_PORT /\ files_missing t = false
  | Quits | Chats => True
  end.

Lemma form_config_spec fields p : parse_port (value_at fields 0) = Some p ->
  port (form_config fields) = p /\ history_limit (form_config fields) = SERVER_HISTORY_LIMIT /\
  browser_tls (form_config fields) = initial_client_config.
Proof. intros Hp. unfold form_config. rewrite Hp. by destruct (_ && _). Qed.

Lemma gives_publication previous : gives (configure_publication previous) (fun p => publication_host p <> "").
Proof.
  unfold configure_publication. eapply gives_then; [apply gives_form|]. intros fields Hf. apply gives_got. cbn.
  pose proof (submitted_check _ _ 0 _ _ Hf eq_refl eq_refl) as Hhost.
  apply browser_host_check_spec in Hhost as (host & -> & Hne). exact Hne.
Qed.
Lemma gives_dedicated : gives dedicated_setup runnable.
Proof.
  unfold dedicated_setup. eapply gives_then; [apply gives_form|]. intros fields Hf.
  pose proof (submitted_check _ _ 0 _ _ Hf eq_refl eq_refl) as Hport.
  apply port_check_spec in Hport as (p & Hp & Hrange). destruct (form_config_spec fields p Hp) as (Ep & El & _).
  eapply gives_then; [apply gives_configure_tls|]. intros t Ht.
  assert (forall c, tls c = t -> start_dedicated c = RunServer c) as Hstart
    by (intros c Hc; unfold start_dedicated; by rewrite Hc, Ht).
  generalize dependent (form_config fields). intros c0 Ep El. set (c := with_tls t c0).
  destruct (publish_to_browser c) eqn:Epub.
  - eapply gives_then; [apply gives_publication|].
    intros pub Hpub. apply gives_got. split; [by apply Hstart|]. unfold publish_config. cbn. subst p. by rewrite El.
  - apply gives_got. split; [by apply Hstart|]. cbn. subst p. rewrite El. split; [done|]. split; [done|].
    intros Hpub. cbn in Epub. congruence.
Qed.
Lemma gives_directory : gives directory_setup runnable.
Proof.
  unfold directory_setup. eapply gives_then; [apply gives_form|]. intros fields _.
  eapply gives_then; [apply gives_configure_tls|]. intros t Ht. by apply gives_got.
Qed.

Lemma gives_turn : gives startup_turn (fun r => match r with Some startup => runnable startup | None => True end).
Proof.
  unfold startup_turn. eapply gives_then; [apply gives_choose|]. intros mode _.
  destruct (_ || _); [by apply gives_got|]. destruct (mode =? 0)%Z; [by apply gives_got|].
  intros s r s'. set (m := if (mode =? 1)%Z then dedicated_setup else directory_setup).
  assert (gives m runnable) as Hm by (subst m; destruct (mode =? 1)%Z; [apply gives_dedicated|apply gives_directory]).
  destruct (m s) as [[[startup| |] s1]|] eqn:E; [| | |done]; apply Hm in E as [Hl Hr].
  - intros [= <- <-]. auto.
  - intros [= <- <-]. auto.
  - intros E2. eapply (gives_then _ _ (fun _ => True)) in E2 as [Hl2 Hr2];
      [|apply gives_notice|intros _ _; by apply (gives_got None (fun r => match r with Some startup => runnable startup | None => True end))].
    split; [lia|done].
Qed.
Lemma turn_reads s r s' : startup_turn s = Some (r, s') -> (length (inputs s') < length (inputs s))%nat.
Proof.
  unfold startup_turn at 1, and_then. destruct (choose _ startup_items s) as [[r1 s1]|] eqn:E; [|done].
  pose proof (choose_reads _ _ _ _ _ _ E) as Hl. destruct r1 as [mode| |]; [|by intros [= <- <-]|by intros [= <- <-]].
  intros Hrest. enough (length (inputs s') <= length (inputs s1))%nat by lia.
  revert Hrest. destruct (_ || _); [intros [= <- <-]; lia|]. destruct (mode =? 0)%Z; [intros [= <- <-]; lia|].
  set (m := if (mode =? 1)%Z then dedicated_setup else directory_setup).
  assert (gives m runnable) as Hm by (subst m; destruct (mode =? 1)%Z; [apply gives_dedicated|apply gives_directory]).
  destruct (m s1) as [[[startup| |] s2]|] eqn:E2; [| | |done]; apply Hm in E2 as [Hl2 _].
  - intros [= <- <-]. lia.
  - intros [= <- <-]. lia.
  - intros E3. eapply (gives_then _ _ (fun _ => True)) in E3 as [Hl3 _];
      [|apply gives_notice|intros _ _; by apply (gives_got None (fun _ => True))]. lia.
Qed.

(** Every error of a turn is caught. *)
Lemma turn_got s r s' : startup_turn s = Some (r, s') -> exists o, r = Got o.
Proof.
  unfold startup_turn at 1, and_then. destruct (choose _ startup_items s) as [[r1 s1]|] eqn:E; [|done].
  assert (exists mode, r1 = Got mode) as [mode ->].
  { unfold choose in E. destruct (choose_curses_menu _ _ _ _) as [[mode rest]|]; [|done]. injection E as <- _. eauto. }
  destruct (_ || _); [intros [= <- _]; eauto|]. destruct (mode =? 0)%Z; [intros [= <- _]; eauto|].
  destruct ((if (mode =? 1)%Z then dedicated_setup else directory_setup) s1) as [[[startup| |] s2]|]; [| | |done].
  - intros [= <- _]. eauto.
  - intros [= <- _]. eauto.
  - unfold show_curses_notice. destruct (notice_loop _ _ _ _); [|done]. intros [= <- _]. eauto.
Qed.

Lemma startup_loop_fuel n : forall m s,
  (length (inputs s) < n)%nat -> (length (inputs s) < m)%nat -> startup_loop n s = startup_loop m s.
Proof.
  induction n as [|n IH]; intros m s Hn Hm; [lia|]. destruct m as [|m]; [lia|]. cbn [startup_loop].
  destruct (startup_turn s) as [[[[startup|]| |] s']|] eqn:E; try done. apply turn_reads in E. apply IH; lia.
Qed.

Lemma startup_loop_sound n : forall s r s', startup_loop n s = Some (r, s') -> exists startup, r = Got startup /\ runnable startup.
Proof.
  induction n as [|n IH]; intros s r s'; [done|]. cbn [startup_loop].
  destruct (startup_turn s) as [[r1 s1]|] eqn:E; [|done]. pose proof (turn_got _ _ _ E) as [o ->].
  apply gives_turn in E as [_ Ho]. destruct o as [startup|]; [|apply IH]. intros [= <- _]. eauto.
Qed.

(** What the startup menu goes on with can run. Whatever keys are pressed, the menu
    survives every cancelled form and failed setup; it waits, quits, goes on to the
    chat, or goes on with a dedicated server that is not refused for its TLS files, on a
    valid port, and with the host of a directory when it is to publish, or with a
    directory that has TLS files unless TLS is off. It reads at least one key per turn, so
    the number of keys bounds its loop. *)
Theorem startup_menu_sound s :
  match run_startup_menu s with
  | Some (Got startup, _) => runnable startup
  | Some _ => False
  | None => True
  end /\
  forall fuel, (length (inputs s) < fuel)%nat -> startup_loop fuel s = run_startup_menu s.
Proof.
  split.
  - destruct (run_startup_menu s) as [[r s']|] eqn:E; [|done].
    apply startup_loop_sound in E as (startup & -> & Hs). exact Hs.
  - intros fuel Hf. apply startup_loop_fuel; [done|lia].
Qed.

(* ===================================================================== *)
(** * Consent to a certificate *)

(** What is typed into a form of one text. *)
Lemma sall_erase p s start n : sall p s = true -> sall p (erase s start n) = true.
Proof. intros Hs. unfold erase. rewrite sall_app, sall_stake, sall_sdrop; auto using sall_sdrop. Qed.
Lemma sall_erase_while p q fuel : forall e, sall p (text e) = true -> sall p (text (erase_while fuel q e)) = true.
Proof.
  induction fuel as [|fuel IH]; intros e He; cbn [erase_while]; [done|].
  destruct (cursor e); [done|]. destruct (String.get _ _) as [c|]; [|done]. destruct (q c); [|done].
  apply IH. by apply sall_erase.
Qed.
Lemma edit_key_typed p e k limit :
  sall p (text e) = true -> (forall c, k = Byte c -> p c = true) -> sall p (text (edit_key e k limit)) = true.
Proof.
  intros He Hk. destruct k as [c| | | | | | | | | | | | |n| | |]; cbn [edit_key]; try done; try by apply sall_erase.
  repeat match goal with |- context [if ?b then _ else _] => destruct b end; try done;
    try by apply sall_erase.
  1: by do 2 apply (sall_erase_while p).
  1: by apply (sall_sdrop p (cursor e)).
  1: by apply (sall_stake p (cursor e)).
  unfold insert. destruct (_ <? _)%N; [done|]. cbn [snd text]. unfold insert_at.
  rewrite !sall_app, sall_stake, sall_sdrop by done. cbn [sall]. by rewrite (Hk c).
Qed.

Record typed_by (p : ascii -> bool) (f : Form) : Prop := {
  one_text : exists g, fields f = [g] /\ toggle g = false /\ sall p (value g) = true;
  at_text : field f = 0%nat;
  text_typed : sall p (text (form_editor f)) = true;
}.
Lemma store_typed p f : typed_by p f -> typed_by p (store f).
Proof.
  intros [(g & Hg & Ht & Hv) H0f He]. split; [|done|done]. cbn [store fields]. rewrite Hg, H0f.
  by exists (with_value (text (form_editor f)) g).
Qed.
Lemma form_key_typed p subtitle f inp :
  typed_by p f -> (forall c, key inp = Byte c -> p c = true) ->
  match form_key subtitle f inp with
  | Goes f => typed_by p f
  | Submitted fs => sall p (value_at fs 0) = true
  | CursesFormCancelled => True
  end.
Proof.
  intros Hf%store_typed Hk. unfold form_key. set (f1 := store f) in *. clearbody f1.
  pose proof Hf as [(g & Hg & Ht & Hv) H0f He]. rewrite Hg, H0f. cbn [lookup list_lookup length].
  assert (forall e err r sz, sall p (text e) = true -> typed_by p (MkForm [g] 0 e err r sz)) as Hsame
    by (intros; split; [by exists g|done|done]).
  destruct (form_reading f1); [by apply Hsame|].
  destruct (bool_decide _); [by apply Hsame|]. destruct (is_escape _); [done|]. destruct (small _); [by apply Hsame|].
  rewrite Ht. destruct (_ || _ || (_ || _ || _)); [|by apply Hsame, edit_key_typed].
  destruct (negb _); [by apply Hsame|]. cbn [Nat.sub Nat.eqb Nat.add]. rewrite andb_true_r.
  destruct (is_enter _); [destruct (first_complaint _ _) as [[i e]|] eqn:E|].
  - apply first_complaint_some in E. cbn [length] in E. replace i with 0%nat by lia. by apply Hsame.
  - exact Hv.
  - destruct (_ || _); by apply Hsame.
Qed.
Lemma form_loop_typed p subtitle keys : forall f fs rest,
  typed_by p f -> Forall (fun i => forall c, key i = Byte c -> p c = true) keys ->
  form_loop subtitle f keys = Some (Some fs, rest) -> sall p (value_at fs 0) = true.
Proof.
  induction keys as [|i keys IH]; intros f fs rest Hf Hkeys; [done|]. cbn [form_loop].
  apply list.Forall_cons in Hkeys as [Hi Hkeys]. pose proof (form_key_typed p subtitle f i Hf Hi) as Hr.
  destruct (form_key subtitle f i); [by apply IH|by intros [= -> _]|done].
Qed.

(** A key that was there to be pressed. *)
Definition pressed (s : Seat) (c : ascii) : bool := existsb (fun i => is_byte (code c) (key i)) (inputs s).
Lemma pressed_key s c : Exists (fun i => key i = Byte c) (inputs s) -> pressed s c = true.
Proof.
  unfold pressed. induction 1 as [i l Hi|i l _ IH]; cbn [existsb]; [|by rewrite IH, orb_true_r].
  unfold is_byte. by rewrite Hi, N.eqb_refl.
Qed.
Lemma notice_loop_suffix detail keys : forall sz offset rest,
  notice_loop detail sz offset keys = Some rest -> rest `suffix_of` keys.
Proof.
  induction keys as [|i keys IH]; intros sz offset rest; [done|]. cbn [notice_loop].
  destruct (notice_key sz detail offset (key i)); [intros Hr%IH|intros [= <-]]; by apply suffix_cons_r.
Qed.
Lemma menu_loop_suffix subtitle items keys : forall m choice rest,
  menu_loop subtitle items m keys = Some (choice, rest) -> rest `suffix_of` keys.
Proof.
  induction keys as [|i keys IH]; intros m choice rest; [done|]. cbn [menu_loop].
  destruct (menu_key subtitle items m i); [intros Hr%IH|intros [= _ <-]]; by apply suffix_cons_r.
Qed.

(** A changed certificate is only accepted by hand. When the user has seen the new
    fingerprint of a server whose certificate was trusted before, and it is accepted,
    the second entry of the menu was chosen and a form submitted that says REPLACE: each
    of its letters is among the keys that were pressed. *)
Theorem replaced_by_hand address fingerprint previous s s' :
  confirm_certificate address fingerprint previous s = Some (Got true, s') -> previous <> "" ->
  sall (pressed s) "REPLACE" = true.
Proof.
  unfold confirm_certificate, show_curses_notice, choose, choose_curses_menu, and_then. intros E Hprev.
  destruct (notice_loop _ _ _ _) as [rest1|] eqn:E1; [|done]. apply notice_loop_suffix in E1.
  cbn [certificate_items inputs advance seat_size] in E.
  destruct (menu_loop _ _ _ rest1) as [[choice rest2]|] eqn:E2; [|done]. apply menu_loop_suffix in E2.
  destruct (negb (choice =? 1)%Z); [done|]. apply sempty_false in Hprev. rewrite Hprev in E.
  unfold form_or, form, edit_curses_form in E. cbn [inputs advance] in E.
  destruct (form_loop _ _ rest2) as [[[fs|] rest3]|] eqn:E3; [|done|done].
  injection E as Ev _. apply String.eqb_eq in Ev. rewrite <- Ev. revert E3. apply form_loop_typed.
  - split; [by eexists|done|done].
  - apply list.Forall_forall. intros i Hi c Hc. apply pressed_key, list.Exists_exists. exists i. split; [|done].
    destruct E1 as [k1 E1], E2 as [k2 E2]. rewrite E1, E2. set_solver.
Qed.

(** The directory's TLS settings that the form asks for do not reach the configuration. *)
Lemma publication_security_ignored pub fields p :
  parse_port (value_at fields 0) = Some p ->
  browser_tls (publish_config pub (form_config fields)) = initial_client_config.
Proof. intros Hp. apply (form_config_spec fields p Hp). Qed.
End setup_properties.
