(* ===== verification/NetworkTask.v ===== *)
(** Work that waits for the network, away from the terminal: [ui/network_task.h]. A
    worker thread does the work; the terminal thread waits for it, asks the user about
    certificates, and may give up. Both share one state, under one mutex with a condition
    variable; this file is its transition system. *)

From S2P Require Import Prelude Utils Terminal Interface.
Local Open Scope string_scope.

Record Decision := MkDecision { address : string; fingerprint : string; previous_fingerprint : string }.
#[export] Instance Decision_eq_dec : EqDecision Decision.
Proof. solve_decision. Defined.

Section network_task.
Context {R : Type}.

(* ===================================================================== *)
(** * The state *)

(** Where the worker is: in the work, or in [confirm_certificate] about a decision. It
    holds the mutex from [Testing] on, and lets go of it when it blocks or leaves. *)
Inductive Worker :=
| Working
| Asking (d : Decision)      (* waits for the mutex *)
| Testing (d : Decision)     (* is about to test the predicate of [wait] *)
| Sleeping (d : Decision)    (* the predicate was false; not yet on the condition variable *)
| Blocked (d : Decision)     (* on the condition variable *)
| Woken (d : Decision)       (* waits for the mutex again *)
| Finished.

(** Where the terminal thread is. *)
Inductive Terminal :=
| AtHead
| Deciding (d : Decision)    (* the user is asked *)
| Answering (b : bool)       (* waits for the mutex to store the answer *)
| Notifying                  (* the answer is stored *)
| Polling                    (* waits for a key *)
| Cancelling                 (* [cancelled] is set, the worker not yet notified *)
| Returned (r : option R)
| ThrownError (e : string).

(** [asked] and [told] are history: what the user answered, and what the callback
    returned to the work. *)
Record State := MkState {
  cancelled : bool;
  done : bool;
  decision : option Decision;
  answer : option bool;
  result : option R;
  task_error : string;
  deadline : N;
  worker : Worker;
  terminal : Terminal;
  asked : list (Decision * bool);
  told : list (Decision * bool);
}.

Definition initial (now : N) : State :=
  MkState false false None None None "" (now + 30000) Working AtHead [] [].

Definition locked (st : State) : bool :=
  match worker st with Testing _ | Sleeping _ => true | _ => false end.

Definition put_worker v st := MkState (cancelled st) (done st) (decision st) (answer st) (result st)
  (task_error st) (deadline st) v (terminal st) (asked st) (told st).
Definition put_terminal v st := MkState (cancelled st) (done st) (decision st) (answer st) (result st)
  (task_error st) (deadline st) (worker st) v (asked st) (told st).
Definition put_decision v st := MkState (cancelled st) (done st) v (answer st) (result st)
  (task_error st) (deadline st) (worker st) (terminal st) (asked st) (told st).
Definition put_answer v st := MkState (cancelled st) (done st) (decision st) v (result st)
  (task_error st) (deadline st) (worker st) (terminal st) (asked st) (told st).
Definition put_cancelled v st := MkState v (done st) (decision st) (answer st) (result st)
  (task_error st) (deadline st) (worker st) (terminal st) (asked st) (told st).
Definition put_deadline v st := MkState (cancelled st) (done st) (decision st) (answer st) (result st)
  (task_error st) v (worker st) (terminal st) (asked st) (told st).
Definition put_outcome r e st := MkState (cancelled st) true (decision st) (answer st) r
  e (deadline st) Finished (terminal st) (asked st) (told st).
Definition put_asked v st := MkState (cancelled st) (done st) (decision st) (answer st) (result st)
  (task_error st) (deadline st) (worker st) (terminal st) v (told st).

(* ===================================================================== *)
(** * The worker *)

(** [continue_waiting] of the worker's configuration. *)
Definition continue_waiting (st : State) : bool := negb (cancelled st).

(** [confirm_certificate] returns. *)
Definition tell (d : Decision) (b : bool) (st : State) : State :=
  MkState (cancelled st) (done st) (decision st) (answer st) (result st) (task_error st) (deadline st)
    Working (terminal st) (asked st) (told st ++ [(d, b)]).

(** [confirm_certificate] of the worker's configuration, up to the test of [wait]. *)
Definition enter (d : Decision) (st : State) : State :=
  if cancelled st then tell d false st
  else put_worker (Testing d) (put_decision (Some d) st).

(** The predicate is tested: on to what follows [wait], or to sleep. *)
Definition test_predicate (d : Decision) (st : State) : State :=
  if bool_decide (is_Some (answer st)) || cancelled st then
    let granted := negb (cancelled st) && default false (answer st) in
    tell d granted (put_answer None st)
  else put_worker (Sleeping d) st.

(** [notify_all]. *)
Definition notify_all (st : State) : State :=
  match worker st with Blocked d => put_worker (Woken d) st | _ => st end.

(* ===================================================================== *)
(** * The terminal thread *)

(** After the loop: the worker is done. *)
Definition finish (st : State) : Terminal :=
  if sempty (task_error st) then Returned (result st) else ThrownError (task_error st).

Definition take_decision (st : State) : State :=
  put_terminal (match decision st with Some d => Deciding d | None => Polling end) (put_decision None st).

(** [confirm && confirm(...)], whose answer is [b]. *)
Definition decide_now (d : Decision) (b : bool) (st : State) : State :=
  put_terminal (Answering b) (put_asked (asked st ++ [(d, b)]) st).

Definition poll (k : Key) (now : N) (st : State) : State :=
  if is_escape k || (deadline st <=? now)%N
  then put_terminal Cancelling (put_cancelled true st)
  else put_terminal AtHead st.

(* ===================================================================== *)
(** * Events *)

(** What happens next. The work may call back about any decision, any number of times,
    and end with any result or error; a thread on a condition variable may wake up by
    itself. *)
Inductive Event :=
| Calls (d : Decision)           (* worker: the work calls [confirm_certificate] *)
| Ends (r : string + R)          (* worker: the work throws or returns *)
| WorkerGoes                     (* worker: its next step in the callback *)
| WakesUp                        (* worker: a spurious wakeup *)
| Goes (now : N)                 (* terminal: its next step *)
| Answers (b : bool)             (* terminal: the user decides *)
| Key (k : Interface.Key) (now : N).  (* terminal: a key, or none within 50 ms *)

Definition worker_goes (st : State) : option State :=
  match worker st with
  | Asking d => Some (enter d st)
  | Testing d => Some (test_predicate d st)
  | Sleeping d => Some (put_worker (Blocked d) st)
  | Woken d => Some (put_worker (Testing d) st)
  | Working | Blocked _ | Finished => None
  end.

Definition terminal_goes (now : N) (st : State) : option State :=
  match terminal st with
  | AtHead =>
      if done st then Some (put_terminal (finish st) st)
      else if locked st then None else Some (take_decision st)
  | Answering b => if locked st then None else Some (put_terminal Notifying (put_answer (Some b) st))
  | Notifying => Some (put_terminal Polling (put_deadline (now + 30000)%N (notify_all st)))
  | Cancelling => Some (put_terminal (Returned None) (notify_all st))
  | Deciding _ | Polling | Returned _ | ThrownError _ => None
  end.

Definition step (e : Event) (st : State) : option State :=
  match e, worker st, terminal st with
  | Calls d, Working, _ => Some (put_worker (Asking d) st)
  | Ends (inl e), Working, _ => Some (put_outcome (result st) e st)
  | Ends (inr r), Working, _ => Some (put_outcome (Some r) (task_error st) st)
  | WorkerGoes, _, _ => worker_goes st
  | WakesUp, Blocked d, _ => Some (put_worker (Woken d) st)
  | Goes now, _, _ => terminal_goes now st
  | Answers b, _, Deciding d => Some (decide_now d b st)
  | Key k now, _, Polling => Some (poll k now st)
  | _, _, _ => None
  end.

Fixpoint run (es : list Event) (st : State) : option State :=
  match es with
  | [] => Some st
  | e :: es => match step e st with Some st => run es st | None => None end
  end.

(** What [run_network_task] can reach. *)
Definition reached (st : State) : Prop := exists now es, run es (initial now) = Some st.

(* ===================================================================== *)
(** * The invariant *)

(** The decision the callback waits for, once it has the mutex. *)
Definition waiting (w : Worker) : option Decision :=
  match w with Testing d | Sleeping d | Blocked d | Woken d => Some d | _ => None end.

(** What was granted, in order. *)
Definition granted (l : list (Decision * bool)) : list Decision :=
  omap (fun p : Decision * bool => if p.2 then Some p.1 else None) l.

Lemma granted_snoc l d b : granted (l ++ [(d, b)]) = (granted l ++ if b then [d] else [])%list.
Proof. unfold granted. rewrite omap_app. f_equal. by destruct b. Qed.

(** The question on its way to the user, and the answer on its way back. *)
Definition question (st : State) : option Decision :=
  match terminal st with Deciding d => Some d | _ => decision st end.
Definition reply (st : State) : option bool :=
  match terminal st with Answering b => Some b | _ => answer st end.
Definition over (st : State) : bool :=
  match terminal st with Cancelling | Returned _ | ThrownError _ => true | _ => false end.

Record good (st : State) : Prop := {
  good_question : forall d, question st = Some d -> cancelled st = false -> waiting (worker st) = Some d /\ reply st = None;
  good_deciding : forall d, terminal st = Deciding d -> decision st = None;
  good_answering : forall b, terminal st = Answering b -> decision st = None /\ answer st = None;
  good_reply : forall b, reply st = Some b -> cancelled st = false ->
    exists d l, waiting (worker st) = Some d /\ asked st = (l ++ [(d, b)])%list /\ granted (told st) `sublist_of` granted l;
  good_granted : granted (told st) `sublist_of` granted (asked st);
  good_over : over st = false -> cancelled st = false;
  good_done : done st = true -> worker st = Finished;
}.

Lemma good_initial now : good (initial now).
Proof. by split. Qed.

#[local] Arguments granted : simpl never.

(** Who is not in the callback has no question or answer under way. *)
Lemma idle_worker st : good st -> waiting (worker st) = None -> cancelled st = false ->
  question st = None /\ reply st = None.
Proof.
  intros Hg Hw Hc. destruct (question st) as [d|] eqn:Eq.
  - destruct (good_question st Hg d Eq Hc). congruence.
  - destruct (reply st) as [b|] eqn:Er; [|done]. destruct (good_reply st Hg b Er Hc) as (d & l & H1 & _). congruence.
Qed.

Lemma busy_worker st : good st -> worker st <> Finished -> done st = false.
Proof. intros Hg Hw. destruct (done st) eqn:E; [|done]. by apply (good_done st Hg) in E. Qed.

(** Steps inside the callback. *)
Lemma good_worker st w : good st -> worker st <> Finished -> waiting w = waiting (worker st) -> good (put_worker w st).
Proof.
  intros Hg Hb%busy_worker Hw; [|done]. destruct Hg as [Hq Hd Ha Hr Hgr Ho Hdn].
  split; unfold question, reply, over in *; cbn in *; rewrite ?Hw; done || congruence.
Qed.
Lemma good_notify st : good st -> good (notify_all st).
Proof. intros Hg. unfold notify_all. destruct (worker st) eqn:E; try done. apply good_worker; by rewrite ?E. Qed.

(** The callback returns, or the work ends, when no question is under way. *)
Lemma good_idle st w dn r err told' :
  good st -> (cancelled st = false -> question st = None /\ forall b, terminal st <> Answering b) ->
  granted told' `sublist_of` granted (asked st) -> (dn = true -> w = Finished) ->
  good (MkState (cancelled st) dn (decision st) None r err (deadline st) w (terminal st) (asked st) told').
Proof.
  intros [Hq Hd Ha Hr Hgr Ho Hdn] Hn Ht Hw. split; unfold question, reply, over in *; cbn in *; try done.
  - intros d Hd' Hc. destruct (Hn Hc) as [Hn' _]. congruence.
  - intros b Hb. by destruct (Ha b Hb).
  - intros b Hb Hc. destruct (Hn Hc) as [_ Hn']. destruct (terminal st) as [| |b0| | | | |]; try done. by destruct (Hn' b0).
Qed.

Lemma good_test st d : good st -> worker st = Testing d -> good (test_predicate d st).
Proof.
  intros Hg Hw. assert (done st = false) as Hn by (apply busy_worker; [done|by rewrite Hw]). unfold test_predicate.
  destruct (cancelled st) eqn:Ec; [|destruct (answer st) as [b|] eqn:Ea].
  - rewrite orb_true_r. unfold tell. cbn. apply good_idle; [done|congruence| |congruence].
    rewrite granted_snoc, app_nil_r. apply (good_granted st Hg).
  - assert (forall b, terminal st <> Answering b) as Ht by (intros b' [_ Hb']%(good_answering st Hg); congruence).
    assert (reply st = Some b) as Hr by (unfold reply; destruct (terminal st) as [| |b0| | | | |]; try done; by destruct (Ht b0)).
    assert (question st = None) as Hq by (destruct (question st) eqn:Eq; [|done]; apply (good_question st Hg) in Eq as [_ Eq]; congruence).
    destruct (good_reply st Hg b Hr Ec) as (d' & l & Hd & Hl & Hs). rewrite Hw in Hd. injection Hd as <-.
    unfold tell. cbn. apply good_idle; [done|done| |congruence].
    rewrite Hl, !granted_snoc. by apply sublist_app.
  - apply good_worker; by rewrite ?Hw.
Qed.

Lemma good_told st d : good st -> cancelled st = true -> worker st <> Finished -> good (tell d false st).
Proof.
  intros [Hq Hd Ha Hr Hgr Ho Hdn] Hc Hw. assert (done st <> true) as Hn by (by intros Hn%Hdn).
  split; unfold question, reply, over in *; cbn in *; try done; try congruence.
  by rewrite granted_snoc, app_nil_r.
Qed.

Lemma good_enter st d : good st -> worker st = Asking d -> good (enter d st).
Proof.
  intros Hg Hw. assert (worker st <> Finished) as Hf by (by rewrite Hw). unfold enter.
  destruct (cancelled st) eqn:Ec; [by apply good_told|].
  destruct (idle_worker st Hg) as [Hq Hr]; [by rewrite Hw|done|]. pose proof (busy_worker st Hg Hf) as Hn.
  destruct Hg as [_ Hd Ha _ Hgr Ho _]. unfold question, reply, over in *.
  destruct (terminal st) eqn:Et; try done; split; unfold question, reply, over; cbn; rewrite ?Et; try done;
    intros; simplify_eq/=; done || congruence.
Qed.

Lemma good_take st : good st -> terminal st = AtHead -> good (take_decision st).
Proof.
  intros [Hq Hd Ha Hr Hgr Ho Hdn] Ht. unfold take_decision.
  unfold question, reply, over in *. rewrite Ht in *.
  destruct (decision st) as [d|] eqn:Ed; split; unfold question, reply, over; cbn; try done; naive_solver.
Qed.
Lemma good_decide st d b : good st -> terminal st = Deciding d -> good (decide_now d b st).
Proof.
  intros [Hq Hd Ha Hr Hgr Ho Hdn] Ht. unfold question, reply, over in *. rewrite Ht in *.
  pose proof (Hd d eq_refl) as Hdec. specialize (Ho eq_refl). destruct (Hq d eq_refl Ho) as [Hw Hans].
  split; unfold question, reply, over; cbn; try done.
  - congruence.
  - intros b' [= <-] _. by exists d, (asked st).
  - etransitivity; [exact Hgr|]. rewrite granted_snoc. apply sublist_inserts_r. done.
Qed.
Lemma good_answer st b : good st -> terminal st = Answering b -> good (put_terminal Notifying (put_answer (Some b) st)).
Proof.
  intros [Hq Hd Ha Hr Hgr Ho Hdn] Ht. destruct (Ha b Ht) as [Hdec Hans]. unfold question, reply, over in *. rewrite Ht in *.
  split; unfold question, reply, over; cbn; try done; congruence.
Qed.
(** The terminal thread goes on, or gives up. *)
Definition with_user (t : Terminal) : bool := match t with Deciding _ | Answering _ => true | _ => false end.
Lemma good_terminal st t now : good st -> with_user (terminal st) = false -> with_user t = false ->
  (over (put_terminal t st) = false -> cancelled st = false) -> good (put_terminal t (put_deadline now st)).
Proof.
  intros [Hq Hd Ha Hr Hgr Ho Hdn] Hu Hu' Hov.
  assert (question (put_terminal t (put_deadline now st)) = question st) as Eq
    by (unfold question; cbn; by destruct t, (terminal st)).
  assert (reply (put_terminal t (put_deadline now st)) = reply st) as Er
    by (unfold reply; cbn; by destruct t, (terminal st)).
  split; rewrite ?Eq, ?Er; cbn; try done; intros d ->; done.
Qed.
Lemma good_cancel st : good st -> with_user (terminal st) = false -> good (put_terminal Cancelling (put_cancelled true st)).
Proof. intros [Hq Hd Ha Hr Hgr Ho Hdn] Hu. by split. Qed.

Lemma good_ends st r e : good st -> worker st = Working -> good (put_outcome r e st).
Proof.
  intros Hg Hw. assert (cancelled st = false -> question st = None /\ reply st = None) as Hi
    by (apply idle_worker; by rewrite ?Hw).
  destruct Hg as [_ Hd Ha _ Hgr Ho _]. unfold question, reply, over in *.
  split; unfold question, reply, over; cbn; try done; intros ? E Hc; destruct (Hi Hc); congruence.
Qed.

Lemma good_step e st st' : good st -> step e st = Some st' -> good st'.
Proof.
  intros Hg. assert (forall t, put_terminal t st = put_terminal t (put_deadline (deadline st) st)) as Eput
    by (intros t; by destruct st).
  destruct e as [d|[e|r]| | |now|b|k now]; cbn [step].
  - destruct (worker st) eqn:Ew; try done. intros [= <-]. apply good_worker; by rewrite ?Ew.
  - destruct (worker st) eqn:Ew; try done. intros [= <-]. by apply good_ends.
  - destruct (worker st) eqn:Ew; try done. intros [= <-]. by apply good_ends.
  - intros Hs. assert (worker_goes st = Some st') as Hw by (by destruct (worker st), (terminal st)). clear Hs.
    unfold worker_goes in Hw. destruct (worker st) eqn:Ew; try done; injection Hw as <-.
    + by apply good_enter.
    + by apply good_test.
    + apply good_worker; by rewrite ?Ew.
    + apply good_worker; by rewrite ?Ew.
  - destruct (worker st) eqn:Ew; try done. intros [= <-]. apply good_worker; by rewrite ?Ew.
  - intros Hs. assert (terminal_goes now st = Some st') as Ht by (by destruct (worker st)). clear Hs. revert Ht.
    unfold terminal_goes. destruct (terminal st) eqn:Et; try done.
    + pose proof (good_over st Hg) as Ho. unfold over in Ho. rewrite Et in Ho. specialize (Ho eq_refl).
      destruct (done st); [|destruct (locked st); [done|]].
      * intros [= <-]. rewrite Eput. apply good_terminal; rewrite ?Et; try done. unfold finish. by destruct (sempty _).
      * intros [= <-]. by apply good_take.
    + destruct (locked st); [done|]. intros [= <-]. by apply good_answer.
    + pose proof (good_over st Hg) as Ho. unfold over in Ho. rewrite Et in Ho. specialize (Ho eq_refl).
      intros [= <-]. apply good_notify in Hg.
      assert (terminal (notify_all st) = Notifying /\ cancelled (notify_all st) = false) as [Et' Ec']
        by (unfold notify_all; by destruct (worker st)).
      apply good_terminal; by rewrite ?Et'.
    + intros [= <-]. apply good_notify in Hg.
      assert (terminal (notify_all st) = Cancelling) as Et' by (unfold notify_all; by destruct (worker st)).
      assert (forall t, put_terminal t (notify_all st) = put_terminal t (put_deadline (deadline st) (notify_all st))) as ->
        by (intros t; unfold notify_all; destruct st as [? ? ? ? ? ? ? w]; by destruct w).
      apply good_terminal; by rewrite ?Et'.
  - intros Hs. assert (exists d, terminal st = Deciding d /\ st' = decide_now d b st) as (d & Hd & ->).
    { destruct (worker st), (terminal st); try done; injection Hs as <-; eauto. }
    by apply good_decide.
  - intros Hs. assert (terminal st = Polling /\ st' = poll k now st) as [Ht ->].
    { destruct (worker st), (terminal st); try done; by injection Hs as <-. }
    pose proof (good_over st Hg) as Ho. unfold over in Ho. rewrite Ht in Ho. specialize (Ho eq_refl).
    unfold poll. destruct (_ || _); [apply good_cancel; by rewrite ?Ht|].
    rewrite Eput. apply good_terminal; by rewrite ?Ht.
Qed.

Lemma good_run es : forall st st', good st -> run es st = Some st' -> good st'.
Proof.
  induction es as [|e es IH]; intros st st' Hg; cbn [run]; [by intros [= <-]|].
  destruct (step e st) as [st1|] eqn:E; [|done]. apply IH. by eapply good_step.
Qed.
Lemma good_reached st : reached st -> good st.
Proof. intros (now & es & Hr). by eapply good_run, Hr. Qed.

(* ===================================================================== *)
(** * Consent *)

(** Once the user has given up, nothing is asked or granted any more. *)
Lemma cancelled_step e st st' : good st -> cancelled st = true -> step e st = Some st' ->
  cancelled st' = true /\ asked st' = asked st /\ granted (told st') = granted (told st).
Proof.
  intros Hg Hc. assert (over st = true) as Ho by (destruct (over st) eqn:E; [done|]; apply (good_over st Hg) in E; congruence).
  unfold over in Ho. destruct e as [d|[e|r]| | |now|b|k now]; cbn [step].
  1-3: destruct (worker st); try done; by intros [= <-].
  - intros Hs. assert (worker_goes st = Some st') as Hw by (by destruct (worker st), (terminal st)). clear Hs. revert Hw.
    unfold worker_goes, enter, test_predicate. rewrite Hc, orb_true_r.
    destruct (worker st); try done; intros [= <-]; cbn; by rewrite ?granted_snoc, ?app_nil_r.
  - destruct (worker st); try done; by intros [= <-].
  - intros Hs. assert (terminal_goes now st = Some st') as Ht by (by destruct (worker st)). clear Hs. revert Ht.
    unfold terminal_goes, notify_all. destruct (terminal st); try done. intros [= <-]. by destruct (worker st).
  - by destruct (worker st), (terminal st).
  - by destruct (worker st), (terminal st).
Qed.
Lemma cancelled_run es : forall st st', good st -> cancelled st = true -> run es st = Some st' ->
  asked st' = asked st /\ granted (told st') = granted (told st).
Proof.
  induction es as [|e es IH]; intros st st' Hg Hc; cbn [run]; [by intros [= <-]|].
  destruct (step e st) as [st1|] eqn:E; [|done]. intros Hr.
  destruct (cancelled_step _ _ _ Hg Hc E) as (Hc1 & <- & <-). apply (IH st1); [by eapply good_step|done|done].
Qed.

(** A result is what the work returned. *)
Definition made_by (es : list Event) (st : State) : Prop :=
  (forall r, result st = Some r -> Ends (inr r) ∈ es) /\
  (forall r, terminal st = Returned (Some r) -> Ends (inr r) ∈ es).
Lemma step_made e es st st' : made_by es st -> step e st = Some st' -> made_by (e :: es) st'.
Proof.
  intros [Hr Ht]. assert (forall r, result st = Some r -> Ends (inr r) ∈ e :: es) as Hr' by (intros r E; right; auto).
  assert (forall r, terminal st = Returned (Some r) -> Ends (inr r) ∈ e :: es) as Ht' by (intros r E; right; auto).
  destruct e as [d|[x|r]| | |now|b|k now]; cbn [step].
  1-2: destruct (worker st); try done; by intros [= <-].
  - destruct (worker st); try done. intros [= <-]. split; [|done]. intros r' [= <-]. left.
  - intros Hs. assert (worker_goes st = Some st') as Hw by (by destruct (worker st), (terminal st)). clear Hs. revert Hw.
    unfold worker_goes, enter, test_predicate.
    destruct (worker st); try done; repeat (case_match; try done); intros [= <-]; done.
  - destruct (worker st); try done; by intros [= <-].
  - intros Hs. assert (terminal_goes now st = Some st') as Hg by (by destruct (worker st)). clear Hs. revert Hg.
    unfold terminal_goes, finish, notify_all, take_decision.
    destruct (terminal st); try done; repeat (case_match; try done); intros [= <-]; split; cbn; try done; naive_solver.
  - destruct (worker st), (terminal st); try done; by intros [= <-].
  - unfold poll. destruct (worker st), (terminal st); try done; intros [= <-]; by destruct (_ || _).
Qed.
Lemma run_made es : forall es0 st st', made_by es0 st -> run es st = Some st' -> made_by (rev es ++ es0)%list st'.
Proof.
  induction es as [|e es IH]; intros es0 st st' Hm; cbn [run rev]; [by intros [= <-]|].
  destruct (step e st) as [st1|] eqn:E; [|done]. rewrite <- app_assoc. apply IH. by eapply step_made.
Qed.

(** C23: the user decides. However the worker and the terminal thread interleave, the
    certificates the work sees accepted are, in order, certificates that the user
    accepted, each for one acceptance and with the address and fingerprints that were
    shown. Once the user has given up, nothing is accepted any more; and a result that
    the task returns is the one its work returned. *)
Theorem consent_is_the_users now es st :
  run es (initial now) = Some st ->
  granted (told st) `sublist_of` granted (asked st) /\
  (cancelled st = true -> forall es' st', run es' st = Some st' ->
     asked st' = asked st /\ granted (told st') = granted (told st)) /\
  (forall r, terminal st = Returned (Some r) -> Ends (inr r) ∈ es).
Proof.
  intros Hr. pose proof (good_run es _ _ (good_initial now) Hr) as Hg. split_and!.
  - apply (good_granted st Hg).
  - intros Hc es' st'. by apply cancelled_run.
  - intros r Ht. eapply (run_made es []) in Hr as [_ Hr]; [|by split].
    apply Hr in Ht. rewrite app_nil_r in Ht. apply list_elem_of_In, in_rev, list_elem_of_In in Ht. done.
Qed.

(* ===================================================================== *)
(** * Progress *)

(** Who sleeps has no answer; who blocks although there is one is about to be notified. *)
Record awake (st : State) : Prop := {
  awake_sleeping : forall d, worker st = Sleeping d -> cancelled st = false -> answer st = None;
  awake_blocked : forall d b, worker st = Blocked d -> answer st = Some b -> cancelled st = false -> terminal st = Notifying;
}.
Lemma awake_step e st st' : awake st -> step e st = Some st' -> awake st'.
Proof.
  intros [Hs Hb]. destruct e as [d|[x|r]| | |now|b|k now]; cbn [step].
  1-3: destruct (worker st) eqn:Ew; try done; by intros [= <-].
  - intros Hst. assert (worker_goes st = Some st') as Hw by (by destruct (worker st), (terminal st)). clear Hst. revert Hw.
    unfold worker_goes, enter, test_predicate. destruct (worker st) as [|d|d|d|d|d|] eqn:Ew; try done.
    + destruct (cancelled st); by intros [= <-].
    + destruct (answer st) as [b|] eqn:Ea, (cancelled st) eqn:Ec; cbn; intros [= <-]; by split.
    + intros [= <-]. split; cbn; [done|]. intros d' b _ Ha Hc. by rewrite (Hs d eq_refl Hc) in Ha.
    + by intros [= <-].
  - destruct (worker st) eqn:Ew; try done; by intros [= <-].
  - intros Hst. assert (terminal_goes now st = Some st') as Hg by (by destruct (worker st)). clear Hst. revert Hg.
    unfold terminal_goes, notify_all, take_decision, locked.
    destruct (terminal st) eqn:Et; try done; destruct (done st), (worker st) eqn:Ew; try done; intros [= <-];
      split; cbn; rewrite ?Ew; try done; naive_solver.
  - intros Hst. assert (exists d, terminal st = Deciding d /\ st' = decide_now d b st) as (d & Hd & ->).
    { destruct (worker st), (terminal st); try done; injection Hst as <-; eauto. }
    split; cbn; [done|]. intros d' b' Hw Ha Hc. by rewrite (Hb d' b' Hw Ha Hc) in Hd.
  - intros Hst. assert (terminal st = Polling /\ st' = poll k now st) as [Ht ->].
    { destruct (worker st), (terminal st); try done; by injection Hst as <-. }
    unfold poll. destruct (_ || _); [done|]. split; cbn; [done|].
    intros d' b' Hw Ha Hc. by rewrite (Hb d' b' Hw Ha Hc) in Ht.
Qed.
Lemma awake_run es : forall st st', awake st -> run es st = Some st' -> awake st'.
Proof.
  induction es as [|e es IH]; intros st st' Ha; cbn [run]; [by intros [= <-]|].
  destruct (step e st) as [st1|] eqn:E; [|done]. apply IH. by eapply awake_step.
Qed.
Lemma awake_initial now : awake (initial now).
Proof. by split. Qed.

Lemma run_worker es st : forall st1, worker_goes st = Some st1 -> run (WorkerGoes :: es) st = run es st1.
Proof. intros st1 Hw. cbn [run step]. by destruct (worker st), (terminal st); rewrite ?Hw. Qed.

(** The worker keeps the mutex for at most two of its steps. *)
Lemma unlocks st : exists n st', (n <= 2)%nat /\ run (replicate n WorkerGoes) st = Some st' /\
  locked st' = false /\ terminal st' = terminal st /\ done st' = done st.
Proof.
  unfold locked at 1. destruct (worker st) as [|d|d|d|d|d|] eqn:Ew.
  1,2,5,6,7: exists 0%nat, st; unfold locked; rewrite Ew; (split_and!; [lia|done..]).
  - destruct (bool_decide (is_Some (answer st)) || cancelled st) eqn:Ep.
    + eexists 1%nat, _. split; [lia|]. cbn [replicate]. erewrite run_worker by (unfold worker_goes; by rewrite Ew).
      cbn [run]. unfold test_predicate. rewrite Ep. done.
    + eexists 2%nat, _. split; [lia|]. cbn [replicate]. erewrite run_worker by (unfold worker_goes; by rewrite Ew).
      unfold test_predicate. rewrite Ep. erewrite run_worker by done. by cbn.
  - eexists 1%nat, _. split; [lia|]. cbn [replicate]. erewrite run_worker by (unfold worker_goes; by rewrite Ew). by cbn.
Qed.

(** Nobody waits for ever while the user has not given up. The terminal thread can
    always go on, at most two steps of the worker later: with its next step, the
    user's decision or a key. An answer that was stored and notified reaches the work
    within three steps of the worker. And Escape, or a deadline that has passed, makes
    the task return nothing, whatever the worker does. *)
Theorem task_goes_on now es st :
  run es (initial now) = Some st ->
  (match terminal st with Returned _ | ThrownError _ => False | _ => True end ->
   exists n st1, (n <= 2)%nat /\ run (replicate n WorkerGoes) st = Some st1 /\ terminal st1 = terminal st /\
     exists e st2, step e st1 = Some st2 /\ terminal st2 <> terminal st) /\
  (forall b, answer st = Some b -> cancelled st = false -> terminal st <> Notifying ->
   exists n st1 d, (n <= 3)%nat /\ run (replicate n WorkerGoes) st = Some st1 /\ told st1 = (told st ++ [(d, b)])%list) /\
  (forall k t, terminal st = Polling -> is_escape k = true \/ (deadline st <= t)%N ->
   exists st1, run [Key k t; Goes t] st = Some st1 /\ terminal st1 = Returned None).
Proof.
  intros Hr. pose proof (good_run es _ _ (good_initial now) Hr) as Hg.
  pose proof (awake_run es _ _ (awake_initial now) Hr) as Hw. clear Hr. split_and!.
  - intros Hnot. destruct (unlocks st) as (n & st1 & Hn & Hrun & Hl & Ht & Hd). exists n, st1. split_and!; [done..|].
    rewrite <- Ht in Hnot |- *. clear -Hl Hnot. destruct (terminal st1) as [|d|b| | | |r|e] eqn:Et; try done.
    + exists (Goes 0). cbn. unfold terminal_goes. rewrite Et, Hl.
      destruct (worker st1), (done st1); (eexists; split; [done|]); cbn; unfold finish; repeat case_match; done.
    + exists (Answers true). cbn. rewrite Et. destruct (worker st1); by eexists.
    + exists (Goes 0). cbn. unfold terminal_goes. rewrite Et, Hl. destruct (worker st1); by eexists.
    + exists (Goes 0). cbn. unfold terminal_goes. rewrite Et. destruct (worker st1); by eexists.
    + exists (Key OtherKey 0). cbn. rewrite Et. unfold poll. destruct (worker st1); eexists; (split; [done|]); by case_match.
    + exists (Goes 0). cbn. unfold terminal_goes. rewrite Et. destruct (worker st1); by eexists.
  - intros b Ha Hc Ht. assert (reply st = Some b) as Hrep.
    { unfold reply. destruct (terminal st) as [| |b'| | | | |] eqn:Et; try done.
      destruct (good_answering st Hg b' Et). congruence. }
    destruct (good_reply st Hg b Hrep Hc) as (d & l & Hd & _).
    assert (forall s, answer s = Some b -> cancelled s = false -> test_predicate d s = tell d b (put_answer None s)) as Htest
      by (intros s Has Hcs; unfold test_predicate; by rewrite Has, Hcs).
    destruct (worker st) as [|d0|d0|d0|d0|d0|] eqn:Ew; try done; injection Hd as ->.
    + eexists 1%nat, _, d. split; [lia|]. cbn [replicate]. erewrite run_worker by (unfold worker_goes; by rewrite Ew).
      rewrite Htest by done. by cbn.
    + rewrite (awake_sleeping st Hw d Ew Hc) in Ha. done.
    + by rewrite (awake_blocked st Hw d b Ew Ha Hc) in Ht.
    + eexists 2%nat, _, d. split; [lia|]. cbn [replicate]. erewrite run_worker by (unfold worker_goes; by rewrite Ew).
      erewrite run_worker by done. rewrite Htest by done. by cbn.
  - intros k t Ht Hk. assert (is_escape k || (deadline st <=? t)%N = true) as Hk'
      by (apply orb_true_iff; destruct Hk as [->|?]; [by left|right; by apply N.leb_le]).
    eexists. split.
    + cbn. rewrite Ht. unfold poll. rewrite Hk'. by destruct (worker st).
    + by unfold notify_all; destruct (worker st).
Qed.

(** Giving up can be missed: [cancelled] is set and notified without the mutex, between
    the worker's test of the predicate and its wait. The worker then stays blocked for
    ever, unless it wakes up by itself. *)
Lemma cancel_wakeup_lost now (d : Decision) : exists es st,
  run es (initial now) = Some st /\ terminal st = Returned None /\ worker st = Blocked d /\
  forall e st', step e st = Some st' -> e = WakesUp.
Proof.
  exists [Goes now; Calls d; WorkerGoes; WorkerGoes; Key (Byte "027"%char) now; Goes now; WorkerGoes].
  exists (MkState true false (Some d) None None "" (now + 30000) (Blocked d) (Returned None) [] []).
  unfold initial. generalize (now + 30000)%N. intros dl. split; [reflexivity|]. split_and!; [done..|].
  by intros [d'|[x|r]| | |t|b|k t] st'.
Qed.
End network_task.
