(* ===== verification/JoinSession.v ===== *)
(** Joining a server from the menus: [join_client_session], [wait_for_session],
    [explain_connection_error] and the loop of attempts of [ui/interactive_app.cpp]. The
    terminal thread looks at the flags of the client while the network thread changes
    them; between any two looks the client may make any steps. *)

From S2P Require Import Prelude DisplayText Frame Message Utils AppState Tls ChatClient ClientProperties Interface.
Local Open Scope string_scope.
Local Open Scope chat_scope.

(* ===================================================================== *)
(** * What went wrong *)

Definition explain_connection_error (failure : ConnectionFailure) : string :=
  match failure with
  | Dns => ui_text.connection_dns_error
  | Refused => ui_text.connection_refused_error
  | Timeout => ui_text.connection_timeout_error
  | TlsFailure => ui_text.connection_tls_error
  | Cancelled => "Cancelled. You can edit the details and retry."
  | NoFailure | NetworkFailure => ui_text.connection_generic_error
  end.

(* ===================================================================== *)
(** * Joining *)

(** What [wait_for_session] waits for. *)
Inductive Stage := Handshake | Password | Join.

Definition ready (s : Stage) (w : ClientWorld) : bool :=
  match s with
  | Handshake => auth_required_ (client w) || auth_resolved_ (client w)
  | Password => auth_resolved_ (client w)
  | Join => join_resolved_ (client w)
  end.
Definition timed_out (s : Stage) : string :=
  match s with
  | Handshake => "Protocol handshake timed out or was cancelled."
  | Password => "Authentication timed out or was cancelled."
  | Join => "Joining timed out or was cancelled."
  end.

(** Where [join_client_session] is. *)
Inductive Phase :=
| Looping (s : Stage)     (* the condition of the loop of [wait_for_session] *)
| KeyWait (s : Stage)     (* [getch] *)
| Leaving (s : Stage)     (* [return ready()] *)
| AsksRequired            (* [if (client.auth_required())] *)
| TypesPassword           (* [prompt_curses_password] *)
| ChecksPassword          (* [!client.auth_ok()], the password sent *)
| ChecksAuth              (* [!client.auth_ok()], before [identify] *)
| ChecksBanned | ChecksTaken | ChecksFailed
| Joined
| Fails (error : string).

(** What the terminal thread told the client to send; kept as history. *)
Inductive Call := CallsAuthenticate (password : string) | CallsIdentify.

Record Joining := MkJoining { phase : Phase; world : ClientWorld; calls : list Call }.

(** The next step, at a key or with a password; [late] when the five seconds are over. *)
Inductive Turn := Goes (late : bool) | Press (k : Key) | Enters (password : option string).

Section joining.
Context `{OpenSSL} `{Platform} `{Sodium} `{Disk}.

Definition after (s : Stage) : Phase :=
  match s with Handshake => AsksRequired | Password => ChecksPassword | Join => ChecksBanned end.

Definition join_turn (nick : string) (t : Turn) (j : Joining) : option Joining :=
  let w := world j in
  let goes p := Some (MkJoining p w (calls j)) in
  match phase j, t with
  | Looping s, Goes late => goes (if ready s w || late then Leaving s else KeyWait s)
  | KeyWait s, Press k => goes (if is_escape k then Fails (timed_out s) else Looping s)
  | Leaving s, Goes _ => goes (if ready s w then after s else Fails (timed_out s))
  | AsksRequired, Goes _ => goes (if auth_required_ (client w) then TypesPassword else ChecksAuth)
  | TypesPassword, Enters (Some password) =>
      Some (MkJoining (Looping Password) (send (Client.Authenticate password) w).2
              (calls j ++ [CallsAuthenticate password]))
  | TypesPassword, Enters None => goes (Fails "Joining was cancelled.")
  | ChecksPassword, Goes _ =>
      goes (if auth_ok_ (client w) then ChecksAuth else Fails "Authentication failed. Wrong password.")
  | ChecksAuth, Goes _ =>
      if auth_ok_ (client w)
      then Some (MkJoining (Looping Join) (identify nick w).2 (calls j ++ [CallsIdentify]))
      else goes (Fails "Server rejected authentication or the protocol handshake.")
  | ChecksBanned, Goes _ =>
      goes (if banned_ (client w) then Fails "You are banned from this server." else ChecksTaken)
  | ChecksTaken, Goes _ =>
      goes (if nickname_taken_ (client w) then Fails "Nickname is already in use." else ChecksFailed)
  | ChecksFailed, Goes _ =>
      goes (if join_failed_ (client w) then Fails ("Join failed: " +:+ join_failure_reason_ (client w)) else Joined)
  | _, _ => None
  end.

(** The execution of a client that connects and then joins, with the events of the client
    so far. *)
Inductive joins (w0 : ClientWorld) (nick : string) : list (ClientWorld * Event) -> Joining -> Prop :=
| joins_start tr w : runs w0 tr w -> joins w0 nick tr (MkJoining (Looping Handshake) w [])
| joins_network tr j e w : joins w0 nick tr j -> step (world j) e w ->
    joins w0 nick (tr ++ [(world j, e)]) (MkJoining (phase j) w (calls j))
| joins_turn tr j t j' : joins w0 nick tr j -> join_turn nick t j = Some j' -> joins w0 nick tr j'.
End joining.

(* ===================================================================== *)
(** * Attempts *)

(** One turn of the loop that connects, joins and chats, by how it goes. *)
Inductive Attempt :=
| DelayCancelled                                      (* [reconnect_delay], Escape *)
| ConnectFails (failure : ConnectionFailure) (retry : bool)   (* [retry]: the choice of the menu *)
| JoinFails (error : string)
| ChatEnds (result : ChatExit) (denied : bool) (room : string).

Record Attempts := MkAttempts { reconnecting : bool; retries : nat; restore_room : string }.
Definition first_attempt : Attempts := MkAttempts false 0 "".

(** [reconnecting && retries < 3 && failure != Tls && failure != Cancelled]. *)
Definition tries_again (a : Attempts) (failure : ConnectionFailure) : bool :=
  reconnecting a && (retries a <? 3)%nat
  && negb (match failure with TlsFailure | Cancelled => true | _ => false end).

(** [None]: back to the menu. A delay precedes an attempt that reconnects, whose number is
    counted first. *)
Definition delayed (a : Attempts) : Attempts :=
  if reconnecting a then MkAttempts true (Datatypes.S (retries a)) (restore_room a) else a.
Definition attempt (o : Attempt) (a : Attempts) : option Attempts :=
  let a := delayed a in
  match o with
  | DelayCancelled => None
  | ConnectFails failure retry =>
      if tries_again a failure then Some a
      else if match failure with Cancelled => true | _ => negb retry end then None
      else Some (MkAttempts false 0 (restore_room a))
  | JoinFails _ => None
  | ChatEnds result denied room =>
      match result with
      | Left => None
      | Disconnected => if denied then None else Some (MkAttempts true 0 room)
      end
  end.

(** What is sent first when a room is restored. *)
Definition restore_line (a : Attempts) : option string :=
  if sempty (restore_room a) || String.eqb (restore_room a) "lobby" then None
  else Some ("/join " +:+ restore_room a).
