(* ===== verification/SessionProperties.v ===== *)
(** Theorems about [JoinSession.v]: what the client has heard from the server when
    joining says and does something, and how often the program reconnects by itself. *)

From S2P Require Import Prelude Frame Message Utils AppState Tls ChatClient ClientProperties JoinSession.
Local Open Scope string_scope.
Local Open Scope chat_scope.

(* ===================================================================== *)
(** * The flags of a client *)

Record Flags := MkFlags {
  negotiated : bool; required : bool; resolved : bool; ok : bool;
  joined : bool; banned : bool; taken : bool; failed : bool;
}.
Definition flags (w : ClientWorld) : Flags :=
  let c := client w in
  MkFlags (protocol_negotiated_ c) (auth_required_ c) (auth_resolved_ c) (auth_ok_ c)
    (join_resolved_ c) (banned_ c) (nickname_taken_ c) (join_failed_ c).

(** What a message does to them, and what a failure does. *)
Definition no_join (f : Flags) : Flags :=
  MkFlags (negotiated f) (required f) (resolved f) (ok f) true (banned f) (taken f) true.
Definition no_handshake (f : Flags) : Flags :=
  MkFlags (negotiated f) (required f) true false true (banned f) (taken f) true.
Definition hears (m : Server.message) (f : Flags) : Flags :=
  match m with
  | Server.Hello v => MkFlags (v =? VERSION)%N (required f) (resolved f) (ok f) (joined f) (banned f) (taken f) (failed f)
  | Server.AuthRequired => MkFlags (negotiated f) true (resolved f) (ok f) (joined f) (banned f) (taken f) (failed f)
  | Server.AuthAccepted => MkFlags (negotiated f) (required f) true true (joined f) (banned f) (taken f) (failed f)
  | Server.AuthRejected => MkFlags (negotiated f) (required f) true false (joined f) (banned f) (taken f) (failed f)
  | Server.JoinAccepted => MkFlags (negotiated f) (required f) (resolved f) (ok f) true (banned f) (taken f) (failed f)
  | Server.Banned => MkFlags (negotiated f) (required f) (resolved f) (ok f) true true (taken f) (failed f)
  | Server.NicknameTaken => MkFlags (negotiated f) (required f) (resolved f) (ok f) true (banned f) true (failed f)
  | Server.JoinRejected _ => no_join f
  | _ => f
  end.

Section client_flags.
Context `{OpenSSL} `{Platform} `{Sodium} `{Disk}.

Lemma flags_app f : frames flags (on_app f).
Proof. by intros w. Qed.
Lemma flags_say text : frames flags (say text).
Proof. by intros w. Qed.
Lemma flags_post t : frames flags (post t).
Proof. by intros w. Qed.
Lemma flags_start p : frames flags (start p).
Proof. by intros w. Qed.
Lemma flags_modify f : (forall w, flags (f w) = flags w) -> frames flags (modify f).
Proof. intros Hf w. apply Hf. Qed.
#[local] Hint Resolve flags_app flags_say flags_post flags_start : chat_frames.
Ltac flags_tac :=
  frames_tac; try (apply frames_client; intros; reflexivity); try (apply flags_modify; intros; reflexivity).

Lemma flags_send msg : frames flags (send msg).
Proof. unfold send. flags_tac. Qed.
#[local] Hint Resolve flags_send : chat_frames.
Lemma flags_close : frames flags close.
Proof. unfold close. flags_tac. Qed.
Lemma flags_request_rooms : frames flags request_rooms.
Proof. unfold request_rooms. flags_tac. Qed.
Lemma flags_set_identity i : frames flags (set_identity i).
Proof. unfold set_identity. flags_tac. Qed.
Lemma flags_close_stream : frames flags close_stream.
Proof. unfold close_stream. flags_tac. Qed.
Lemma flags_read_loop : frames flags read_loop.
Proof. unfold read_loop. flags_tac. Qed.
Lemma flags_write_next : frames flags write_next.
Proof. unfold write_next. flags_tac. Qed.
#[local] Hint Resolve flags_close_stream flags_read_loop flags_write_next flags_close : chat_frames.
Lemma flags_run_task t : frames flags (run_task t).
Proof. unfold run_task. flags_tac. Qed.
Lemma flags_on_written : frames flags on_written.
Proof. unfold on_written. flags_tac. Qed.
Lemma flags_on_write_error a m : frames flags (on_write_error a m).
Proof. unfold on_write_error. flags_tac. Qed.
Lemma flags_arm_deadline : frames flags arm_deadline.
Proof. unfold arm_deadline. flags_tac. Qed.
Lemma flags_call_completed r : frames flags (call_completed r).
Proof. unfold call_completed. flags_tac. Qed.
#[local] Hint Resolve flags_arm_deadline flags_call_completed : chat_frames.
Lemma flags_finish_connect f e : frames flags (finish_connect f e).
Proof. unfold finish_connect. flags_tac. Qed.
#[local] Hint Resolve flags_finish_connect : chat_frames.
Lemma flags_async_connect h p : frames flags (async_connect h p).
Proof. unfold async_connect. flags_tac. Qed.
Lemma flags_cancel_connect : frames flags cancel_connect.
Proof. unfold cancel_connect. flags_tac. Qed.
Lemma flags_on_deadline a g c : frames flags (on_deadline a g c).
Proof. unfold on_deadline. flags_tac. Qed.
Lemma flags_on_resolved a h p e : frames flags (on_resolved a h p e).
Proof. unfold on_resolved. flags_tac. Qed.
Lemma flags_on_connected a h p e n : frames flags (on_connected a h p e n).
Proof. unfold on_connected. flags_tac. Qed.
Lemma flags_on_handshake a h p e s : frames flags (on_handshake a h p e s).
Proof. unfold on_handshake. flags_tac. Qed.
Lemma flags_handle_room_list rooms : frames flags (handle_room_list rooms).
Proof. unfold handle_room_list. flags_tac. Qed.
Lemma flags_handle_kick r : frames flags (handle_kick r).
Proof. unfold handle_kick. flags_tac. Qed.
Lemma flags_handle_room_topic id t : frames flags (handle_room_topic id t).
Proof. unfold handle_room_topic. flags_tac. Qed.
Lemma flags_handle_room_text id t : frames flags (handle_room_text id t).
Proof. unfold handle_room_text. flags_tac. Qed.

Lemma flags_fail_join reason w : flags (fail_join reason w).2 = no_join (flags w).
Proof. done. Qed.
Lemma flags_fail_handshake reason w : flags (fail_handshake reason w).2 = no_handshake (flags w).
Proof. done. Qed.
Lemma flags_identify nick w :
  flags (identify nick w).2 = flags w \/ flags (identify nick w).2 = no_join (flags w).
Proof.
  unfold identify, bind at 1. cbn. destruct (identity_ (client w)); [left; apply flags_send|right; apply flags_fail_join].
Qed.
Lemma flags_on_read_error m w :
  flags (on_read_error m w).2 = flags w \/ flags (on_read_error m w).2 = no_handshake (flags w).
Proof.
  unfold on_read_error. unfold bind, get, when, ret, on_client, modify, close_stream. cbn.
  destruct (_ && _); [right|left]; cbn; by destruct (_ && _).
Qed.

Lemma flags_handled m w :
  flags (handle_server_message m w).2 = hears m (flags w) \/ flags (handle_server_message m w).2 = no_join (flags w).
Proof.
  destruct m; try (by left); try (left; by first
    [apply flags_handle_room_list | apply flags_handle_kick | apply flags_handle_room_topic | apply flags_handle_room_text]).
  cbn [handle_server_message hears]. unfold handle_challenge, bind at 1. cbn.
  destruct (identity_ (client w)); [left; apply flags_send|right; apply flags_fail_join].
Qed.

(** An event leaves the flags alone, fails the join or the handshake, or is a message
    that is heard after the handshake or begins it. *)
Lemma flags_event e w : let f := flags w in let f' := flags (perform e w).2 in
  f' = f \/ f' = no_join f \/ f' = no_handshake f \/
  exists line m, e = LineRead line /\ value (decode_server_frame line) = Some m /\
    (is_hello m = true \/ negotiated f = true) /\ (f' = hears m f \/ f' = no_join f).
Proof.
  cbv zeta. destruct e as [h p| |a g c|a h p x|a h p x n|a h p x s|line|m| |a m|t|msg|nick| | |i]; cbn [perform].
  - left. apply flags_async_connect.
  - left. apply flags_cancel_connect.
  - left. apply flags_on_deadline.
  - left. apply flags_on_resolved.
  - left. apply flags_on_connected.
  - left. apply flags_on_handshake.
  - unfold on_line, bind at 1. cbn.
    set (w1 := put_client (with_reading false (client w)) w). change (flags w) with (flags w1).
    destruct (value (decode_server_frame line)) as [m|] eqn:Em.
    + unfold bind at 1. cbn. destruct (negb (is_hello m) && negb (protocol_negotiated_ (client w))) eqn:Eg.
      * right. right. left. unfold bind. cbn. reflexivity.
      * right. right. right. exists line, m. split_and!; [done..| |].
        -- apply andb_false_iff in Eg as [Eg|Eg]; apply negb_false_iff in Eg; [by left|by right].
        -- unfold bind. destruct (handle_server_message m w1) as [[] w2] eqn:Eh.
           rewrite flags_read_loop. replace w2 with (handle_server_message m w1).2 by (by rewrite Eh). apply flags_handled.
    + unfold bind at 1. cbn. destruct (error (decode_server_frame line)); first [by left | right; right; left; reflexivity].
  - destruct (flags_on_read_error m w) as [->| ->]; auto.
  - left. apply flags_on_written.
  - left. apply flags_on_write_error.
  - left. apply flags_run_task.
  - left. apply flags_send.
  - destruct (flags_identify nick w) as [->| ->]; auto.
  - left. apply flags_request_rooms.
  - left. apply flags_close.
  - left. apply flags_set_identity.
Qed.
Lemma flags_step w e w' : step w e w' -> exists w1, flags w1 = flags w /\ w' = (perform e w1).2.
Proof.
  intros [w1 _ Hc]. exists w1. split; [|done]. by destruct Hc.
Qed.

(* ===================================================================== *)
(** * What was heard *)

Definition heard (m : Server.message) (tr : list (ClientWorld * Event)) : Prop :=
  exists w line, (w, LineRead line) ∈ tr /\ value (decode_server_frame line) = Some m.
Lemma heard_later m tr tr' : heard m tr -> heard m (tr ++ tr')%list.
Proof. intros (w & line & Hin & Hm). exists w, line. split; [|done]. apply elem_of_app. by left. Qed.
Lemma heard_now m tr w line : value (decode_server_frame line) = Some m -> heard m (tr ++ [(w, LineRead line)])%list.
Proof. intros Hm. exists w, line. split; [|done]. apply elem_of_app. right. by apply list_elem_of_singleton. Qed.

(** Flags are set for a reason. *)
Definition greeted tr : Prop := heard (Server.Hello VERSION) tr.
Record explained (tr : list (ClientWorld * Event)) (f : Flags) : Prop := {
  ex_negotiated : negotiated f = true -> greeted tr;
  ex_required : required f = true -> greeted tr /\ heard Server.AuthRequired tr;
  ex_ok : ok f = true -> greeted tr /\ heard Server.AuthAccepted tr;
  ex_joined : joined f = true ->
    greeted tr /\ heard Server.JoinAccepted tr \/ banned f = true \/ taken f = true \/ failed f = true;
}.
(** Once set, a flag of a failure stays. *)
Definition keeps_failures (f f' : Flags) : Prop :=
  (joined f = true -> joined f' = true) /\ (banned f = true -> banned f' = true) /\
  (taken f = true -> taken f' = true) /\ (failed f = true -> failed f' = true).

Lemma explained_later tr tr' f : explained tr f -> explained (tr ++ tr')%list f.
Proof.
  intros [E1 E2 E3 E4]. unfold greeted in *. pose proof (fun m => heard_later m tr tr') as Hl. split; intros Hf.
  - by apply Hl, E1.
  - destruct (E2 Hf). split; by apply Hl.
  - destruct (E3 Hf). split; by apply Hl.
  - destruct (E4 Hf) as [[? ?]|?]; [left; split; by apply Hl|by right].
Qed.
Lemma explained_join tr f : explained tr f -> explained tr (no_join f).
Proof. intros [E1 E2 E3 E4]. split; cbn; auto. Qed.
Lemma explained_handshake tr f : explained tr f -> explained tr (no_handshake f).
Proof. intros [E1 E2 E3 E4]. split; cbn; auto; done. Qed.
Lemma explained_hears tr m f : explained tr f -> heard m tr -> (is_hello m = true \/ negotiated f = true) ->
  explained tr (hears m f).
Proof.
  intros [E1 E2 E3 E4] Hm Hn. destruct m; cbn in *; try by split.
  all: try (destruct Hn as [Hn|Hn]; [done|apply E1 in Hn]).
  all: split; cbn; auto; try done.
  intros ->%N.eqb_eq. exact Hm.
Qed.
Lemma hears_keeps m f : keeps_failures f (hears m f).
Proof. by destruct m. Qed.

Lemma explained_step tr w e w' : explained tr (flags w) -> step w e w' ->
  explained (tr ++ [(w, e)])%list (flags w') /\ keeps_failures (flags w) (flags w').
Proof.
  intros Hex (w1 & Hw & ->)%flags_step. apply (explained_later _ [(w, e)]) in Hex. rewrite <- Hw in Hex |- *.
  destruct (flags_event e w1) as [->|[->|[->|(line & m & -> & Hm & Hn & [->| ->])]]].
  - by split.
  - split; [by apply explained_join|done].
  - split; [by apply explained_handshake|done].
  - split; [|apply hears_keeps]. apply explained_hears; [done|by apply heard_now|done].
  - split; [by apply explained_join|done].
Qed.
Lemma explained_runs w0 tr w : explained [] (flags w0) -> runs w0 tr w -> explained tr (flags w).
Proof. intros Hex. induction 1 as [|tr w e w' _ IH Hs]; [done|]. by eapply explained_step. Qed.

(* ===================================================================== *)
(** * Joining *)

(** What is left to be excluded where joining is. *)
Definition joining_ok (tr : list (ClientWorld * Event)) (j : Joining) : Prop :=
  let f := flags (world j) in
  let accepted := greeted tr /\ heard Server.JoinAccepted tr in
  let sure := heard Server.AuthAccepted tr /\ CallsIdentify ∈ calls j in
  match phase j with
  | TypesPassword => greeted tr /\ heard Server.AuthRequired tr
  | Looping Join | KeyWait Join | Leaving Join => sure
  | ChecksBanned => sure /\ (accepted \/ banned f = true \/ taken f = true \/ failed f = true)
  | ChecksTaken => sure /\ (accepted \/ taken f = true \/ failed f = true)
  | ChecksFailed => sure /\ (accepted \/ failed f = true)
  | Joined => sure /\ accepted
  | _ => True
  end.
Definition calls_ok (tr : list (ClientWorld * Event)) (j : Joining) : Prop :=
  (forall password, CallsAuthenticate password ∈ calls j -> greeted tr /\ heard Server.AuthRequired tr) /\
  (CallsIdentify ∈ calls j -> greeted tr /\ heard Server.AuthAccepted tr).

Lemma joining_later tr p j w : joining_ok tr j -> keeps_failures (flags (world j)) (flags w) ->
  joining_ok (tr ++ [p])%list (MkJoining (phase j) w (calls j)).
Proof.
  unfold joining_ok, greeted. cbn [phase world calls]. intros Hj (K1 & K2 & K3 & K4).
  pose proof (fun m => heard_later m tr [p]) as Hl.
  destruct (phase j) as [[]|[]|[]| | | | | | | | |]; try done; intuition auto.
Qed.
Lemma calls_later tr p j w : calls_ok tr j -> calls_ok (tr ++ [p])%list (MkJoining (phase j) w (calls j)).
Proof.
  unfold calls_ok, greeted. cbn [calls]. pose proof (fun m => heard_later m tr [p]) as Hl. intros [C1 C2].
  split; [intros password Hp%C1|intros Hp%C2]; intuition auto.
Qed.

#[local] Arguments send : simpl never.
#[local] Arguments identify : simpl never.
Lemma join_turn_ok nick t tr j j' : explained tr (flags (world j)) -> joining_ok tr j -> calls_ok tr j ->
  join_turn nick t j = Some j' -> explained tr (flags (world j')) /\ joining_ok tr j' /\ calls_ok tr j'.
Proof.
  intros Hex Hj Hc. pose proof Hex as [E1 E2 E3 E4]. destruct j as [ph w cs]. unfold join_turn, joining_ok in *. cbn in *.
  destruct ph as [s|s|s| | | | | | | | |x], t as [late|k|[pw|]]; try done.
  - intros [= <-]. split_and!; [done| |done]. by destruct (_ || _), s.
  - intros [= <-]. split_and!; [done| |done]. by destruct (Interface.is_escape k), s.
  - intros [= <-]. split_and!; [done| |done]. destruct (ready s w) eqn:Er, s; cbn in *; try done.
    split; [done|]. by apply E4.
  - intros [= <-]. split_and!; [done| |done]. destruct (auth_required_ (client w)); [by apply E2|done].
  - intros [= <-]. split_and!; [cbn [world]; by rewrite flags_send|done|]. destruct Hc as [C1 C2]. split; cbn.
    + intros p [Hp|Hp]%elem_of_app; [by apply C1 in Hp|exact Hj].
    + intros [Hp|Hp]%elem_of_app; [by apply C2|]. by apply list_elem_of_singleton in Hp.
  - by intros [= <-].
  - intros [= <-]. split_and!; [done| |done]. by destruct (auth_ok_ (client w)).
  - destruct (auth_ok_ (client w)) eqn:Eok; intros [= <-]; [|by split_and!]. split_and!.
    + cbn [world]. destruct (flags_identify nick w) as [->| ->]; [done|by apply explained_join].
    + split; [by apply E3|]. cbn. apply elem_of_app. right. by apply list_elem_of_singleton.
    + destruct Hc as [C1 C2]. split; cbn.
      * intros p [Hp|Hp]%elem_of_app; [by apply C1 in Hp|]. by apply list_elem_of_singleton in Hp.
      * intros _. by apply E3.
  - intros [= <-]. split_and!; [done| |done]. destruct (banned_ (client w)) eqn:Eb; [done|]. cbn. intuition congruence.
  - intros [= <-]. split_and!; [done| |done]. destruct (nickname_taken_ (client w)) eqn:Eb; [done|]. cbn. intuition congruence.
  - intros [= <-]. split_and!; [done| |done]. destruct (join_failed_ (client w)) eqn:Eb; [done|]. cbn. intuition congruence.
Qed.

(** C16: a session is joined on the server's word. A client that was just made connects
    and joins; whatever the network does while the terminal thread looks at its flags,
    the password is only sent after the server greeted in this version and asked for
    it, the identity only after the server accepted the authentication, and
    [join_client_session] only succeeds when it has sent the identity and the server
    has accepted the join. *)
Theorem joined_on_the_servers_word config app files nick tr j :
  joins (new_client config app files) nick tr j ->
  (forall password, CallsAuthenticate password ∈ calls j ->
     heard (Server.Hello VERSION) tr /\ heard Server.AuthRequired tr) /\
  (CallsIdentify ∈ calls j -> heard (Server.Hello VERSION) tr /\ heard Server.AuthAccepted tr) /\
  (phase j = Joined -> CallsIdentify ∈ calls j /\ heard Server.AuthAccepted tr /\ heard Server.JoinAccepted tr).
Proof.
  intros Hj. enough (explained tr (flags (world j)) /\ joining_ok tr j /\ calls_ok tr j) as (_ & Hok & Hc & Hi).
  { split_and!; [done..|]. intros Hp. unfold joining_ok in Hok. rewrite Hp in Hok. intuition auto. }
  induction Hj as [tr w Hr|tr j e w _ (IH1 & IH2 & IH3) Hs|tr j t j' _ (IH1 & IH2 & IH3) Ht].
  - split_and!; [|done|by split; [intros p Hp|intros Hp]; apply elem_of_nil in Hp].
    eapply explained_runs; [|exact Hr]. by split.
  - destruct (explained_step tr _ e w IH1 Hs) as [Hex Hk]. split_and!; [done|by apply joining_later|by apply calls_later].
  - by eapply join_turn_ok.
Qed.
End client_flags.

(* ===================================================================== *)
(** * Reconnecting *)

Fixpoint attempts_after (os : list Attempt) (a : Attempts) : option Attempts :=
  match os with
  | [] => Some a
  | o :: os => match attempt o a with Some a => attempts_after os a | None => None end
  end.

Definition connection_lost (room : string) : Attempt := ChatEnds Interface.Disconnected false room.
Definition unreachable (o : Attempt) : Prop :=
  match o with ConnectFails failure _ => failure <> TlsFailure /\ failure <> Cancelled | _ => False end.
(** The user asked for the attempt that comes after these. *)
Definition by_user (os : list Attempt) : Prop :=
  os = [] \/ exists os' failure, os = (os' ++ [ConnectFails failure true])%list /\ failure <> Cancelled.
(** It comes by itself, as the [n]-th since the connection was lost. *)
Definition by_itself (n : nat) (room : string) (os : list Attempt) : Prop :=
  exists os' fs, os = (os' ++ connection_lost room :: fs)%list /\ Datatypes.S (length fs) = n /\ Forall unreachable fs.

Definition attempt_ok (os : list Attempt) (a : Attempts) : Prop :=
  if reconnecting a then (retries a < 3)%nat /\ by_itself (Datatypes.S (retries a)) (restore_room a) os
  else by_user os.

Lemma attempt_step os a o a' : attempt_ok os a -> attempt o a = Some a' -> attempt_ok (os ++ [o])%list a'.
Proof.
  intros Ha. destruct o as [|failure retry|e|result denied room]; cbn; try done.
  - destruct (tries_again (delayed a) failure) eqn:Et.
    + intros [= <-]. unfold tries_again, delayed, attempt_ok in *. destruct (reconnecting a) eqn:Er; cbn in *; [|by rewrite Er in Et].
      apply andb_true_iff in Et as [Hn Hf]. apply Nat.leb_le in Hn. split; [lia|].
      destruct Ha as [_ (os' & fs & -> & Hl & Hfs)]. exists os', (fs ++ [ConnectFails failure retry])%list.
      rewrite <- app_assoc, length_app. cbn. split; [done|]. split; [lia|]. apply Forall_app. split; [done|].
      constructor; [|done]. cbn. by destruct failure.
    + intros Hs. assert (a' = MkAttempts false 0 (restore_room (delayed a)) /\ retry = true /\ failure <> Cancelled) as (-> & -> & Hf).
      { destruct failure, retry; try done; by injection Hs as <-. }
      right. by exists os, failure.
  - destruct result; [done|]. destruct denied; [done|]. intros [= <-]. cbn. split; [lia|]. by exists os, [].
Qed.
Lemma attempts_ok os : forall os0 a0 a, attempt_ok os0 a0 -> attempts_after os a0 = Some a -> attempt_ok (os0 ++ os)%list a.
Proof.
  induction os as [|o os IH]; intros os0 a0 a Ha; cbn [attempts_after].
  - intros [= <-]. by rewrite app_nil_r.
  - destruct (attempt o a0) as [a1|] eqn:E; [|done]. intros Hr.
    replace (os0 ++ o :: os)%list with ((os0 ++ [o]) ++ os)%list by (by rewrite <- app_assoc).
    eapply IH; [|exact Hr]. by eapply attempt_step.
Qed.

(** The program reconnects by itself, but not for ever. An attempt to connect is
    the first, or the user asked for it after one that failed, or it is the first,
    second or third since the connection was lost without the user leaving or being
    put out, every one in between having failed for a reason other than the
    certificate or Escape, and it restores the room of the lost session. And each
    such loss is followed by exactly three attempts, as long as they fail like that,
    before the user is asked. *)
Theorem reconnects_three_times os a :
  attempts_after os first_attempt = Some a ->
  (if reconnecting a
   then exists n, (1 <= n <= 3)%nat /\ by_itself n (restore_room a) os
   else by_user os) /\
  (forall room f1 f2 f3 r1 r2 r3, unreachable (ConnectFails f1 r1) -> unreachable (ConnectFails f2 r2) ->
     unreachable (ConnectFails f3 r3) ->
     let lost := attempts_after [connection_lost room; ConnectFails f1 r1; ConnectFails f2 r2] a in
     lost = Some (MkAttempts true 2 room) /\
     attempts_after [connection_lost room; ConnectFails f1 r1; ConnectFails f2 r2; ConnectFails f3 r3] a =
       if r3 then Some (MkAttempts false 0 room) else None).
Proof.
  intros Ha. split.
  - apply (attempts_ok os [] first_attempt a) in Ha; [|by left]. unfold attempt_ok in Ha.
    destruct (reconnecting a); [|exact Ha]. destruct Ha as [Hn Hi]. exists (Datatypes.S (retries a)). split; [lia|done].
  - intros room f1 f2 f3 r1 r2 r3 [T1 K1] [T2 K2] [T3 K3]. cbn.
    destruct f1, f2, f3; try done; cbn; (split; [done|by destruct r3]).
Qed.
