(* ===== verification/Connecting.v ===== *)
(** Waiting for a connection at the terminal: [connect_with_progress] and
    [reconnect_delay] of [ui/interactive_app.cpp]. One thread polls the [io_context] and
    reads keys, so the handlers of the client only run where it polls. *)

From S2P Require Import Prelude Frame Message Utils AppState Tls ChatClient ClientProperties Interface JoinSession.
Local Open Scope string_scope.
Local Open Scope chat_scope.

(** [reconnect_delay(attempt)], started at [now] nanoseconds: at each turn of the loop the
    time, and the key that is read if it is not over. [None] when the keys run out. *)
Fixpoint delay_loop (until : Z) (turns : list (Z * Key)) : option bool :=
  match turns with
  | [] => None
  | (now, key) :: turns =>
      if (until <=? now)%Z then Some true else if is_escape key then Some false else delay_loop until turns
  end.
Definition reconnect_delay (attempt : nat) (now : Z) (turns : list (Z * Key)) : option bool :=
  delay_loop (now + Z.of_nat attempt * 1000000000) turns.

Section connecting.
Context `{OpenSSL} `{Platform} `{Sodium} `{Disk}.

(** Where [connect_with_progress] is: at the loop's condition; in [io.poll()]; at the key;
    in the [io.poll()] after a failure; back. *)
Inductive Place := LoopHead | Polls | WaitsKey | Drains | Gives (success : bool).
Record Progress := MkProgress { place : Place; cworld : ClientWorld; this_attempt : nat }.

(** [done] and [success], which the callback sets. *)
Definition completed (a : nat) (w : ClientWorld) : option bool :=
  (fun p => p.2.2) <$> list_find (fun p => p.1 = a) (completions w).

Inductive Turn := TurnGoes | TurnKey (k : Key).
Definition progress_turn (t : Turn) (p : Progress) : option Progress :=
  let goes place := Some (MkProgress place (cworld p) (this_attempt p)) in
  let or_leaves place := goes (match completed (this_attempt p) (cworld p) with
                               | Some true => Gives true | Some false => Drains | None => place end) in
  match place p, t with
  | LoopHead, TurnGoes => or_leaves Polls
  | Polls, TurnGoes => or_leaves WaitsKey
  | WaitsKey, TurnKey k =>
      Some (MkProgress LoopHead (if is_escape k then (perform CancelConnect (cworld p)).2 else cworld p) (this_attempt p))
  | Drains, TurnGoes => goes (Gives false)
  | _, _ => None
  end.

(** The events of the network, not of the interface. *)
Definition from_network (e : Event) : bool :=
  match e with
  | Connect _ _ | CancelConnect | CallSend _ | CallIdentify _ | CallRequestRooms | CallClose | CallSetIdentity _ => false
  | _ => true
  end.
Inductive progresses (w0 : ClientWorld) (host : string) (port : N) : Progress -> Prop :=
| progress_starts tr w : runs w0 tr w ->
    progresses w0 host port (MkProgress LoopHead (perform (Connect host port) w).2 (attempts w))
| progress_network p e w : progresses w0 host port p -> place p = Polls \/ place p = Drains ->
    from_network e = true -> step (cworld p) e w -> progresses w0 host port (MkProgress (place p) w (this_attempt p))
| progress_goes p t p' : progresses w0 host port p -> progress_turn t p = Some p' -> progresses w0 host port p'.

(* ===================================================================== *)
(** * What it gives *)

Lemma step_call e w : completes e = None -> (forall t, e <> TaskRuns t) -> allowed e w -> step w e (perform e w).2.
Proof. intros Hc Ht Ha. apply (do_step w e w Ha). by apply consumes_nothing. Qed.

(** It is an execution of the client. *)
Lemma progress_runs w0 host port p : progresses w0 host port p -> exists tr, runs w0 tr (cworld p).
Proof.
  induction 1 as [tr w Hr|p e w _ [tr Hr] _ _ Hs|p t p' _ [tr Hr] Ht].
  - exists (tr ++ [(w, Connect host port)])%list. apply (runs_step _ tr w); [exact Hr|by apply step_call].
  - exists (tr ++ [(cworld p, e)])%list. by apply (runs_step _ tr (cworld p)).
  - unfold progress_turn in Ht. destruct (place p), t as [|k]; try discriminate Ht; injection Ht as <-; cbn [cworld];
      try (exists tr; exact Hr).
    destruct (is_escape k); [|exists tr; exact Hr].
    exists (tr ++ [(cworld p, CancelConnect)])%list. apply (runs_step _ tr (cworld p)); [exact Hr|by apply step_call].
Qed.

(** Only [async_connect] starts an attempt. *)
Lemma tried_app f : frames attempts (on_app f).
Proof. by intros w. Qed.
Lemma tried_say text : frames attempts (say text).
Proof. by intros w. Qed.
Lemma tried_post t : frames attempts (post t).
Proof. by intros w. Qed.
Lemma tried_start p : frames attempts (start p).
Proof. by intros w. Qed.
Lemma tried_modify f : (forall w, attempts (f w) = attempts w) -> frames attempts (modify f).
Proof. intros Hf w. apply Hf. Qed.
#[local] Hint Resolve tried_app tried_say tried_post tried_start : chat_frames.
Ltac tried_tac := frames_tac; try (apply frames_client; intros; reflexivity); try (apply tried_modify; intros; reflexivity).
Lemma tried_finish failure error : frames attempts (finish_connect failure error).
Proof. unfold finish_connect, send, read_loop, close_stream, call_completed. tried_tac. Qed.
Lemma tried_arm : frames attempts arm_deadline.
Proof. unfold arm_deadline. tried_tac. Qed.
#[local] Hint Resolve tried_finish tried_arm : chat_frames.

Lemma tried_cancel : frames attempts cancel_connect.
Proof. unfold cancel_connect. tried_tac. Qed.
Lemma tried_deadline a g c : frames attempts (on_deadline a g c).
Proof. unfold on_deadline. tried_tac. Qed.
Lemma tried_resolved a h p e : frames attempts (on_resolved a h p e).
Proof. unfold on_resolved. tried_tac. Qed.
Lemma tried_connected a h p e n : frames attempts (on_connected a h p e n).
Proof. unfold on_connected. tried_tac. Qed.
Lemma tried_handshake a h p e s : frames attempts (on_handshake a h p e s).
Proof. unfold on_handshake. tried_tac. Qed.
Lemma tried_event e w : (forall host port, e <> Connect host port) -> attempts (perform e w).2 = attempts w.
Proof.
  intros Hn. assert (forall m : M ClientWorld unit, frames connection m -> attempts (m w).2 = attempts w) as Hframe
    by (intros m Hm; exact (f_equal started (Hm w))).
  destruct e; cbn [perform]; auto with chat_frames.
  - by destruct (Hn host port).
  - apply tried_cancel.
  - apply tried_deadline.
  - apply tried_resolved.
  - apply tried_connected.
  - apply tried_handshake.
Qed.

Lemma completed_in a w r : completed a w = Some r -> (a, r) ∈ completions w.
Proof.
  unfold completed. intros ([i [a' r']] & Hf & ->)%fmap_Some_1. apply list_find_Some in Hf as (Hi & Ha & _).
  cbn in Ha. subst. by eapply list_elem_of_lookup_2.
Qed.
Lemma completed_none a w : completed a w = None -> a ∉ (completions w).*1.
Proof.
  unfold completed. intros Hn%fmap_None. apply list_find_None in Hn. rewrite list.Forall_forall in Hn.
  intros (x & -> & Hx)%list_elem_of_fmap. by apply (Hn x).
Qed.
Lemma in_completed a w r : NoDup (completions w).*1 -> (a, r) ∈ completions w -> completed a w = Some r.
Proof.
  intros Hd Hin. destruct (completed a w) as [r'|] eqn:E.
  - apply completed_in in E. f_equal.
    apply list_elem_of_lookup in Hin as [i Hi], E as [j Hj].
    assert (i = j) as ->.
    { eapply (NoDup_lookup _ i j a Hd); rewrite list_lookup_fmap; [by rewrite Hi|by rewrite Hj]. }
    congruence.
  - apply completed_none in E. destruct E. by apply (list_elem_of_fmap_2 fst) in Hin.
Qed.

Lemma move_called c c' : move c c' -> called c `prefix_of` called c'.
Proof. destruct 1; cbn; try done; by eexists. Qed.
Lemma step_called w e w' : step w e w' -> completions w `prefix_of` completions w'.
Proof.
  intros [w1 _ Hc]. assert (completions w1 = completions w) as <- by (by destruct Hc).
  exact (move_called _ _ (perform_move e w1)).
Qed.
Lemma step_tried w e w' : step w e w' -> (forall host port, e <> Connect host port) -> attempts w' = attempts w.
Proof. intros [w1 _ Hc] Hn. rewrite tried_event by done. by destruct Hc. Qed.

(* ===================================================================== *)
(** * The theorem *)

Record waiting_ok (config : ClientConfig) (app0 : AppState) (files0 : Files) (p : Progress) : Prop := {
  waiting_runs : exists tr, runs (new_client config app0 files0) tr (cworld p);
  waiting_last : attempts (cworld p) = S (this_attempt p);
  waiting_place :
    match place p with
    | WaitsKey => completed (this_attempt p) (cworld p) = None
    | Drains => completed (this_attempt p) (cworld p) = Some false
    | Gives r => completed (this_attempt p) (cworld p) = Some r
    | _ => True
    end;
}.
Lemma completed_stays a w w' tr tr' config app0 files0 r : runs (new_client config app0 files0) tr w ->
  runs (new_client config app0 files0) tr' w' -> completions w `prefix_of` completions w' ->
  completed a w = Some r -> completed a w' = Some r.
Proof.
  intros _ Hr [l Hl] Hc. apply completed_in in Hc. apply in_completed.
  - apply runs_connection in Hr as [Hok _]. apply (called_once _ Hok).
  - rewrite Hl. apply elem_of_app. by left.
Qed.

Lemma progress_ok config app0 files0 host port p : progresses (new_client config app0 files0) host port p ->
  waiting_ok config app0 files0 p.
Proof.
  intros Hp. pose proof (progress_runs _ _ _ _ Hp) as Hrun. revert Hrun.
  induction Hp as [tr w Hr|p e w Hp IH Hpl He Hs|p t p' Hp IH Ht]; intros [tr' Hr'].
  - split; [by exists tr'| |done]. cbn. exact (f_equal started (connection_connect host port w)).
  - destruct (IH (progress_runs _ _ _ _ Hp)) as [[tr Hr] Hl Hc]. split; cbn; [by exists tr'| |].
    + rewrite (step_tried _ e w Hs); [done|]. by intros h q ->.
    + destruct (place p); try done; try (by destruct Hpl). eapply completed_stays; [exact Hr|exact Hr'| |exact Hc].
      by eapply step_called.
  - destruct (IH (progress_runs _ _ _ _ Hp)) as [[tr Hr] Hl Hc]. revert Ht. unfold progress_turn.
    destruct (place p) eqn:Epl, t as [|k]; try discriminate; intros Ht.
    all: try (injection Ht as <-; split; cbn; [by exists tr|exact Hl|]; try exact Hc;
              destruct (completed _ _) as [[]|] eqn:E; done).
    injection Ht as <-. split; cbn [place cworld this_attempt] in *; [by exists tr'| |done].
    destruct (is_escape k); [|exact Hl]. by rewrite (tried_cancel (cworld p)).
Qed.

(** The end of an attempt: what its callback is called with. *)
Lemma completed_finish a failure w w' : connection_ok (connection w) -> connecting_ (client w) = true ->
  connect_completed_ (client w) = Some a -> a ∉ (completions w).*1 ->
  completions w' = (completions w ++ match connect_completed_ (client w) with Some a => [(a, succeeded failure)] | None => [] end)%list ->
  completed a w' = Some (succeeded failure).
Proof.
  intros Hok Ht Hc Hno E. rewrite Hc in E. apply in_completed; rewrite E.
  - rewrite fmap_app. apply list.NoDup_app. split; [apply (called_once _ Hok)|]. split; [|apply list.NoDup_singleton].
    intros x Hx ->%list_elem_of_singleton. done.
  - apply elem_of_app. right. by left.
Qed.
Lemma cancel_connection w : connecting_ (client w) = true ->
  connection (perform CancelConnect w).2 = finish Cancelled (connection w).
Proof.
  intros Ht. cbn [perform]. unfold cancel_connect. rewrite bind_snd. cbn [get fst snd]. rewrite Ht. by apply connection_finish.
Qed.
Lemma under_way config app0 files0 p : waiting_ok config app0 files0 p ->
  completed (this_attempt p) (cworld p) = None ->
  connection_ok (connection (cworld p)) /\ armed (connection (cworld p)) /\ connecting_ (client (cworld p)) = true /\
  attempt_lifetime_ (client (cworld p)) = Some (this_attempt p) /\ connect_completed_ (client (cworld p)) = Some (this_attempt p) /\
  this_attempt p ∉ (completions (cworld p)).*1.
Proof.
  intros [[tr Hr] Hl _] Hn%completed_none. apply runs_connection in Hr as [Hok Harmed].
  destruct (connecting_ (client (cworld p))) eqn:Et.
  - destruct (trying_last _ Hok Et) as (a & Hs & Ha & Hc & _). cbn in Hs. rewrite Hl in Hs. injection Hs as <-. done.
  - destruct (idle_called _ Hok Et) as (_ & _ & Hi). destruct (Hi _ Hl) as (before & E). destruct Hn. cbn in E. rewrite E.
    rewrite fmap_app. apply elem_of_app. right. by left.
Qed.

(** Waiting for a connection. What [connect_with_progress] returns is what the client
    reports of this attempt, which is over then. While it waits for a key the attempt is
    under way; Escape ends it there, as cancelled, and the loop with it. And while it
    polls, the deadline of the current phase is pending and ends the attempt, so
    that it never waits for ever. *)
Theorem progress_ends config app0 files0 host port p : progresses (new_client config app0 files0) host port p ->
  (forall r, place p = Gives r -> connecting_ (client (cworld p)) = false /\
     r = succeeded (connection_failure_ (client (cworld p)))) /\
  (place p = WaitsKey -> forall k, is_escape k = true -> exists p1 p2,
     progress_turn (TurnKey k) p = Some p1 /\ progress_turn TurnGoes p1 = Some p2 /\
     place p2 = Drains /\ connection_failure_ (client (cworld p2)) = Cancelled) /\
  (place p = Polls -> completed (this_attempt p) (cworld p) = None -> exists e w p1,
     from_network e = true /\ step (cworld p) e w /\
     progress_turn TurnGoes (MkProgress Polls w (this_attempt p)) = Some p1 /\ place p1 = Drains /\
     connection_failure_ (client w) = Timeout).
Proof.
  intros Hok%progress_ok. split_and!.
  - intros r Hpl. destruct Hok as [[tr Hr] Hl Hc]. rewrite Hpl in Hc. apply runs_connection in Hr as [Hco _].
    assert (this_attempt p ∈ (completions (cworld p)).*1) as Hin
      by (apply completed_in in Hc; by apply (list_elem_of_fmap_2 fst) in Hc).
    destruct (connecting_ (client (cworld p))) eqn:Et.
    + destruct (trying_last _ Hco Et) as (a & Hs & _ & _ & Hno). cbn in Hs. rewrite Hl in Hs. by injection Hs as <-.
    + split; [done|]. destruct (idle_called _ Hco Et) as (_ & _ & Hi). destruct (Hi _ Hl) as (before & E).
      assert (completed (this_attempt p) (cworld p) = Some (succeeded (connection_failure_ (client (cworld p))))) as E2.
      { apply in_completed; [apply (called_once _ Hco)|]. cbn in E. rewrite E. apply elem_of_app. right. by left. }
      congruence.
  - intros Hpl k Hk. pose proof Hok as [_ _ Hc]. rewrite Hpl in Hc.
    destruct (under_way _ _ _ _ Hok Hc) as (Hco & _ & Ht & _ & Hcb & Hno).
    pose proof (cancel_connection (cworld p) Ht) as E. unfold progress_turn. rewrite Hpl, Hk.
    set (w := (perform CancelConnect (cworld p)).2) in *.
    assert (completed (this_attempt p) w = Some false) as Ed.
    { apply (completed_finish _ Cancelled (cworld p) w Hco Ht Hcb Hno). exact (f_equal called E). }
    eexists _, _. split; [reflexivity|]. cbn [place cworld this_attempt]. rewrite Ed. split; [reflexivity|].
    split; [reflexivity|]. exact (f_equal outcome E).
  - intros Hpl Hc. destruct (under_way _ _ _ _ Hok Hc) as (Hco & Harmed & Ht & Ha & Hcb & Hno).
    destruct (deadline_fires (cworld p) (this_attempt p) Harmed Ht Ha) as (w & Hs & _ & Hf & Hcall).
    eexists (DeadlineOver _ _ _), w, _. split; [reflexivity|]. split; [exact Hs|]. unfold progress_turn. cbn [place cworld this_attempt].
    rewrite (completed_finish _ Timeout (cworld p) w Hco Ht Hcb Hno Hcall). done.
Qed.
End connecting.
