(* ===== verification/SessionScenarios.v ===== *)
(** Concrete executions of a network task, of joining and of reconnecting: the instances
    of the theorems of [NetworkTask.v] and [SessionProperties.v]. *)

From S2P Require Import Prelude Frame Message Utils AppState Tls StorageApi World ChatServer Scenarios.
From S2P Require Import ChatClient ClientProperties ClientScenarios Interface NetworkTask Connecting JoinSession SessionProperties.
Local Open Scope string_scope.

(* ===================================================================== *)
(** * A network task *)

Definition sample_decision : Decision := MkDecision "directory.example:2727" "AA" "".
(** The certificate is asked about, accepted, and the work returns. *)
Definition asked_events : list (NetworkTask.Event (R:=nat)) :=
  [Calls sample_decision; WorkerGoes; WorkerGoes; WorkerGoes; NetworkTask.Goes 0; Answers true;
   NetworkTask.Goes 10; NetworkTask.Goes 20].
Definition task_events : list (NetworkTask.Event (R:=nat)) :=
  (asked_events ++ [WorkerGoes; WorkerGoes; Ends (inr 7); NetworkTask.Key OtherKey 40; NetworkTask.Goes 50])%list.

Definition asked_state : NetworkTask.State (R:=nat) := default (initial 0) (run asked_events (initial 0)).
Definition task_state : NetworkTask.State (R:=nat) := default (initial 0) (run task_events (initial 0)).

Lemma consent_is_the_users_witness :
  told task_state = [(sample_decision, true)] /\ granted (told task_state) `sublist_of` granted (asked task_state) /\
  terminal task_state = Returned (Some 7) /\ Ends (inr 7) ∈ task_events.
Proof.
  destruct (consent_is_the_users 0 task_events task_state) as (Hg & _ & Hr); [vm_compute; reflexivity|].
  split; [vm_compute; reflexivity|]. split; [exact Hg|]. split; [vm_compute; reflexivity|].
  apply Hr. vm_compute. reflexivity.
Defined.

Lemma task_goes_on_witness :
  answer asked_state = Some true /\
  (exists n st1 d, (n <= 3)%nat /\ run (replicate n WorkerGoes) asked_state = Some st1 /\
     told st1 = (told asked_state ++ [(d, true)])%list) /\
  exists st1, run [NetworkTask.Key (Byte "027"%char) 30; NetworkTask.Goes 30] asked_state = Some st1 /\
    terminal st1 = Returned None.
Proof.
  destruct (task_goes_on 0 asked_events asked_state) as (_ & Ha & Hk); [vm_compute; reflexivity|].
  split; [vm_compute; reflexivity|]. split.
  - apply Ha; [vm_compute; reflexivity|vm_compute; reflexivity|vm_compute; discriminate].
  - apply Hk; [vm_compute; reflexivity|]. left. vm_compute. reflexivity.
Defined.

(* ===================================================================== *)
(** * Joining *)

(** Events of the client and turns of the terminal thread, executed. *)
Fixpoint join_events (nick : string) (es : list (ClientProperties.Event + Turn))
    (tr : list (ClientWorld * ClientProperties.Event)) (j : Joining) :
    option (list (ClientWorld * ClientProperties.Event) * Joining) :=
  match es with
  | [] => Some (tr, j)
  | inl e :: es =>
      match perform_event e (world j) with
      | Some w => join_events nick es (tr ++ [(world j, e)])%list (MkJoining (phase j) w (calls j))
      | None => None
      end
  | inr t :: es => match join_turn nick t j with Some j => join_events nick es tr j | None => None end
  end.
Lemma join_events_joins w0 nick es : forall tr j tr' j',
  joins w0 nick tr j -> join_events nick es tr j = Some (tr', j') -> joins w0 nick tr' j'.
Proof.
  induction es as [|[e|t] es IH]; intros tr j tr' j' Hj; cbn [join_events]; [by intros [= <- <-]| |].
  - destruct (perform_event e (world j)) as [w|] eqn:E; [|done]. apply IH.
    apply joins_network; [done|]. by apply perform_event_step.
  - destruct (join_turn nick t j) as [j1|] eqn:E; [|done]. apply IH. by eapply joins_turn.
Qed.

Definition server_line (m : Server.message) : ClientProperties.Event + Turn :=
  inl (LineRead (line_of (default "" (value (encode_server_frame m))))).
(** The server asks for a password. *)
Definition joining_events : list (ClientProperties.Event + Turn) :=
  [inr (Goes false); inr (Press OtherKey); server_line Server.AuthRequired; inr (Goes false); inr (Goes false);
   inr (Goes false); inr (Enters (Some "hush")); server_line Server.AuthAccepted; inr (Goes false); inr (Goes false);
   inr (Goes false); inr (Goes false); inr (Goes false); server_line Server.JoinAccepted; inr (Press OtherKey);
   inr (Goes false); inr (Goes true); inr (Goes false); inr (Goes false); inr (Goes false)].
Definition start_joining : Joining := MkJoining (Looping Handshake) connected_run.2 [].
Definition joined_run : list (ClientWorld * ClientProperties.Event) * Joining :=
  default ([], start_joining) (join_events "ann" joining_events connected_run.1 start_joining).

Lemma joined_on_the_servers_word_witness :
  phase joined_run.2 = Joined /\ calls joined_run.2 = [CallsAuthenticate "hush"; CallsIdentify] /\
  heard Server.AuthRequired joined_run.1 /\ heard Server.JoinAccepted joined_run.1.
Proof.
  destruct (joined_on_the_servers_word default_client_config initial_app_state ∅ "ann" joined_run.1 joined_run.2)
    as (Hp & _ & Hj).
  - apply (join_events_joins _ "ann" joining_events connected_run.1 start_joining).
    + apply joins_start. apply connected_runs.
    + unfold joined_run. destruct (join_events _ _ _ _) as [[tr j]|] eqn:E; [done|]. revert E. vm_compute. done.
  - assert (phase joined_run.2 = Joined) as E by (vm_compute; reflexivity).
    assert (calls joined_run.2 = [CallsAuthenticate "hush"; CallsIdentify]) as Ec by (vm_compute; reflexivity).
    split; [exact E|]. split; [exact Ec|]. rewrite Ec in Hp. split; [|by apply Hj].
    apply (Hp "hush"). left.
Defined.

(* ===================================================================== *)
(** * Reconnecting *)

Definition lost_events : list Attempt := [ConnectFails Dns true; connection_lost "music"; ConnectFails Refused false].
Lemma reconnects_three_times_witness :
  exists a, attempts_after lost_events first_attempt = Some a /\
    (exists n, (1 <= n <= 3)%nat /\ by_itself n "music" lost_events) /\ restore_line a = Some "/join music".
Proof.
  exists (MkAttempts true 1 "music"). split; [reflexivity|]. split; [|reflexivity].
  destruct (reconnects_three_times lost_events (MkAttempts true 1 "music") eq_refl) as [Ha _]. exact Ha.
Defined.

(* ===================================================================== *)
(** * Connecting *)

(** Turns of [connect_with_progress] and events where it polls, executed. *)
Fixpoint progress_events (es : list (ClientProperties.Event + Connecting.Turn)) (p : Progress) : option Progress :=
  match es with
  | [] => Some p
  | inl e :: es =>
      if from_network e && match place p with Polls | Drains => true | _ => false end then
        match perform_event e (cworld p) with
        | Some w => progress_events es (MkProgress (place p) w (this_attempt p))
        | None => None
        end
      else None
  | inr t :: es => match progress_turn t p with Some p => progress_events es p | None => None end
  end.
Lemma progress_events_progresses w0 host port es : forall p p',
  progresses w0 host port p -> progress_events es p = Some p' -> progresses w0 host port p'.
Proof.
  induction es as [|[e|t] es IH]; intros p p' Hp; cbn [progress_events]; [by intros [= <-]| |].
  - destruct (from_network e) eqn:En; [|done]. cbn [andb]. destruct (place p) eqn:Epl; try done.
    1, 2: destruct (perform_event e (cworld p)) as [w|] eqn:E; [|done]; rewrite <- Epl; apply IH;
      apply (progress_network _ _ _ p e w); auto; by apply perform_event_step.
  - destruct (progress_turn t p) as [p1|] eqn:E; [|done]. apply IH. by eapply progress_goes.
Qed.

(** The name is resolved, a key is pressed, and the user is asked for another. *)
Definition waiting_events : list (ClientProperties.Event + Connecting.Turn) :=
  [inr TurnGoes; inl (Resolved 0 "chat.example" 7777 None); inr TurnGoes; inr (TurnKey OtherKey); inr TurnGoes; inr TurnGoes].
Definition fresh_client : ClientWorld := new_client default_client_config initial_app_state ∅.
Definition start_waiting : Progress :=
  MkProgress LoopHead (perform (Connect "chat.example" 7777) fresh_client).2 (attempts fresh_client).
Lemma start_waiting_progresses : progresses fresh_client "chat.example" 7777 start_waiting.
Proof. exact (progress_starts fresh_client "chat.example" 7777 [] fresh_client (runs_start _)). Qed.
Definition waiting_progress : Progress := default start_waiting (progress_events waiting_events start_waiting).

Lemma progress_ends_witness :
  place waiting_progress = WaitsKey /\
  exists p1 p2, progress_turn (TurnKey (Byte "027"%char)) waiting_progress = Some p1 /\
    progress_turn TurnGoes p1 = Some p2 /\ place p2 = Drains /\
    connection_failure_ (client (cworld p2)) = Cancelled.
Proof.
  assert (place waiting_progress = WaitsKey) as Hpl by (vm_compute; reflexivity). split; [exact Hpl|].
  destruct (progress_ends default_client_config initial_app_state ∅ "chat.example" 7777 waiting_progress) as (_ & He & _).
  - apply (progress_events_progresses _ _ _ waiting_events start_waiting).
    + exact start_waiting_progresses.
    + unfold waiting_progress. destruct (progress_events _ _) as [p|] eqn:E; [done|]. revert E. vm_compute. done.
  - apply (He Hpl). reflexivity.
Defined.

Example delays : reconnect_delay 2 0 [(5, OtherKey); (2000000000, OtherKey)]%Z = Some true /\
  reconnect_delay 2 0 [(5, OtherKey); (1999999999, Byte "027"%char)]%Z = Some false.
Proof. split; reflexivity. Qed.
