(* ===== verification/MainMenu.v ===== *)
(** The main menu of [ui/interactive_app.cpp] ([run_curses_app]): the nickname, the
    remembered servers, and the forms that say which server to join or host. A program
    of the menu reads keys and changes the menu's variables; what it changed stays when
    it is cancelled or fails. *)

From S2P Require Import Prelude DisplayText Utils Terminal Tls Browser Options Preferences Invite DedicatedServer Screen Interface Setup.
Local Open Scope string_scope.

(* ===================================================================== *)
(** * Programs of the menu *)

(** The variables of [run_curses_app], the file of the preferences, and how often it was
    saved. *)
Record MenuState := MkMenuState {
  nick : string;
  local_identity : ClientIdentity;
  preferences : Preferences;
  database : option Database;
  saves : nat;
  previous_host : string;
  previous_port : string;
  previous_join_tls : string;
  previous_host_port : string;
  previous_password : string;
  previous_upnp : string;
  previous_host_tls : string;
  host_certificate : ServerConfig;
}.
Definition put_user n i p m := MkMenuState n i p (database m) (saves m) (previous_host m) (previous_port m)
  (previous_join_tls m) (previous_host_port m) (previous_password m) (previous_upnp m) (previous_host_tls m) (host_certificate m).
Definition put_preferences p m := put_user (nick m) (local_identity m) p m.
Definition put_database d m := MkMenuState (nick m) (local_identity m) (preferences m) d (Datatypes.S (saves m)) (previous_host m)
  (previous_port m) (previous_join_tls m) (previous_host_port m) (previous_password m) (previous_upnp m) (previous_host_tls m) (host_certificate m).
Definition put_join h p t m := MkMenuState (nick m) (local_identity m) (preferences m) (database m) (saves m) h p t
  (previous_host_port m) (previous_password m) (previous_upnp m) (previous_host_tls m) (host_certificate m).
Definition put_hosting p w u t c m := MkMenuState (nick m) (local_identity m) (preferences m) (database m) (saves m)
  (previous_host m) (previous_port m) (previous_join_tls m) p w u t c.

(** [preferences.options[key]], written and read. *)
Definition set_option (key v : string) (p : Preferences) : Preferences :=
  MkPreferences (Preferences.remember p) (nickname p) (<[key := v]> (options p)) (recent_servers p).
Definition option_at (key : string) (p : Preferences) : string := default "" (options p !! key).
(** [operator[]] makes an empty option of one that is not there. *)
Definition touch_option (key : string) (p : Preferences) : Preferences :=
  match options p !! key with Some _ => p | None => set_option key "" p end.
Definition touch_options (keys : list string) (p : Preferences) : Preferences := fold_right touch_option p keys.
Definition set_recent (l : list RecentServer) (p : Preferences) : Preferences :=
  MkPreferences (Preferences.remember p) (nickname p) (options p) l.

(** The variables before the main menu, with the nickname, its identity and what
    [save_preferences] left so far. *)
Definition first_menu (n : string) (i : ClientIdentity) (p : Preferences) (file : option Database) (saved : nat) : MenuState :=
  MkMenuState n i (touch_options ["host.certificate"; "host.key"] p) file saved "localhost" "7777" "yes" "7777" "" "yes" "yes"
    (MkServerConfig false (option_at "host.certificate" p) (option_at "host.key" p)).

Definition App (A : Type) : Type := MenuState -> Seat -> option (Result A * MenuState * Seat).
Definition lift {A} (u : UI A) : App A := fun m s =>
  match u s with Some (r, s) => Some (r, m, s) | None => None end.
Definition give {A} (a : A) : App A := lift (got a).
Definition menu_state : App MenuState := fun m s => Some (Got m, m, s).
Definition change (f : MenuState -> MenuState) : App unit := fun m s => Some (Got tt, f m, s).
Definition chain {A B} (p : App A) (k : A -> App B) : App B := fun m s =>
  match p m s with
  | None => None
  | Some (Got a, m, s) => k a m s
  | Some (FormCancelled, m, s) => Some (FormCancelled, m, s)
  | Some (Threw, m, s) => Some (Threw, m, s)
  end.

Declare Scope app_scope.
Delimit Scope app_scope with app.
Notation "'let!' x := p 'in' k" := (chain p (fun x => k))
  (at level 100, x name, p at next level, right associativity) : app_scope.
Notation "p >> k" := (chain p (fun _ => k)) (at level 100, right associativity) : app_scope.
Local Open Scope app_scope.

(** [try { p } catch (const CursesFormCancelled&) { q }]. *)
Definition catch_cancel {A} (p q : App A) : App A := fun m s =>
  match p m s with Some (FormCancelled, m, s) => q m s | r => r end.

(** The options a form starts with. *)
Definition touch (keys : list string) : App unit :=
  change (fun m => put_preferences (touch_options keys (preferences m)) m).

Section main_menu.
Context `{Locale} `{OpenSSL} `{Platform} `{Sodium} `{Disk}.
(** Whether the file opens and its statements succeed, at each save. *)
Variable saving : nat -> bool * (nat -> bool).

(** The text of an exception does not matter: keys scroll a notice and end it. *)
Definition report : App unit := lift (show_curses_notice "").

(** The lambda [save_preferences]. *)
Definition save : App unit :=
  let! m := menu_state in
  let '(opens, succeeds) := saving (saves m) in
  let '(r, file) := save_preferences opens succeeds (preferences m) (database m) in
  change (put_database file) >>
  match r with Returned _ => give tt | Thrown => report end.

(* ===================================================================== *)
(** * The nickname *)

Definition nickname_check (v : string) : string :=
  if is_valid_nickname v then "" else ui_text.nickname_error.
Definition nickname_fields (n : string) (remembered : bool) : list CursesField :=
  [MkField ui_text.nickname n NICK_MAX_LEN false false (Some nickname_check);
   toggle_field "Remember nickname and recent servers" remembered].

(** What the form makes of the preferences. *)
Definition with_choice (n : string) (remembered : bool) (p : Preferences) : Preferences :=
  if remembered then MkPreferences true n (options p) (recent_servers p) else MkPreferences false n ∅ [].

(** [load_or_create_identity], with the files at the seat. *)
Definition load_identity (n : string) (previous : ClientIdentity) : App (option (ClientIdentity * bool)) :=
  lift (fun s =>
    let '(ok, i, created, files) := load_or_create_identity (seat_files s) (draws s) n previous in
    Some (Got (if ok then Some (i, created) else None),
          MkSeat (seat_size s) (inputs s) files (Datatypes.S (draws s)))).

(** The form before the main menu; [None] when the program ends instead. *)
Definition ask_nickname : App (option bool) :=
  let! m := menu_state in
  let! fields := lift (form ui_text.nickname_description
                         (nickname_fields (nickname (preferences m)) (Preferences.remember (preferences m)))) in
  let n := value_at fields 0 in
  change (put_user n (local_identity m) (with_choice n (is_yes fields 1) (preferences m))) >>
  save >>
  let! m := menu_state in
  let! loaded := load_identity n (local_identity m) in
  match loaded with
  | None => give None
  | Some (i, created) => change (put_user n i (preferences m)) >> give (Some created)
  end.

(** Choice [n] of the main menu. *)
Definition change_nickname : App unit :=
  let! m := menu_state in
  let! fields := lift (form "Each nickname uses its existing local identity key."
                         (nickname_fields (nick m) (Preferences.remember (preferences m)))) in
  let n := value_at fields 0 in
  let! loaded := load_identity n (MkIdentity "" "" "") in
  match loaded with
  | None => lift (show_curses_notice "Could not load the identity for that nickname.")
  | Some (i, _) =>
      change (put_user n i (with_choice n (is_yes fields 1) (preferences m))) >>
      save
  end.

(* ===================================================================== *)
(** * Remembered servers *)

Definition recent_detail (e : RecentServer) : string :=
  recent_host e +:+ ":" +:+ to_string (recent_port e) +:+ (if recent_tls e then " (TLS)" else " (insecure plaintext)").
Definition recent_items (l : list RecentServer) : list CursesMenuItem :=
  (fun e => MkItem None (recent_name e) (recent_detail e)) <$> l.
Definition recent_actions : list CursesMenuItem :=
  [MkItem (Some "j"%char) "Join" "Connect using these settings.";
   MkItem (Some "n"%char) "Rename" "Change the display name.";
   MkItem (Some "d"%char) "Remove" "Forget this saved connection."].

Definition rename_recent (i : nat) (e : RecentServer) : App unit :=
  catch_cancel
    (let! fields := lift (form "Connection details stay the same."
                            [required_field "Display name" (recent_name e) HOST_MAX_LEN]) in
     change (fun m => put_preferences (set_recent
       (alter (with_name (value_at fields 0)) i (recent_servers (preferences m))) (preferences m)) m) >>
     save)
    (give tt).
Definition remove_recent (i : nat) : App unit :=
  change (fun m => put_preferences (set_recent
    (delete i (recent_servers (preferences m))) (preferences m)) m) >>
  save.

(** Choice [r]: the server to join, if one is chosen. *)
Definition choose_recent : App (option RecentServer) :=
  let! m := menu_state in
  let l := recent_servers (preferences m) in
  match l with
  | [] => lift (show_curses_notice "Enable remembering in the nickname form, then join a server successfully.") >> give None
  | _ =>
      let! selected := lift (choose "Choose a saved connection." (recent_items l)) in
      match (if (selected <? 0)%Z then None else l !! Z.to_nat selected) with
      | None => give None
      | Some e =>
          let! action := lift (choose (recent_detail e) recent_actions) in
          if (action =? 0)%Z then give (Some e)
          else if (action =? 1)%Z then rename_recent (Z.to_nat selected) e >> give None
          else if (action =? 2)%Z then remove_recent (Z.to_nat selected) >> give None
          else give None
      end
  end.
End main_menu.
