(* ===== verification/Targets.v ===== *)
(** What the main menu of [ui/interactive_app.cpp] goes on with: the server to join,
    from a remembered one, an invite, a directory or a form, and the server to host,
    with the summary and the invites that the host is shown. *)

From S2P Require Import Prelude DisplayText Utils Terminal Tls Browser Options Preferences Invite DedicatedServer Screen Interface Setup MainMenu.
Local Open Scope string_scope.
Local Open Scope app_scope.

(** The connection that is made, with its [client_tls]. *)
Record Target := MkTarget { selected_host : string; selected_port : N; client_tls : ClientConfig }.

(** What the form of choice [h] says. *)
Record Hosting := MkHosting {
  hosting_port : N;
  room_password : string;
  enable_upnp : bool;
  host_tls : ServerConfig;
  published : option PublicationSettings;
}.

Inductive Next := Leaves | Joins (t : Target) | Hosts (h : Hosting).

(** What [run_network_task] gives for [list_servers]: nothing when the user gave up, an
    exception, an error or the entries. *)
Inductive Listing := NoListing | ListingThrew | ListingFailed (error : string) | Listed (entries : list BrowserEntry).

Section targets.
Context `{Locale} `{OpenSSL} `{Platform} `{Sodium} `{Disk}.
Variable saving : nat -> bool * (nat -> bool).
(** The user's answer to [confirm_certificate]. *)
Variable confirm : string -> string -> string -> Files -> bool * Files.
Variable list_directory : string -> ClientConfig -> Listing.
(** The clock when the entries are shown. *)
Variable seen_at : Z.
Abbreviation save := (save saving).

(** [interactive_tls()], and its fields that a target sets. *)
Definition interactive_tls : ClientConfig := MkClientConfig true "" "" default_trust_store_path false (Some confirm).
Definition tls_of (enabled : bool) (ca pin : string) : ClientConfig :=
  client_fingerprint pin (client_ca ca (client_enabled enabled interactive_tls)).

(* ===================================================================== *)
(** * Joining *)

Definition recent_target (e : RecentServer) : Target :=
  MkTarget (recent_host e) (recent_port e) (tls_of (recent_tls e) (recent_ca e) (recent_pin e)).

Definition invite_target (i : Invite) : Target :=
  MkTarget (host i) (Invite.port i) (tls_of (Invite.tls i) "" (fingerprint i)).
Definition invite_detail (i : Invite) : string :=
  host i +:+ ":" +:+ to_string (Invite.port i)
  +:+ (if Invite.tls i then String newline "TLS enabled."
       else String newline "INSECURE plaintext exposes messages and passwords.")
  +:+ (if password_required i then String newline "Password required; ask the host separately."
       else String newline "No password indicated.")
  +:+ String newline "SHA-256: " +:+ (if sempty (fingerprint i) then "not supplied" else fingerprint i)
  +:+ String newline "A fingerprint is useful only if this invite came through a trusted channel.".
Definition invite_actions : list CursesMenuItem :=
  [MkItem (Some "b"%char) ui_text.invite_back_action ui_text.invite_discard; MkItem (Some "j"%char) ui_text.invite_join_action ui_text.invite_join].

(** Choice [i]. *)
Definition join_by_invite : App (option Target) :=
  let! fields := lift (form ui_text.invite_form_help
                         [required_field ui_text.invite_field "" 1024]) in
  match parse_invite (value_at fields 0) with
  | inl _ => lift threw
  | inr i =>
      lift (show_curses_notice (invite_detail i)) >>
      let! choice := lift (choose ui_text.invite_review_help invite_actions) in
      give (if (choice =? 1)%Z then Some (invite_target i) else None)
  end.

Definition directory_fields (p : Preferences) : list CursesField :=
  [required_field "Directory host" (option_at "directory.host" p) HOST_MAX_LEN;
   toggle_field "Use TLS (no = insecure plaintext)" (negb (String.eqb (option_at "directory.tls" p) "no"));
   plain_field "Trusted CA file (optional)" (option_at "directory.ca" p) LOGFILE_MAX_LEN;
   plain_field "SHA-256 fingerprint (optional)" (option_at "directory.pin" p) 95].
Definition directory_options (fields : list CursesField) (p : Preferences) : Preferences :=
  set_option "directory.pin" (value_at fields 3) (set_option "directory.ca" (value_at fields 2)
    (set_option "directory.tls" (value_at fields 1) (set_option "directory.host" (value_at fields 0) p))).
Definition directory_tls (fields : list CursesField) : ClientConfig :=
  tls_of (is_yes fields 1) (value_at fields 2) (value_at fields 3).

(** The certificate of a listed server is not the directory's. *)
Definition listed_target (e : BrowserEntry) : Target :=
  MkTarget (entry_host e) (entry_port e) (tls_of (uses_tls e) "" "").
Definition listed_items (entries : list BrowserEntry) : list CursesMenuItem :=
  (fun e => MkItem None (entry_name e) (browser_entry_summary seen_at e)) <$> entries.

Definition refuse (detail : string) : App (option Target) := lift (show_curses_notice detail) >> give None.

Definition choose_listed (entries : list BrowserEntry) : App (option Target) :=
  match entries with
  | [] => refuse "No servers are published there right now. Ask the host for an invite or choose Join from the menu. Choose Discover again to refresh."
  | _ =>
      let! selected := lift (choose "Select a server to join." (listed_items entries)) in
      match (if (selected <? 0)%Z then None else entries !! Z.to_nat selected) with
      | None => give None
      | Some e => lift (show_curses_notice (browser_entry_summary seen_at e)) >> give (Some (listed_target e))
      end
  end.

(** Choice [b]. *)
Definition discover : App (option Target) :=
  touch ["directory.host"; "directory.tls"; "directory.ca"; "directory.pin"] >>
  let! m := menu_state in
  let! fields := lift (form "Connect to a server directory to see who is online." (directory_fields (preferences m))) in
  change (fun m => put_preferences (directory_options fields (preferences m)) m) >>
  save >>
  match parse_browser_address (value_at fields 0) with
  | None => refuse "Enter only the browser server host/IP, without a port."
  | Some browser_host =>
      match list_directory browser_host (directory_tls fields) with
      | NoListing => give None
      | ListingThrew => lift threw
      | ListingFailed error => refuse (error +:+ String newline "Choose Discover to retry or Join for a manual address.")
      | Listed entries => choose_listed entries
      end
  end.

Definition join_fields (m : MenuState) : list CursesField :=
  [required_field ui_text.join_host_field (previous_host m) HOST_MAX_LEN;
   MkField ui_text.join_port_field (previous_port m) 5 false false (Some port_check);
   MkField ui_text.join_tls_field (previous_join_tls m) 3 false true None;
   plain_field "Trusted CA file (optional)" (option_at "join.ca" (preferences m)) LOGFILE_MAX_LEN;
   plain_field "SHA-256 fingerprint (optional)" (option_at "join.pin" (preferences m)) 95].
Definition form_target (fields : list CursesField) : Target :=
  MkTarget (value_at fields 0) (default 0%N (parse_port (value_at fields 1)))
    (tls_of (is_yes fields 2) (value_at fields 3) (value_at fields 4)).

(** Choice [j]. *)
Definition join_by_form : App (option Target) :=
  touch ["join.ca"; "join.pin"] >>
  let! m := menu_state in
  let! fields := lift (form ui_text.join_form_guidance
                         (join_fields m)) in
  change (put_join (value_at fields 0) (value_at fields 1) (value_at fields 2)) >>
  change (fun m => put_preferences (set_option "join.pin" (value_at fields 4)
    (set_option "join.ca" (value_at fields 3) (preferences m))) m) >>
  save >>
  give (Some (form_target fields)).

(** After a session was joined. *)
Definition remember_target (t : Target) : App unit :=
  let! m := menu_state in
  if Preferences.remember (preferences m) then
    change (put_preferences (remember_server
      (MkRecent (selected_host t) (selected_host t) (selected_port t) (enabled (client_tls t))
         (ca_path (client_tls t)) (expected_fingerprint (client_tls t))) (preferences m))) >>
    save
  else give tt.

(* ===================================================================== *)
(** * Hosting *)

Definition host_fields (m : MenuState) : list CursesField :=
  [MkField ui_text.host_port_tcp (previous_host_port m) 5 false false (Some port_check);
   MkField ui_text.host_password_optional (previous_password m) PASS_MAX_LEN true false None;
   MkField ui_text.upnp_forwarding (previous_upnp m) 3 false true None;
   toggle_field ui_text.publish_directory false;
   MkField ui_text.host_tls_field (previous_host_tls m) 3 false true None].

(** [configure_tls(host_tls)], on the variable itself. *)
Definition configure_host_tls (wanted : bool) : App ServerConfig :=
  let! m := menu_state in
  let set t m := put_hosting (previous_host_port m) (previous_password m) (previous_upnp m) (previous_host_tls m) t m in
  change (set (tls_enabled wanted (host_certificate m))) >>
  let! m := menu_state in
  let! r := lift (choose_tls (host_certificate m)) in
  change (set (fst r)) >>
  if snd r then lift (check_context (fst r)) >> give (fst r) else give (fst r).

Definition publication_of (p : Preferences) : PublicationSettings :=
  MkPublication (option_at "publish.host" p) (option_at "publish.name" p) (option_at "publish.address" p)
    (negb (String.eqb (option_at "publish.tls" p) "no")) (option_at "publish.ca" p) (option_at "publish.pin" p).
Definition publication_options (pub : PublicationSettings) (p : Preferences) : Preferences :=
  set_option "publish.pin" (publication_pin pub) (set_option "publish.ca" (publication_ca pub)
    (set_option "publish.tls" (if publication_tls pub then "yes" else "no")
      (set_option "publish.address" (public_host pub) (set_option "publish.name" (publication_name pub)
        (set_option "publish.host" (publication_host pub) p))))).

Definition ask_publication : App PublicationSettings :=
  touch ["publish.host"; "publish.name"; "publish.address"; "publish.tls"; "publish.ca"; "publish.pin"] >>
  let! m := menu_state in
  let! pub := lift (configure_publication (publication_of (preferences m))) in
  change (fun m => put_preferences (publication_options pub (preferences m)) m) >>
  save >>
  give pub.

(** Choice [h], up to the construction of the server. *)
Definition host_setup : App (option Hosting) :=
  let! m := menu_state in
  let! fields := lift (form ui_text.host_form_guidance
                         (host_fields m)) in
  change (fun m => put_hosting (value_at fields 0) (value_at fields 1) (value_at fields 2) (value_at fields 4) (host_certificate m) m) >>
  let! t := configure_host_tls (is_yes fields 4) in
  change (fun m => put_preferences (set_option "host.key" (private_key_path t)
    (set_option "host.certificate" (certificate_path t) (preferences m))) m) >>
  save >>
  let! pub := (if is_yes fields 3 then let! pub := ask_publication in give (Some pub) else give None) in
  match parse_port (value_at fields 0) with
  | None => lift (show_curses_notice "Invalid port number (0-65535)") >> give None
  | Some p =>
      match (match pub with Some pub => parse_browser_address (publication_host pub) | None => Some "" end) with
      | None => lift (show_curses_notice "Enter only the browser server host/IP, without a port.") >> give None
      | Some _ => give (Some (MkHosting p (value_at fields 1) (is_yes fields 2) t pub))
      end
  end.

(* ===================================================================== *)
(** * The main menu *)

Definition main_items : list CursesMenuItem :=
  [MkItem (Some "j"%char) ui_text.join_server ui_text.join_server_detail;
   MkItem (Some "h"%char) ui_text.host_conversation ui_text.host_detail;
   MkItem (Some "b"%char) ui_text.discover_servers ui_text.discover_detail_main;
   MkItem (Some "r"%char) "Recent servers" "Review, join, rename, or remove a remembered server.";
   MkItem (Some "n"%char) "Nickname and preferences" "Choose a local identity and whether to remember servers.";
   MkItem (Some "i"%char) "Join by invite" "Paste a versioned Chatbox invite and review its settings.";
   MkItem (Some "q"%char) ui_text.quit ui_text.close_chatbox].

Definition joins (p : App (option Target)) : App (option Next) :=
  let! t := p in give (Joins <$> t).
Definition main_choice (choice : Z) : App (option Next) :=
  if (choice =? 0)%Z then joins join_by_form
  else if (choice =? 1)%Z then (let! h := host_setup in give (Hosts <$> h))
  else if (choice =? 2)%Z then joins discover
  else if (choice =? 3)%Z then joins (let! e := choose_recent saving in give (recent_target <$> e))
  else if (choice =? 4)%Z then change_nickname saving >> give None
  else if (choice =? 5)%Z then joins join_by_invite
  else give (Some Leaves).

(** One turn: [None] to show the menu again, also when a form is cancelled or something
    throws. *)
Definition main_turn : App (option Next) :=
  let! choice := lift (choose ui_text.where_to_go main_items) in
  fun m s => match main_choice choice m s with
             | Some (FormCancelled, m, s) => Some (Got None, m, s)
             | Some (Threw, m, s) => (report >> give None) m s
             | r => r
             end.

(** The loop, up to the next session, server or the end. Every turn reads a key. *)
Fixpoint main_loop (fuel : nat) : App Next := fun m s =>
  match fuel with
  | 0 => None
  | Datatypes.S fuel' =>
      match main_turn m s with
      | Some (Got None, m, s) => main_loop fuel' m s
      | Some (Got (Some next), m, s) => Some (Got next, m, s)
      | Some (FormCancelled, m, s) => Some (FormCancelled, m, s)
      | Some (Threw, m, s) => Some (Threw, m, s)
      | None => None
      end
  end.
Definition run_main_menu : App Next := fun m s => main_loop (Datatypes.S (length (inputs s))) m s.

(** What [run_curses_app] does up to the first turn: the startup menu may go on with
    something else, cancelling the nickname ends the program with code 0, and an identity
    that cannot be had with code 1; else the variables are set, and a first line tells the
    identity. *)
Inductive Beginning := Otherwise (startup : Startup) | Exits (code : N) | Opens (line : string).
Definition begin_app (file : option Database) (opens : bool) : App Beginning :=
  let! startup := lift run_startup_menu in
  match startup with
  | Chats =>
      match load_preferences file opens with
      | Returned p => change (put_preferences p)
      | Thrown => change (put_preferences no_preferences) >> report
      end >>
      let! asked := catch_cancel (let! created := ask_nickname saving in give (Some created)) (give None) in
      match asked with
      | None => give (Exits 0)
      | Some None => give (Exits 1)
      | Some (Some created) =>
          change (fun m => first_menu (nick m) (local_identity m) (preferences m) (database m) (saves m)) >>
          let! m := menu_state in
          give (Opens ("[system] " +:+ (if created then "Created" else "Loaded") +:+ " local identity "
            +:+ identity_fingerprint (public_key_hex (local_identity m))))
      end
  | _ => give (Otherwise startup)
  end.
End targets.

(* ===================================================================== *)
(** * The host's summary *)

Section summary.
Context `{OpenSSL}.

(** [upnp], when a router was asked: its last error and the external address. *)
Record Mapping := MkMapping { last_error : string; external_ip : string }.
Definition mapped (u : option Mapping) : bool := match u with Some u => sempty (last_error u) | None => false end.

Definition with_mapping (u : option Mapping) (publish_host : string) : string :=
  match u with
  | Some u => if sempty (last_error u) && sempty publish_host then external_ip u else publish_host
  | None => publish_host
  end.

Definition host_invite (address : string) (port : N) (t : ServerConfig) (has_password : bool) (fp : string) : Invite :=
  MkInvite address port (server_enabled t) has_password (if server_enabled t then fp else "").

(** The calls of [add_invite]: the text, or the exception of [make_invite]. *)
Fixpoint add_invites (l : list (string * string)) (port : N) (t : ServerConfig) (has_password : bool) (fp : string) :
    string + string :=
  match l with
  | [] => inr ""
  | (address, scope) :: l =>
      match make_invite (host_invite address port t has_password fp) with
      | inl error => inl error
      | inr text =>
          match add_invites l port t has_password fp with
          | inl error => inl error
          | inr rest => inr (scope +:+ ": " +:+ address +:+ ":" +:+ to_string port +:+ String newline ""
                             +:+ text +:+ String newline "" +:+ rest)
          end
      end
  end.
Definition invited_addresses (local : list string) (publish_host : string) : list (string * string) :=
  (((fun a => (a, "LAN")) <$> local)
   ++ (if sempty publish_host then [] else [(publish_host, "Public/advertised (unverified)")])
   ++ [("localhost", "This computer only")])%list.

Definition hosting_details (files : Files) (port : N) (t : ServerConfig) (password : string) (u : option Mapping)
    (local : list string) (publish_host : string) : string + string :=
  let fp := certificate_sha256_fingerprint files (certificate_path t) in
  let nl := String newline "" in
  match add_invites (invited_addresses local (with_mapping u publish_host)) port t (negb (sempty password)) fp with
  | inl error => inl error
  | inr invites =>
      inr ("Listening on TCP port " +:+ to_string port
        +:+ (if server_enabled t then " with TLS." +:+ nl else " — INSECURE plaintext." +:+ nl)
        +:+ (if sempty password then "No server password." +:+ nl else "Password required (share separately)." +:+ nl)
        +:+ "TLS protects transport, not end-to-end messages." +:+ nl
        +:+ (if server_enabled t then "SHA-256: " +:+ fp +:+ nl else "")
        +:+ (if mapped u then "Router TCP mapping requested successfully; internet reachability is NOT verified." +:+ nl
             else "UPnP unavailable, failed, skipped, or timed out. " +:+ from_option last_error "" u +:+ nl)
        +:+ "For LAN guests, use this computer's LAN address. For internet guests, use a public address and forward TCP port "
        +:+ to_string port +:+ " to this computer. Check your firewall too." +:+ nl
        +:+ invites
        +:+ "Invites contain connection details and a public fingerprint, never passwords or private keys. Share through a trusted channel. F3 reopens this summary.")
  end.

(** The entry that is published. *)
Definition hosted_entry (nick name : string) (publish_host : string) (port : N) (has_password tls : bool) : BrowserEntry :=
  MkEntry (if sempty name then nick +:+ "'s room" else sanitize_browser_field name BROWSER_NAME_MAX_LEN)
    (if sempty publish_host then "127.0.0.1" else publish_host) port has_password tls 0 0.
End summary.
