(* ===== verification/MenuProperties.v ===== *)
(** Theorems about [MainMenu.v] and [Targets.v]: what any keys at the main menu do to its
    variables, and what it goes on with; and what the invites of a host's summary do when a
    guest pastes one. *)

From S2P Require Import Prelude Utils Terminal Tls Browser Options Preferences Invite DedicatedServer Screen Interface.
From S2P Require Import BrowserProperties InterfaceProperties Setup SetupProperties MainMenu Targets.
Local Open Scope string_scope.
Local Open Scope app_scope.

Section menu_properties.
Context `{Locale} `{OpenSSL} `{Platform} `{Sodium} `{Disk}.

(* ===================================================================== *)
(** * Programs of the menu *)

(** A program keeps what holds of the variables, gives no keys back, and gives a value. *)
Definition does {A} (I : MenuState -> Prop) (p : App A) (Q : A -> Prop) : Prop :=
  forall m s r m' s', I m -> p m s = Some (r, m', s') ->
    I m' /\ (length (inputs s') <= length (inputs s))%nat /\ match r with Got a => Q a | _ => True end.

Lemma does_lift {A} I (u : UI A) Q : gives u Q -> does I (lift u) Q.
Proof.
  intros Hu m s r m' s' Hm. unfold lift. destruct (u s) as [[r1 s1]|] eqn:E; [|done]. intros [= <- <- <-].
  split; [done|]. by apply Hu in E.
Qed.
Lemma does_give {A} I (a : A) (Q : A -> Prop) : Q a -> does I (give a) Q.
Proof. intros Ha. by apply does_lift, gives_got. Qed.
Lemma does_state I : does I menu_state I.
Proof. intros m s r m' s' Hm [= <- <- <-]. auto. Qed.
Lemma does_change I f (Q : unit -> Prop) : (forall m, I m -> I (f m)) -> Q tt -> does I (change f) Q.
Proof. intros Hf Hq m s r m' s' Hm [= <- <- <-]. auto. Qed.
Lemma does_chain {A B} I (p : App A) (k : A -> App B) P Q :
  does I p P -> (forall a, P a -> does I (k a) Q) -> does I (chain p k) Q.
Proof.
  intros Hp Hk m s r m' s' Hm. unfold chain. destruct (p m s) as [[[r1 m1] s1]|] eqn:E; [|done].
  apply (Hp _ _ _ _ _ Hm) in E as (Hm1 & Hl & Hr). destruct r1 as [a| |].
  - intros Hr'. apply (Hk a Hr _ _ _ _ _ Hm1) in Hr' as (? & ? & ?). split; [done|]. split; [lia|done].
  - by intros [= <- <- <-].
  - by intros [= <- <- <-].
Qed.
Lemma does_catch {A} I (p q : App A) Q : does I p Q -> does I q Q -> does I (catch_cancel p q) Q.
Proof.
  intros Hp Hq m s r m' s' Hm. unfold catch_cancel. destruct (p m s) as [[[r1 m1] s1]|] eqn:E; [|done].
  apply (Hp _ _ _ _ _ Hm) in E as (Hm1 & Hl & Hr). destruct r1 as [a| |].
  - by intros [= <- <- <-].
  - intros Hr'. apply (Hq _ _ _ _ _ Hm1) in Hr' as (? & ? & ?). split; [done|]. split; [lia|done].
  - by intros [= <- <- <-].
Qed.
Lemma does_weaken {A} I (p : App A) (P Q : A -> Prop) : does I p P -> (forall a, P a -> Q a) -> does I p Q.
Proof. intros Hp Hq m s r m' s' Hm E. apply (Hp _ _ _ _ _ Hm) in E as (? & ? & ?). split_and!; [done..|]. destruct r; auto. Qed.

Lemma does_report I : does I report (fun _ => True).
Proof. apply does_lift, gives_notice. Qed.
Lemma does_notice I detail : does I (lift (show_curses_notice detail)) (fun _ => True).
Proof. apply does_lift, gives_notice. Qed.
Lemma does_choose I subtitle items :
  does I (lift (choose subtitle items)) (fun choice => (-1 <= choice < Z.of_nat (length items))%Z).
Proof. apply does_lift, gives_choose. Qed.
Lemma does_form I subtitle fs : does I (lift (form subtitle fs)) (submitted fs).
Proof. apply does_lift, gives_form. Qed.

(* ===================================================================== *)
(** * The invariant of the menu *)

Definition recent_ok (e : RecentServer) : Prop :=
  (recent_port e <= 65535)%N.
Record prefs_ok (p : Preferences) : Prop := {
  recent_servers_ok : Forall recent_ok (recent_servers p);
  recent_distinct : NoDup (address <$> recent_servers p);
  recent_few : (length (recent_servers p) <= 10)%nat;
}.
(** The nickname is one that a server takes, and the remembered servers are at most ten,
    no two at an address, each with a port. *)
Record menu_ok (m : MenuState) : Prop := {
  nick_ok : is_valid_nickname (nick m) = true;
  preferences_ok : prefs_ok (preferences m);
}.

Lemma prefs_options p p' : prefs_ok p -> recent_servers p' = recent_servers p -> prefs_ok p'.
Proof. intros [H1' H2' H3'] E. split; by rewrite E. Qed.
Lemma set_option_ok key v p : prefs_ok p -> prefs_ok (set_option key v p).
Proof. intros Hp. by apply (prefs_options p). Qed.
Lemma touch_options_ok keys p : prefs_ok p -> prefs_ok (touch_options keys p).
Proof.
  intros Hp. induction keys as [|key keys IH]; cbn [touch_options fold_right]; [done|].
  unfold touch_option at 1. case_match; [exact IH|by apply set_option_ok].
Qed.
Lemma with_choice_ok n remembered p : prefs_ok p -> prefs_ok (with_choice n remembered p).
Proof.
  intros Hp. unfold with_choice. destruct remembered; [by apply (prefs_options p)|].
  split; cbn; [constructor|constructor|lia].
Qed.
Lemma rename_ok i name p : prefs_ok p -> prefs_ok (set_recent (alter (with_name name) i (recent_servers p)) p).
Proof.
  intros [Hf Hd Hl]. assert (address <$> alter (with_name name) i (recent_servers p) = address <$> recent_servers p) as Ea.
  { rewrite (list_fmap_alter address _ id); [|by apply list.Forall_forall]. by apply list_alter_id. }
  split; cbn [set_recent recent_servers].
  - apply Forall_alter; [done|]. intros x _ Hx. exact Hx.
  - by rewrite Ea.
  - by rewrite length_alter.
Qed.
Lemma remove_ok i p : prefs_ok p -> prefs_ok (set_recent (delete i (recent_servers p)) p).
Proof.
  intros [Hf Hd Hl]. split; cbn [set_recent recent_servers].
  - by apply Forall_delete.
  - eapply sublist_NoDup; [exact Hd|]. apply fmap_sublist, sublist_delete.
  - pose proof (sublist_length _ _ (sublist_delete (recent_servers p) i)). lia.
Qed.
Lemma remember_ok e p : prefs_ok p -> recent_ok e -> prefs_ok (remember_server e p).
Proof.
  intros [Hf Hd Hl] He. destruct (remember_server_spec e p Hd Hl) as (Hd' & Hl' & E).
  split; [|done|done]. rewrite E. apply Forall_take. constructor; [exact He|].
  apply list.Forall_forall. intros x Hx. apply list_elem_of_filter in Hx as [_ Hx].
  by eapply list.Forall_forall in Hf.
Qed.

Lemma menu_preferences m p : menu_ok m -> prefs_ok p -> menu_ok (put_preferences p m).
Proof. intros [Hn _] Hp. by split. Qed.

(** The variables before the first turn are sound. *)
Lemma first_menu_ok n i p file saved : is_valid_nickname n = true -> prefs_ok p -> menu_ok (first_menu n i p file saved).
Proof. intros Hn Hp. split; [exact Hn|by apply touch_options_ok]. Qed.

(* ===================================================================== *)
(** * The programs *)

Variable saving : nat -> bool * (nat -> bool).
Variable confirm : string -> string -> string -> Files -> bool * Files.
Variable list_directory : string -> ClientConfig -> Listing.
Variable seen_at : Z.

Lemma does_save : does menu_ok (save saving) (fun _ => True).
Proof.
  unfold save. eapply does_chain; [apply does_state|]. intros m Hm. destruct (saving (saves m)) as [opens succeeds].
  destruct (save_preferences _ _ _ _) as [r file]. eapply (does_chain _ _ _ (fun _ => True)).
  - apply does_change; [|done]. intros m' [Hn Hp]. by split.
  - intros _ _. destruct r; [by apply does_give|apply does_report].
Qed.
Lemma does_load n i I : does I (load_identity n i) (fun _ => True).
Proof.
  apply does_lift. intros s r s'. destruct (load_or_create_identity _ _ _ _) as [[[ok j] created] files].
  intros [= <- <-]. done.
Qed.

Lemma does_touch keys : does menu_ok (touch keys) (fun _ => True).
Proof. apply does_change; [|done]. intros m Hm. apply menu_preferences; [done|]. by apply touch_options_ok, (preferences_ok m). Qed.

Ltac does_step :=
  match goal with
  | |- does _ (chain (touch _) _) _ => eapply does_chain; [apply does_touch|intros _ _]
  | |- does _ (chain (change _) _) _ => eapply (does_chain _ _ _ (fun _ => True)); [apply does_change; [|done]|intros _ _]
  | |- does _ (chain menu_state _) _ => eapply does_chain; [apply does_state|intros ? ?]
  | |- does _ (chain (lift (form _ _)) _) _ => eapply does_chain; [apply does_form|intros ? ?]
  | |- does _ (chain (lift (choose _ _)) _) _ => eapply does_chain; [apply does_choose|intros ? ?]
  | |- does _ (chain (lift (show_curses_notice _)) _) _ => eapply does_chain; [apply does_notice|intros _ _]
  | |- does _ (chain (save _) _) _ => eapply does_chain; [apply does_save|intros _ _]
  | |- does _ (chain (load_identity _ _) _) _ => eapply does_chain; [apply does_load|intros ? _]
  | |- does _ (give _) _ => apply does_give
  | |- does _ (lift (show_curses_notice _)) _ => apply does_notice
  | |- does _ (save _) _ => apply does_save
  | |- does _ report _ => apply does_report
  | |- does _ (lift threw) _ => apply does_lift; by intros ? ? ? [= <- <-]
  end.

Lemma nickname_submitted fs fs' n b : fs = nickname_fields n b -> submitted fs fs' -> is_valid_nickname (value_at fs' 0) = true.
Proof.
  intros -> Hs. pose proof (submitted_check _ _ 0 _ _ Hs eq_refl eq_refl) as Hc. unfold nickname_check in Hc.
  by destruct (is_valid_nickname _).
Qed.

Lemma does_nickname : does menu_ok (change_nickname saving) (fun _ => True).
Proof.
  unfold change_nickname. do 3 does_step. destruct a1 as [[i created]|]; [|does_step].
  does_step; [|does_step]. intros m Hm. split; cbn; [by eapply nickname_submitted|].
  by apply with_choice_ok, (preferences_ok a).
Qed.
Lemma does_recent : does menu_ok (choose_recent saving) (fun e => from_option recent_ok True e).
Proof.
  unfold choose_recent. does_step. destruct (recent_servers (preferences a)) as [|e0 l] eqn:El; [do 2 does_step; done|].
  rewrite <- El. does_step. destruct (if (a0 <? 0)%Z then None else _) as [e|] eqn:Ee; [|by does_step].
  assert (recent_ok e) as He.
  { destruct (a0 <? 0)%Z; [done|]. eapply Forall_lookup_1; [|exact Ee]. apply recent_servers_ok, (preferences_ok a). done. }
  does_step. destruct (a1 =? 0)%Z; [by does_step|]. destruct (a1 =? 1)%Z; [|destruct (a1 =? 2)%Z; [|by does_step]].
  - eapply (does_chain _ _ _ (fun _ => True)); [|intros _ _; by does_step]. unfold rename_recent.
    apply does_catch; [|by does_step]. does_step. does_step; [|does_step]. intros p Hp. apply menu_preferences; [done|].
    by apply rename_ok, (preferences_ok p).
  - eapply (does_chain _ _ _ (fun _ => True)); [|intros _ _; by does_step]. unfold remove_recent.
    does_step; [|does_step]. intros p Hp. apply menu_preferences; [done|].
    by apply remove_ok, (preferences_ok p).
Qed.

(* ===================================================================== *)
(** * What the menu goes on with *)

(** A target: nobody but the user trusts a certificate that is new or has changed. *)
Definition target_ok (t : Target) : Prop :=
  (selected_port t <= 65535)%N /\ trust_on_first_use (client_tls t) = false /\
  Tls.confirm_certificate (client_tls t) = Some confirm.
Definition hosting_ok (h : Hosting) : Prop :=
  (hosting_port h <= 65535)%N /\ files_missing (host_tls h) = false /\
  forall pub, published h = Some pub -> publication_host pub <> "".
Definition next_ok (n : option Next) : Prop :=
  match n with
  | Some (Joins t) => target_ok t
  | Some (Hosts h) => hosting_ok h
  | Some Leaves | None => True
  end.

(** The entries of a directory are what was read from its answer. *)
Definition read_listing : Prop := forall browser_host c es, list_directory browser_host c = Listed es ->
  exists response n, parse_entries response n [] = inr es.

Lemma parse_entry_port line n e : parse_entry line n = Some e -> (entry_port e <= 65535)%N.
Proof.
  unfold parse_entry. destruct (split line "|") as [|k [|nm [|h [|p [|pw [|us [|t [|age l]]]]]]]]; try done.
  destruct (negb _); [done|]. destruct (parse_u16_field p) as [port|] eqn:E; [|done]. intros [= <-]. cbn [entry_port].
  apply BrowserProperties.parse_port_bound in E. lia.
Qed.
Lemma parse_entries_ports response : forall n out es, Forall (fun e => (entry_port e <= 65535)%N) out ->
  parse_entries response n out = inr es -> Forall (fun e => (entry_port e <= 65535)%N) es.
Proof.
  induction response as [|line response IH]; intros n out es Ho; cbn [parse_entries]; [done|].
  destruct (String.eqb line "END"); [by intros [= <-]|].
  destruct (parse_entry line n) as [e|] eqn:E; [|by apply IH]. apply IH, Forall_app_2; [done|].
  constructor; [by eapply parse_entry_port|constructor].
Qed.

Lemma tls_of_ok h p b ca pin : (p <= 65535)%N -> target_ok (MkTarget h p (tls_of confirm b ca pin)).
Proof. by split. Qed.

Lemma does_invite : does menu_ok (join_by_invite confirm) (fun t => from_option target_ok True t).
Proof.
  unfold join_by_invite. does_step. destruct (parse_invite (value_at a 0)) as [e|i] eqn:E; [does_step|].
  do 2 does_step. does_step. destruct (_ =? 1)%Z; [|done]. cbn. apply tls_of_ok.
  apply (proj2 invite_round_trip) in E as (_ & Hp & _). lia.
Qed.
Lemma does_refuse detail (Q : option Target -> Prop) : Q None -> does menu_ok (refuse detail) Q.
Proof. intros HQ. unfold refuse. does_step. by does_step. Qed.
Lemma does_discover : read_listing ->
  does menu_ok (discover saving confirm list_directory seen_at) (fun t => from_option target_ok True t).
Proof.
  intros Hread. unfold discover. do 3 does_step. does_step.
  { intros m Hm. apply menu_preferences; [done|]. unfold directory_options.
    do 4 apply set_option_ok. by apply (preferences_ok m). }
  does_step. destruct (parse_browser_address _) as [h|]; [|by apply does_refuse].
  destruct (list_directory h _) as [| |e|es] eqn:E; [by does_step|does_step|by apply does_refuse|].
  apply Hread in E as (response & n & E). apply parse_entries_ports in E; [|constructor].
  unfold choose_listed. destruct es as [|e0 es]; [by apply does_refuse|]. does_step.
  destruct (if (a1 <? 0)%Z then None else _) as [e|] eqn:Ee; [|by does_step].
  does_step. does_step. cbn. apply tls_of_ok. destruct (a1 <? 0)%Z; [done|].
  eapply Forall_lookup_1 in E; [|exact Ee]. exact E.
Qed.
Lemma does_form_join : does menu_ok (join_by_form saving confirm) (fun t => from_option target_ok True t).
Proof.
  unfold join_by_form. do 3 does_step.
  assert (exists p, parse_port (value_at a0 1) = Some p /\ (p <= 65535)%N) as (p & Ep & Hp).
  { apply port_check_spec. eapply (submitted_check _ _ 1); [eassumption|reflexivity|reflexivity]. }
  does_step. { intros m [Hn Hm]. by split. }
  does_step. { intros m Hm. apply menu_preferences; [done|]. do 2 apply set_option_ok. by apply (preferences_ok m). }
  does_step. does_step. cbn. unfold form_target. rewrite Ep. by apply tls_of_ok.
Qed.

Lemma does_host_tls wanted : does menu_ok (configure_host_tls wanted) (fun t => files_missing t = false).
Proof.
  unfold configure_host_tls. does_step. does_step. { intros m [Hn Hm]. by split. }
  does_step. eapply does_chain; [apply does_lift, gives_choose_tls|]. intros [t check] Ht. cbn [fst snd] in *.
  does_step. { intros m [Hn Hm]. by split. }
  destruct check; [|by does_step]. eapply does_chain; [apply does_lift, gives_check|]. intros _ _. by does_step.
Qed.
Lemma does_publication : does menu_ok (ask_publication saving) (fun pub => publication_host pub <> "").
Proof.
  unfold ask_publication. do 2 does_step. eapply does_chain; [apply does_lift, gives_publication|]. intros pub Hpub.
  does_step. { intros m Hm. apply menu_preferences; [done|]. do 6 apply set_option_ok. by apply (preferences_ok m). }
  does_step. by does_step.
Qed.
Lemma does_host : does menu_ok (host_setup saving) (fun h => from_option hosting_ok True h).
Proof.
  unfold host_setup. do 2 does_step.
  assert (exists p, parse_port (value_at a0 0) = Some p /\ (p <= 65535)%N) as (p & Ep & Hp).
  { apply port_check_spec. eapply (submitted_check _ _ 0); [eassumption|reflexivity|reflexivity]. }
  does_step. { intros m [Hn Hm]. by split. }
  eapply does_chain; [apply does_host_tls|]. intros t Ht.
  does_step. { intros m Hm. apply menu_preferences; [done|]. do 2 apply set_option_ok. by apply (preferences_ok m). }
  does_step. eapply (does_chain _ _ _ (fun pub => forall x, pub = Some x -> publication_host x <> "")).
  - destruct (is_yes a0 3); [|by does_step]. eapply does_chain; [apply does_publication|].
    intros pub Hpub. does_step. by intros x [= <-].
  - intros pub Hpub. rewrite Ep. destruct (match pub with Some _ => _ | None => _ end); [|does_step; by does_step].
    does_step. by split.
Qed.

Lemma does_joins p : does menu_ok p (fun t => from_option target_ok True t) -> does menu_ok (Targets.joins p) next_ok.
Proof.
  intros Hp. unfold joins. eapply does_chain; [exact Hp|]. intros t Ht. does_step. by destruct t.
Qed.
Lemma does_choice choice : read_listing ->
  does menu_ok (main_choice saving confirm list_directory seen_at choice) next_ok.
Proof.
  intros Hread. unfold main_choice. repeat case_match.
  - apply does_joins, does_form_join.
  - eapply does_chain; [apply does_host|]. intros h Hh. does_step. by destruct h.
  - by apply does_joins, does_discover.
  - apply does_joins. eapply does_chain; [apply does_recent|]. intros e He. does_step. destruct e as [e|]; [|done].
    cbn in *. by apply tls_of_ok.
  - eapply does_chain; [apply does_nickname|]. intros _ _. by does_step.
  - apply does_joins, does_invite.
  - by does_step.
Qed.

Lemma does_turn m s r m' s' : read_listing -> menu_ok m ->
  main_turn saving confirm list_directory seen_at m s = Some (r, m', s') ->
  menu_ok m' /\ (length (inputs s') < length (inputs s))%nat /\ exists n, r = Got n /\ next_ok n.
Proof.
  intros Hread Hm. unfold main_turn, chain at 1, lift at 1.
  destruct (choose _ main_items s) as [[r1 s1]|] eqn:E; [|done]. pose proof (choose_reads _ _ _ _ _ _ E) as Hl.
  assert (exists choice, r1 = Got choice) as [choice ->].
  { unfold choose in E. destruct (choose_curses_menu _ _ _ _) as [[c rest]|]; [|done]. injection E as <- _. eauto. }
  destruct (main_choice _ _ _ _ choice m s1) as [[[r2 m2] s2]|] eqn:E2; [|done].
  apply (does_choice choice Hread _ _ _ _ _ Hm) in E2 as (Hm2 & Hl2 & Hr). destruct r2 as [n| |].
  - intros [= <- <- <-]. split; [done|]. split; [lia|by exists n].
  - intros [= <- <- <-]. split; [done|]. split; [lia|by exists None].
  - assert (does menu_ok (report >> give (@None Next)) (fun n => n = None)) as Hd
      by (eapply does_chain; [apply does_report|intros _ _; by does_step]).
    intros E3. pose proof E3 as E4. apply (Hd _ _ _ _ _ Hm2) in E3 as (Hm3 & Hl3 & Hr3).
    split; [done|]. split; [lia|]. exists None. split; [|done].
    unfold chain, report, lift in E4. destruct (show_curses_notice "" s2) as [[[u| |] s3]|] eqn:En; try done.
    + injection E4 as <- _ _. done.
    + unfold show_curses_notice in En. by destruct (notice_loop _ _ _ _).
    + unfold show_curses_notice in En. by destruct (notice_loop _ _ _ _).
Qed.

Lemma main_loop_fuel n : forall k m s, read_listing -> menu_ok m ->
  (length (inputs s) < n)%nat -> (length (inputs s) < k)%nat ->
  main_loop saving confirm list_directory seen_at n m s = main_loop saving confirm list_directory seen_at k m s.
Proof.
  induction n as [|n IH]; intros k m s Hread Hm Hn Hk; [lia|]. destruct k as [|k]; [lia|]. cbn [main_loop].
  destruct (main_turn _ _ _ _ m s) as [[[[[next|]| |] m'] s']|] eqn:E; try done.
  apply does_turn in E as (Hm' & Hl & _); [|done|done]. by apply IH; [| |lia|lia].
Qed.


(** A program with what holds before and after it, when it gives a value. *)
Definition leads {A} (I : MenuState -> Prop) (p : App A) (Q : A -> MenuState -> Prop) : Prop :=
  forall m s r m' s', I m -> p m s = Some (r, m', s') -> match r with Got a => Q a m' | _ => True end.
Lemma leads_does {A} I (p : App A) Q : does I p Q -> leads I p (fun a m => I m /\ Q a).
Proof. intros Hp m s r m' s' Hm E. apply (Hp _ _ _ _ _ Hm) in E as (? & _ & ?). by destruct r. Qed.
Lemma leads_give {A} (a : A) (I : MenuState -> Prop) (Q : A -> MenuState -> Prop) :
  (forall m, I m -> Q a m) -> leads I (give a) Q.
Proof. intros HQ m s r m' s' Hm [= <- <- <-]. auto. Qed.
Lemma leads_change f (I : MenuState -> Prop) (Q : unit -> MenuState -> Prop) :
  (forall m, I m -> Q tt (f m)) -> leads I (change f) Q.
Proof. intros HQ m s r m' s' Hm [= <- <- <-]. auto. Qed.
Lemma leads_chain {A B} I (p : App A) (k : A -> App B) P Q :
  leads I p P -> (forall a, leads (P a) (k a) Q) -> leads I (chain p k) Q.
Proof.
  intros Hp Hk m s r m' s' Hm. unfold chain. destruct (p m s) as [[[r1 m1] s1]|] eqn:E; [|done].
  apply (Hp _ _ _ _ _ Hm) in E. destruct r1 as [a| |]; [|by intros [= <- <- <-]..]. by apply Hk.
Qed.
Lemma leads_pure {A} (C : Prop) I (p : App A) Q : (C -> leads I p Q) -> leads (fun m => I m /\ C) p Q.
Proof. intros Hp m s r m' s' [Hm Hc]. by apply Hp. Qed.
Lemma leads_catch {A} I (p q : App A) Q : leads I p Q -> leads (fun _ => True) q Q -> leads I (catch_cancel p q) Q.
Proof.
  intros Hp Hq m s r m' s' Hm. unfold catch_cancel. destruct (p m s) as [[[r1 m1] s1]|] eqn:E; [|done].
  apply (Hp _ _ _ _ _ Hm) in E. destruct r1 as [a| |]; [by intros [= <- <- <-]|by apply Hq|by intros [= <- <- <-]].
Qed.

Definition kept_preferences (m : MenuState) : Prop := prefs_ok (preferences m).

(** Asking for the nickname makes the variables sound, when it gives one. *)
Lemma leads_nickname : leads kept_preferences (ask_nickname saving) (fun _ m => menu_ok m).
Proof.
  unfold ask_nickname. eapply leads_chain; [apply leads_does, does_state|]. intros m.
  eapply leads_chain; [apply leads_does, does_form|]. intros fields. cbn beta.
  apply (leads_pure _ (fun m' => kept_preferences m' /\ kept_preferences m)). intros Hs.
  eapply nickname_submitted in Hs; [|done].
  eapply (leads_chain _ _ _ (fun _ => menu_ok)).
  - apply leads_change. intros m' [_ Hm]. split; cbn; [done|by apply with_choice_ok].
  - intros _. eapply leads_chain; [apply leads_does, does_save|]. intros ?.
    eapply leads_chain; [apply leads_does, does_state|]. intros m'.
    eapply leads_chain; [apply leads_does, does_load|]. intros [[i created]|].
    + eapply (leads_chain _ _ _ (fun _ => menu_ok)); [|intros ?; by apply leads_give].
      apply leads_change. intros m1 ((_ & [_ ?] & _) & _). by split.
    + apply leads_give. tauto.
Qed.

(** The beginning. Whatever keys are pressed, and whether or not preferences can be read
    or saved: when the main menu opens, its variables are sound, if the stored servers
    were. *)
Theorem begin_app_sound file opens m s :
  match load_preferences file opens with Returned p => prefs_ok p | Thrown => True end ->
  match begin_app saving file opens m s with
  | Some (Got (Opens line), m', _) => menu_ok m'
  | _ => True
  end.
Proof.
  intros Hp. assert (leads (fun _ => True) (begin_app saving file opens)
    (fun b m => match b with Opens _ => menu_ok m | _ => True end)) as Hb.
  { unfold begin_app. eapply (leads_chain _ _ _ (fun _ _ => True)); [by intros ? ? [] ? ? ? ?|].
    intros [| |c|port t]; try (by apply leads_give).
    eapply (leads_chain _ _ _ (fun _ => kept_preferences)).
    - destruct (load_preferences file opens) as [p|]; [by apply leads_change|].
      eapply (leads_chain _ _ _ (fun _ => kept_preferences)).
      + apply leads_change. intros m' _. split; cbn; [constructor|constructor|lia].
      + intros _ m1 s1 r m2 s2 Hm1 E. apply (does_report kept_preferences) in E as (? & _); [|done]. by destruct r.
    - intros _. eapply (leads_chain _ _ _ (fun asked m => match asked with Some (Some _) => menu_ok m | _ => True end)).
      + apply leads_catch; [|by apply leads_give]. eapply leads_chain; [apply leads_nickname|].
        intros created. apply leads_give. intros m' Hm. by destruct created.
      + intros [[created|]|]; [|by apply leads_give..].
        eapply (leads_chain _ _ _ (fun _ => menu_ok)).
        * apply leads_change. intros m' [Hn Hk]. by apply first_menu_ok.
        * intros _. eapply leads_chain; [apply leads_does; eapply does_weaken; [apply (does_state menu_ok)|done]|].
          intros m'. apply leads_give. tauto. }
  destruct (begin_app saving file opens m s) as [[[[b| |] m'] s']|] eqn:E; try done.
  apply (Hb _ _ _ _ _ I) in E. by destruct b.
Qed.

(** A session that was joined is remembered, and the variables stay sound. *)
Lemma remembered_ok t : target_ok t -> does menu_ok (remember_target saving t) (fun _ => True).
Proof.
  intros (Hp & _). unfold remember_target. does_step. destruct (Preferences.remember (preferences a)); [|by does_step].
  does_step; [|does_step]. intros m Hm. apply menu_preferences; [done|]. apply remember_ok; [by apply preferences_ok|exact Hp].
Qed.
End menu_properties.

Section invites.
Context {ssl : OpenSSL} {ssl_laws : OpenSSLLaws ssl} `{Platform} `{Sodium} `{Disk}.

(** A text occurs in another. *)
Definition occurs (t s : string) : Prop := exists before after, s = before +:+ t +:+ after.
Lemma occurs_app_l t a s : occurs t s -> occurs t (a +:+ s).
Proof. intros (b & c & ->). exists (a +:+ b), c. by rewrite sapp_assoc. Qed.
Lemma occurs_app_r t s a : occurs t s -> occurs t (s +:+ a).
Proof. intros (b & c & ->). exists b, (c +:+ a). by rewrite !sapp_assoc. Qed.
Lemma occurs_here t : occurs t t.
Proof. exists "", "". by rewrite sapp_nil_r. Qed.

Ltac occurs_tac :=
  first [ assumption | apply occurs_here
        | lazymatch goal with
          | |- occurs _ (_ +:+ _) => first [ solve [apply occurs_app_r; occurs_tac] | solve [apply occurs_app_l; occurs_tac] ]
          end ].

Lemma add_invites_spec l port t w fp text : add_invites l port t w fp = inr text ->
  Forall (fun a => exists invite, make_invite (host_invite a.1 port t w fp) = inr invite /\ occurs invite text) l.
Proof.
  revert text. induction l as [|[a scope] l IH]; intros text; cbn [add_invites]; [constructor|].
  destruct (make_invite _) as [e|invite] eqn:Em; [done|].
  destruct (add_invites l port t w fp) as [e|rest]; [done|]. intros [= <-].
  constructor.
  - exists invite. split; [done|]. occurs_tac.
  - eapply list.Forall_impl; [by apply IH|]. intros p (invite' & Hi & Ho). exists invite'. split; [done|]. occurs_tac.
Qed.

Lemma fingerprint_normal c : fingerprint_of c <> "" -> Tls.normal (fingerprint_of c).
Proof.
  unfold fingerprint_of. destruct (X509_digest c) as [d|] eqn:E; [|done]. intros _. by eapply upper_hex_normal, digest_size.
Qed.

(** C20: an invite pins the host. When the host is shown its summary, the summary has,
    for each of its addresses, an invite that a guest's program reads as that address
    and port, the host's TLS setting, whether a password is needed, and the
    fingerprint of the host's certificate. And a guest who joins by it over TLS is
    only ever connected to a server that presents a certificate with the host's
    fingerprint; one that does, at an address where nothing else was trusted, is
    accepted without a question. *)
Theorem invite_pins_host host_files port t password u local publish text certificate pem confirm :
  hosting_details host_files port t password u local publish = inr text -> (port < 2 ^ 16)%N ->
  server_enabled t = true -> host_files !! certificate_path t = Some pem -> PEM_read_bio_X509 pem = Some certificate ->
  fingerprint_of certificate <> "" ->
  Forall (fun a => exists invite i,
    occurs invite text /\ parse_invite invite = inr i /\
    i = MkInvite a.1 port true (negb (sempty password)) (fingerprint_of certificate) /\
    let config := client_tls (invite_target confirm i) in
    (forall files handle v files', verify_peer files handle (host i) port config = (Returned v, files') -> accepted v = true ->
       exists c, SSL_get1_peer_certificate handle = Some c /\ fingerprint_of c = fingerprint_of certificate) /\
    (forall files handle files1 entries, SSL_get1_peer_certificate handle = Some certificate ->
       load_trust files (trust_store_path config) = (Returned None, files1, entries) ->
       (let previous := default "" (entries !! address_key (host i) port) in
        previous = "" \/ previous = fingerprint_of certificate) ->
       exists notice, verify_peer files handle (host i) port config = (Returned (accept_peer notice), files1)))
    (invited_addresses local (with_mapping u publish)).
Proof.
  unfold hosting_details. intros Ht Hp Hon Hpem Hc Hne.
  assert (certificate_sha256_fingerprint host_files (certificate_path t) = fingerprint_of certificate) as Hfp
    by (unfold certificate_sha256_fingerprint; by rewrite Hpem, Hc).
  rewrite Hfp in Ht. destruct (add_invites _ _ _ _ _) as [e|invites] eqn:Ea; [done|]. injection Ht as <-.
  apply add_invites_spec in Ea. eapply list.Forall_impl; [exact Ea|]. intros [a scope] (invite & Hm & Ho). cbn [fst] in *.
  pose proof (fingerprint_normal _ Hne) as Hn. pose proof (normal_normalize _ Hn) as Hnn.
  exists invite, (MkInvite a port true (negb (sempty password)) (fingerprint_of certificate)).
  assert (parse_invite invite = inr (MkInvite a port true (negb (sempty password)) (fingerprint_of certificate))) as Hparse.
  { apply parse_made in Hm; [|done]. rewrite Hm. unfold with_fingerprint, host_invite. cbn. rewrite Hon, Hnn. done. }
  split; [occurs_tac|]. split; [exact Hparse|]. split; [done|].
  cbv zeta. cbn [host]. split.
  - intros files handle v files' Hv Hacc.
    apply verify_peer_pinned in Hv as (c & Hcert & Hf); [|done|done]. exists c. split; [done|]. rewrite Hf. exact Hnn.
  - intros files handle files1 entries Hcert Hl Hprev. eexists. by apply (verify_peer_pin_accepts _ _ _ _ _ certificate _ entries).
Qed.
End invites.
