(* ===== verification/HostSession.v ===== *)
(** Hosting from the main menu of [ui/interactive_app.cpp]: from the form to a server
    with its local user, and what happens while its host chats. *)

From S2P Require Import Prelude DisplayText Frame Message Utils AppState StorageApi World ChatServer ClientSession ServerInvariant ServerBoot.
From S2P Require Import ServerSteps ServerProperties Tls ChatClient Browser Commands Setup Targets.
Local Open Scope string_scope.
Local Open Scope chat_scope.

Section hosting.
Context {S : Type} `{ServerStorage S} `{OpenSSL} `{Platform} `{Sodium} `{Disk}.
Abbreviation W := (World S).
Abbreviation P := (Process (S:=S)).

(** What the machine answers: the [SQLiteStorage] that opens or the exception, the
    exception of the acceptor or of the TLS context, the port that was bound, what
    [prepare_upnp] finds (the error of its thread, and the mapping unless the user gave
    up), the local addresses, and how the publication ends. *)
Inductive Publication := IsPublished | GaveUp | PublicationThrew.
Record HostMachine := MkHostMachine {
  open_storage : string + S;
  listen_error : option string;
  bound_port : N;
  router_error : string;
  router : option Mapping;
  local_network_addresses : list string;
  publication_result : Publication;
  started_at : Z;
}.

(** How hosting starts: not at all, with the exception's notice; refused, as the nickname
    belongs to another key; or with the process and the summary. *)
Inductive HostStart := HostingFailed | NicknameRefused | HostRuns (details : string).

(** The server as it is constructed. *)
Definition hosted_server (h : Hosting) (nick : string) (storage : S) (fs : Files) : W :=
  chat_server (room_password h) nick SERVER_HISTORY_LIMIT (Some storage) None fs.

Definition listening_line (port : N) (t : ServerConfig) : string :=
  ui_text.host_listening_prefix +:+ to_string port
  +:+ (if server_enabled t then ui_text.host_tls_enabled_suffix else ui_text.host_tls_disabled_suffix).

(** The publication of the entry. *)
Definition publish_hosting (h : Hosting) (m : HostMachine) (nick publish_host : string) : M P bool :=
  match published h with
  | None => ret true
  | Some pub =>
      let entry := hosted_entry nick (publication_name pub) publish_host (bound_port m)
                     (negb (sempty (room_password h))) (server_enabled (host_tls h)) in
      match publication_result m with
      | IsPublished => say ("[hosting] Published directory listing for " +:+ entry_host entry) ;;; ret true
      | GaveUp => say "[hosting] Directory publication cancelled or timed out." ;;; ret true
      | PublicationThrew => ret false
      end
  end.

Definition advertised (h : Hosting) : string :=
  match published h with Some pub => sanitize_browser_field (public_host pub) HOST_MAX_LEN | None => "" end.

(** From the local user to the chat. *)
Definition open_house (h : Hosting) (m : HostMachine) (nick key : string) (fs : Files) : M P HostStart :=
  server_call start_local_user tt ;;;
  say ("[system] Hosting on port " +:+ to_string (bound_port m)) ;;;
  say (listening_line (bound_port m) (host_tls h)) ;;;
  say ("[system] Your identity: " +:+ identity_fingerprint key) ;;;
  when (negb (sempty (room_password h))) (say "[system] Server password protection enabled") ;;;
  let u := if enable_upnp h then router m else None in
  when (enable_upnp h && negb (sempty (router_error m))) (say ("[hosting] " +:+ router_error m)) ;;;
  match hosting_details fs (bound_port m) (host_tls h) (room_password h) u (local_network_addresses m) (advertised h) with
  | inl _ => ret HostingFailed
  | inr details =>
      let* fine := publish_hosting h m nick (with_mapping u (advertised h)) in
      ret (if fine then HostRuns details else HostingFailed)
  end.

(** The registration of the host's identity comes first. *)
Definition host_program (h : Hosting) (m : HostMachine) (nick key : string) (fs : Files) : M P HostStart :=
  let* registered := server_call (register_local_identity nick key) false in
  if registered then open_house h m nick key fs else ret NicknameRefused.

Definition start_hosting (h : Hosting) (m : HostMachine) (nick key : string) (fs : Files) (screen : AppState)
    (clock : nat) : HostStart * option P :=
  match open_storage m with
  | inl _ => (HostingFailed, None)
  | inr storage =>
      let storage := (StorageApi.import_legacy_files fs (started_at m) "bans.txt" "identities.txt" storage).2 in
      match listen_error m with
      | Some _ => (HostingFailed, None)
      | None =>
          let w := hosted_server h nick storage fs in
          let '(start, p) := host_program h m nick key fs (MkProcess (Some w) None screen clock) in
          (start, Some p)
      end
  end.

(** The context of the chat window, and what happens while it runs: lines of the host, and
    events of the network, which share the screen and the clock. *)
Definition host_context (nick : string) : ChatInputContext := MkContext nick true.
Inductive hosts_chat (context : ChatInputContext) (p0 : P) : P -> Prop :=
| chat_starts : hosts_chat context p0 p0
| chat_types p input : hosts_chat context p0 p -> hosts_chat context p0 (handle_chat_input input context p).2
| chat_network p w w' : hosts_chat context p0 p -> host p = Some w ->
    step (World.put_system_reads (clock_reads p) (World.put_app (screen p) w)) w' ->
    hosts_chat context p0 (MkProcess (Some w') (guest p) (World.app w') (system_reads w')).

(* ===================================================================== *)
(** * What the host's commands keep *)

(** A property of the server that the calls of the consoles and the events of the network
    keep, whatever the screen shows and the clock says. *)
Record kept (Q : W -> Prop) : Prop := {
  kept_call : forall a w, Q w -> Q (run_admin a w).2;
  kept_step : forall w w', Q w -> step w w' -> Q w';
  kept_screen : forall w app n, Q w -> Q (World.put_system_reads n (World.put_app app w));
}.
Definition hosted (Q : W -> Prop) (p : P) : Prop := exists w, host p = Some w /\ Q w.

Section kept.
Context (Q : W -> Prop) (HQ : kept Q).

Lemma hosted_frame {A} (m : M P A) : frames host m -> keeps (hosted Q) m.
Proof. intros Hm p (w & Hw & Hq). exists w. by rewrite Hm. Qed.
Lemma hosted_say text : keeps (hosted Q) (Commands.say text).
Proof. apply hosted_frame. by intros p. Qed.
Lemma hosted_now : keeps (hosted Q) (now_text (S:=S)).
Proof. apply hosted_frame. by intros p. Qed.
Lemma hosted_client m : keeps (hosted Q) (client_call (S:=S) m).
Proof. apply hosted_frame. intros p. unfold client_call, modify. by destruct (guest p). Qed.
Lemma hosted_server_call {A} (m : M W A) d : (forall w, Q w -> Q (m w).2) -> keeps (hosted Q) (server_call m d).
Proof.
  intros Hm p (w & Hw & Hq). unfold server_call. rewrite Hw.
  apply (kept_screen Q HQ w (screen p) (clock_reads p)), Hm in Hq.
  destruct (m _) as [x w']. exists w'. split; [done|exact Hq].
Qed.
(** The calls of the commands are calls of a console. *)
Lemma hosted_admin {A} (m : M W A) d a : (forall w, (m w).2 = (run_admin a w).2) -> keeps (hosted Q) (server_call m d).
Proof. intros Hm. apply hosted_server_call. intros w Hw. rewrite Hm. by apply (kept_call Q HQ). Qed.
Lemma hosted_either m1 m2 : keeps (hosted Q) m1 -> keeps (hosted Q) m2 -> keeps (hosted Q) (either m1 m2).
Proof. intros H1' H2'. unfold either. apply keeps_bind; [apply keeps_get|]. intros p. destruct (host p), (guest p); try done; apply keeps_ret. Qed.
#[local] Hint Resolve hosted_say hosted_now hosted_client : chat_keeps.

(** The call of the goal, as a call of a console. *)
Ltac as_admin :=
  match goal with
  | |- keeps _ (server_call (broadcast ?t) _) => apply (hosted_admin _ _ (AdminBroadcast t))
  | |- keeps _ (server_call show_room_list_local _) => apply (hosted_admin _ _ AdminShowRooms)
  | |- keeps _ (server_call (create_local_room ?n) _) => apply (hosted_admin _ _ (AdminCreateLocalRoom n))
  | |- keeps _ (server_call (join_local_room ?n) _) => apply (hosted_admin _ _ (AdminJoinLocal n))
  | |- keeps _ (server_call leave_local_room _) => apply (hosted_admin _ _ AdminLeaveLocal)
  | |- keeps _ (server_call (set_local_topic ?t) _) => apply (hosted_admin _ _ (AdminLocalTopic t))
  | |- keeps _ (server_call (send_private ?a ?b ?c ?d) _) => apply (hosted_admin _ _ (AdminPrivate a b c d))
  | |- keeps _ (server_call (kick_user ?n ?r) _) => apply (hosted_admin _ _ (AdminKick n r))
  | |- keeps _ (server_call (ban_user ?n ?r) _) => apply (hosted_admin _ _ (AdminBan n r))
  | |- keeps _ (server_call (unban_user ?n) _) => apply (hosted_admin _ _ (AdminUnban n))
  | |- keeps _ (server_call (register_local_identity ?n ?k) _) => apply (hosted_admin _ _ (AdminRegisterLocal n k))
  | |- keeps _ (server_call start_local_user _) => apply (hosted_admin _ _ AdminStartLocal)
  end; intros ?; unfold run_admin, ignore; rewrite ?bind_snd; reflexivity.
Ltac hosted_tac :=
  intros; repeat match goal with
  | |- keeps _ (either _ _) => apply hosted_either
  | |- keeps _ (modify _) => apply hosted_frame; by intros ?
  | |- keeps _ (server_call _ _) => as_admin
  | |- _ => keeps_step
  end.

Lemma hosted_chat context input : keeps (hosted Q) (chat_line context input).
Proof. unfold chat_line, client_send. hosted_tac. Qed.
Lemma hosted_users : keeps (hosted Q) (list_users (S:=S)).
Proof. unfold list_users. hosted_tac. Qed.
Lemma hosted_rooms : keeps (hosted Q) (either (server_call show_room_list_local tt) (client_call request_rooms)).
Proof. hosted_tac. Qed.
Lemma hosted_create args : keeps (hosted Q) (room_command "/create <name>" args create_local_room Client.CreateRoom).
Proof. unfold room_command, client_send, server_try. hosted_tac. Qed.
Lemma hosted_join args : keeps (hosted Q) (room_command "/join <name>" args join_local_room Client.JoinRoom).
Proof. unfold room_command, client_send, server_try. hosted_tac. Qed.
Lemma hosted_leave args : keeps (hosted Q) (leave_command (S:=S) args).
Proof. unfold leave_command, client_send, server_try. hosted_tac. Qed.
Lemma hosted_topic args : keeps (hosted Q) (topic_command (S:=S) args).
Proof. unfold topic_command, client_send, server_try. hosted_tac. Qed.
Lemma hosted_whisper context input : keeps (hosted Q) (whisper_command (S:=S) context input).
Proof. unfold whisper_command, client_send. hosted_tac. Qed.
Lemma hosted_kick context nick reason : keeps (hosted Q) (kick_command (S:=S) context nick reason).
Proof. unfold kick_command. hosted_tac. Qed.
Lemma hosted_ban nick reason : keeps (hosted Q) (ban_command (S:=S) nick reason).
Proof. unfold ban_command. hosted_tac. Qed.
Lemma hosted_unban nick : keeps (hosted Q) (unban_command (S:=S) nick).
Proof. unfold unban_command. apply keeps_bind; [as_admin|intros b; hosted_tac]. Qed.
Lemma hosted_bans : keeps (hosted Q) (bans_command (S:=S)).
Proof. unfold bans_command. apply keeps_bind; [by apply hosted_server_call|]. intros l. hosted_tac. Qed.
Lemma hosted_help : keeps (hosted Q) (show_command_help (S:=S)).
Proof. unfold show_command_help. hosted_tac. Qed.
Lemma hosted_host_help : keeps (hosted Q) (show_host_command_help (S:=S)).
Proof. unfold show_host_command_help. hosted_tac. Qed.
Lemma hosted_unknown name : keeps (hosted Q) (unknown_command (S:=S) name).
Proof. unfold unknown_command. hosted_tac. Qed.
#[local] Hint Resolve hosted_chat hosted_users hosted_rooms hosted_create hosted_join hosted_leave hosted_topic
  hosted_whisper hosted_kick hosted_ban hosted_unban hosted_bans hosted_help hosted_host_help hosted_unknown : chat_keeps.

Lemma hosted_input input context : keeps (hosted Q) (handle_chat_input (S:=S) input context).
Proof.
  unfold handle_chat_input. destruct (sempty input); [apply keeps_ret|].
  destruct (parse_command input) as [cmd|]; [|hosted_tac]. unfold run_command.
  apply keeps_bind; [apply keeps_get|]. intros p.
  repeat lazymatch goal with
  | |- keeps _ (if ?b then _ else _) => destruct b
  | |- keeps _ (match ?x with _ => _ end) => destruct x
  | |- keeps _ (bind _ _) => apply keeps_bind; [|intros _; apply keeps_ret]
  | |- keeps _ (ret _) => apply keeps_ret
  end; hosted_tac.
Qed.

(** Opening the server to its host, after the registration. *)
Lemma hosted_publish h m nick publish_host : keeps (hosted Q) (publish_hosting h m nick publish_host).
Proof. unfold publish_hosting. hosted_tac. Qed.
#[local] Hint Resolve hosted_publish : chat_keeps.
Lemma hosted_open h m nick key fs : keeps (hosted Q) (open_house h m nick key fs).
Proof. unfold open_house. hosted_tac. Qed.
End kept.

(* ===================================================================== *)
(** * Hosting *)

Lemma kept_inv : kept Inv.
Proof.
  split.
  - intros a w. apply keeps_run_admin.
  - intros w w' Hw Hs. by eapply Inv_step.
  - by intros w a n.
Qed.
Lemma kept_identity nick key : kept (fun w => identities_ (server w) !! nick = Some key).
Proof.
  assert (forall w w' : W, identities_ (server w) !! nick = Some key -> step w w' ->
    identities_ (server w') !! nick = Some key) as Hstep.
  { intros w w' Hk Hs. eapply lookup_weaken; [exact Hk|]. by apply identities_step. }
  split; [|exact Hstep|by intros w a n]. intros a w Hk. eapply Hstep; [exact Hk|apply step_admin].
Qed.
Lemma kept_both (Q1 Q2 : W -> Prop) : kept Q1 -> kept Q2 -> kept (fun w => Q1 w /\ Q2 w).
Proof.
  intros [A1 B1 C1] [A2 B2 C2]. split.
  - intros a w [? ?]. auto.
  - intros w w' [? ?] Hs. eauto.
  - intros w a n [? ?]. auto.
Qed.

Lemma registered nick key (w : W) : (register_local_identity nick key w).1 = true ->
  identities_ (server (register_local_identity nick key w).2) !! nick = Some key.
Proof.
  unfold register_local_identity, bind, get. destruct (identity_available_for (server w) nick key); [done|].
  intros Hr. destruct (bind_identity_spec nick key w) as (_ & _ & _ & _ & _ & Hb). by apply Hb.
Qed.

(** The summary is that of the server, whatever was printed before. *)
Lemma open_house_details h m nick key fs (p : P) details : (open_house h m nick key fs p).1 = HostRuns details ->
  hosting_details fs (bound_port m) (host_tls h) (room_password h) (if enable_upnp h then router m else None)
    (local_network_addresses m) (advertised h) = inr details.
Proof.
  unfold open_house. do 6 (rewrite bind_fst; cbn beta zeta). set (d := hosting_details _ _ _ _ _ _ _).
  destruct d; [discriminate|]. rewrite bind_fst. cbn. destruct (publish_hosting _ _ _ _ _).1; congruence.
Qed.

Lemma host_program_runs h m nick key fs (p : P) details : hosted Inv p -> (host_program h m nick key fs p).1 = HostRuns details ->
  hosted (fun w => Inv w /\ identities_ (server w) !! nick = Some key) (host_program h m nick key fs p).2
  /\ hosting_details fs (bound_port m) (host_tls h) (room_password h) (if enable_upnp h then router m else None)
       (local_network_addresses m) (advertised h) = inr details.
Proof.
  intros Hp. unfold host_program. rewrite bind_fst, bind_snd.
  assert (keeps (hosted Inv) (server_call (register_local_identity nick key) false)) as Hi.
  { apply (hosted_admin Inv kept_inv _ _ (AdminRegisterLocal nick key)). intros w. unfold run_admin, ignore. by rewrite bind_snd. }
  specialize (Hi p Hp).
  destruct Hp as (w & Hw & Hinv). revert Hi. unfold server_call. rewrite Hw.
  set (w0 := World.put_system_reads _ _). pose proof (registered nick key w0) as Hr.
  destruct (register_local_identity nick key w0) as [[] w1]; [|discriminate].
  cbn [fst snd] in *. intros (w2 & [= <-] & Hi) Hs. split; [|by eapply open_house_details].
  apply hosted_open; [apply kept_both; [apply kept_inv|apply kept_identity]|].
  exists w1. split; [done|]. split; [done|]. exact (Hr eq_refl).
Qed.

Lemma hosts_chat_keeps Q context (p p' : P) : kept Q -> hosted Q p -> hosts_chat context p p' -> hosted Q p'.
Proof.
  intros HQ Hp. induction 1 as [|p1 input _ IH|p1 w w' _ IH Hw Hs]; [done|by apply hosted_input|].
  destruct IH as (w1 & Hw1 & Hq). rewrite Hw in Hw1. injection Hw1 as <-.
  exists w'. split; [done|]. eapply (kept_step Q HQ); [|exact Hs]. by apply (kept_screen Q HQ).
Qed.

Context (ready : S -> Prop) `{!StorageContract S ready}.

End hosting.
