(* ===== verification/MenuScenarios.v ===== *)
(** Keys at the startup menu and the main menu, an invite that is pasted, and a
    conversation that is hosted: the instances of the theorems of [SetupProperties.v],
    [MenuProperties.v] and [HostSession.v]. *)

From S2P Require Import Prelude Frame Message Utils AppState StorageApi World ChatServer ClientSession ServerInvariant ServerSteps.
From S2P Require Import TerminalScenarios InterfaceScenarios Terminal Tls ChatClient Browser Commands Options Preferences Invite DedicatedServer Screen Interface.
From S2P Require Import Setup SetupProperties MainMenu Targets MenuProperties HostSession.
Local Open Scope string_scope.

(* ===================================================================== *)
(** * The startup menu *)

Definition seat (keys : list Key) : Seat := MkSeat screen80 (press <$> keys) ∅ 0.

(** A dedicated server, after a form that is cancelled; TLS is turned off. *)
Definition startup_keys : list Key :=
  [Byte "d"%char; Byte "027"%char; Byte "d"%char; KEY_ENTER; KEY_ENTER; KEY_ENTER; Byte "n"%char; KEY_ENTER; KEY_ENTER; KEY_ENTER].
Definition startup_config : DedicatedServerConfig :=
  match run_startup_menu (seat startup_keys) with Some (Got (RunsServer c), _) => c | _ => initial_config 0 end.
Lemma startup_menu_sound_witness :
  run_startup_menu (seat startup_keys) = Some (Got (RunsServer startup_config), seat []) /\
  start_dedicated startup_config = RunServer startup_config /\ (Options.port startup_config <= 65535)%N /\
  Options.port startup_config = 7777%N /\ server_enabled (Options.tls startup_config) = false.
Proof.
  generalize (startup_menu_sound (seat startup_keys)). intros [Hs _].
  assert (run_startup_menu (seat startup_keys) = Some (Got (RunsServer startup_config), seat [])) as E
    by (vm_compute; reflexivity).
  rewrite E in Hs. destruct Hs as (Hstart & Hport & _). split; [exact E|]. split; [exact Hstart|].
  split; [exact Hport|]. split; vm_compute; reflexivity.
Defined.

(** Enter past the notice, the second entry, REPLACE and Enter. *)
Definition replace_keys : list Key :=
  (KEY_ENTER :: Byte "a"%char :: (Byte <$> list_ascii_of_string "REPLACE") ++ [KEY_ENTER])%list.
Lemma replaced_by_hand_witness :
  confirm_certificate "chat.example:7777" "AA" "BB" (seat replace_keys) = Some (Got true, seat []) /\
  sall (pressed (seat replace_keys)) "REPLACE" = true.
Proof.
  assert (confirm_certificate "chat.example:7777" "AA" "BB" (seat replace_keys) = Some (Got true, seat [])) as E
    by (vm_compute; reflexivity).
  split; [exact E|]. apply (replaced_by_hand _ _ _ _ _ E). discriminate.
Defined.
(** A first certificate is accepted without the form; Escape at the form refuses. *)
Example first_certificate :
  confirm_certificate "chat.example:7777" "AA" "" (seat [KEY_ENTER; Byte "a"%char]) = Some (Got true, seat []) /\
  confirm_certificate "chat.example:7777" "AA" "BB" (seat [KEY_ENTER; Byte "a"%char; Byte "027"%char]) = Some (Got false, seat []).
Proof. vm_compute. split; reflexivity. Qed.

(* ===================================================================== *)
(** * The main menu *)

Definition sample_user : ClientIdentity := MkIdentity "identity" "00" "11".
Definition sample_menu : MenuState := first_menu "ann" sample_user (MkPreferences true "ann" ∅ []) None 0.
Definition all_saved (n : nat) : bool * (nat -> bool) := (true, fun _ => true).
Definition refuses (address presented previous : string) (files : Files) : bool * Files := (false, files).
Definition no_directory (browser_host : string) (c : ClientConfig) : Listing := NoListing.

(** Nothing is remembered yet; the form of a manual address is cancelled once. *)
Definition menu_keys : list Key :=
  [Byte "r"%char; KEY_ENTER; Byte "j"%char; Byte "027"%char; Byte "j"%char;
   KEY_ENTER; KEY_ENTER; KEY_ENTER; KEY_ENTER; KEY_ENTER].
Definition menu_run := run_main_menu all_saved refuses no_directory 0 sample_menu (seat menu_keys).


(* ===================================================================== *)
(** * A conversation that is hosted *)

Definition host_files : Files := {["cert.pem" := "alpha"]}.
Definition sample_hosting : Hosting := MkHosting 0 "hush" true (MkServerConfig true "cert.pem" "key.pem") None.
Definition sample_mapping : option Mapping := Some (MkMapping "" "203.0.113.9").
Definition summary_text : string :=
  match hosting_details host_files 7777 (host_tls sample_hosting) "hush" sample_mapping ["192.168.1.4"] "" with
  | inr text => text | inl _ => "" end.

Lemma invite_pins_host_witness :
  hosting_details host_files 7777 (host_tls sample_hosting) "hush" sample_mapping ["192.168.1.4"] "" = inr summary_text /\
  exists invite,
    occurs invite summary_text /\
    parse_invite invite = inr (MkInvite "203.0.113.9" 7777 true true alpha_fingerprint).
Proof.
  assert (hosting_details host_files 7777 (host_tls sample_hosting) "hush" sample_mapping ["192.168.1.4"] "" = inr summary_text) as E
    by (vm_compute; reflexivity).
  split; [exact E|].
  assert (fingerprint_of (alpha : @X509 toy_openssl) <> "") as Hne by (vm_compute; discriminate).
  pose proof (invite_pins_host host_files 7777 (host_tls sample_hosting) "hush" sample_mapping ["192.168.1.4"] "" summary_text
    "alpha" alpha refuses E eq_refl eq_refl eq_refl eq_refl Hne) as Hi.
  rewrite list.Forall_forall in Hi.
  destruct (Hi ("203.0.113.9", "Public/advertised (unverified)")) as (invite & i & Ho & Hp & -> & _).
  - right. left.
  - exists invite. split; [exact Ho|exact Hp].
Defined.

Definition sample_host_machine : HostMachine (S:=unit) :=
  MkHostMachine (inr tt) None 7777 "" sample_mapping ["192.168.1.4"] IsPublished 0.
Definition host_key : string := bytes_to_hex (crypto_sign_keypair 1).1.
Definition sample_hosted := start_hosting sample_hosting sample_host_machine "ann" host_key host_files initial_app_state 0%nat.
Definition sample_process : Process (S:=unit) := default (MkProcess None None initial_app_state 0) sample_hosted.2.

(** The host creates a room, somebody connects, and the host kicks nobody. *)
Definition after_create : Process (S:=unit) := (handle_chat_input "/create den" (host_context "ann") sample_process).2.
Definition after_accept : Process (S:=unit) :=
  match Commands.host after_create with
  | Some w => let w' := (ClientSession.accept 5%N (World.put_system_reads (clock_reads after_create) (World.put_app (screen after_create) w))).2 in
              MkProcess (Some w') (guest after_create) (World.app w') (system_reads w')
  | None => after_create
  end.
Definition after_kick : Process (S:=unit) := (handle_chat_input "/kick bob" (host_context "ann") after_accept).2.

