(* ===== verification/Upnp.v ===== *)
(** Port mappings at the router: [network/upnp_mapper.h]. Each [UPnPMapper] opens ports
    and takes them back when it is destroyed, on whatever thread that happens; what they
    share is the table of owners, under one mutex. The answers of the router are
    arguments, and the requests that are sent are recorded. *)

From S2P Require Import Prelude.
Local Open Scope string_scope.
Local Open Scope chat_scope.

(** [UPnPMapper::Mapping]. *)
Record PortMapping := MkPortMapping { port : string; proto : string; owner : N }.

(** [urls_.controlURL], [data_.first.servicetype] and the other members. *)
Record UPnPMapper := MkUPnPMapper {
  control_url : string;
  service_type : string;
  local_ip : string;
  external_ip : string;
  last_error : string;
  discovered : bool;
  mappings : list PortMapping;
}.
Definition new_mapper : UPnPMapper := MkUPnPMapper "" "" "" "" "" false [].
Definition with_error e m := MkUPnPMapper (control_url m) (service_type m) (local_ip m) (external_ip m) e (discovered m) (mappings m).
Definition with_mappings l m :=
  MkUPnPMapper (control_url m) (service_type m) (local_ip m) (external_ip m) (last_error m) (discovered m) l.

(** The requests that change the router's table, and who made them. *)
Inductive Request :=
| AddPortMapping (id : nat) (url service port client description proto : string) (result : Z)
| DeletePortMapping (url service port proto : string).

(** The static members of the class, the mappers that live, by address, how many were
    made, and the requests so far. *)
Record Upnp := MkUpnp {
  mapping_owners : gmap string N;
  next_owner : N;
  mappers : gmap nat UPnPMapper;
  constructed : nat;
  requests : list Request;
}.
Definition no_mappers : Upnp := MkUpnp ∅ 0 ∅ 0 [].
Definition put_mappers ms u := MkUpnp (mapping_owners u) (next_owner u) ms (constructed u) (requests u).

Definition UPNPCOMMAND_SUCCESS : Z := 0.

Definition construct : M Upnp nat := fun u =>
  (constructed u, MkUpnp (mapping_owners u) (next_owner u) (<[constructed u := new_mapper]> (mappers u))
                    (S (constructed u)) (requests u)).

(** What [upnpDiscover] finds: nothing, with an error; or devices, with the status, the
    URL, the type of service and the addresses that [UPNP_GetValidIGD] gives, and the
    answer to [UPNP_GetExternalIPAddress]. *)
Inductive Discovery :=
| NoDevices (error : Z)
| Devices (status : Z) (url service lan : string) (external : option string).

Definition discovered_by (d : Discovery) (m : UPnPMapper) : bool * UPnPMapper :=
  match d with
  | NoDevices error => (false, with_error ("No UPnP devices found (err " +:+ to_string_signed error +:+ ")") m)
  | Devices status url service lan external =>
      if negb (status =? 1)%Z
      then (false, with_error ("No valid IGD found (status " +:+ to_string_signed status +:+ ")") m)
      else (true, MkUPnPMapper url service lan (default (external_ip m) external) (last_error m) true (mappings m))
  end.

Definition discover (id : nat) (d : Discovery) : M Upnp bool := fun u =>
  match mappers u !! id with
  | None => (false, u)
  | Some m => let '(found, m) := discovered_by d m in (found, put_mappers (<[id := m]> (mappers u)) u)
  end.

Definition mapping_key (url port proto : string) : string := url +:+ "|" +:+ port +:+ "|" +:+ proto.

(** [r] is what [UPNP_AddPortMapping] returns. *)
Definition openPort (id : nat) (port proto desc : string) (r : Z) : M Upnp bool := fun u =>
  match mappers u !! id with
  | None => (false, u)
  | Some m =>
      if negb (discovered m) then (false, u)
      else
        let sent := (requests u ++ [AddPortMapping id (control_url m) (service_type m) port (local_ip m) desc proto r])%list in
        if negb (r =? UPNPCOMMAND_SUCCESS)%Z
        then (false, MkUpnp (mapping_owners u) (next_owner u)
                (<[id := with_error ("AddPortMapping failed: code " +:+ to_string_signed r) m]> (mappers u)) (constructed u) sent)
        else
          let owner := u64 (next_owner u + 1) in
          (true, MkUpnp (<[mapping_key (control_url m) port proto := owner]> (mapping_owners u)) owner
             (<[id := with_mappings (mappings m ++ [MkPortMapping port proto owner]) m]> (mappers u)) (constructed u) sent)
  end.

Definition openPortBoth (id : nat) (port desc : string) (r_tcp r_udp : Z) : M Upnp bool :=
  let* tcp := openPort id port "TCP" desc r_tcp in
  let* udp := openPort id port "UDP" desc r_udp in
  ret (tcp || udp).

(** [mapping_owners_[key]], which makes an owner 0 where there is none. *)
Definition owner_at (owners : gmap string N) (key : string) : N := default 0%N (owners !! key).

(** The loop of the destructor. *)
Fixpoint release (url service : string) (l : list PortMapping) (owners : gmap string N) (sent : list Request) :
    gmap string N * list Request :=
  match l with
  | [] => (owners, sent)
  | m :: l =>
      let key := mapping_key url (port m) (proto m) in
      let found := owner_at owners key in
      if (found =? owner m)%N
      then release url service l (delete key owners) (sent ++ [DeletePortMapping url service (port m) (proto m)])
      else release url service l (<[key := found]> owners) sent
  end.

(** [~UPnPMapper()]. *)
Definition destroy (id : nat) : M Upnp unit := fun u =>
  match mappers u !! id with
  | None => (tt, u)
  | Some m =>
      let left := delete id (mappers u) in
      if negb (discovered m) then (tt, put_mappers left u)
      else
        let '(owners, sent) := release (control_url m) (service_type m) (mappings m) (mapping_owners u) (requests u) in
        (tt, MkUpnp owners (next_owner u) left (constructed u) sent)
  end.

(* ===================================================================== *)
(** * Executions *)

(** The calls the program makes, in any order: a mapper discovers until it has found a
    router, and opens numbered ports. Calls on one mapper come one after the other, and
    [openPort] and the destructor hold the mutex, so each is one step. *)
Definition protocol (proto : string) : Prop := proto = "TCP" \/ proto = "UDP".
Inductive step : Upnp -> Upnp -> Prop :=
| step_construct u : step u (construct u).2
| step_discover u id m d : mappers u !! id = Some m -> discovered m = false -> step u (discover id d u).2
| step_open u id port proto desc r : protocol proto -> step u (openPort id (to_string port) proto desc r u).2
| step_destroy u id : step u (destroy id u).2.
Inductive reachable : Upnp -> Prop :=
| reachable_start : reachable no_mappers
| reachable_step u u' : reachable u -> step u u' -> reachable u'.

(** The same steps, as operations that can be run. *)
Inductive Operation :=
| Constructs | Discovers (id : nat) (d : Discovery) | Opens (id : nat) (port : N) (udp : bool) (desc : string) (r : Z) | Dies (id : nat).
Definition proto_of (udp : bool) : string := if udp then "UDP" else "TCP".
Definition perform (o : Operation) (u : Upnp) : option Upnp :=
  match o with
  | Constructs => Some (construct u).2
  | Discovers id d =>
      match mappers u !! id with
      | Some m => if discovered m then None else Some (discover id d u).2
      | None => None
      end
  | Opens id port udp desc r => Some (openPort id (to_string port) (proto_of udp) desc r u).2
  | Dies id => Some (destroy id u).2
  end.
Lemma perform_step o u u' : perform o u = Some u' -> step u u'.
Proof.
  destruct o as [|id d|id port udp desc r|id]; cbn.
  - intros [= <-]. apply step_construct.
  - destruct (mappers u !! id) as [m|] eqn:Em; [|done]. destruct (discovered m) eqn:Ed; [done|]. intros [= <-].
    by eapply step_discover.
  - intros [= <-]. apply step_open. destruct udp; [by right|by left].
  - intros [= <-]. apply step_destroy.
Qed.

(** What the requests leave at the router: a port is open after it was added, until it is
    deleted. And the mapper that opened it last. *)
Definition concerns (url port proto url' port' proto' : string) : bool :=
  String.eqb url url' && String.eqb port port' && String.eqb proto proto'.
Fixpoint router_has (url port proto : string) (was : bool) (l : list Request) : bool :=
  match l with
  | [] => was
  | AddPortMapping _ url' _ port' _ _ proto' r :: l =>
      router_has url port proto (if concerns url port proto url' port' proto' && (r =? UPNPCOMMAND_SUCCESS)%Z then true else was) l
  | DeletePortMapping url' _ port' proto' :: l =>
      router_has url port proto (if concerns url port proto url' port' proto' then false else was) l
  end.
Definition open_at (u : Upnp) (url port proto : string) : bool := router_has url port proto false (requests u).
Fixpoint opener (url port proto : string) (last : option nat) (l : list Request) : option nat :=
  match l with
  | [] => last
  | AddPortMapping id url' _ port' _ _ proto' r :: l =>
      opener url port proto (if concerns url port proto url' port' proto' && (r =? UPNPCOMMAND_SUCCESS)%Z then Some id else last) l
  | DeletePortMapping _ _ _ _ :: l => opener url port proto last l
  end.
Definition last_opener (u : Upnp) (url port proto : string) : option nat := opener url port proto None (requests u).
