(* ===== verification/UpnpProperties.v ===== *)
(** Theorems about [Upnp.v]: a port stays open exactly while the mapper that opened it
    last lives. *)

From S2P Require Import Prelude Upnp.
Local Open Scope string_scope.
Local Open Scope chat_scope.

(* ===================================================================== *)
(** * Keys *)

Definition bar_free (s : string) : Prop := free_of "|" s = true.
Lemma protocol_bar_free q : protocol q -> bar_free q.
Proof. by intros [-> | ->]. Qed.
Lemma port_bar_free n : bar_free (to_string n).
Proof. by apply to_string_free_of. Qed.

(** A text is known from a prefix that may have bars and a last part that has none. *)
Lemma last_field_inj a b p q : bar_free p -> bar_free q -> a +:+ "|" +:+ p = b +:+ "|" +:+ q -> a = b /\ p = q.
Proof.
  intros Hp Hq. assert (forall s p, bar_free p -> p <> s +:+ "|" +:+ q) as Hbar.
  { intros s t Ht ->. unfold bar_free, free_of in Ht. rewrite !sall_app in Ht. cbn in Ht.
    by rewrite andb_false_r in Ht. }
  assert (forall s p0, bar_free p0 -> p0 <> s +:+ "|" +:+ p) as Hbar'.
  { intros s t Ht ->. unfold bar_free, free_of in Ht. rewrite !sall_app in Ht. cbn in Ht.
    by rewrite andb_false_r in Ht. }
  revert b. induction a as [|c a IH]; intros [|d b]; cbn.
  - intros [= E]. cbn in E. by subst.
  - intros [= _ E]. by apply Hbar in E.
  - intros [= _ E]. symmetry in E. by apply Hbar' in E.
  - intros [= -> E]. by apply IH in E as [-> ->].
Qed.
Lemma mapping_key_inj u p q u' p' q' : bar_free p -> bar_free q -> bar_free p' -> bar_free q' ->
  mapping_key u p q = mapping_key u' p' q' -> u = u' /\ p = p' /\ q = q'.
Proof.
  unfold mapping_key. intros Hp Hq Hp' Hq' E.
  assert ((u +:+ "|" +:+ p) +:+ "|" +:+ q = (u' +:+ "|" +:+ p') +:+ "|" +:+ q') as E' by (rewrite !sapp_assoc; exact E).
  apply last_field_inj in E' as [E' ->]; [|done|done]. apply last_field_inj in E' as [-> ->]; done.
Qed.
Lemma concerns_spec u p q u' p' q' : concerns u p q u' p' q' = true <-> u = u' /\ p = p' /\ q = q'.
Proof. unfold concerns. rewrite !andb_true_iff, !String.eqb_eq. tauto. Qed.
Lemma concerns_key u p q u' p' q' : bar_free p -> bar_free q -> bar_free p' -> bar_free q' ->
  concerns u p q u' p' q' = bool_decide (mapping_key u' p' q' = mapping_key u p q).
Proof.
  intros. apply Bool.eq_true_iff_eq. rewrite concerns_spec, bool_decide_eq_true. split; [by intros (-> & -> & ->)|].
  intros E. by apply mapping_key_inj in E as (-> & -> & ->).
Qed.

(* ===================================================================== *)
(** * Requests *)

Lemma router_has_app url p q l1 l2 was : router_has url p q was (l1 ++ l2) = router_has url p q (router_has url p q was l1) l2.
Proof. revert was. induction l1 as [|[] l1 IH]; intros was; cbn; [done|apply IH|apply IH]. Qed.
Lemma opener_app url p q l1 l2 o : opener url p q o (l1 ++ l2) = opener url p q (opener url p q o l1) l2.
Proof. revert o. induction l1 as [|[] l1 IH]; intros o; cbn; [done|apply IH|apply IH]. Qed.

Lemma owner_at_insert owners key o k : owner_at (<[key := o]> owners) k = if decide (key = k) then o else owner_at owners k.
Proof. unfold owner_at. case_decide as E; [subst; by rewrite lookup_insert_eq|by rewrite lookup_insert_ne]. Qed.
Lemma owner_at_delete owners key k : owner_at (delete key owners) k = if decide (key = k) then 0%N else owner_at owners k.
Proof. unfold owner_at. case_decide as E; [subst; by rewrite lookup_delete_eq|by rewrite lookup_delete_ne]. Qed.
Lemma owner_at_touch owners key k : owner_at (<[key := owner_at owners key]> owners) k = owner_at owners k.
Proof. rewrite owner_at_insert. case_decide; by subst. Qed.


(* ===================================================================== *)
(** * Owners, requests and holders *)

(** The table of owners says what is open at the router, and a port is open exactly when
    its last opener lives; [holds] are the mappings of the mappers. *)
Section link.
Context (holds : nat -> string -> PortMapping -> Prop) (alive : nat -> Prop).
Record link (owners : gmap string N) (sent : list Request) : Prop := {
  link_router url p q : bar_free p -> bar_free q ->
    router_has url p q false sent = negb (owner_at owners (mapping_key url p q) =? 0)%N;
  link_holder url p q : bar_free p -> bar_free q -> owner_at owners (mapping_key url p q) <> 0%N ->
    exists id m, opener url p q None sent = Some id /\ holds id url m /\ port m = p /\ proto m = q
      /\ owner m = owner_at owners (mapping_key url p q);
  link_alive url p q id : bar_free p -> bar_free q -> opener url p q None sent = Some id -> alive id ->
    owner_at owners (mapping_key url p q) <> 0%N;
}.
End link.

Definition well_formed (m : PortMapping) : Prop := bar_free (port m) /\ bar_free (proto m) /\ owner m <> 0%N.

(** One turn of the destructor's loop. *)
Lemma link_release holds holds' alive owners sent id url service m :
  link holds alive owners sent -> well_formed m -> ~ alive id ->
  (forall x u m', holds x u m' -> holds' x u m' \/ (x = id /\ u = url /\ m' = m)) ->
  (forall x u m', holds x u m' -> owner m' = owner m -> x = id) ->
  let key := mapping_key url (port m) (proto m) in
  if (owner_at owners key =? owner m)%N
  then link holds' alive (delete key owners) (sent ++ [DeletePortMapping url service (port m) (proto m)])
  else link holds' alive (<[key := owner_at owners key]> owners) sent.
Proof.
  intros [Hr Hh Ha] (Hp & Hq & Ho) Hid Hless Huniq key. destruct (owner_at owners key =? owner m)%N eqn:E.
  - apply N.eqb_eq in E. split.
    + intros u p q Hp' Hq'. rewrite router_has_app, owner_at_delete, (Hr u p q) by done. cbn. rewrite concerns_key by done.
      fold key. case_decide as Ek; [by rewrite bool_decide_true|by rewrite bool_decide_false].
    + intros u p q Hp' Hq'. rewrite opener_app, owner_at_delete. case_decide as Ek; [done|]. intros Hz.
      destruct (Hh u p q Hp' Hq' Hz) as (x & m' & Hx & Hm & Ep & Eq & Eo). exists x, m'. split; [done|].
      destruct (Hless _ _ _ Hm) as [?|(-> & -> & ->)]; [done|]. by destruct Ek; unfold key; rewrite Ep, Eq.
    + intros u p q x Hp' Hq'. rewrite opener_app, owner_at_delete. cbn. intros Hx Hal. case_decide as Ek; [|by eapply Ha].
      exfalso. pose proof (Ha _ _ _ _ Hp' Hq' Hx Hal) as Hz. destruct (Hh _ _ _ Hp' Hq' Hz) as (y & m' & Hy & Hm & _ & _ & Eo).
      rewrite <- Ek, E in Eo. rewrite Hx in Hy. injection Hy as <-. by rewrite (Huniq _ _ _ Hm Eo) in Hal.
  - apply N.eqb_neq in E. split; intros u p q; rewrite ?owner_at_touch; [apply Hr| |apply Ha].
    intros Hp' Hq' Hz. destruct (Hh u p q Hp' Hq' Hz) as (x & m' & Hx & Hm & Ep & Eq & Eo). exists x, m'. split; [done|].
    destruct (Hless _ _ _ Hm) as [?|(-> & -> & ->)]; [done|]. destruct E. unfold key. by rewrite Ep, Eq, <- Eo.
Qed.

(** The whole loop: in the end the mapper holds nothing. *)
Lemma link_destroy holds alive id url service l : ~ alive id -> Forall well_formed l ->
  (forall x u m, x <> id -> holds x u m -> forall m', m' ∈ l -> owner m <> owner m') ->
  forall owners sent,
  link (fun x u m => (x <> id /\ holds x u m) \/ (x = id /\ u = url /\ m ∈ l)) alive owners sent ->
  let '(owners', sent') := release url service l owners sent in
  link (fun x u m => x <> id /\ holds x u m) alive owners' sent'.
Proof.
  intros Hid. induction l as [|m l IH]; intros Hl Hu owners sent Hlink; cbn [release].
  { destruct Hlink as [Hr Hh Ha]. split; [done| |done]. intros u p q Hp Hq Hz.
    destruct (Hh u p q Hp Hq Hz) as (x & m & Hx & [Hm|(_ & _ & Hm)] & He); [|by apply elem_of_nil in Hm]. by exists x, m. }
  apply list.Forall_cons in Hl as [Hm Hl].
  pose proof (link_release _ (fun x u m => (x <> id /\ holds x u m) \/ (x = id /\ u = url /\ m ∈ l)) alive owners sent id url service m
    Hlink Hm Hid) as Hstep. cbn zeta in Hstep.
  assert (forall x u m', x <> id -> holds x u m' -> forall m'', m'' ∈ l -> owner m' <> owner m'') as Hu'.
  { intros x u m' Hx Hm' m'' Hin. eapply Hu; [done|exact Hm'|by right]. }
  specialize (IH Hl Hu'). assert (Hless := fun H1 H2 => Hstep H1 H2). clear Hstep.
  destruct (_ =? _)%N; apply IH, Hless.
  1, 3: intros x u m' [?|(-> & -> & [->|Hin]%elem_of_cons)]; auto.
  all: intros x u m' [[Hx Hh]|(-> & _)] Eo; [|done]; by destruct (Hu x u m' Hx Hh m); [left|].
Qed.

(* ===================================================================== *)
(** * The invariant *)

Definition alive (u : Upnp) (id : nat) : Prop := is_Some (mappers u !! id).
Definition held (u : Upnp) (id : nat) (url : string) (pm : PortMapping) : Prop :=
  exists m, mappers u !! id = Some m /\ control_url m = url /\ pm ∈ mappings m.

Record Inv (u : Upnp) : Prop := {
  inv_count : (next_owner u <= N.of_nat (length (requests u)))%N;
  inv_ids id : alive u id -> (id < constructed u)%nat;
  inv_openers url p q id : opener url p q None (requests u) = Some id -> (id < constructed u)%nat;
  inv_held id m : mappers u !! id = Some m -> mappings m <> [] -> discovered m = true;
  inv_wf id url pm : held u id url pm -> well_formed pm /\ (owner pm <= next_owner u)%N;
  inv_unique id url pm id' url' pm' : held u id url pm -> held u id' url' pm' -> owner pm = owner pm' -> id = id';
  inv_link : link (held u) (alive u) (mapping_owners u) (requests u);
}.

Lemma Inv_no_mappers : Inv no_mappers.
Proof.
  split; [cbn; lia|by intros id [? ?]|done|done|by intros id url pm (? & ? & _)| |].
  - by intros id url pm id' url' pm' (? & ? & _).
  - split; [done|done|]. done.
Qed.

(** A mapper that changes without opening anything. *)
Lemma held_insert u id m m' x url pm : mappers u !! id = Some m -> mappings m' = mappings m ->
  (control_url m' = control_url m \/ mappings m = []) ->
  held (put_mappers (<[id := m']> (mappers u)) u) x url pm <-> held u x url pm.
Proof.
  intros Hm Em Eu. unfold held. cbn. destruct (decide (id = x)) as [<-|Hx].
  - rewrite lookup_insert_eq, Hm. split; intros (? & [= <-] & <- & Hin); eexists; (split; [done|]);
      (destruct Eu as [Eu|Eu]; [|rewrite ?Em, Eu in Hin; by apply elem_of_nil in Hin]); rewrite ?Em, ?Eu in *; done.
  - by rewrite lookup_insert_ne.
Qed.
Lemma alive_insert u id m m' x : mappers u !! id = Some m ->
  alive (put_mappers (<[id := m']> (mappers u)) u) x <-> alive u x.
Proof.
  intros Hm. unfold alive. cbn. destruct (decide (id = x)) as [<-|Hx]; [|by rewrite lookup_insert_ne].
  rewrite lookup_insert_eq, Hm. split; intros _; eauto.
Qed.
Lemma link_ext holds holds' live live' owners sent :
  (forall x u m, holds x u m <-> holds' x u m) -> (forall x, live' x -> live x) ->
  link holds live owners sent -> link holds' live' owners sent.
Proof.
  intros Hh Hl [A B C]. split; [exact A| |].
  - intros u p q Hp Hq Hz. destruct (B u p q Hp Hq Hz) as (x & m & ? & Hm & ?). exists x, m. by rewrite <- Hh.
  - intros u p q x Hp Hq Hx Hal. eapply C; eauto.
Qed.
Lemma Inv_insert u id m m' : Inv u -> mappers u !! id = Some m -> mappings m' = mappings m ->
  (control_url m' = control_url m \/ mappings m = []) -> (discovered m = true -> discovered m' = true) ->
  Inv (put_mappers (<[id := m']> (mappers u)) u).
Proof.
  intros [A B C D E F G] Hm Em Eu Ed.
  assert (forall x url pm, held (put_mappers (<[id := m']> (mappers u)) u) x url pm <-> held u x url pm) as Hh
    by (intros; by eapply held_insert).
  split; cbn; try done.
  - intros x Hx%(alive_insert _ _ m); auto.
  - intros x m1. destruct (decide (id = x)) as [<-|Hx]; [|rewrite lookup_insert_ne by done; apply D].
    rewrite lookup_insert_eq. intros [= <-]. rewrite Em. intros Hne. by eapply Ed, D.
  - intros x url pm Hx%Hh. by eapply E.
  - intros x url pm x' url' pm' Hx%Hh Hx'%Hh. by eapply F.
  - eapply link_ext; [intros; symmetry; apply Hh| |exact G]. intros x Hx%(alive_insert _ _ m); done.
Qed.

(** A request that changes nothing at the router. *)
Lemma Inv_refused u id url service p client d q r : Inv u -> (r =? UPNPCOMMAND_SUCCESS)%Z = false ->
  Inv (MkUpnp (mapping_owners u) (next_owner u) (mappers u) (constructed u)
         (requests u ++ [AddPortMapping id url service p client d q r])%list).
Proof.
  intros [A B C D E F [G1 G2 G3]] Hr. split; cbn; try done.
  - rewrite length_app. cbn. lia.
  - intros ? ? ? ?. rewrite opener_app. cbn. rewrite Hr, andb_false_r. apply C.
  - split; intros u0 p0 q0; rewrite ?router_has_app, ?opener_app; cbn; rewrite ?Hr, ?andb_false_r; [apply G1|apply G2|apply G3].
Qed.

(** A port that is opened. *)
Definition opened (u : Upnp) (id : nat) (m : UPnPMapper) (p d q : string) : Upnp :=
  let o := u64 (next_owner u + 1) in
  MkUpnp (<[mapping_key (control_url m) p q := o]> (mapping_owners u)) o
    (<[id := with_mappings (mappings m ++ [MkPortMapping p q o]) m]> (mappers u)) (constructed u)
    (requests u ++ [AddPortMapping id (control_url m) (service_type m) p (local_ip m) d q UPNPCOMMAND_SUCCESS])%list.

Lemma held_opened u id m p d q x url pm : mappers u !! id = Some m ->
  held (opened u id m p d q) x url pm <->
  held u x url pm \/ (x = id /\ url = control_url m /\ pm = MkPortMapping p q (u64 (next_owner u + 1))).
Proof.
  intros Hm. unfold held. cbn. destruct (decide (id = x)) as [<-|Hx].
  - rewrite lookup_insert_eq, Hm. split.
    + intros (? & [= <-] & <- & Hin). cbn in *. apply elem_of_app in Hin as [Hin|Hin%list_elem_of_singleton]; [left; eauto|auto].
    + intros [(? & [= <-] & <- & Hin)|(_ & -> & ->)]; eexists; (split; [reflexivity|]); (split; [reflexivity|]); cbn; apply elem_of_app.
      * by left.
      * right. by left.
  - rewrite lookup_insert_ne by done. split; [auto|]. intros [?|(-> & _)]; done.
Qed.

Lemma Inv_opened u id m p d q : Inv u -> mappers u !! id = Some m -> discovered m = true -> bar_free p -> bar_free q ->
  (N.of_nat (length (requests u)) + 1 < 2 ^ 64)%N -> Inv (opened u id m p d q).
Proof.
  intros [A B C D E F [G1 G2 G3]] Hm Hd Hp Hq Hn.
  assert (u64 (next_owner u + 1) = next_owner u + 1)%N as Eo by (apply N.mod_small; lia).
  assert (forall x, alive (opened u id m p d q) x <-> alive u x) as Hal.
  { intros x. apply (alive_insert u id m). done. }
  split.
  - cbn. rewrite Eo, length_app. cbn. lia.
  - intros x Hx%Hal. by apply B.
  - intros url p' q' x. cbn. rewrite opener_app. cbn. case_match; [intros [= <-]; apply B; by exists m|apply C].
  - intros x m1. cbn. destruct (decide (id = x)) as [<-|Hx]; [|rewrite lookup_insert_ne by done; apply D].
    rewrite lookup_insert_eq. by intros [= <-].
  - intros x url pm Hx. apply (held_opened u id m p d q) in Hx; [|done]. cbn [opened next_owner]. rewrite Eo.
    destruct Hx as [Hx|(-> & -> & ->)]; [apply E in Hx as [? ?]; split; [done|lia]|].
    split; [|cbn; lia]. split; [done|]. split; [done|]. cbn. lia.
  - intros x url pm x' url' pm' Hx Hx' Eq. apply (held_opened u id m p d q) in Hx, Hx'; try done.
    destruct Hx as [Hx|(-> & -> & ->)], Hx' as [Hx'|(-> & -> & ->)]; [by eapply F| | |done].
    + apply E in Hx as [_ ?]. cbn in Eq. lia.
    + apply E in Hx' as [_ ?]. cbn in Eq. lia.
  - split; intros u0 p0 q0; cbn [opened requests mapping_owners]; rewrite ?router_has_app, ?opener_app, ?owner_at_insert; cbn.
    + intros Hp0 Hq0. rewrite concerns_key, G1, Eo, andb_true_r by done. case_decide as Ek.
      * rewrite bool_decide_true by done. symmetry. apply negb_true_iff, N.eqb_neq. lia.
      * by rewrite bool_decide_false.
    + intros Hp0 Hq0. rewrite concerns_key, andb_true_r by done. case_decide as Ek.
      * intros _. rewrite bool_decide_true by done. apply mapping_key_inj in Ek as (<- & <- & <-); [|done..].
        eexists id, _. split; [done|]. split; [apply held_opened; auto|]. done.
      * rewrite bool_decide_false by done. intros Hz. destruct (G2 _ _ _ Hp0 Hq0 Hz) as (x & pm & ? & ? & ?).
        exists x, pm. split; [done|]. split; [|done]. apply held_opened; auto.
    + intros x Hp0 Hq0. rewrite concerns_key, andb_true_r by done. case_decide as Ek; [intros _ _; rewrite Eo; lia|].
      rewrite bool_decide_false by done. intros Hx Hx'%Hal. by eapply G3.
Qed.

Lemma Inv_construct u : Inv u -> Inv (construct u).2.
Proof.
  intros [A B C D E F G]. assert (mappers u !! constructed u = None) as Hnone.
  { destruct (mappers u !! constructed u) eqn:Em; [|done]. pose proof (B (constructed u)). unfold alive in *.
    rewrite Em in *. assert (constructed u < constructed u)%nat by eauto. lia. }
  assert (forall x url pm, held (construct u).2 x url pm <-> held u x url pm) as Hh.
  { intros x url pm. unfold held. cbn. destruct (decide (constructed u = x)) as [<-|Hx]; [|by rewrite lookup_insert_ne].
    rewrite lookup_insert_eq, Hnone. split; [|by intros (? & ? & _)]. intros (? & [= <-] & _ & []%elem_of_nil). }
  split.
  - exact A.
  - intros x. unfold alive. cbn. destruct (decide (constructed u = x)) as [<-|Hx]; [lia|].
    rewrite lookup_insert_ne by done. intros Hx'. apply B in Hx'. lia.
  - intros url p q x Hx%C. cbn. lia.
  - intros x m. cbn. destruct (decide (constructed u = x)) as [<-|Hx]; [|rewrite lookup_insert_ne by done; apply D].
    rewrite lookup_insert_eq. by intros [= <-].
  - intros x url pm Hx%Hh. by eapply E.
  - intros x url pm x' url' pm' Hx%Hh Hx'%Hh. by eapply F.
  - destruct G as [G1 G2 G3]. split; cbn; [done| |].
    + intros url p q Hp Hq Hz. destruct (G2 _ _ _ Hp Hq Hz) as (x & pm & ? & ? & ?). exists x, pm. by rewrite Hh.
    + intros url p q x Hp Hq Hx. unfold alive. cbn. pose proof (C _ _ _ _ Hx). rewrite lookup_insert_ne by lia. by eapply G3.
Qed.

Lemma release_sent url service l : forall owners sent, exists more,
  (release url service l owners sent).2 = (sent ++ more)%list /\ forall u p q o, opener u p q o more = o.
Proof.
  induction l as [|m l IH]; intros owners sent; cbn [release]; [exists []; by rewrite app_nil_r|].
  destruct (_ =? _)%N; [|apply IH]. destruct (IH (delete (mapping_key url (port m) (proto m)) owners)
    (sent ++ [DeletePortMapping url service (port m) (proto m)])%list) as (more & -> & Ho).
  exists (DeletePortMapping url service (port m) (proto m) :: more). by rewrite <- app_assoc.
Qed.

(** Without a mapper. *)
Definition without (u : Upnp) (id : nat) (owners : gmap string N) (sent : list Request) : Upnp :=
  MkUpnp owners (next_owner u) (delete id (mappers u)) (constructed u) sent.
Lemma held_without u id owners sent x url pm : held (without u id owners sent) x url pm <-> x <> id /\ held u x url pm.
Proof.
  unfold held. cbn. destruct (decide (id = x)) as [<-|Hx].
  - rewrite lookup_delete_eq. split; [by intros (? & ? & _)|by intros [? _]].
  - rewrite lookup_delete_ne by done. split; [|by intros [_ ?]]. by split.
Qed.
Lemma alive_without u id owners sent x : alive (without u id owners sent) x <-> x <> id /\ alive u x.
Proof.
  unfold alive. cbn. destruct (decide (id = x)) as [<-|Hx].
  - rewrite lookup_delete_eq. split; [by intros [? ?]|by intros [? _]].
  - rewrite lookup_delete_ne by done. split; [|by intros [_ ?]]. by split.
Qed.
Lemma Inv_without u id owners more : Inv u -> (forall url p q o, opener url p q o more = o) ->
  link (fun x url pm => x <> id /\ held u x url pm) (fun x => x <> id /\ alive u x) owners (requests u ++ more) ->
  Inv (without u id owners (requests u ++ more)).
Proof.
  intros [A B C D E F G] Ho Hlink. split.
  - cbn. rewrite length_app. lia.
  - intros x [_ Hx]%alive_without. by apply B.
  - intros url p q x. cbn. rewrite opener_app, Ho. apply C.
  - intros x m1. cbn. destruct (decide (id = x)) as [<-|Hx]; [by rewrite lookup_delete_eq|].
    rewrite lookup_delete_ne by done. apply D.
  - intros x url pm [_ Hx]%held_without. by eapply E.
  - intros x url pm x' url' pm' [_ Hx]%held_without [_ Hx']%held_without. by eapply F.
  - eapply link_ext; [| |exact Hlink]; [intros; symmetry; apply held_without|]. intros x. apply alive_without.
Qed.

Lemma Inv_destroy u id : Inv u -> Inv (destroy id u).2.
Proof.
  intros HI. pose proof HI as [A B C D E F G]. unfold destroy. destruct (mappers u !! id) as [m|] eqn:Hm; [|done].
  assert (link (fun x u' pm => (x <> id /\ held u x u' pm) \/ (x = id /\ u' = control_url m /\ pm ∈ mappings m))
    (fun x => x <> id /\ alive u x) (mapping_owners u) (requests u)) as Hstart.
  { eapply link_ext; [| |exact G]; [|by intros x [_ ?]]. intros x u' pm. split.
    - intros Hx. destruct (decide (x = id)) as [->|]; [|by left]. right. destruct Hx as (m' & Hm' & <- & Hin).
      rewrite Hm in Hm'. by injection Hm' as <-.
    - intros [[_ Hx]|(-> & -> & Hin)]; [done|]. by exists m. }
  assert (forall pm, pm ∈ mappings m -> held u id (control_url m) pm) as Hheld by (intros pm ?; by exists m).
  destruct (discovered m) eqn:Ed; cbn [negb].
  - destruct (release_sent (control_url m) (service_type m) (mappings m) (mapping_owners u) (requests u)) as (more & Hs & Ho).
    apply (link_destroy (held u) (fun x => x <> id /\ alive u x) id _ (service_type m)) in Hstart.
    + destruct (release _ _ _ _ _) as [owners sent]. cbn in *. subst sent. by apply (Inv_without u id).
    + tauto.
    + apply list.Forall_forall. intros pm Hpm. by eapply E, Hheld.
    + intros x u' pm Hx Hpm pm' Hpm' Eq. apply Hx. by eapply F, Eq; [|apply Hheld].
  - pose proof (Inv_without u id (mapping_owners u) []) as Hdone. rewrite app_nil_r in Hdone. apply Hdone; [done|done|].
    eapply link_ext; [| |exact Hstart]; [|done].
    intros x u' pm. split; [|by left]. intros [?|(-> & -> & Hin)]; [done|].
    rewrite (D id m Hm) in Ed; [done|]. intros E0. rewrite E0 in Hin. by apply elem_of_nil in Hin.
Qed.

Lemma Inv_open u id p q d r : Inv u -> bar_free p -> bar_free q -> (N.of_nat (length (requests u)) + 1 < 2 ^ 64)%N ->
  Inv (openPort id p q d r u).2.
Proof.
  intros HI Hp Hq Hn. unfold openPort. destruct (mappers u !! id) as [m|] eqn:Hm; [|done].
  destruct (discovered m) eqn:Ed; cbn [negb]; [|done]. destruct (r =? UPNPCOMMAND_SUCCESS)%Z eqn:Er; cbn [negb snd].
  - apply Z.eqb_eq in Er as ->. by apply (Inv_opened u id m p d q).
  - eapply (Inv_insert (MkUpnp _ _ (mappers u) _ _)); [by apply Inv_refused|exact Hm|done|by left|done].
Qed.

Lemma Inv_discover u id m d : Inv u -> mappers u !! id = Some m -> discovered m = false -> Inv (discover id d u).2.
Proof.
  intros HI Hm Hd. unfold discover. rewrite Hm. assert (mappings m = []) as E0.
  { destruct (mappings m) eqn:E; [done|]. by rewrite (inv_held u HI id m Hm) in Hd; [|rewrite E]. }
  destruct (discovered_by d m) as [found m'] eqn:E. cbn. apply (Inv_insert u id m m'); [done|done| |by right|by rewrite Hd].
  destruct d as [e|status url service lan external]; cbn in E; [|destruct (negb _)]; by injection E as <- <-.
Qed.

Lemma step_sent u u' : step u u' -> (length (requests u) <= length (requests u'))%nat.
Proof.
  destruct 1 as [|u id m d Hm _|u id p q d r _|u id]; cbn; [done| | |].
  - unfold discover. rewrite Hm. by destruct (discovered_by d m).
  - unfold openPort. repeat case_match; cbn; rewrite ?length_app; lia.
  - unfold destroy. destruct (mappers u !! id) as [m|]; [|cbn; lia]. destruct (discovered m); cbn [negb]; [|cbn; lia].
    destruct (release_sent (control_url m) (service_type m) (mappings m) (mapping_owners u) (requests u)) as (more & Hs & _).
    destruct (release _ _ _ _ _) as [owners sent]. cbn in *. subst. rewrite length_app. lia.
Qed.

Lemma Inv_upnp_step u u' : Inv u -> step u u' -> (N.of_nat (length (requests u')) < 2 ^ 64)%N -> Inv u'.
Proof.
  intros HI Hs. pose proof (step_sent _ _ Hs). destruct Hs as [|u id m d Hm Hd|u id p q d r Hq|u id]; intros Hn.
  - by apply Inv_construct.
  - by eapply Inv_discover.
  - destruct (decide (N.of_nat (length (requests u)) + 1 < 2 ^ 64)%N) as [Hlt|Hge].
    + apply Inv_open; [done|apply port_bar_free|by apply protocol_bar_free|done].
    + revert Hn. unfold openPort. destruct (mappers u !! id) as [m|]; [|done]. destruct (negb (discovered m)); [done|].
      destruct (negb _); cbn; rewrite length_app; cbn; lia.
  - by apply Inv_destroy.
Qed.
Lemma reachable_inv u : reachable u -> (N.of_nat (length (requests u)) < 2 ^ 64)%N -> Inv u.
Proof.
  induction 1 as [|u u' _ IH Hs]; intros Hn; [apply Inv_no_mappers|].
  eapply Inv_upnp_step; [|exact Hs|done]. apply IH. apply step_sent in Hs. lia.
Qed.

Lemma open_iff_opener_lives u url p q : Inv u -> bar_free p -> bar_free q ->
  open_at u url p q = true <-> exists id, last_opener u url p q = Some id /\ alive u id.
Proof.
  intros HI Hp Hq. destruct (inv_link u HI) as [Hr Hh Ha]. unfold open_at, last_opener. rewrite Hr by done.
  rewrite negb_true_iff, N.eqb_neq. split.
  - intros Hz. destruct (Hh _ _ _ Hp Hq Hz) as (id & pm & ? & (m & Hm & _) & _). exists id. split; [done|]. by exists m.
  - intros (id & ? & ?). by eapply Ha.
Qed.

