(* ===== verification/HostUpnp.v ===== *)
(** Asking the router while the host waits: [prepare_upnp] of [ui/interactive_app.cpp]. A
    thread of its own talks to the router and owns what it made until it hands it over;
    the terminal thread may give up at any time, and never waits for the router. *)

From S2P Require Import Prelude Terminal Interface Upnp.
Local Open Scope string_scope.

(* ===================================================================== *)
(** * The state *)

(** Where the thread is. Up to [Moving] the mapper is its own; [Testing] and [Moving] are
    on either side of reading [cancelled]. *)
Inductive Worker :=
| Making
| Discovering (id : nat)
| Testing (id : nat)        (* found a router; is about to test [cancelled] *)
| Opening (id : nat)
| Publishing (id : nat)     (* is about to test [cancelled] again *)
| Moving (id : nat)
| Finishing                 (* is about to set [done] *)
| Leaving                   (* is about to let go of [State] *)
| Ended.

(** Where the terminal thread is. [Dropped] is after [upnp.reset()]. *)
Inductive Terminal := AtHead | Polling | Returned (m : option nat) | Dropped.

(** [struct State], the two threads, the mappers whose deletion waits in a detached
    thread, and all mappers of the program. [made] is history: the mapper of this call. *)
Record State := MkState {
  done : bool;
  cancelled : bool;
  mapper : option nat;
  error : string;
  deadline : N;
  worker : Worker;
  terminal : Terminal;
  dying : list nat;
  upnp : Upnp;
  made : option nat;
}.
Definition initial (now : N) (u : Upnp) : State := MkState false false None "" (now + 15000) Making AtHead [] u None.

Definition put_worker v st := MkState (done st) (cancelled st) (mapper st) (error st) (deadline st) v (terminal st) (dying st) (upnp st) (made st).
Definition put_terminal v st := MkState (done st) (cancelled st) (mapper st) (error st) (deadline st) (worker st) v (dying st) (upnp st) (made st).
Definition put_upnp v st := MkState (done st) (cancelled st) (mapper st) (error st) (deadline st) (worker st) (terminal st) (dying st) v (made st).
Definition put_mapper v st := MkState (done st) (cancelled st) v (error st) (deadline st) (worker st) (terminal st) (dying st) (upnp st) (made st).
Definition put_made v st := MkState (done st) (cancelled st) (mapper st) (error st) (deadline st) (worker st) (terminal st) (dying st) (upnp st) v.
Definition put_dying v st := MkState (done st) (cancelled st) (mapper st) (error st) (deadline st) (worker st) (terminal st) v (upnp st) (made st).
Definition put_error v st := MkState (done st) (cancelled st) (mapper st) v (deadline st) (worker st) (terminal st) (dying st) (upnp st) (made st).
Definition put_done st := MkState true (cancelled st) (mapper st) (error st) (deadline st) (worker st) (terminal st) (dying st) (upnp st) (made st).
Definition put_cancelled st := MkState (done st) true (mapper st) (error st) (deadline st) (worker st) (terminal st) (dying st) (upnp st) (made st).

(** The last pointer to a mapper goes away: its deleter starts a thread. *)
Definition let_go (id : nat) (st : State) : State := put_dying (id :: dying st) st.

(** [State] dies with the second of its two owners, the threads, and with it its pointer
    to the mapper, which is the last one unless the terminal thread has a copy. *)
Definition release_state (st : State) : State :=
  match worker st, terminal st, mapper st with
  | Ended, (Returned None | Dropped), Some id => put_mapper None (let_go id st)
  | Ended, Returned (Some _), Some _ => put_mapper None st
  | _, _, _ => st
  end.

(* ===================================================================== *)
(** * Both threads *)

(** What happens: the thread goes on, with what the router answers or with an exception;
    the terminal thread tests [done], or waits for a key; it drops what it got; a
    detached thread deletes; another part of the program uses another mapper. *)
Inductive Event :=
| WorkerGoes
| Answers (d : Discovery)
| Maps (r : Z)
| Throws (e : string)
| TestsDone
| Pressed (k : Key) (now : N)
| Resets
| Deletes (id : nat)
| Others (o : Operation).

Definition worker_goes (st : State) : option State :=
  match worker st with
  | Making =>
      let '(id, u) := construct (upnp st) in
      Some (put_worker (Discovering id) (put_made (Some id) (put_upnp u st)))
  | Testing id => Some (put_worker (if cancelled st then Publishing id else Opening id) st)
  | Publishing id => Some (if cancelled st then put_worker Finishing (let_go id st) else put_worker (Moving id) st)
  | Moving id => Some (put_worker Finishing (put_mapper (Some id) st))
  | Finishing => Some (put_worker Leaving (put_done st))
  | Leaving => Some (release_state (put_worker Ended st))
  | Discovering _ | Opening _ | Ended => None
  end.

Definition worker_discovers (d : Discovery) (st : State) : option State :=
  match worker st with
  | Discovering id =>
      let '(found, u) := discover id d (upnp st) in
      Some (put_worker (if found then Testing id else Publishing id) (put_upnp u st))
  | _ => None
  end.
Definition worker_maps (port : N) (r : Z) (st : State) : option State :=
  match worker st with
  | Opening id => Some (put_worker (Publishing id) (put_upnp (openPort id (to_string port) "TCP" "P2P Chat" r (upnp st)).2 st))
  | _ => None
  end.
Definition worker_throws (e : string) (st : State) : option State :=
  match worker st with
  | Discovering id | Opening id => Some (put_worker Finishing (put_error e (let_go id st)))
  | _ => None
  end.

Definition tests_done (st : State) : option State :=
  match terminal st with
  | AtHead => Some (if done st then release_state (put_terminal (Returned (mapper st)) st) else put_terminal Polling st)
  | _ => None
  end.
Definition pressed (k : Key) (now : N) (st : State) : option State :=
  match terminal st with
  | Polling =>
      Some (if bool_decide (k = Byte "027"%char) || (deadline st <=? now)%N
            then release_state (put_terminal (Returned None) (put_cancelled st))
            else put_terminal AtHead st)
  | _ => None
  end.

Definition operates_on (o : Operation) : option nat :=
  match o with Constructs => None | Discovers id _ | Opens id _ _ _ _ | Dies id => Some id end.

Definition without_id (id : nat) (l : list nat) : list nat := filter (fun x => x <> id) l.
Arguments without_id : simpl never.
Definition step (port : N) (e : Event) (st : State) : option State :=
  match e with
  | WorkerGoes => worker_goes st
  | Answers d => worker_discovers d st
  | Maps r => worker_maps port r st
  | Throws e => worker_throws e st
  | TestsDone => tests_done st
  | Pressed k now => pressed k now st
  | Resets =>
      match terminal st with
      | Returned (Some id) => Some (put_terminal Dropped (if bool_decide (mapper st = None) then let_go id st else st))
      | _ => None
      end
  | Deletes id =>
      if bool_decide (id ∈ dying st)
      then Some (put_upnp (destroy id (upnp st)).2 (put_dying (without_id id (dying st)) st))
      else None
  | Others o =>
      if bool_decide (operates_on o = made st /\ made st <> None) then None
      else (fun u => put_upnp u st) <$> perform o (upnp st)
  end.
Fixpoint run (port : N) (es : list Event) (st : State) : option State :=
  match es with
  | [] => Some st
  | e :: es => match step port e st with Some st => run port es st | None => None end
  end.
