(* ===== verification/HostUpnpProperties.v ===== *)
(** Theorems about [HostUpnp.v]: who owns the mapper, whatever the threads and the router
    do, and what giving up leaves at the router. *)

From S2P Require Import Prelude Terminal Interface Upnp UpnpProperties HostUpnp.
Local Open Scope string_scope.

(* ===================================================================== *)
(** * What the threads do to the mappers *)

Lemma reached u o u' : reachable u -> perform o u = Some u' -> reachable u'.
Proof. intros Hu Ho. eapply reachable_step; [exact Hu|]. by eapply perform_step. Qed.

(** An operation on other mappers leaves this one alone. *)
Lemma others_leave o u u' id : (id < constructed u)%nat -> operates_on o <> Some id -> perform o u = Some u' ->
  mappers u' !! id = mappers u !! id /\ (constructed u <= constructed u')%nat.
Proof.
  intros Hid Ho. destruct o as [|x d|x port udp desc r|x]; cbn in *.
  - intros [= <-]. cbn. rewrite lookup_insert_ne by lia. split; [done|lia].
  - destruct (mappers u !! x) as [m|] eqn:Em; [|done]. destruct (discovered m); [done|]. unfold discover. rewrite Em.
    intros [= <-]. destruct (discovered_by d m). cbn. rewrite lookup_insert_ne by congruence. done.
  - intros [= <-]. unfold openPort. destruct (mappers u !! x) as [m|]; [|done]. destruct (negb (discovered m)); [done|].
    destruct (negb _); cbn; by rewrite lookup_insert_ne by congruence.
  - intros [= <-]. unfold destroy. destruct (mappers u !! x) as [m|]; [|done]. destruct (negb (discovered m)); cbn.
    + by rewrite lookup_delete_ne by congruence.
    + destruct (release _ _ _ _ _). cbn. by rewrite lookup_delete_ne by congruence.
Qed.

Lemma discover_alive id d u x : alive (discover id d u).2 x <-> alive u x.
Proof.
  unfold discover. destruct (mappers u !! id) as [m|] eqn:Em; [|done]. destruct (discovered_by d m) as [found m']. cbn.
  by eapply alive_insert.
Qed.
Lemma discover_constructed id d u : constructed (discover id d u).2 = constructed u.
Proof. unfold discover. destruct (mappers u !! id) as [m|]; [|done]. by destruct (discovered_by d m). Qed.
Lemma open_alive id p q d r u x : alive (openPort id p q d r u).2 x <-> alive u x.
Proof.
  unfold openPort. destruct (mappers u !! id) as [m|] eqn:Em; [|done]. destruct (negb (discovered m)); [done|].
  destruct (negb _); cbn; by apply (alive_insert u id m).
Qed.
Lemma open_constructed id p q d r u : constructed (openPort id p q d r u).2 = constructed u.
Proof. unfold openPort. destruct (mappers u !! id) as [m|]; [|done]. destruct (negb _); [done|]. by destruct (negb _). Qed.
Lemma destroy_dead id u : ~ alive (destroy id u).2 id.
Proof.
  unfold destroy. destruct (mappers u !! id) as [m|] eqn:Em; [|unfold alive; cbn; rewrite Em; by intros [? ?]].
  destruct (negb _); [|destruct (release _ _ _ _ _)]; unfold alive; cbn; rewrite lookup_delete_eq; by intros [? ?].
Qed.
Lemma destroy_constructed id u : constructed (destroy id u).2 = constructed u.
Proof. unfold destroy. destruct (mappers u !! id) as [m|]; [|done]. destruct (negb _); [done|]. by destruct (release _ _ _ _ _). Qed.

(* ===================================================================== *)
(** * The invariant *)

Definition waits (t : Terminal) : Prop := t = AtHead \/ t = Polling \/ t = Returned None.
(** Nobody has a pointer to the mapper: it waits to be deleted, or is. *)
Definition gone (st : State) (id : nat) : Prop :=
  mapper st = None /\ ((dying st = [id] /\ alive (upnp st) id) \/ (dying st = [] /\ ~ alive (upnp st) id)).
Definition safe (st : State) (id : nat) : Prop := dying st = [] /\ alive (upnp st) id.
Definition stored (st : State) (id : nat) : Prop := (mapper st = Some id /\ safe st id) \/ gone st id.

Definition owned (st : State) (id : nat) : Prop :=
  match worker st with
  | Making => False
  | Discovering x =>
      x = id /\ mapper st = None /\ done st = false /\ waits (terminal st) /\ safe st id /\
      exists m, mappers (upnp st) !! id = Some m /\ discovered m = false
  | Testing x | Opening x | Publishing x | Moving x =>
      x = id /\ mapper st = None /\ done st = false /\ waits (terminal st) /\ safe st id
  | Finishing => done st = false /\ waits (terminal st) /\ stored st id
  | Leaving =>
      done st = true /\
      ((waits (terminal st) /\ stored st id) \/
       ((terminal st = Returned (Some id) \/ terminal st = Dropped) /\ mapper st = Some id /\ safe st id))
  | Ended =>
      done st = true /\
      (((terminal st = AtHead \/ terminal st = Polling) /\ stored st id) \/
       (terminal st = Returned (Some id) /\ mapper st = None /\ safe st id) \/
       ((terminal st = Returned None \/ terminal st = Dropped) /\ gone st id))
  end.
Record Owned (st : State) : Prop := {
  owned_upnp : reachable (upnp st);
  owned_cancelled : cancelled st = true -> terminal st = Returned None;
  owned_made :
    match made st with
    | None => worker st = Making /\ mapper st = None /\ dying st = [] /\ done st = false /\ waits (terminal st)
    | Some id => (id < constructed (upnp st))%nat /\ owned st id
    end;
}.

Lemma Owned_initial now u : reachable u -> Owned (initial now u).
Proof. intros Hu. split; [done|done|]. cbn. split_and!; try done. by left. Qed.

(** The cases of the invariant, and of what a step makes of it. *)
Ltac owned_cases :=
  repeat match goal with
  | H : False |- _ => destruct H
  | H : _ /\ _ |- _ => destruct H
  | H : _ \/ _ |- _ => destruct H
  | H : exists _, _ |- _ => destruct H
  end; simplify_eq/=; try tauto; try congruence.
Ltac owned_done := intuition (eauto; congruence).
Ltac owned_open := unfold owned, stored, gone, safe, waits, release_state, let_go in *; cbn in *.

Lemma Owned_worker_goes st st' : Owned st -> worker_goes st = Some st' -> Owned st'.
Proof.
  intros [Hu Hc Hm]. destruct st as [dn ca mp er dl wk tm dy u md]. unfold worker_goes.
  destruct wk; cbn in *; try done.
  - destruct md as [id|]; [by destruct Hm|]. intros [= <-]. split; cbn.
    + eapply reachable_step; [exact Hu|apply step_construct].
    + exact Hc.
    + split; [lia|]. owned_open. destruct Hm as (_ & -> & -> & -> & Hw). rewrite lookup_insert_eq.
      unfold alive. cbn. rewrite lookup_insert_eq. split_and!; eauto.
  - intros [= <-]. split; [done|exact Hc|]. destruct md; [|by destruct Hm]. cbn in *. destruct ca; owned_open; owned_done.
  - intros [= <-]. destruct md; [|by destruct Hm]. destruct ca; (split; [done|exact Hc|]); owned_open; owned_cases.
  - intros [= <-]. destruct md; [|by destruct Hm]. split; [done|exact Hc|]. owned_open. owned_cases.
  - intros [= <-]. destruct md; [|by destruct Hm]. split; [done|exact Hc|]. owned_open. tauto.
  - intros [= <-]. destruct md; [|by destruct Hm]. owned_open. owned_cases; (split; [done|done|]); owned_open; owned_done.
Qed.

Lemma Owned_discovers d st st' : Owned st -> worker_discovers d st = Some st' -> Owned st'.
Proof.
  intros [Hu Hc Hm]. destruct st as [dn ca mp er dl wk tm dy u md]. unfold worker_discovers.
  destruct wk as [|x| | | | | | |]; cbn in *; try done.
  destruct md as [id|]; [|by destruct Hm]. pose proof (discover_constructed x d u) as Ec.
  pose proof (discover_alive x d u) as Ea. destruct (discover x d u) as [found u'] eqn:Ed. intros [= <-].
  owned_open. destruct Hm as (Hid & -> & -> & -> & Hw & (-> & Hal) & m & Hm & Hnd).
  split; cbn; [|exact Hc|].
  - replace u' with (discover id d u).2 by (by rewrite Ed). eapply reachable_step; [exact Hu|]. by eapply step_discover.
  - rewrite Ec. split; [done|]. apply Ea in Hal. destruct found; owned_open; owned_done.
Qed.
Lemma Owned_maps port r st st' : Owned st -> worker_maps port r st = Some st' -> Owned st'.
Proof.
  intros [Hu Hc Hm]. destruct st as [dn ca mp er dl wk tm dy u md]. unfold worker_maps.
  destruct wk as [| | |x| | | | |]; cbn in *; try done. intros [= <-].
  destruct md as [id|]; [|by destruct Hm]. split; cbn; [|exact Hc|].
  - eapply reachable_step; [exact Hu|]. apply step_open. by left.
  - rewrite open_constructed. owned_open. destruct Hm as (Hid & -> & -> & -> & Hw & -> & Hal).
    split_and!; try done. by apply open_alive.
Qed.
Lemma Owned_throws e st st' : Owned st -> worker_throws e st = Some st' -> Owned st'.
Proof.
  intros [Hu Hc Hm]. destruct st as [dn ca mp er dl wk tm dy u md]. unfold worker_throws.
  destruct wk as [|x| |x| | | | |]; cbn in *; try done; intros [= <-];
    (destruct md as [id|]; [|by destruct Hm]); (split; [done|exact Hc|]); owned_open; owned_cases.
Qed.
Lemma Owned_tests st st' : Owned st -> tests_done st = Some st' -> Owned st'.
Proof.
  intros [Hu Hc Hm]. destruct st as [dn ca mp er dl wk tm dy u md]. unfold tests_done.
  destruct tm; cbn in *; try done. assert (ca = false) as -> by (destruct ca; [by specialize (Hc eq_refl)|done]).
  intros [= <-]. destruct dn; [|split; [done|done|]; destruct md; [|owned_open; owned_done]; owned_open; destruct wk; owned_done].
  destruct md as [id|]; [|by destruct Hm as (_ & _ & _ & ? & _)].
  destruct wk; owned_open; owned_cases; (split; [done|done|]); owned_open; owned_done.
Qed.
Lemma Owned_pressed k now st st' : Owned st -> pressed k now st = Some st' -> Owned st'.
Proof.
  intros [Hu Hc Hm]. destruct st as [dn ca mp er dl wk tm dy u md]. unfold pressed.
  destruct tm; cbn in *; try done. assert (ca = false) as -> by (destruct ca; [by specialize (Hc eq_refl)|done]).
  intros [= <-]. destruct (bool_decide _ || _).
  - destruct md as [id|]; [|owned_open; owned_cases; split; [done|done|]; owned_open; owned_done].
    destruct wk; owned_open; owned_cases; (split; [done|done|]); owned_open; owned_done.
  - split; [done|done|]. destruct md; [|owned_open; owned_done]. owned_open; destruct wk; owned_done.
Qed.
Lemma Owned_resets port st st' : Owned st -> step port Resets st = Some st' -> Owned st'.
Proof.
  intros [Hu Hc Hm]. destruct st as [dn ca mp er dl wk tm dy u md]. cbn. destruct tm as [| |[x|]|]; cbn in *; try done.
  assert (ca = false) as -> by (destruct ca; [by specialize (Hc eq_refl)|done]).
  intros [= <-]. destruct md as [id|]; [|owned_open; owned_cases].
  destruct wk; owned_open; owned_cases; (split; [done|done|]); owned_open; owned_done.
Qed.
Lemma Owned_deletes port x st st' : Owned st -> step port (Deletes x) st = Some st' -> Owned st'.
Proof.
  intros [Hu Hc Hm]. destruct st as [dn ca mp er dl wk tm dy u md]. cbn. case_bool_decide as Hx; [|done]. cbn in *.
  intros [= <-]. destruct md as [id|]; [|destruct Hm as (_ & _ & -> & _); by apply elem_of_nil in Hx].
  assert (dy = [id]) as ->.
  { destruct wk; owned_open; owned_cases; subst; by apply elem_of_nil in Hx. }
  apply list_elem_of_singleton in Hx as ->. pose proof (destroy_dead id u) as Hd.
  split; cbn; [eapply reachable_step; [exact Hu|apply step_destroy]|exact Hc|].
  rewrite destroy_constructed. unfold without_id. rewrite filter_cons_False, filter_nil by tauto.
  destruct wk; owned_open; owned_cases.
Qed.
Lemma Owned_others port o st st' : Owned st -> step port (Others o) st = Some st' -> Owned st'.
Proof.
  intros [Hu Hc Hm]. destruct st as [dn ca mp er dl wk tm dy u md]. cbn in *. case_bool_decide as Hx; [done|].
  destruct (perform o u) as [u'|] eqn:Eo; [|done]. intros [= <-]. split; cbn; [by eapply reached|exact Hc|].
  destruct md as [id|]; [|done]. destruct Hm as [Hid Hm].
  destruct (others_leave o u u' id) as [El Ec]; [done| |done|].
  { intros E. apply Hx. by rewrite E. }
  split; [lia|]. owned_open. unfold alive in *. rewrite El. exact Hm.
Qed.

Lemma Owned_run port es : forall st st', Owned st -> run port es st = Some st' -> Owned st'.
Proof.
  induction es as [|e es IH]; intros st st' HI; cbn [run]; [by intros [= <-]|].
  destruct (step port e st) as [st1|] eqn:E; [|done]. apply IH. destruct e.
  - by eapply Owned_worker_goes.
  - by eapply Owned_discovers.
  - by eapply Owned_maps.
  - by eapply Owned_throws.
  - by eapply Owned_tests.
  - by eapply Owned_pressed.
  - by eapply Owned_resets.
  - by eapply Owned_deletes.
  - by eapply Owned_others.
Qed.

Lemma release_deadline st : deadline (release_state st) = deadline st.
Proof. unfold release_state. by repeat case_match. Qed.
Lemma step_deadline port e st st' : step port e st = Some st' -> deadline st' = deadline st.
Proof.
  destruct st as [dn ca mp er dl wk tm dy u md]. destruct e; cbn -[release_state].
  - destruct wk; try done; cbn -[release_state]; try case_match; intros [= <-]; by rewrite ?release_deadline.
  - destruct wk; try done. cbn. destruct (discover _ _ _) as [found u']. by intros [= <-].
  - destruct wk; try done. by intros [= <-].
  - destruct wk; try done; by intros [= <-].
  - unfold tests_done. destruct tm; try done. intros [= <-]. case_match; by rewrite ?release_deadline.
  - unfold pressed. destruct tm; try done. intros [= <-]. case_match; by rewrite ?release_deadline.
  - destruct tm as [| |[x|]|]; try done. case_bool_decide; by intros [= <-].
  - case_bool_decide; [|done]. by intros [= <-].
  - case_bool_decide; [done|]. destruct (perform _ _); [|done]. by intros [= <-].
Qed.
Lemma run_deadline port es : forall st st', run port es st = Some st' -> deadline st' = deadline st.
Proof.
  induction es as [|e es IH]; intros st st'; cbn [run]; [by intros [= <-]|].
  destruct (step port e st) as [st1|] eqn:E; [|done]. intros Hr. rewrite (IH _ _ Hr). by eapply step_deadline.
Qed.

