(* ===== verification/HostEnd.v ===== *)
(** The end of hosting in [ui/interactive_app.cpp]: what happens to the server, the
    mapping at the router and the publication when the host leaves the chat, or when
    hosting fails. The server is destroyed only after the thread has ended, and
    [Shutdown.v] says when it does. *)

From S2P Require Import Prelude Frame Message Utils AppState StorageApi Tls ChatClient Browser Publisher Upnp UpnpProperties HostUpnp HostUpnpProperties.
From S2P Require Import World ChatServer ClientSession ServerInvariant ServerBoot.
From S2P Require Import ServerSteps ServerProperties Shutdown Commands HostSession.
Local Open Scope string_scope.
Local Open Scope chat_scope.

Section host_end.
Context {S : Type} `{ServerStorage S} `{OpenSSL} `{Platform} `{Sodium} `{Disk}.
Abbreviation W := (World S).
Abbreviation P := (Process (S:=S)).
Abbreviation ServerInv := ServerInvariant.Inv.
Abbreviation server_step := ServerSteps.step.

(* ===================================================================== *)
(** * The steps *)

(** What [run_curses_app] owns while it hosts: the process with its server, the mapper
    among those of the program that [upnp] points to, and the publisher; and what the
    detached threads of the deleters own. *)
Record Household := MkHousehold {
  process : P;
  all_mappers : Upnp;
  upnp_ : option nat;
  browser_publisher : option PublisherWorld;
  dying_mappers : list nat;
  dying_publishers : list PublisherWorld;
}.

(** [browser_publisher.reset()] and [upnp.reset()]: the deleters delete on threads of
    their own. *)
Definition reset_publisher (h : Household) : Household :=
  MkHousehold (process h) (all_mappers h) (upnp_ h) None (dying_mappers h)
    (match browser_publisher h with Some p => p :: dying_publishers h | None => dying_publishers h end).
Definition reset_upnp (h : Household) : Household :=
  MkHousehold (process h) (all_mappers h) None (browser_publisher h)
    (match upnp_ h with Some id => id :: dying_mappers h | None => dying_mappers h end)
    (dying_publishers h).

Definition with_process (p : P) (h : Household) : Household :=
  MkHousehold p (all_mappers h) (upnp_ h) (browser_publisher h) (dying_mappers h) (dying_publishers h).
(** [server->stop()]; [server.reset()]; [reset_chat_state()]. *)
Definition stop_server (h : Household) : Household :=
  with_process (server_call ChatServer.stop tt (process h)).2 h.
Definition reset_server (h : Household) : Household :=
  let p := process h in with_process (MkProcess None (guest p) (screen p) (clock_reads p)) h.
Definition clear_screen (h : Household) : Household :=
  let p := process h in
  with_process (MkProcess (host p) (guest p) (reset_chat_state (screen p)) (clock_reads p)) h.

(** [io_context::run] has returned: no handler is left, no operation is pending. *)
Definition returned (w : W) : Prop := tasks w = [] /\ forall s, pending (session w s) = false.

(** The thread from the call of [stop] to its end: events as before until the stop is the
    next task, and what winds down after it. *)
Inductive thread_ends (w : W) : W -> Prop :=
| thread_ended w1 rest left w2 left2 :
    rtc server_step w w1 -> tasks w1 = TaskStop :: rest ->
    rtc winds_down ((run_stop (put_tasks rest w1)).2, left) (w2, left2) -> returned w2 ->
    thread_ends w w2.

(** [server->stop()] and [network_thread.join()], or [io.run()] where there is no thread
    yet; the screen and the clock are shared with it. *)
Inductive stops (h : Household) : Household -> Prop :=
| stops_server w w' :
    host (process (stop_server h)) = Some w -> thread_ends w w' ->
    stops h (with_process (MkProcess (Some w') (guest (process h)) (World.app w') (system_reads w'))
               (stop_server h)).

(** [run_curses_chat_loop] has returned. *)
Inductive leaves (h : Household) : Household -> Prop :=
| leaves_chat h1 :
    stops (reset_upnp (reset_publisher h)) h1 -> leaves h (clear_screen (reset_server h1)).

(** An exception: before there is a server, while it is opened to the host, and in the
    chat, when the server is stopped a second time. *)
Inductive fails (h : Household) : Household -> Prop :=
| fails_before : host (process h) = None -> fails h (reset_upnp (reset_publisher h))
| fails_opening h1 : stops h h1 -> fails h (reset_upnp (reset_publisher (reset_server h1)))
| fails_chatting h1 h2 : stops h h1 -> stops h1 h2 ->
    fails h (reset_upnp (reset_publisher (reset_server h2))).

(** The threads of the deleters, in any order. *)
Inductive deletes : Household -> Household -> Prop :=
| deletes_mapper h before id after : dying_mappers h = (before ++ id :: after)%list ->
    deletes h (MkHousehold (process h) (snd (Upnp.destroy id (all_mappers h))) (upnp_ h) (browser_publisher h)
                 (before ++ after)%list (dying_publishers h)).

(* ===================================================================== *)
(** * What the thread keeps *)

Section kept.
Context (Q : W -> Prop) (HQ : kept Q).

Lemma kept_steps (w w' : W) : rtc server_step w w' -> Q w -> Q w'.
Proof. induction 1 as [|w1 w2 w3 Hs _ IH]; [done|]. intros Hw. by apply IH, (kept_step Q HQ w1). Qed.
Lemma kept_down (c c' : W * gmap SessionId (list string)) : rtc winds_down c c' -> Q c.1 -> Q c'.1.
Proof.
  induction 1 as [|c1 c2 c3 Hd _ IH]; [done|]. intros Hc. apply IH, (kept_step Q HQ c1.1); [done|].
  by apply winds_down_step.
Qed.

Lemma thread_keeps (w w' : W) : Q w -> thread_ends w w' -> Q w'.
Proof.
  intros Hw [w1 rest left w2 left2 Hr Ht Hd _]. apply (kept_down _ _ Hd). cbn [fst].
  apply (kept_step Q HQ w1); [by eapply kept_steps|]. change (server_step w1 (run_task TaskStop (put_tasks rest w1)).2).
  by apply step_task.
Qed.

Lemma stops_keeps h h' : hosted Q (process h) -> stops h h' -> hosted Q (process h').
Proof.
  intros Hh [w w' Hw Ht]. exists w'. split; [done|]. apply (thread_keeps w); [|done].
  assert (hosted Q (process (stop_server h))) as (x & Hx & Hq).
  { by apply (hosted_admin Q HQ _ _ AdminStop). }
  by simplify_eq.
Qed.
End kept.

(* ===================================================================== *)
(** * What is left *)

(** The server as it is destroyed: without sessions, and no handler and no operation
    refers to it. *)
Definition at_rest (w : W) : Prop := ServerInv w /\ sessions_ (server w) = ∅ /\ returned w.

Lemma thread_rests (w w' : W) : ServerInv w -> thread_ends w w' -> at_rest w'.
Proof.
  intros I [w1 rest left w2 left2 Hr Ht Hd Hret].
  assert (ServerInv w1) as I1 by by apply (kept_steps _ kept_inv w).
  assert (emptied (run_stop (put_tasks rest w1)).2) as He.
  { split; [|apply stop_empties]. apply (Inv_step w1); [|done].
    change (server_step w1 (run_task TaskStop (put_tasks rest w1)).2). by apply step_task. }
  by destruct (emptied_steps _ _ Hd He).
Qed.

Lemma stops_rests h h' : hosted ServerInv (process h) -> stops h h' -> hosted at_rest (process h').
Proof.
  intros Hh [w w' Hw Ht]. exists w'. split; [done|]. apply (thread_rests w); [|done].
  assert (hosted ServerInv (process (stop_server h))) as (x & Hx & Hq).
  { by apply (hosted_admin _ kept_inv _ _ AdminStop). }
  by simplify_eq.
Qed.

(** The resets and the stop, on what else the household has. *)
Lemma stops_rest h h' : stops h h' ->
  all_mappers h' = all_mappers h /\ upnp_ h' = upnp_ h /\ dying_mappers h' = dying_mappers h /\
  browser_publisher h' = browser_publisher h /\ dying_publishers h' = dying_publishers h.
Proof. by intros []. Qed.

(** A deleter's mapper is waiting for its thread, or gone. *)
Definition doomed (id : nat) (h : Household) : Prop := id ∈ dying_mappers h \/ ~ alive (all_mappers h) id.

Lemma doomed_deletes id h h' : deletes h h' -> doomed id h -> doomed id h'.
Proof.
  intros [h0 before x after Hx] Hd. destruct (decide (id = x)) as [->|Hne].
  - right. apply destroy_dead.
  - destruct Hd as [Hd|Hd].
    + left. cbn. rewrite Hx in Hd. rewrite !elem_of_app, ?elem_of_cons in *. naive_solver.
    + right. cbn. intros Hal. apply Hd. unfold alive, Upnp.destroy in *.
      destruct (mappers (all_mappers h0) !! x); [|done].
      destruct (negb _); [|destruct (release _ _ _ _ _)]; cbn in Hal; by rewrite lookup_delete_ne in Hal.
Qed.
Lemma doomed_dead id h h' : doomed id h -> rtc deletes h h' -> dying_mappers h' = [] -> ~ alive (all_mappers h') id.
Proof.
  intros Hd Hr. revert Hd. induction Hr as [h|h1 h2 h3 Hs _ IH]; intros Hd He; [|by eauto using doomed_deletes].
  destruct Hd as [Hd|Hd]; [|done]. rewrite He in Hd. by apply not_elem_of_nil in Hd.
Qed.
Lemma deletes_reachable h h' : rtc deletes h h' -> Upnp.reachable (all_mappers h) -> Upnp.reachable (all_mappers h').
Proof.
  induction 1 as [|h1 h2 h3 Hs _ IH]; [done|]. intros Hr. apply IH. destruct Hs as [h0 before x after _].
  by eapply Upnp.reachable_step; [|apply Upnp.step_destroy].
Qed.

End host_end.
