(* ===== verification/DataFiles.v ===== *)
(** What [common/utils.cpp] asks of the machine: where the database is, with the move of
    one from before, and the addresses of this computer. *)

From S2P Require Import Prelude Utils.
Local Open Scope string_scope.

(* ===================================================================== *)
(** * The database *)

(** A path and the file it names: "." is the working directory. *)
Definition resolve (path : string) : string :=
  match path with String "." (String "/" rest) => rest | _ => path end.

(** What the file system allows: making the directories, looking at a path, and renaming
    a file. *)
Record FileSystem := MkFileSystem {
  can_make_directories : bool;
  can_look : string -> bool;
  can_rename : string -> bool;
}.

Section database.
Context `{Platform}.

Definition present (files : Files) (path : string) : bool := bool_decide (is_Some (files !! resolve path)).
Definition rename (fs : FileSystem) (from to : string) (files : Files) : bool * Files :=
  match files !! resolve from with
  | Some text => if can_rename fs from then (true, <[resolve to := text]> (delete (resolve from) files)) else (false, files)
  | None => (false, files)
  end.

Definition default_database : string := path_join chatbox_data_directory "chatbox.db".

(** The loop over the suffixes. *)
Definition move_sidecar (fs : FileSystem) (files : Files) (suffix : string) : Files :=
  let old_sidecar := "chatbox.db" +:+ suffix in
  if present files old_sidecar && can_look fs old_sidecar
  then (rename fs old_sidecar (default_database +:+ suffix) files).2 else files.

Definition chatbox_database_path (fs : FileSystem) (files : Files) : string * Files :=
  if negb (can_make_directories fs) then ("chatbox.db", files)
  else
    let files' :=
      if can_look fs default_database && negb (present files default_database)
         && can_look fs "chatbox.db" && present files "chatbox.db"
      then let '(moved, files) := rename fs "chatbox.db" default_database files in
           if moved then foldl (move_sidecar fs) files ["-wal"; "-shm"] else files
      else files in
    (default_database, files').
End database.

(* ===================================================================== *)
(** * The addresses *)

(** [boost::asio::ip::address]. *)
Class Addresses := {
  Address : Type;
  address_v4 : N -> Address;
  address_v6 : list N -> N -> Address;
  is_link_local : Address -> bool;
  is_loopback : Address -> bool;
  is_unspecified : Address -> bool;
  address_text : Address -> string;
}.

(** What an entry of [getifaddrs] points to: nothing, an IPv4 address, an IPv6 address
    with its scope, or something else. *)
Inductive Sockaddr := NoSockaddr | Inet (addr : N) | Inet6 (bytes : list N) (scope : N) | OtherFamily.

Section addresses.
Context `{Addresses}.

Definition portable_address (raw : Sockaddr) : option string :=
  let listed value := if is_loopback value || is_unspecified value then None else Some (address_text value) in
  match raw with
  | NoSockaddr | OtherFamily => None
  | Inet addr => listed (address_v4 addr)
  | Inet6 bytes scope =>
      let value := address_v6 bytes scope in
      if is_link_local value then None else listed value
  end.

(** [None] when [getifaddrs] fails. *)
Definition local_network_addresses (interfaces : option (list Sockaddr)) : list string :=
  match interfaces with
  | None => []
  | Some l => set_iter (list_to_set (omap portable_address l) : gset string)
  end.

Lemma local_network_addresses_spec l : let found := local_network_addresses (Some l) in
  (forall a, a ∈ found <-> exists raw, raw ∈ l /\ portable_address raw = Some a) /\
  NoDup found /\ StronglySorted String.le found.
Proof.
  cbn. split; [|split; [apply set_iter_nodup|apply set_iter_sorted]].
  intros a. rewrite elem_of_set_iter, elem_of_list_to_set. apply list_elem_of_omap.
Qed.
End addresses.

(* ===================================================================== *)
(** * The move *)

Section properties.
Context `{Platform}.

Lemma resolve_app p s : 2 <= String.length p -> resolve (p +:+ s) = resolve p +:+ s.
Proof.
  destruct p as [|[a0 a1 a2 a3 a4 a5 a6 a7] [|[b0 b1 b2 b3 b4 b5 b6 b7] r]]; cbn; try lia. intros _.
  destruct a0, a1, a2, a3, a4, a5, a6, a7; try reflexivity.
  destruct b0, b1, b2, b3, b4, b5, b6, b7; reflexivity.
Qed.
Lemma path_join_ends base name : exists front, path_join base name = front +:+ name.
Proof.
  unfold path_join. destruct (_ || _); [by exists base|]. exists (base +:+ "/"). symmetry. apply sapp_assoc.
Qed.
Lemma resolve_ends front : exists front', resolve (front +:+ "chatbox.db") = front' +:+ "chatbox.db".
Proof.
  destruct front as [|[a0 a1 a2 a3 a4 a5 a6 a7] [|[b0 b1 b2 b3 b4 b5 b6 b7] r]]; [by exists ""| |].
  - eexists (String _ ""). cbn. destruct a0, a1, a2, a3, a4, a5, a6, a7; reflexivity.
  - destruct a0, a1, a2, a3, a4, a5, a6, a7; try (eexists (String _ (String _ r)); reflexivity).
    destruct b0, b1, b2, b3, b4, b5, b6, b7; try (eexists (String _ (String _ r)); reflexivity). by exists r.
Qed.
Lemma database_ends : exists front, resolve default_database = front +:+ "chatbox.db".
Proof. unfold default_database. destruct (path_join_ends chatbox_data_directory "chatbox.db") as [f ->]. apply resolve_ends. Qed.
Lemma database_sidecar suffix : resolve (default_database +:+ suffix) = resolve default_database +:+ suffix.
Proof.
  apply resolve_app. unfold default_database. destruct (path_join_ends chatbox_data_directory "chatbox.db") as [f ->].
  rewrite slength_app. cbn. lia.
Qed.

(** The files the move is about: they have different names, when the database is not the
    one in the working directory. *)
Lemma database_back : sback (resolve default_database) = Some "b"%char.
Proof. destruct database_ends as [f ->]. by rewrite sback_app. Qed.
Lemma sapp_cancel_r p q s : p +:+ s = q +:+ s -> p = q.
Proof.
  revert q. induction p as [|c p IH]; intros [|d q]; cbn.
  - done.
  - intros E. exfalso. apply (f_equal String.length) in E. rewrite !slength_app in E. cbn in E. lia.
  - intros E. exfalso. apply (f_equal String.length) in E. rewrite !slength_app in E. cbn in E. lia.
  - intros [= -> E]. f_equal. by apply IH.
Qed.
Lemma back_ne s t : sback s <> sback t -> s <> t.
Proof. congruence. Qed.
Lemma sidecar_ne suffix : suffix <> "" -> resolve default_database <> "chatbox.db" ->
  resolve default_database +:+ suffix <> "chatbox.db" +:+ suffix.
Proof. intros _ Hne E. apply Hne. by apply sapp_cancel_r in E. Qed.

Definition all_allowed (fs : FileSystem) : Prop :=
  can_make_directories fs = true /\ forall p, can_look fs p = true /\ can_rename fs p = true.

Lemma move_sidecar_spec fs files suffix : all_allowed fs -> suffix <> "" ->
  move_sidecar fs files suffix =
    match files !! ("chatbox.db" +:+ suffix) with
    | Some text => <[resolve default_database +:+ suffix := text]> (delete ("chatbox.db" +:+ suffix) files)
    | None => files
    end.
Proof.
  intros [_ Hall] Hs. destruct (Hall ("chatbox.db" +:+ suffix)) as [Hlook Hren]. unfold move_sidecar, present, rename.
  rewrite Hlook, Hren, database_sidecar. change (resolve ("chatbox.db" +:+ suffix)) with ("chatbox.db" +:+ suffix).
  destruct (files !! ("chatbox.db" +:+ suffix)) eqn:E; [by rewrite bool_decide_true|]. by rewrite bool_decide_false by (by intros [? ?]).
Qed.

Lemma sidecar_lookup fs files suffix k : all_allowed fs -> suffix <> "" ->
  move_sidecar fs files suffix !! k =
    match files !! ("chatbox.db" +:+ suffix) with
    | Some log =>
        if decide (k = resolve default_database +:+ suffix) then Some log
        else if decide (k = "chatbox.db" +:+ suffix) then None else files !! k
    | None => files !! k
    end.
Proof.
  intros Hall Hs. rewrite move_sidecar_spec by done. destruct (files !! _) as [log|] eqn:E; [|done].
  case_decide as E1; [subst; by rewrite lookup_insert_eq|]. rewrite lookup_insert_ne by congruence.
  case_decide as E2; [subst; by rewrite lookup_delete_eq|]. by rewrite lookup_delete_ne by congruence.
Qed.

Lemma path_stays fs files : can_make_directories fs = true ->
  present files default_database = true \/ files !! "chatbox.db" = None -> chatbox_database_path fs files = (default_database, files).
Proof.
  intros Hm Hp. unfold chatbox_database_path. rewrite Hm. cbn [negb]. destruct Hp as [-> |Hp].
  - by rewrite andb_false_r.
  - assert (present files "chatbox.db" = false) as ->; [|by rewrite andb_false_r].
    unfold present. change (resolve "chatbox.db") with "chatbox.db". rewrite Hp. apply bool_decide_false. by intros [? ?].
Qed.
(** The move, as changes of a map. *)
Lemma path_moves fs files text : all_allowed fs -> present files default_database = false -> files !! "chatbox.db" = Some text ->
  chatbox_database_path fs files =
    (default_database, move_sidecar fs (move_sidecar fs (<[resolve default_database := text]> (delete "chatbox.db" files)) "-wal") "-shm").
Proof.
  intros [Hm Hall] Hp Ht. destruct (Hall default_database) as [Hl _], (Hall "chatbox.db") as [Hl' Hr].
  unfold chatbox_database_path, rename. rewrite Hm, Hl, Hl', Hp, Hr. change (resolve "chatbox.db") with "chatbox.db".
  rewrite Ht. unfold present. change (resolve "chatbox.db") with "chatbox.db". by rewrite Ht, bool_decide_true.
Qed.
(** The six names. *)
Lemma names_distinct files text : present files default_database = false -> files !! "chatbox.db" = Some text ->
  let d := resolve default_database in
  NoDup ["chatbox.db"; "chatbox.db" +:+ "-wal"; "chatbox.db" +:+ "-shm"; d; d +:+ "-wal"; d +:+ "-shm"].
Proof.
  intros Hp Ht d. assert (d <> "chatbox.db") as Hne.
  { intros E. unfold present in Hp. apply bool_decide_eq_false in Hp. apply Hp. exists text. fold d. by rewrite E. }
  pose proof database_back as Hb. fold d in Hb.
  assert (sback (d +:+ "-wal") = Some "l"%char) as Hw by (by rewrite sback_app).
  assert (sback (d +:+ "-shm") = Some "m"%char) as Hm by (by rewrite sback_app).
  pose proof (sidecar_ne "-wal" ltac:(done) Hne) as Hnw. pose proof (sidecar_ne "-shm" ltac:(done) Hne) as Hnm.
  fold d in Hnw, Hnm. repeat constructor; rewrite ?not_elem_of_cons; repeat split;
    try apply not_elem_of_nil; first [congruence | intros E; apply (f_equal sback) in E; revert E;
    rewrite ?Hb, ?Hw, ?Hm; by vm_compute].
Qed.

Ltac lookup_tac Hall d :=
  rewrite ?sidecar_lookup by done; fold d; rewrite ?lookup_insert, ?lookup_delete;
  repeat case_decide; repeat case_match; try congruence; try (by subst).

(** The database from before. On the first use after the default path changed, the
    database of the working directory becomes the one at the new path, with what is in
    its log and shared memory, and nothing else changes; a database that is already
    there is left alone, and so is everything on the next use. *)
Theorem database_adopted fs files : all_allowed fs ->
  let '(path, files') := chatbox_database_path fs files in
  path = default_database /\
  (present files path = true \/ files !! "chatbox.db" = None -> files' = files) /\
  (forall text, present files path = false -> files !! "chatbox.db" = Some text ->
     files' !! resolve path = Some text /\ files' !! "chatbox.db" = None /\
     (forall suffix log, suffix = "-wal" \/ suffix = "-shm" -> files !! ("chatbox.db" +:+ suffix) = Some log ->
        files' !! resolve (path +:+ suffix) = Some log) /\
     (forall f, (forall suffix, suffix ∈ [""; "-wal"; "-shm"] -> f <> "chatbox.db" +:+ suffix /\ f <> resolve (path +:+ suffix)) ->
        files' !! f = files !! f)) /\
  chatbox_database_path fs files' = (path, files').
Proof.
  intros Hall. destruct (present files default_database) eqn:Hp; [|destruct (files !! "chatbox.db") as [text|] eqn:Ht].
  - rewrite path_stays by (try apply Hall; auto). split; [done|]. split; [done|]. split; [congruence|].
    apply path_stays; [apply Hall|by left].
  - rewrite (path_moves fs files text Hall Hp Ht). set (d := resolve default_database).
    pose proof (names_distinct files text Hp Ht) as Hd. cbn zeta in Hd. fold d in Hd.
    rewrite !list.NoDup_cons, !not_elem_of_cons in Hd. destruct_and!.
    set (files' := move_sidecar fs _ "-shm").
    assert (forall k, files' !! k =
      match files !! ("chatbox.db" +:+ "-shm") with
      | Some log => if decide (k = d +:+ "-shm") then Some log else if decide (k = "chatbox.db" +:+ "-shm") then None else
          move_sidecar fs (<[d := text]> (delete "chatbox.db" files)) "-wal" !! k
      | None => move_sidecar fs (<[d := text]> (delete "chatbox.db" files)) "-wal" !! k
      end) as Hk.
    { intros k. subst files'. rewrite sidecar_lookup by done. fold d.
      assert (move_sidecar fs (<[d := text]> (delete "chatbox.db" files)) "-wal" !! ("chatbox.db" +:+ "-shm") = files !! ("chatbox.db" +:+ "-shm")) as ->; [|done].
      lookup_tac Hall d. }
    assert (files' !! d = Some text) as Hmoved by (rewrite Hk; lookup_tac Hall d).
    split; [done|]. split; [intros [?|?]; congruence|]. split; [|apply path_stays; [apply Hall|left; apply bool_decide_eq_true; fold d; eauto]].
    intros t _ [= <-]. split; [exact Hmoved|]. split; [rewrite Hk; lookup_tac Hall d|]. split.
    + intros suffix log [-> | ->] Hlog; rewrite database_sidecar; fold d; rewrite Hk; lookup_tac Hall d.
    + intros f Hf. destruct (Hf "") as [F1 F2]; [by left|]. destruct (Hf "-wal") as [F3 F4]; [right; by left|].
      destruct (Hf "-shm") as [F5 F6]; [right; right; by left|]. rewrite database_sidecar in F4, F6. rewrite !sapp_nil_r in F1, F2.
      fold d in F2, F4, F6. rewrite Hk. lookup_tac Hall d.
  - rewrite path_stays by (try apply Hall; auto). split; [done|]. split; [done|]. split; [congruence|].
    apply path_stays; [apply Hall|by right].
Qed.

(** When the rename fails, as it does between file systems, a path without a database is
    returned, and the database stays behind. *)
Lemma failed_move_forgets fs files text : can_make_directories fs = true ->
  present files default_database = false -> files !! "chatbox.db" = Some text -> can_rename fs "chatbox.db" = false ->
  let '(path, files') := chatbox_database_path fs files in
  path = default_database /\ present files' path = false /\ files' !! "chatbox.db" = Some text.
Proof.
  intros Hm Hp Ht Hr. unfold chatbox_database_path, rename. rewrite Hm, Hr. cbn [negb].
  change (resolve "chatbox.db") with "chatbox.db". rewrite Ht. by destruct (_ && _).
Qed.
End properties.
