(* ===== verification/MachineScenarios.v ===== *)
(** Concrete executions with a router, a database that is moved, and a host with two
    clients and a mapping that leaves: the instances of the theorems of
    [UpnpProperties.v], [HostUpnpProperties.v], [DataFiles.v] and [HostEnd.v]. *)

From S2P Require Import Prelude Utils Terminal Interface Upnp UpnpProperties HostUpnp HostUpnpProperties DataFiles.
Local Open Scope string_scope.

(* ===================================================================== *)
(** * Ports *)

Fixpoint performs (os : list Operation) (u : Upnp) : option Upnp :=
  match os with
  | [] => Some u
  | o :: os => match perform o u with Some u => performs os u | None => None end
  end.
Lemma performs_reachable os : forall u u', reachable u -> performs os u = Some u' -> reachable u'.
Proof.
  induction os as [|o os IH]; intros u u' Hu; cbn [performs]; [by intros [= <-]|].
  destruct (perform o u) as [u1|] eqn:E; [|done]. apply IH. by eapply reached.
Qed.

Definition igd : Discovery := Devices 1 "http://192.168.1.1/ctl" "WANIPConnection" "192.168.1.4" (Some "203.0.113.9").
(** Two mappers open the same port, and the first one dies late. *)
Definition two_mappers : list Operation :=
  [Constructs; Upnp.Discovers 0 igd; Upnp.Opens 0 7777 false "P2P Chat" 0; Constructs; Upnp.Discovers 1 igd;
   Upnp.Opens 1 7777 false "P2P Chat" 0; Dies 0].
Definition router_state : Upnp := default no_mappers (performs two_mappers no_mappers).

(** When the second one dies too, the port is closed. *)
Example port_closed :
  (fun u => open_at u "http://192.168.1.1/ctl" "7777" "TCP") <$> performs (two_mappers ++ [Dies 1]) no_mappers = Some false.
Proof. vm_compute. reflexivity. Qed.

(* ===================================================================== *)
(** * Giving up *)

(** The router opens the port after the host pressed Escape. *)
Definition given_up_events : list HostUpnp.Event :=
  [WorkerGoes; Answers igd; WorkerGoes; TestsDone; Pressed (Byte "027"%char) 10; Maps 0; WorkerGoes; WorkerGoes;
   Deletes 0; WorkerGoes].
Definition given_up : HostUpnp.State := default (initial 0 no_mappers) (run 7777 given_up_events (initial 0 no_mappers)).


(* ===================================================================== *)
(** * The database *)

Definition old_files : Files := {["chatbox.db" := "tables"; "chatbox.db-wal" := "log"]}.
Definition working : FileSystem := MkFileSystem true (fun _ => true) (fun _ => true).
Lemma database_adopted_witness :
  all_allowed working /\
  (chatbox_database_path working old_files).2 !! "/home/user/.local/share/chatbox/chatbox.db" = Some "tables" /\
  (chatbox_database_path working old_files).2 !! "/home/user/.local/share/chatbox/chatbox.db-wal" = Some "log".
Proof.
  assert (all_allowed working) as Hw by done. split; [exact Hw|].
  pose proof (database_adopted working old_files Hw) as Hd. destruct (chatbox_database_path working old_files) as [path files'].
  destruct Hd as (-> & _ & Hmoved & _). destruct (Hmoved "tables") as (Ht & _ & Hs & _); [vm_compute; reflexivity|reflexivity|].
  split; [exact Ht|]. apply (Hs "-wal" "log"); [by left|reflexivity].
Defined.

From S2P Require Import Prelude Frame Message Utils AppState StorageApi Tls ChatClient Browser Publisher Upnp UpnpProperties.
From S2P Require Import World ChatServer ClientSession ServerInvariant ServerSteps Shutdown Commands.
From S2P Require Import TerminalScenarios MenuScenarios HostSession HostEnd Scenarios.
Local Open Scope string_scope.
Local Open Scope chat_scope.

(* ===================================================================== *)
(** * Winding down, executably *)

Inductive Ending := EndsTask | EndsRead (s : SessionId) | EndsWrite (s : SessionId).
Definition wind (e : Ending) (w : World unit) : option (World unit) :=
  match e with
  | EndsTask => match tasks w with t :: rest => Some (run_task t (put_tasks rest w)).2 | [] => None end
  | EndsRead s => if reading (session w s) then Some (on_read_error s w).2 else None
  | EndsWrite s => if write_pending (session w s) then Some (on_write_error s true "" w).2 else None
  end.
Fixpoint winds (es : list Ending) (w : World unit) : option (World unit) :=
  match es with
  | [] => Some w
  | e :: es => match wind e w with Some w' => winds es w' | None => None end
  end.

Lemma wind_down e (w w' : World unit) left : wind e w = Some w' -> winds_down (w, left) (w', left).
Proof.
  destruct e; cbn [wind]; [destruct (tasks w) eqn:E; [done|]|destruct (reading _) eqn:E; [|done]
    |destruct (write_pending _) eqn:E; [|done]]; intros <-%(inj Some);
    [by apply down_task|by apply down_read_error|by apply down_write_error].
Qed.
Lemma winds_steps es left : forall (w w' : World unit), winds es w = Some w' -> rtc winds_down (w, left) (w', left).
Proof.
  induction es as [|e es IH]; intros w w'; cbn [winds]; [intros [= <-]; constructor|].
  destruct (wind e w) as [w1|] eqn:E; [|done]. intros Hw. apply rtc_l with (w1, left); [by apply (wind_down e)|by apply IH].
Qed.
Lemma winds_server_steps es : forall (w w' : World unit), winds es w = Some w' -> rtc ServerSteps.step w w'.
Proof.
  induction es as [|e es IH]; intros w w'; cbn [winds]; [intros [= <-]; constructor|].
  destruct (wind e w) as [w1|] eqn:E; [|done]. intros Hw. apply rtc_l with w1; [|by apply IH].
  exact (winds_down_step _ _ (wind_down e w w1 ∅ E)).
Qed.

(* ===================================================================== *)
(** * The household *)

Definition house : Household (S:=unit) :=
  MkHousehold (MkProcess (Some two_clients) None initial_app_state 0)
    (default no_mappers (performs [Constructs; Upnp.Discovers 0 igd; Upnp.Opens 0 7777 false "P2P Chat" 0] no_mappers))
    (Some 0%nat) None [] [].
Definition stopping : Household (S:=unit) := stop_server (reset_upnp (reset_publisher house)).
Definition the_server (h : Household (S:=unit)) : World unit := default two_clients (host (process h)).
Definition before_stop : list Ending := replicate 39 EndsTask.
Definition about_to_stop : World unit := default two_clients (winds before_stop (the_server stopping)).
Definition ending : list Ending := [EndsTask; EndsTask; EndsRead 1%N; EndsRead 2%N; EndsWrite 1%N; EndsWrite 2%N].
Definition ended : World unit := default two_clients (winds ending (run_stop (put_tasks [] about_to_stop)).2).
Definition left_house : Household (S:=unit) :=
  clear_screen (reset_server (with_process (MkProcess (Some ended) None (World.app ended) (system_reads ended)) stopping)).

Lemma returned_check (w : World unit) :
  tasks w = [] -> map_Forall (fun _ x => pending x = false) (heap w) -> returned w.
Proof.
  intros Ht Hp. split; [done|]. intros s. unfold session. destruct (heap w !! s) as [x|] eqn:E; [by apply (Hp s)|done].
Qed.

Lemma house_left : leaves house left_house.
Proof.
  apply leaves_chat. apply stops_server with (w := the_server stopping).
  - apply (default_run (host (process stopping))). vm_compute. reflexivity.
  - apply (thread_ended (the_server stopping) about_to_stop [] ∅ ended ∅).
    + apply (winds_server_steps before_stop), default_run. vm_compute. reflexivity.
    + vm_compute. reflexivity.
    + apply (winds_steps ending), default_run. vm_compute. reflexivity.
    + apply returned_check; [vm_compute; reflexivity|]. by refine (bool_decide_eq_true_1 _ _); vm_compute.
Qed.

