(* ===== verification/Transport.v ===== *)
(** One stream for both kinds of connection, [network/transport.h], and what a client asks
    of OpenSSL before it connects, [network/tls.cpp]. Calls of Boost.Asio and OpenSSL
    are recorded, with what they are made on. *)

From S2P Require Import Prelude Tls.
Local Open Scope string_scope.

(* ===================================================================== *)
(** * The stream *)

Section stream.
Context {Socket Context_ : Type}.

(** [plain_] and [tls_]; the TLS stream owns its socket. *)
Record TransportStream := MkTransport { plain_ : option Socket; tls_ : option (Socket * Context_) }.

Inductive Channel := OverSocket | OverTls.
Inductive Role := AsServer | AsClient.
(** A call of the library. *)
Inductive Call :=
| PostSuccess                                 (* the handler is posted with no error *)
| AsyncHandshake (role : Role)
| BlockingHandshake
| ClearError
| AsyncReadUntil (c : Channel) (delimiter : ascii)
| AsyncWrite (c : Channel) (data : string)
| BlockingWrite (c : Channel) (data : string)
| BlockingReadUntil (c : Channel) (delimiter : ascii)
| ShutdownSocket
| CloseSocket.

Definition make_transport (socket : Socket) (tls_context : option Context_) : TransportStream :=
  match tls_context with
  | Some context => MkTransport None (Some (socket, context))
  | None => MkTransport (Some socket) None
  end.
Definition is_tls (s : TransportStream) : bool := bool_decide (is_Some (tls_ s)).
Definition lowest_layer (s : TransportStream) : option Socket :=
  match tls_ s with Some (socket, _) => Some socket | None => plain_ s end.
Definition native_tls_handle (s : TransportStream) : option Context_ := snd <$> tls_ s.

Definition channel (s : TransportStream) : Channel := if is_tls s then OverTls else OverSocket.
Definition async_server_handshake (s : TransportStream) : list Call := if is_tls s then [AsyncHandshake AsServer] else [PostSuccess].
Definition async_client_handshake (s : TransportStream) : list Call := if is_tls s then [AsyncHandshake AsClient] else [PostSuccess].
Definition client_handshake (s : TransportStream) : list Call := if is_tls s then [BlockingHandshake] else [ClearError].
Definition async_read_until (s : TransportStream) (delimiter : ascii) : list Call := [AsyncReadUntil (channel s) delimiter].
Definition async_write (s : TransportStream) (data : string) : list Call := [AsyncWrite (channel s) data].
Definition write (s : TransportStream) (data : string) : list Call := [BlockingWrite (channel s) data].
Definition read_until (s : TransportStream) (delimiter : ascii) : list Call := [BlockingReadUntil (channel s) delimiter].
Definition close (s : TransportStream) : list Call := [ShutdownSocket; CloseSocket].

(** Any of them. *)
Inductive Operation :=
| ServerHandshake | ClientHandshake | BlockingClientHandshake | AsyncRead (delimiter : ascii) | AsyncSend (data : string)
| Send (data : string) | Read (delimiter : ascii) | Closes.
Definition operate (o : Operation) (s : TransportStream) : list Call :=
  match o with
  | ServerHandshake => async_server_handshake s
  | ClientHandshake => async_client_handshake s
  | BlockingClientHandshake => client_handshake s
  | AsyncRead d => async_read_until s d
  | AsyncSend data => async_write s data
  | Send data => write s data
  | Read d => read_until s d
  | Closes => close s
  end.

(** What moves application data, and over what. *)
Definition carries (c : Call) : option Channel :=
  match c with
  | AsyncReadUntil ch _ | AsyncWrite ch _ | BlockingWrite ch _ | BlockingReadUntil ch _ => Some ch
  | _ => None
  end.
Definition handshakes (c : Call) : bool := match c with AsyncHandshake _ | BlockingHandshake => true | _ => false end.

(** A stream made with a TLS context moves no data around TLS; one made without never
    uses TLS. Either way there is a socket under it. *)
Lemma stays_on_channel socket context os : let s := make_transport socket context in
  lowest_layer s = Some socket /\
  Forall (fun c => (forall ch, carries c = Some ch -> ch = match context with Some _ => OverTls | None => OverSocket end) /\
                   (handshakes c = true -> is_Some context)) (os ≫= fun o => operate o s).
Proof.
  cbn zeta. split; [by destruct context|]. apply list.Forall_forall. intros c (o & Hc & _)%list_elem_of_bind.
  revert c Hc. apply list.Forall_forall. destruct context as [context|], o; repeat constructor; cbn; try done; by intros ? [= <-].
Qed.
End stream.

(* ===================================================================== *)
(** * Contexts *)

Inductive ContextOption := default_workarounds | no_sslv2 | no_sslv3 | no_tlsv1 | no_tlsv1_1 | single_dh_use.
#[export] Instance ContextOption_eq_dec : EqDecision ContextOption.
Proof. solve_decision. Defined.
Inductive ContextCall :=
| SetOptions (l : list ContextOption)
| SetDefaultVerifyPaths
| LoadVerifyFile (path : string)
| VerifyPeer
| AcceptAfterHandshake        (* the callback of the verification, which is always [true] *)
| UseCertificateChainFile (path : string)
| UsePrivateKeyFile (path : string)
| CheckPrivateKey.

Section contexts.
Context `{OpenSSL}.

Definition configure_client_context (config : ClientConfig) : list ContextCall :=
  if negb (enabled config) then []
  else [SetOptions [default_workarounds; no_sslv2; no_sslv3; no_tlsv1; no_tlsv1_1];
        if sempty (ca_path config) then SetDefaultVerifyPaths else LoadVerifyFile (ca_path config);
        VerifyPeer; AcceptAfterHandshake].

(** The calls of [configure_server_context], up to the first that throws. *)
Definition server_context_calls (config : ServerConfig) : list ContextCall :=
  if negb (server_enabled config) then []
  else if sempty (certificate_path config) || sempty (private_key_path config) then []
  else [SetOptions [default_workarounds; no_sslv2; no_sslv3; no_tlsv1; no_tlsv1_1; single_dh_use];
        UseCertificateChainFile (certificate_path config); UsePrivateKeyFile (private_key_path config); CheckPrivateKey].

(** [prefix + ": " + detail], with what [ERR_get_error] and [ERR_error_string_n] give. *)
Definition openssl_error (prefix : string) (code : N) (detail : string) : string :=
  if (code =? 0)%N then prefix else prefix +:+ ": " +:+ detail.

(** The exception, if any; [accepted] is whether [SSL_set_tlsext_host_name] returns 1. *)
Definition set_server_name (host : string) (accepted : bool) (code : N) (detail : string) : option string :=
  if sempty host then None
  else if accepted then None else Some (openssl_error "Could not set TLS server name" code detail).

(** No version before TLS 1.2 is spoken on either side: whatever else a context is asked
    for comes after they were switched off. *)
Lemma old_protocols_off client server calls : calls = configure_client_context client \/ calls = server_context_calls server ->
  calls = [] \/ exists l rest, calls = SetOptions l :: rest /\ [no_sslv2; no_sslv3; no_tlsv1; no_tlsv1_1] ⊆ l.
Proof.
  unfold configure_client_context, server_context_calls.
  intros [-> | ->]; repeat case_match; try (by left); right; eexists _, _; (split; [reflexivity|set_solver]).
Qed.
End contexts.

