(* ===== verification/LogFile.v ===== *)
(** The log of a server as it is kept, [storage/chat_log.h]: a file that is appended to,
    and the standard output. [World.v] has the lines; here is what becomes of them. *)

From S2P Require Import Prelude Utils.
Local Open Scope string_scope.

Inductive Mode := ToFile | StdoutOnly.

(** [file_] is open or not; the disk, what was printed on the standard output and on the
    standard error, and the readings of the clock. *)
Record ChatLog := MkChatLog {
  path_ : string;
  mode_ : Mode;
  file_open : bool;
  disk : Files;
  cout : list string;
  cerr : list string;
  readings : nat;
}.

Section log.
Context `{Platform} `{Sodium}.

(** One line of the file. *)
Definition entry (reading : nat) (line : string) : string :=
  "[" +:+ timestamp reading +:+ "] " +:+ line +:+ String newline "".

Definition write (line : string) (log : ChatLog) : ChatLog :=
  MkChatLog (path_ log) (mode_ log) (file_open log)
    (if file_open log
     then <[path_ log := default "" (disk log !! path_ log) +:+ entry (readings log) line]> (disk log) else disk log)
    (cout log ++ ["[log] " +:+ line])%list (cerr log)
    (if file_open log then S (readings log) else readings log).

(** The constructor: [std::ios::app] makes the file when it is not there. *)
Definition open_chat_log (path : string) (mode : Mode) (files : Files) (reading : nat) : ChatLog :=
  let opens := match mode with ToFile => can_write path | StdoutOnly => false end in
  write "=== Server started ==="
    (MkChatLog path mode opens (if opens then <[path := default "" (files !! path)]> files else files) []
       (match mode with
        | ToFile => if opens then [] else ["[warn] Could not open log file: " +:+ path]
        | StdoutOnly => []
        end) reading).

(** The destructor. *)
Definition close_chat_log (log : ChatLog) : ChatLog :=
  let log := match mode_ log, file_open log with
             | StdoutOnly, _ | _, true => write "=== Server stopped ===" log
             | _, _ => log
             end in
  MkChatLog (path_ log) (mode_ log) false (disk log) (cout log) (cerr log) (readings log).

Fixpoint entries (reading : nat) (lines : list string) : string :=
  match lines with [] => "" | line :: lines => entry reading line +:+ entries (S reading) lines end.

Lemma writes_open lines : forall log, file_open log = true ->
  let log' := foldl (fun log line => write line log) log lines in
  file_open log' = true /\ path_ log' = path_ log /\ mode_ log' = mode_ log /\
  cout log' = (cout log ++ ((fun line => "[log] " +:+ line) <$> lines))%list /\
  default "" (disk log' !! path_ log) = default "" (disk log !! path_ log) +:+ entries (readings log) lines /\
  (forall p, p <> path_ log -> disk log' !! p = disk log !! p).
Proof.
  induction lines as [|line lines IH]; intros log Ho; cbn [foldl].
  { rewrite app_nil_r, sapp_nil_r. done. }
  destruct (IH (write line log)) as (A & B & C & D & E & F); [done|].
  split; [exact A|]. split; [exact B|]. split; [exact C|]. split.
  { rewrite D. cbn. by rewrite <- app_assoc. }
  cbn [write path_ disk readings] in *. rewrite Ho in *. split.
  - rewrite E, lookup_insert_eq. cbn [default entries]. apply sapp_assoc.
  - intros p Hp. rewrite F by done. by rewrite lookup_insert_ne.
Qed.

(** A log that opened its file has, after what was there, the start, every line that was
    written, in order and with its time, and the stop; the standard output has the
    same lines. *)
Lemma log_is_complete path files reading lines : can_write path = true ->
  let log := close_chat_log (foldl (fun log line => write line log) (open_chat_log path ToFile files reading) lines) in
  let all := ("=== Server started ===" :: lines ++ ["=== Server stopped ==="])%list in
  default "" (disk log !! path) = default "" (files !! path) +:+ entries reading all /\
  cout log = (fun line => "[log] " +:+ line) <$> all /\ cerr log = [].
Proof.
  intros Hw. cbn zeta. set (log0 := MkChatLog path ToFile true (<[path := default "" (files !! path)]> files) [] [] reading).
  assert (open_chat_log path ToFile files reading = write "=== Server started ===" log0) as -> by (unfold open_chat_log; by rewrite Hw).
  assert (forall l log, cerr (foldl (fun log line => write line log) log l) = cerr log) as Hcerr
    by (induction l as [|x l IH]; intros log; cbn [foldl]; [done|by rewrite IH]).
  change (foldl (fun log line => write line log) (write "=== Server started ===" log0) lines)
    with (foldl (fun log line => write line log) log0 ("=== Server started ===" :: lines)).
  set (log1 := foldl _ log0 _). destruct (writes_open ("=== Server started ===" :: lines) log0 eq_refl) as (Ho & _ & _ & _).
  fold log1 in Ho. unfold close_chat_log. rewrite Ho.
  assert (write "=== Server stopped ===" log1 = foldl (fun log line => write line log) log0
    ("=== Server started ===" :: lines ++ ["=== Server stopped ==="])) as E by (rewrite app_comm_cons, foldl_app; done).
  destruct (writes_open ("=== Server started ===" :: lines ++ ["=== Server stopped ==="])%list log0 eq_refl) as (_ & _ & _ & Hc & Hd & _).
  cbn [path_ log0 disk cout readings] in Hc, Hd. rewrite lookup_insert_eq in Hd. cbn [default] in Hd.
  assert (match mode_ log1 with StdoutOnly | _ => write "=== Server stopped ===" log1 end = write "=== Server stopped ===" log1) as ->
    by (by destruct (mode_ log1)).
  cbn [disk cout cerr]. rewrite E. split; [exact Hd|]. split; [exact Hc|]. by rewrite Hcerr.
Qed.
End log.
